(* ===== verification/_CoqProject ===== *)
-Q . S2P
Prelude.v
Flags.v
Config.v
Utils.v
Proto.v
Runtime.v
Play.v
Judgement.v
Samples.v
TechProfile.v
ResourceManager.v
WorkflowUtils.v
AttWorkflow.v
DtWorkflow.v
TtWorkflow.v
WorkflowManager.v
SubscriberManager.v
OnuManager.v
OltManager.v
Typing.v
Plan.v
Refinement.v
Termination.v
WaitGroups.v
Completion.v
Supply.v
FlowIds.v
Boot.v
ResourceInit.v
Startup.v
EndToEnd.v
Indications.v
Faults.v
Accounting.v
Outcomes.v
Traffic.v
Identity.v
IdPool.v
GemPorts.v
TechInstance.v
AllocIds.v
Process.v
Capacity.v
