(* ===== verification/Prelude.v ===== *)
(** * openolt-scale-tester: verification development

    The openolt-scale-tester drives an OpenOLT agent over gRPC: it activates
    many ONUs on every PON port of a device and provisions the subscribers of
    each with the schedulers, queues and flows of an operator's workflow (ATT,
    DT or TT).  This library models the program's own Go code (src/main.go,
    src/config, src/core) and proves what its components promise, up to the
    completion of the whole program under every interleaving of its goroutines;
    where the code does not do what it means to, the theorem states what it
    does.

    ** How the parts interact

    The packages register their loggers, [main] parses the command line and runs
    [OpenOltManager.Start], which dials the agent, loads technology profiles into etcd, makes one resource manager per
    PON, adds the trap flows of the NNI and starts [provisionONUs].  That
    goroutine works in batches: it takes an ONU id and a serial number for each
    ONU of the batch, starts [activateONU] for it and waits on a WaitGroup.
    [activateONU] sends one request and starts [OnuDevice.Start], which makes the
    subscribers of the ONU, starts [Subscriber.Start] for each and waits on a
    WaitGroup of its own.  [Subscriber.Start] creates the technology-profile
    instances and starts [DeployWorkflow], which runs the stages of the workflow
    and reports to the ONU's WaitGroup; the ONU then reports to the batch's.

    ** Files and the code they model

    - Prelude: integers of fixed width, decimal strings, bits, automation.
    - Flags: package flag of Go's standard library and the number formats of
      strconv.
    - Config: src/config/config.go and the use main.go makes of it: the flags,
      their setters and defaults, and the parsing of the command line.
    - Utils: src/core/utils.go (serial numbers, port numbers, VLAN tags) and the
      rendering of serial numbers of olt_manager.go; the package variables are
      the record [Globals].
    - Proto: the gRPC messages with the fields the program uses, status codes
      and errors.
    - Runtime: goroutines.  A function with effects is a [prog]: a tree of atomic
      operations on the store [World] (heap objects of onu_manager.go and
      subscriber_manager.go, resource managers, package variables, WaitGroups,
      requests sent), the [go] statement and panics.  [run] executes one
      goroutine, [step] interleaves a pool of them, [schedule] is an executable
      scheduler.
    - Play: a goroutine seen alone, on arbitrary answers; [steps_local] and
      [play_local] carry its theorems to every interleaving.
    - Samples: concrete inputs for the witnesses.
    - TechProfile: the accessors of voltha-lib-go's technology profiles.
    - ResourceManager, ResourceInit: src/core/resource_manager.go, its use and
      its construction.
    - WorkflowUtils: src/core/workflow_utils.go and the reason codes.
    - AttWorkflow, DtWorkflow, TtWorkflow: the three workflow files.
    - WorkflowManager, SubscriberManager, OnuManager, OltManager: the files of
      the same names; OltManager holds the provisioning half of olt_manager.go.
    - Boot, Startup: the start-up half of olt_manager.go, in a monad of its own.
    - Indications: the indication loop of olt_manager.go.
    - Plan, Refinement: the specification of a deployment, and the proof that the
      workflows implement it.
    - Termination, WaitGroups, Completion, EndToEnd: every interleaving ends, and
      ends well.
    - Supply: what the program needs of the profile managers to get there, the
      interface [Supplier]; an environment whose managers never fail has the same
      steps as long as the supply lasts.
    - FlowIds, Faults: flow ids along an execution; executions that go wrong.
    - Judgement: judgements on goroutines, as interface classes: a [Logic] says
      what an operation asks of the share a goroutine holds, [Sound] ties shares
      to the store, [Neutral] and [sends] deal with the code a logic ignores.
      Typing (wire types of requests), Accounting and Outcomes (what the signal
      that ends the process means), Traffic (how many requests a run sends) and
      Identity (keys of ONUs) are its instances, with GemPorts and AllocIds.
    - IdPool: the pools of ids of voltha-lib-go's resource manager and of
      go-bitmap, on a store that may fail.
    - GemPorts: the gem ports of the subscribers' profile instances, against the
      interface [FreshGemPorts] of a library that hands out fresh ones.
    - TechInstance: the creation of technology-profile instances in voltha-lib-go,
      on the pools of IdPool; with it the library implements [FreshOnuIds] of
      Identity and [FreshGemPorts].
    - AllocIds: the alloc ids of profile instances, against the interface
      [FreshAllocIds], which the library implements too; the instances of an ONU
      may share one, so the invariant carries a map from ids to their owners.
    - Process: src/main.go and the [init] functions of the packages; the process
      with its signals, on top of Startup, EndToEnd and Outcomes.
    - Capacity: pools with room for a run make the library a [Supplier].

    ** What the theorems show

    - The abstract specification of a deployment is a plan (Plan.v): a list of
      groups of requests.  [deploy_refines_plan]: the code of each workflow
      behaves as its plan, on every answer of the agent; [deploy_interleaved]:
      so it does inside any interleaving.  [multicast_refines]: the same for the
      multicast calls.
    - [provisioning_completes], [program_completes]: with an agent that activates
      every ONU and profile managers that can supply the instances of the run,
      provisioning, and the program from its start-up, complete under every
      scheduler: no panic, no deadlock, no infinite execution.  The proof gives every goroutine a
      judgement (WaitGroups.v) in which it owes one [Done] to each WaitGroup that
      counts it, and may wait only on WaitGroups above those it owes.
      [refusal_never_ends]: conversely, in any environment, one refused
      activation keeps the process from ever being told to stop.
    - [clean_exit], [process_ends], [library_process_ends], [start_error_waits]: the
      same for the whole process, and with voltha-lib-go and its pools underneath,
      when they have room for the run.  Exit status 0 means that everything was provisioned, whatever the
      environment, unless a goroutine has panicked, whose deferred calls run before
      the process ends and may lead to the signal (Outcomes.v counts ONUs, subscribers and outcomes along any
      execution, and shows that no ONU is missing unless the resource manager
      refused an id); when nothing fails the process ends; an error of [Start] is
      lost.  [early_outcome]: what happens to the process before [Start] runs, for
      every list of arguments and every behaviour of the loggers.
    - [command_line_roundtrip]: a configuration written as arguments, in any of
      the syntaxes of package flag, is read back, the last value of each flag
      winning; [command_line_errors]: which arguments end the process, and how.
    - [onu_keys_unique]: no two activations name the same ONU, with the pools of
      the library underneath; [gem_ports_unique]: no two profile instances of a
      PON share a gem port, the same way; [alloc_ids_unique]: an alloc id of a PON is
      that of one ONU and one profile; [CreateTechProfileInstance_spec]: the
      creation of an instance, on every branch; [generate_ids_spec],
      [release_generate], [pool_capacity]: the pools.  [requests_typed]: every request fits its
      wire types.
    - [activateONU_spec], [OnuDevice_Start_spec], [Subscriber_Start_spec],
      [even_distribution]: each operation of the managers, on every branch.
      [requests_bounded]: how many requests provisioning sends at most.
    - [tags_unique], [flow_ids_unique], [serials_unique],
      [MkUniPortNum_roundtrip]: identifiers are distinct within the ranges the
      code allows for; [MkUniPortNum_collision] and [serial_collision] show that
      they collide outside.
    - [retry_bounded], [flow_retry_spec], [build_pbitToGem_spec]: retry loops and
      p-bit maps.  [start_services_spec], [NewResourceMgr_spec],
      [readAndLoad_spec], [resource_ranges_spec]: start-up.
      [readIndications_spec]: indications.  [ProvisionNniTrapFlow_spec]: trap
      flows.  [GetTpIDList_roundtrip], [GetTpIDList_tokens]: profile ids.
      [GetTrafficQueues_reference]: the queues of a profile.
    - [failure_hangs], [batch_index_crash], [multicast_scheduler_race],
      [DeployWorkflow_panics]: failures the code does not handle.

    ** Bounds and fuel

    [halving_loop] has fuel 5: the batch size starts at 4 and halves, and
    [even_distribution] gives its result for every input.  The retry loops
    count down from the source's 20.  [random_mac] counts down from the size of
    the address.  The indication loop never ends by itself: [readIndications]
    takes a number of turns, and its theorem holds of each.  Loops over a counter are
    [for_each] over [seqZ].  Unsigned integers are [Z] with [u8], [u32], [u64]
    written where the code converts or overflows.

    ** What is not modelled

    What is logged; the banner of main.go; the usage text package flag prints;
    contexts and timeouts, which the code never sets; the delays between retries.
    gRPC, etcd, files, JSON and the back-off are third-party: they are the
    parameters [Env], [BootEnv] and those of Indications, with any behaviour
    unless a theorem says otherwise.  So is, in most theorems, the creation of
    technology-profile instances; TechInstance models it for the technologies
    other than EPON, as one step of the program, without the deletion and the
    reconciliation of instances.  Of the PON resource manager IdPool models the
    pools; its ranges and the sharing of managers stay behind [BootEnv].  The
    memory model is sequentially consistent: every access to shared memory is one
    atomic step of [exec].  The set-up of the services is one step of the process,
    since it shares nothing with the rest.  A crash of the goroutine that reads
    indications, which shares nothing either, is not among the steps of Process.
    After a panic, what the other goroutines still do until the process ends is
    reduced to the signal that may come of it.
    The elapsed times that are only logged are not kept. *)

From stdpp Require Export base tactics option list list_numbers gmap strings pretty.
From Stdlib Require Export ZArith Lia.
From Stdlib Require Import Ascii.

#[global] Open Scope Z_scope.

(** ** Machine integers *)

Declare Scope go_scope.
Delimit Scope go_scope with go.

(** Conversion to Go's [uint32], [uint64], [uint8] and [int32]. *)
Definition u8 (z : Z) : Z := z mod 2 ^ 8.
Definition u32 (z : Z) : Z := z mod 2 ^ 32.
Definition u64 (z : Z) : Z := z mod 2 ^ 64.
Definition i32 (z : Z) : Z :=
  let m := u32 z in if m <? 2 ^ 31 then m else m - 2 ^ 32.
Definition i64 (z : Z) : Z :=
  let m := u64 z in if m <? 2 ^ 63 then m else m - 2 ^ 64.

Notation "x '+u32' y" := (u32 (x + y)) (at level 50, left associativity) : go_scope.
Notation "x '-u32' y" := (u32 (x - y)) (at level 50, left associativity) : go_scope.

(** [is_u32 z]: [z] is the value of a [uint32] variable. *)
Definition is_u32 (z : Z) : Prop := 0 <= z < 2 ^ 32.
Definition is_u64 (z : Z) : Prop := 0 <= z < 2 ^ 64.
Definition is_u8 (z : Z) : Prop := 0 <= z < 2 ^ 8.
Definition is_i32 (z : Z) : Prop := - 2 ^ 31 <= z < 2 ^ 31.

(** ** Strings *)

(** [strconv.Itoa], and [fmt.Sprint] on an [int]: decimal digits, with a leading
    minus sign for a negative number. *)
Definition Itoa (z : Z) : string := pretty z.

(** [strings.TrimPrefix]. *)
Definition TrimPrefix (s prefix : string) : string :=
  if String.prefix prefix s
  then String.substring (String.length prefix) (String.length s - String.length prefix) s
  else s.

(** Every byte of [s] satisfies [P]. *)
Fixpoint str_all (P : ascii -> bool) (s : string) : bool :=
  match s with
  | EmptyString => true
  | String c s' => P c && str_all P s'
  end.

(** The value of an ASCII decimal digit. *)
Definition digit_val (c : ascii) : option Z :=
  let n := Z.of_N (N_of_ascii c) in
  if (48 <=? n) && (n <=? 57) then Some (n - 48) else None.

Definition is_digit (c : ascii) : bool :=
  match digit_val c with Some _ => true | None => false end.

(** The value of a string of decimal digits, continuing from [acc]. *)
Fixpoint parse_digits (s : string) (acc : Z) : option Z :=
  match s with
  | EmptyString => Some acc
  | String c s' =>
      match digit_val c with
      | Some d => parse_digits s' (acc * 10 + d)
      | None => None
      end
  end.

(** ** Automation *)

Create HintDb go_ints.
Create Rewrite HintDb go_ints.

(** Opens the comparisons of the goal and of the hypotheses to [lia]. *)
Ltac zbool :=
  repeat match goal with
  | H : context [Z.ltb ?x ?y] |- _ => destruct (Z.ltb_spec x y)
  | H : context [Z.leb ?x ?y] |- _ => destruct (Z.leb_spec x y)
  | H : context [Z.eqb ?x ?y] |- _ => destruct (Z.eqb_spec x y)
  | |- context [Z.ltb ?x ?y] => destruct (Z.ltb_spec x y)
  | |- context [Z.leb ?x ?y] => destruct (Z.leb_spec x y)
  | |- context [Z.eqb ?x ?y] => destruct (Z.eqb_spec x y)
  end.

Lemma u32_range z : 0 <= u32 z < 2 ^ 32.
Proof. apply Z.mod_pos_bound. lia. Qed.
Lemma u64_range z : 0 <= u64 z < 2 ^ 64.
Proof. apply Z.mod_pos_bound. lia. Qed.
Lemma u8_range z : 0 <= u8 z < 2 ^ 8.
Proof. apply Z.mod_pos_bound. lia. Qed.
Lemma i32_range z : - 2 ^ 31 <= i32 z < 2 ^ 31.
Proof. unfold i32. pose proof (u32_range z). zbool; lia. Qed.
Lemma u32_small z : 0 <= z < 2 ^ 32 -> u32 z = z.
Proof. apply Z.mod_small. Qed.
Lemma u64_small z : 0 <= z < 2 ^ 64 -> u64 z = z.
Proof. apply Z.mod_small. Qed.
Lemma u32_idemp z : u32 (u32 z) = u32 z.
Proof. apply u32_small, u32_range. Qed.
Lemma u64_idemp z : u64 (u64 z) = u64 z.
Proof. apply u64_small, u64_range. Qed.
Lemma u64_add_l a b : u64 (u64 a + b) = u64 (a + b).
Proof. unfold u64. by rewrite Zplus_mod_idemp_l. Qed.
Lemma u32_add_l a b : u32 (u32 a + b) = u32 (a + b).
Proof. unfold u32. by rewrite Zplus_mod_idemp_l. Qed.

#[export] Hint Resolve u8_range u32_range u64_range i32_range : go_ints.
#[export] Hint Rewrite u32_idemp u64_idemp u64_add_l u32_add_l : go_ints.

Lemma decide_not {A} (P : Prop) {dP : Decision P} {dN : Decision (~ P)} (a b : A) :
  (if decide (~ P) then a else b) = (if decide P then b else a).
Proof. by repeat case_decide. Qed.

(** ** Decimal strings *)

Lemma str_all_app P s t : str_all P (s +:+ t) = str_all P s && str_all P t.
Proof. induction s as [|c s IH]; simpl; [done|]. by rewrite IH, andb_assoc. Qed.

Lemma str_all_impl P Q s :
  (forall c, P c = true -> Q c = true) -> str_all P s = true -> str_all Q s = true.
Proof.
  intros HPQ. induction s as [|c s IH]; simpl; [done|].
  intros [HP HS]%andb_prop. by rewrite (HPQ c HP), IH.
Qed.

Lemma digit_val_pretty x : (x < 10)%N -> digit_val (pretty_N_char x) = Some (Z.of_N x).
Proof.
  intros Hx.
  assert (x = 0 \/ x = 1 \/ x = 2 \/ x = 3 \/ x = 4 \/ x = 5 \/ x = 6 \/ x = 7
    \/ x = 8 \/ x = 9)%N as H by lia.
  destruct_or! H; by subst.
Qed.

Lemma is_digit_pretty x : (x < 10)%N -> is_digit (pretty_N_char x) = true.
Proof. intros Hx. unfold is_digit. by rewrite digit_val_pretty. Qed.

Lemma pretty_N_go_digits x s :
  str_all is_digit s = true -> str_all is_digit (pretty_N_go x s) = true.
Proof.
  revert s. induction (N.lt_wf_0 x) as [x _ IH]; intros s Hs.
  assert (x = 0 \/ 0 < x)%N as [->|Hx] by lia; [by rewrite pretty_N_go_0|].
  rewrite pretty_N_go_step by done. apply IH; [by apply N.div_lt|].
  simpl. rewrite is_digit_pretty by (apply N.mod_lt; lia). done.
Qed.

Lemma parse_digits_pretty x s acc :
  acc = 0 -> parse_digits (pretty_N_go x s) acc = parse_digits s (Z.of_N x).
Proof.
  intros ->. revert s. induction (N.lt_wf_0 x) as [x _ IH]; intros s.
  assert (x = 0 \/ 0 < x)%N as [->|Hx] by lia; [by rewrite pretty_N_go_0|].
  rewrite pretty_N_go_step by done. rewrite IH by (by apply N.div_lt).
  simpl. rewrite digit_val_pretty by (apply N.mod_lt; lia).
  f_equal. rewrite N2Z.inj_div, N2Z.inj_mod by lia.
  pose proof (Z.div_mod (Z.of_N x) 10). lia.
Qed.

(** The decimal rendering of a natural number: a digit string that parses back. *)
Lemma pretty_N_spec x :
  exists c s, pretty x = String c s /\ str_all is_digit (String c s) = true
    /\ parse_digits (String c s) 0 = Some (Z.of_N x).
Proof.
  unfold pretty, pretty_N. case_decide as Hx; [by subst; eexists _, _|].
  assert (Hd : str_all is_digit (pretty_N_go x "") = true) by by apply pretty_N_go_digits.
  assert (Hp : parse_digits (pretty_N_go x "") 0 = Some (Z.of_N x))
    by by rewrite parse_digits_pretty.
  destruct (pretty_N_go x "") as [|c s] eqn:E; [|by eexists _, _].
  simpl in Hp. simplify_eq. lia.
Qed.

(** ** Bits *)

Lemma land_shift_low a u n : 0 <= n -> 0 <= u < 2 ^ n -> Z.land (a * 2 ^ n) u = 0.
Proof.
  intros Hn Hu. apply Z.bits_inj'. intros i Hi. rewrite Z.land_spec, Z.bits_0.
  destruct (decide (i < n)).
  - by rewrite Z.mul_pow2_bits_low.
  - rewrite <-(Z.mod_small u (2 ^ n)) by done.
    rewrite Z.mod_pow2_bits_high by lia. apply andb_false_r.
Qed.

(** An [or] of fields that do not overlap is their sum. *)
Lemma lor_shift_add a u n : 0 <= n -> 0 <= u < 2 ^ n -> Z.lor (a * 2 ^ n) u = a * 2 ^ n + u.
Proof. intros Hn Hu. symmetry. apply Z.add_nocarry_lor. by apply land_shift_low. Qed.

(** An [or] of values of a width is of that width. *)
Lemma lor_range a b n : 0 <= n -> 0 <= a < 2 ^ n -> 0 <= b < 2 ^ n -> 0 <= Z.lor a b < 2 ^ n.
Proof.
  intros Hn Ha Hb. assert (Z.lor a b mod 2 ^ n = Z.lor a b) as <-.
  { apply Z.bits_inj'. intros i Hi. rewrite Z.testbit_mod_pow2, !Z.lor_spec by done.
    destruct (Z.ltb_spec i n) as [|Hin]; [done|cbn]. symmetry. apply orb_false_iff.
    split; [rewrite <-(Z.mod_small a (2 ^ n)) by done|rewrite <-(Z.mod_small b (2 ^ n)) by done];
      by apply Z.mod_pow2_bits_high. }
  apply Z.mod_pos_bound. lia.
Qed.

Lemma u32_inj_shift a b k : is_u32 a -> is_u32 b -> u32 (a + k) = u32 (b + k) -> a = b.
Proof.
  unfold is_u32, u32. intros Ha Hb H.
  rewrite (Z.div_mod (a + k) (2 ^ 32)), (Z.div_mod (b + k) (2 ^ 32)) in H by lia.
  pose proof (Z.div_mod (a + k) (2 ^ 32)). pose proof (Z.div_mod (b + k) (2 ^ 32)).
  rewrite <-!Z.div_mod in H by lia.
  assert ((a + k) / 2 ^ 32 - (b + k) / 2 ^ 32 = 0) by nia. nia.
Qed.

Lemma str_app_assoc (s t u : string) : s +:+ t +:+ u = (s +:+ t) +:+ u.
Proof.
  induction s as [|c s IH]; [done|].
  change (String c (s +:+ t +:+ u) = String c ((s +:+ t) +:+ u)). by f_equal.
Qed.

(** Rendering [10 x + d] appends one digit. *)
Lemma pretty_N_go_app x s : pretty_N_go x s = pretty_N_go x "" +:+ s.
Proof.
  revert s. induction (N.lt_wf_0 x) as [x _ IH]; intros s.
  assert (x = 0 \/ 0 < x)%N as [->|Hx] by lia; [by rewrite !pretty_N_go_0|].
  rewrite !(pretty_N_go_step x) by done.
  assert (x `div` 10 < x)%N as Hlt by by apply N.div_lt.
  rewrite (IH _ Hlt (String _ s)), (IH _ Hlt (String _ "")).
  by rewrite <-str_app_assoc.
Qed.

Lemma Itoa_snoc x d :
  0 < x -> 0 <= d < 10 ->
  Itoa (10 * x + d) = Itoa x +:+ String (pretty_N_char (Z.to_N d)) "".
Proof.
  intros Hx Hd. destruct x as [|x|x]; [lia| |lia].
  destruct (10 * Z.pos x + d) as [|y|y] eqn:E; [lia| |lia].
  unfold Itoa, pretty, pretty_Z, pretty, pretty_positive, pretty, pretty_N.
  rewrite !decide_False by done. rewrite <-pretty_N_go_app.
  rewrite (pretty_N_go_step (N.pos y)) by done.
  assert (N.pos y = 10 * N.pos x + Z.to_N d)%N as -> by lia.
  rewrite N.mul_comm, N.div_add_l, N.div_small, N.add_0_r by lia.
  by rewrite N.add_comm, N.Div0.mod_add, N.mod_small by lia.
Qed.

Lemma Itoa_digit d : 0 < d < 10 -> Itoa d = String (pretty_N_char (Z.to_N d)) "".
Proof.
  intros Hd. assert (d = 1 \/ d = 2 \/ d = 3 \/ d = 4 \/ d = 5 \/ d = 6 \/ d = 7 \/ d = 8 \/ d = 9)
    as H by lia.
  destruct_or! H; by subst.
Qed.

(** ** Lists *)

(** The element at [i] first, and what replaces it. *)
Lemma insert_app_perm {A} (l : list A) i x y l' :
  l !! i = Some x -> exists l0, l ≡ₚ x :: l0 /\ <[i := y]> l ++ l' ≡ₚ y :: l' ++ l0.
Proof.
  intros (l1 & l2 & -> & ->)%list_elem_of_split_length. exists (l1 ++ l2).
  split; [by rewrite Permutation_middle|].
  rewrite insert_app_r_alt, Nat.sub_diag by lia. cbn.
  rewrite <-app_assoc, <-app_comm_cons, <-Permutation_middle. f_equiv.
  by rewrite (app_assoc l1), Permutation_app_comm.
Qed.
