(* ===== verification/Flags.v ===== *)
(** * Flags: Go's package [flag] and the number formats of [strconv]

    [Parse] is [flag.Parse] on the flag set of the command line, whose errors
    end the process: a flag stores its value in a state of type [S], the struct
    the program binds its flags to.  [ParseUint], [ParseInt] and [ParseBool] are
    the functions of [strconv] that read the values, in base 0: the prefix of a
    number gives its base, and underscores may separate digits. *)
From S2P Require Import Prelude.
From Stdlib Require Import Ascii.

(** ** Numbers *)

(** [lower] of [strconv]: sets the bit of lower case. *)
Definition lower (c : ascii) : Z := Z.lor (Z.of_N (N_of_ascii c)) 32.

(** A digit of a base up to 36. *)
Definition base_digit (c : ascii) : option Z :=
  match digit_val c with
  | Some d => Some d
  | None => if (97 <=? lower c) && (lower c <=? 122) then Some (lower c - 87) else None
  end.

(** The prefix of a number in base 0: its base and what follows. *)
Definition number_base (s : string) : Z * string :=
  match s with
  | String "0" (String c (String _ _ as rest)) =>
      if lower c =? 98 then (2, rest)
      else if lower c =? 111 then (8, rest)
      else if lower c =? 120 then (16, rest)
      else (8, String c rest)
  | String "0" rest => (8, rest)
  | _ => (10, s)
  end.

(** The loop over the digits; it fails on a byte that is no digit of the base
    and as soon as the number exceeds [max].  Underscores are skipped. *)
Fixpoint base_digits (base max : Z) (s : string) (n : Z) : option Z :=
  match s with
  | EmptyString => Some n
  | String c s' =>
      if ascii_dec c "_" then base_digits base max s' n
      else match base_digit c with
           | None => None
           | Some d =>
               if base <=? d then None
               else let n1 := n * base + d in
                    if max <? n1 then None else base_digits base max s' n1
           end
  end.

(** What [underscoreOK] has seen last. *)
Inductive Saw := SawStart | SawDigit | SawUnderscore | SawOther.

Fixpoint underscore_loop (hex : bool) (s : string) (saw : Saw) : bool :=
  match s with
  | EmptyString => match saw with SawUnderscore => false | _ => true end
  | String c s' =>
      if is_digit c || (hex && (97 <=? lower c) && (lower c <=? 102))
      then underscore_loop hex s' SawDigit
      else if ascii_dec c "_"
           then match saw with SawDigit => underscore_loop hex s' SawUnderscore | _ => false end
           else match saw with SawUnderscore => false | _ => underscore_loop hex s' SawOther end
  end.

(** Underscores must separate digits; a base prefix counts as a digit.  The
    optional sign has been removed by [ParseInt], and [ParseUint] refuses it. *)
Definition underscoreOK (s : string) : bool :=
  match s with
  | String "0" (String c rest) =>
      if (lower c =? 98) || (lower c =? 111) || (lower c =? 120)
      then underscore_loop (lower c =? 120) rest SawDigit
      else underscore_loop false s SawStart
  | _ => underscore_loop false s SawStart
  end.

(** [strconv.ParseUint s 0 64]; [None] is a non-nil error.  Without underscores
    [underscoreOK] holds, so it can be asked of every number. *)
Definition ParseUint (s : string) : option Z :=
  match s with
  | EmptyString => None
  | _ => let (base, digits) := number_base s in
         match base_digits base (2 ^ 64 - 1) digits 0 with
         | Some n => if underscoreOK s then Some n else None
         | None => None
         end
  end.

(** [strconv.ParseInt s 0 64]. *)
Definition ParseInt (s : string) : option Z :=
  let signed (neg : bool) (s : string) :=
    match ParseUint s with
    | Some un => if neg then (if 2 ^ 63 <? un then None else Some (- un))
                 else (if 2 ^ 63 <=? un then None else Some un)
    | None => None
    end in
  match s with
  | EmptyString => None
  | String c s' => if ascii_dec c "+" then signed false s'
                   else if ascii_dec c "-" then signed true s'
                   else signed false s
  end.

Definition ParseBool (s : string) : option bool :=
  if bool_decide (s ∈ ["1"; "t"; "T"; "true"; "TRUE"; "True"]) then Some true
  else if bool_decide (s ∈ ["0"; "f"; "F"; "false"; "FALSE"; "False"]) then Some false
  else None.

(** ** The command line *)

(** What an argument is to [parseOne]. *)
Inductive Argument :=
  | Positional                                  (* ends the flags, and stays *)
  | Terminator                                  (* [--]: ends the flags *)
  | BadSyntax
  | FlagArg (name : string) (value : option string).

(** The name and the value of a flag, from its first [=] on; [=] is not looked
    for in the first byte. *)
Fixpoint cut_value (s : string) : string * option string :=
  match s with
  | EmptyString => (EmptyString, None)
  | String c s' => if ascii_dec c "=" then (EmptyString, Some s')
                   else let (name, value) := cut_value s' in (String c name, value)
  end.

Definition flag_of (name : string) : Argument :=
  match name with
  | EmptyString => BadSyntax
  | String c s => if ascii_dec c "-" then BadSyntax
                  else if ascii_dec c "=" then BadSyntax
                  else let (n, value) := cut_value s in FlagArg (String c n) value
  end.

Definition argument (s : string) : Argument :=
  match s with
  | String "-" (String c rest) =>
      if ascii_dec c "-"
      then match rest with EmptyString => Terminator | _ => flag_of rest end
      else flag_of (String c rest)
  | _ => Positional
  end.

(** The outcome of [flag.Parse]: the state and the remaining arguments, or the
    status the process exits with. *)
Inductive Parsed (S : Type) :=
  | ParsedArgs (st : S) (rest : list string)
  | ParseExit (status : Z).
Arguments ParsedArgs {S}.
Arguments ParseExit {S}.

Section flag_set.
Context {S : Type}.

(** [fl_Set] is the [Set] of the flag's value, on the variable it is bound to;
    [None] is a non-nil error. *)
Record Flag := {
  fl_isBool : bool;
  fl_Set : string -> S -> option S;
}.

Definition StringFlag (put : string -> S -> S) : Flag :=
  {| fl_isBool := false; fl_Set := fun s st => Some (put s st) |}.
Definition UintFlag (put : Z -> S -> S) : Flag :=
  {| fl_isBool := false; fl_Set := fun s st => (fun v => put v st) <$> ParseUint s |}.
Definition IntFlag (put : Z -> S -> S) : Flag :=
  {| fl_isBool := false; fl_Set := fun s st => (fun v => put v st) <$> ParseInt s |}.
Definition BoolFlag (put : bool -> S -> S) : Flag :=
  {| fl_isBool := true; fl_Set := fun s st => (fun v => put v st) <$> ParseBool s |}.

(** The registered flags. *)
Variable formal : string -> option Flag.

Fixpoint Parse (arguments : list string) (st : S) : Parsed S :=
  match arguments with
  | [] => ParsedArgs st []
  | s :: args =>
      match argument s with
      | Positional => ParsedArgs st (s :: args)
      | Terminator => ParsedArgs st args
      | BadSyntax => ParseExit 2
      | FlagArg name value =>
          match formal name with
          | None => ParseExit (if bool_decide (name = "help" \/ name = "h") then 0 else 2)
          | Some f =>
              if fl_isBool f then
                match fl_Set f (default "true" value) st with
                | Some st' => Parse args st'
                | None => ParseExit 2
                end
              else match value with
              | Some v => match fl_Set f v st with Some st' => Parse args st' | None => ParseExit 2 end
              | None =>
                  match args with
                  | v :: args' => match fl_Set f v st with Some st' => Parse args' st' | None => ParseExit 2 end
                  | [] => ParseExit 2
                  end
              end
          end
      end
  end.

(** ** Writing a command line *)

(** The ways to write a flag: [-name=value], [-name value], or [-name] alone for a
    boolean flag that is set; each with one dash or two. *)
Inductive Style := Joined | Separate | Bare.

Record Given := {
  gv_double : bool;
  gv_style : Style;
  gv_name : string;
  gv_value : string;
}.

Definition render (g : Given) : list string :=
  let dashed := (if gv_double g then "--" else "-") +:+ gv_name g in
  match gv_style g with
  | Joined => [dashed +:+ "=" +:+ gv_value g]
  | Separate => [dashed; gv_value g]
  | Bare => [dashed]
  end.

(** The styles a flag can be written in. *)
Definition styled (f : Flag) (g : Given) : bool :=
  match gv_style g with
  | Joined => true
  | Separate => negb (fl_isBool f)
  | Bare => fl_isBool f && bool_decide (gv_value g = "true")
  end.

End flag_set.
Arguments Flag : clear implicits.

(** ** Lemmas: numbers *)

Lemma digit_val_range c d : digit_val c = Some d -> 0 <= d < 10.
Proof.
  unfold digit_val. cbv zeta. destruct (_ && _) eqn:E; [|done]. intros [= <-].
  apply andb_prop in E as [?%Z.leb_le ?%Z.leb_le]. lia.
Qed.

Lemma base_digit_nonneg c d : base_digit c = Some d -> 0 <= d.
Proof.
  unfold base_digit. destruct (digit_val c) as [d'|] eqn:E.
  - intros [= <-]. apply digit_val_range in E. lia.
  - destruct (_ && _) eqn:E1; [|done]. intros [= <-].
    apply andb_prop in E1 as [?%Z.leb_le _]. lia.
Qed.

Lemma base_digits_range base max s n v :
  0 <= base -> 0 <= n <= max -> base_digits base max s n = Some v -> 0 <= v <= max.
Proof.
  intros Hb. revert n. induction s as [|c s IH]; intros n Hn; cbn [base_digits]; [by intros [= <-]|].
  destruct (ascii_dec c "_"); [by apply IH|].
  destruct (base_digit c) as [d|] eqn:Hd; [|done]. apply base_digit_nonneg in Hd.
  zbool; try done. apply IH. nia.
Qed.

Lemma number_base_nonneg s : 0 <= (number_base s).1.
Proof. unfold number_base. repeat case_match; simpl; lia. Qed.

(** A number that is read fits its type. *)
Lemma ParseUint_range s v : ParseUint s = Some v -> 0 <= v < 2 ^ 64.
Proof.
  unfold ParseUint. destruct s as [|c s]; [done|]. pose proof (number_base_nonneg (String c s)) as Hb.
  destruct (number_base _) as [base ds]. destruct (base_digits _ _ _ _) as [n|] eqn:E; [|done].
  apply base_digits_range in E; [|done|lia]. destruct (underscoreOK _); [|done]. intros [= <-]. lia.
Qed.

Lemma ParseInt_range s v : ParseInt s = Some v -> - 2 ^ 63 <= v < 2 ^ 63.
Proof.
  unfold ParseInt. intros Hs.
  repeat case_match; simplify_eq; repeat match goal with H : ParseUint _ = Some _ |- _ => apply ParseUint_range in H end;
    zbool; try done; lia.
Qed.

Lemma parse_digits_mono s n v : 0 <= n -> parse_digits s n = Some v -> n <= v.
Proof.
  revert n. induction s as [|c s IH]; intros n Hn; cbn [parse_digits]; [by intros [= <-]|].
  destruct (digit_val c) as [d|] eqn:Hd; [|done]. apply digit_val_range in Hd.
  intros Hv. apply IH in Hv; lia.
Qed.

Lemma digit_val_not_underscore c d : digit_val c = Some d -> c <> "_"%char.
Proof. intros Hc ->. by vm_compute in Hc. Qed.

(** In base 10 the loop reads decimal digits, up to the largest number. *)
Lemma base_digits_decimal max s n v :
  0 <= n <= max -> parse_digits s n = Some v ->
  base_digits 10 max s n = if v <=? max then Some v else None.
Proof.
  revert n. induction s as [|c s IH]; intros n Hn; cbn [parse_digits base_digits].
  - intros [= <-]. by rewrite (proj2 (Z.leb_le n max)) by lia.
  - destruct (digit_val c) as [d|] eqn:Hd; [|done]. intros Hv.
    destruct (ascii_dec c "_") as [->|_]; [by vm_compute in Hd|].
    pose proof (digit_val_range _ _ Hd) as Hr. unfold base_digit. rewrite Hd.
    apply parse_digits_mono in Hv as Hle; [|lia].
    rewrite (proj2 (Z.leb_gt 10 d)) by lia. destruct (Z.ltb_spec max (n * 10 + d)).
    + by rewrite (proj2 (Z.leb_gt v max)) by lia.
    + apply IH; [lia|done].
Qed.

Lemma underscore_loop_digits hex s saw :
  saw <> SawUnderscore -> str_all is_digit s = true -> underscore_loop hex s saw = true.
Proof.
  revert saw. induction s as [|c s IH]; intros saw Hs; cbn [str_all underscore_loop]; [by destruct saw|].
  intros [Hc Hd]%andb_prop. rewrite Hc. by apply IH.
Qed.

Lemma pretty_N_go_head x s :
  (0 < x)%N -> exists c s', pretty_N_go x s = String c s' /\ c <> "0"%char.
Proof.
  revert s. induction (N.lt_wf_0 x) as [x _ IH]; intros s Hx. rewrite pretty_N_go_step by done.
  destruct (decide (0 < x `div` 10)%N) as [Hd|Hd]; [apply IH; [by apply N.div_lt|done]|].
  assert (x `div` 10 = 0)%N as Hz by by apply N.le_0_r, N.nlt_ge. rewrite Hz, pretty_N_go_0. eexists _, _. split; [done|].
  apply N.div_small_iff in Hz; [|done]. rewrite N.mod_small by done.
  assert (x = 1 \/ x = 2 \/ x = 3 \/ x = 4 \/ x = 5 \/ x = 6 \/ x = 7 \/ x = 8 \/ x = 9)%N as H by lia.
  destruct_or! H; by subst.
Qed.

(** A decimal number is read back, as far as it fits: it has no prefix and no
    leading zero. *)
Lemma ParseUint_pretty x :
  ParseUint (pretty x) = if Z.of_N x <? 2 ^ 64 then Some (Z.of_N x) else None.
Proof.
  destruct (decide (x = 0)%N) as [->|Hn]; [by vm_compute|].
  destruct (pretty_N_spec x) as (c & s & Hc & Hd & Hp).
  assert (c <> "0"%char) as H0.
  { unfold pretty, pretty_N in Hc. rewrite decide_False in Hc by done.
    destruct (pretty_N_go_head x "" ltac:(lia)) as (c' & s' & Hc' & ?). by rewrite Hc' in Hc; simplify_eq. }
  rewrite Hc. unfold ParseUint.
  assert (number_base (String c s) = (10, String c s)) as ->.
  { unfold number_base. by destruct c as [[][][][][][][][]]. }
  rewrite (base_digits_decimal (2 ^ 64 - 1) _ 0 _ ltac:(done) Hp).
  assert (underscoreOK (String c s) = underscore_loop false (String c s) SawStart) as ->.
  { unfold underscoreOK. by destruct c as [[][][][][][][][]]. }
  rewrite underscore_loop_digits by done.
  destruct (Z.leb_spec (Z.of_N x) (2 ^ 64 - 1)); destruct (Z.ltb_spec (Z.of_N x) (2 ^ 64)); done || lia.
Qed.

Lemma ParseUint_Itoa z : is_u64 z -> ParseUint (Itoa z) = Some z.
Proof.
  intros [Hz Hm]. destruct z as [|p|p]; [done| |lia]. etrans; [apply (ParseUint_pretty (Npos p))|].
  by rewrite (proj2 (Z.ltb_lt _ _)).
Qed.

Lemma ParseUint_Itoa_none z : ~ is_u64 z -> ParseUint (Itoa z) = None.
Proof.
  intros Hz. destruct z as [|p|p]; [by destruct Hz| |done].
  etrans; [apply (ParseUint_pretty (Npos p))|]. unfold is_u64 in Hz. destruct (Z.ltb_spec (Z.of_N (N.pos p)) (2 ^ 64)); simpl in *; [lia|done].
Qed.

Lemma ParseInt_Itoa z :
  ParseInt (Itoa z) = if bool_decide (- 2 ^ 63 <= z < 2 ^ 63) then Some z else None.
Proof.
  destruct z as [|p|p]; [done| |]; pose proof (ParseUint_pretty (Npos p)) as Hp;
    unfold Itoa, pretty, pretty_Z, pretty_positive in *; unfold pretty in *.
  - destruct (pretty_N_spec (Npos p)) as (c & s & Hc & Hd & _). unfold pretty in Hc.
    rewrite Hc in *. simpl in Hd. apply andb_prop in Hd as [Hd _].
    unfold ParseInt. destruct (ascii_dec c "+") as [->|]; [by vm_compute in Hd|].
    destruct (ascii_dec c "-") as [->|]; [by vm_compute in Hd|]. rewrite Hp.
    case_bool_decide; zbool; simpl in *; try lia; done || (zbool; done || lia).
  - unfold ParseInt. simpl.
    change ("" +:+ ?s) with s. rewrite Hp.
    case_bool_decide; zbool; simpl in *; try lia; done || (zbool; done || lia).
Qed.

(** ** Lemmas: the command line *)

(** A name a flag can have. *)
Definition flag_name (name : string) : bool :=
  match name with
  | EmptyString => false
  | String c _ => negb (bool_decide (c = "-"%char))
                  && str_all (fun c => negb (bool_decide (c = "="%char))) name
  end.

Lemma cut_value_none s :
  str_all (fun c => negb (bool_decide (c = "="%char))) s = true -> cut_value s = (s, None).
Proof.
  induction s as [|c s IH]; cbn [str_all cut_value]; [done|]. intros [Hc Hs]%andb_prop.
  destruct (ascii_dec c "=") as [->|_]; [done|]. by rewrite IH.
Qed.

Lemma cut_value_some s v :
  str_all (fun c => negb (bool_decide (c = "="%char))) s = true ->
  cut_value (s +:+ String "=" v) = (s, Some v).
Proof.
  induction s as [|c s IH]; [done|]. cbn [str_all cut_value]. intros [Hc Hs]%andb_prop.
  change (String c s +:+ String "=" v) with (String c (s +:+ String "=" v)). cbn [cut_value].
  destruct (ascii_dec c "=") as [->|_]; [done|]. by rewrite IH.
Qed.

Lemma flag_of_name name :
  flag_name name = true ->
  flag_of name = FlagArg name None /\ forall v, flag_of (name +:+ String "=" v) = FlagArg name (Some v).
Proof.
  destruct name as [|c s]; [done|]. cbn [flag_name str_all]. intros [Hd [He Hs]%andb_prop]%andb_prop.
  change (String c s +:+ ?t) with (String c (s +:+ t)). cbn [flag_of].
  destruct (ascii_dec c "-") as [->|_]; [done|]. destruct (ascii_dec c "=") as [->|_]; [done|].
  rewrite cut_value_none by done. split; [done|]. intros v. by rewrite cut_value_some.
Qed.

Lemma argument_dashed double name s :
  flag_name name = true -> argument ((if double : bool then "--" else "-") +:+ (name +:+ s)) = flag_of (name +:+ s).
Proof.
  destruct name as [|c t]; [done|]. cbn [flag_name]. intros [Hc _]%andb_prop.
  change (String c t +:+ s) with (String c (t +:+ s)).
  destruct double; [done|]. change ("-" +:+ ?s) with (String "-" s). cbn [argument].
  by destruct (ascii_dec c "-") as [->|_].
Qed.

Lemma str_app_nil (s : string) : s +:+ "" = s.
Proof. induction s as [|c s IH]; [done|]. change (String c (s +:+ "") = String c s). by f_equal. Qed.

Section parse.
Context {S : Type} (formal : string -> option (Flag S)).

(** Parsing a flag stores its value, or ends the process when its [Set] fails. *)
Lemma Parse_given f g rest st :
  formal (gv_name g) = Some f -> flag_name (gv_name g) = true -> styled f g = true ->
  Parse formal (render g ++ rest) st
  = match fl_Set f (gv_value g) st with Some st' => Parse formal rest st' | None => ParseExit 2 end.
Proof.
  intros Hf Hn Hs. destruct (flag_of_name _ Hn) as [Hn1 Hn2].
  pose proof (fun s => argument_dashed (gv_double g) _ s Hn) as Hd.
  pose proof (Hd "") as Hd0. rewrite str_app_nil, Hn1 in Hd0.
  unfold render, styled in *. destruct (gv_style g); cbn [app Parse].
  - rewrite <-str_app_assoc, Hd. change ("=" +:+ ?s) with (String "=" s). rewrite Hn2, Hf. cbn [default].
    by destruct (fl_isBool f).
  - rewrite Hd0, Hf. by destruct (fl_isBool f).
  - rewrite Hd0, Hf. apply andb_prop in Hs as [-> Hv%bool_decide_eq_true]. by rewrite Hv.
Qed.

(** A flag's [Set] assigns a value of its type. *)
Definition keeps (I : S -> Prop) (f : Flag S) : Prop :=
  forall v st st', I st -> fl_Set f v st = Some st' -> I st'.

Lemma StringFlag_keeps (I : S -> Prop) put : (forall v st, I st -> I (put v st)) -> keeps I (StringFlag put).
Proof. intros HI v st st' Hst [= <-]. by apply HI. Qed.

Lemma UintFlag_keeps (I : S -> Prop) put :
  (forall v st, is_u64 v -> I st -> I (put v st)) -> keeps I (UintFlag put).
Proof.
  intros HI v st st' Hst. cbn. destruct (ParseUint v) as [n|] eqn:E; [|done]. intros [= <-].
  apply HI; [by eapply ParseUint_range|done].
Qed.

Lemma IntFlag_keeps (I : S -> Prop) put :
  (forall v st, - 2 ^ 63 <= v < 2 ^ 63 -> I st -> I (put v st)) -> keeps I (IntFlag put).
Proof.
  intros HI v st st' Hst. cbn. destruct (ParseInt v) as [n|] eqn:E; [|done]. intros [= <-].
  apply HI; [by eapply ParseInt_range|done].
Qed.

Lemma BoolFlag_keeps (I : S -> Prop) put : (forall v st, I st -> I (put v st)) -> keeps I (BoolFlag put).
Proof. intros HI v st st' Hst. cbn. destruct (ParseBool v); [|done]. intros [= <-]. by apply HI. Qed.

(** What every [Set] keeps is kept; the arguments that remain are the last ones. *)
Lemma Parse_invariant (I : S -> Prop) args st st' rest :
  (forall name f, formal name = Some f -> keeps I f) ->
  I st -> Parse formal args st = ParsedArgs st' rest -> I st' /\ rest `suffix_of` args.
Proof.
  intros HI. remember (length args) as n eqn:Hn. revert args st Hn.
  induction (lt_wf n) as [n _ IH]. intros args st -> Hst Hp.
  assert (forall name f v args', formal name = Some f -> args' `suffix_of` args -> (length args' < length args)%nat ->
    match fl_Set f v st with Some st'' => Parse formal args' st'' | None => ParseExit 2 end = ParsedArgs st' rest ->
    I st' /\ rest `suffix_of` args) as Hgo.
  { intros name f v args' Hf Hsuf Hlt Hr. destruct (fl_Set f v st) as [st''|] eqn:E; [|done].
    destruct (IH _ Hlt args' st'' eq_refl (HI _ _ Hf _ _ _ Hst E) Hr) as [? Hr']. split; [done|]. by etrans. }
  destruct args as [|s args]; cbn [Parse] in Hp; [by injection Hp as <- <-|].
  assert (args `suffix_of` s :: args) as Hsuf by by apply suffix_cons_r.
  destruct (argument s) as [| | |name value]; [by injection Hp as <- <-..|done|].
  destruct (formal name) as [f|] eqn:Hf; [|done].
  destruct (fl_isBool f); [by apply (Hgo name f _ args Hf Hsuf (Nat.lt_succ_diag_r _) Hp)|].
  destruct value as [v|]; [by apply (Hgo name f _ args Hf Hsuf (Nat.lt_succ_diag_r _) Hp)|].
  destruct args as [|v args]; [done|]. eapply (Hgo name f v args); [done| |cbn; lia|done].
  by do 2 apply suffix_cons_r.
Qed.

(** The only statuses [Parse] exits with. *)
Lemma Parse_exit args st status : Parse formal args st = ParseExit status -> status = 0 \/ status = 2.
Proof.
  remember (length args) as n eqn:Hn. revert args st Hn.
  induction (lt_wf n) as [n _ IH]. intros args st -> Hp.
  assert (forall f v args', (length args' < length args)%nat ->
    match fl_Set f v st with Some st'' => Parse formal args' st'' | None => ParseExit 2 end = ParseExit status ->
    status = 0 \/ status = 2) as Hgo.
  { intros f v args' Hlt Hr. destruct (fl_Set f v st); [by eapply IH|injection Hr; auto]. }
  destruct args as [|s args]; cbn [Parse] in Hp; [done|].
  destruct (argument s) as [| | |name value]; [done..|injection Hp; auto|].
  destruct (formal name) as [f|]; [|case_bool_decide; injection Hp; auto].
  destruct (fl_isBool f); [eapply Hgo; [|done]; cbn; lia|].
  destruct value as [v|]; [eapply Hgo; [|done]; cbn; lia|].
  destruct args as [|v args]; [injection Hp; auto|]. eapply Hgo; [|done]. cbn; lia.
Qed.

End parse.
