(* ===== verification/Config.v ===== *)
(** * Package [config] (src/config/config.go) and the use [main] makes of it

    [OpenOltScaleTesterConfig] is the struct of the same name.  [registered] are
    the flags [ParseCommandArguments] binds to its fields before it parses the
    command line, and [main_config] is the prefix of [main.main] that turns the
    arguments into the configuration the manager runs with.  The specification of
    both is [configured], on a [CommandLine]: the last value given for each
    flag.  The string functions [Split] and [Atoi] are those of Go's standard
    library. *)
From S2P Require Import Prelude Flags.
From Stdlib Require Import Ascii.

(** ** Go's [strings.Split] and [strconv.Atoi] *)

(** [strings.Split s sep] for a one-byte separator. *)
Fixpoint Split (s : string) (sep : ascii) : list string :=
  match s with
  | EmptyString => [EmptyString]
  | String c s' =>
      if ascii_dec c sep then EmptyString :: Split s' sep
      else match Split s' sep with
           | [] => [String c EmptyString]
           | t :: ts => String c t :: ts
           end
  end.

(** A non-empty string of decimal digits, in the range [lo..hi]. *)
Definition parse_int_digits (neg : bool) (s : string) : option Z :=
  match s with
  | EmptyString => None
  | _ => match parse_digits s 0 with
         | Some v => let v := if neg then - v else v in
                     if (- 2 ^ 63 <=? v) && (v <? 2 ^ 63) then Some v else None
         | None => None
         end
  end.

(** [strconv.Atoi] on a 64-bit platform; [None] is a non-nil error. *)
Definition Atoi (s : string) : option Z :=
  match s with
  | EmptyString => None
  | String c s' =>
      if ascii_dec c "-" then parse_int_digits true s'
      else if ascii_dec c "+" then parse_int_digits false s'
      else parse_int_digits false s
  end.

(** ** The configuration *)

Definition defaultOpenOltAgentIp : string := "10.90.0.114".
Definition defaultOpenOltAgentPort : Z := 9191.
Definition defaultNumOfOnu : Z := 128.
Definition defaultNumOfSubscribersPerOnu : Z := 1.
Definition defaultWorkFlowName : string := "TT".
Definition defaultTimeIntervalBetweenSubs : Z := 5.
Definition defaultNniIntfId : Z := 0.
Definition defaultKVstoreHost : string := "192.168.1.1".
Definition defaultKVstorePort : Z := 2379.
Definition defaultTpIDs : string := "64".
Definition defaultIsGroupTest : bool := false.

Record OpenOltScaleTesterConfig := {
  OpenOltAgentAddress : string;
  OpenOltAgentIP : string;
  OpenOltAgentPort : Z;
  NniIntfID : Z;
  NumOfOnu : Z;
  SubscribersPerOnu : Z;
  WorkflowName : string;
  TimeIntervalBetweenSubs : Z;
  KVStoreHost : string;
  KVStorePort : Z;
  TpIDsString : string;
  TpIDList : list Z;
  IsGroupTest : bool;
}.

Definition GetTpIDList (tpIDsStr : string) : list Z :=
  let stringSlice := Split tpIDsStr "," in
  foldl (fun tpIDSlice s =>
           match Atoi s with
           | Some tpID => tpIDSlice ++ [tpID]
           | None => tpIDSlice
           end) [] stringSlice.

Definition NewOpenOltScaleTesterConfig : OpenOltScaleTesterConfig := {|
  OpenOltAgentAddress := defaultOpenOltAgentIp +:+ ":" +:+ Itoa defaultOpenOltAgentPort;
  OpenOltAgentIP := "";
  OpenOltAgentPort := 0;
  NniIntfID := defaultNniIntfId;
  NumOfOnu := defaultNumOfOnu;
  SubscribersPerOnu := defaultNumOfSubscribersPerOnu;
  WorkflowName := defaultWorkFlowName;
  TimeIntervalBetweenSubs := defaultTimeIntervalBetweenSubs;
  KVStoreHost := defaultKVstoreHost;
  KVStorePort := defaultKVstorePort;
  TpIDsString := "";
  TpIDList := GetTpIDList defaultTpIDs;
  IsGroupTest := defaultIsGroupTest;
|}.

(** The assignments to a field. *)
Definition set_OpenOltAgentAddress (v : string) (st : OpenOltScaleTesterConfig) : OpenOltScaleTesterConfig :=
  {| OpenOltAgentAddress := v; OpenOltAgentIP := OpenOltAgentIP st;
     OpenOltAgentPort := OpenOltAgentPort st; NniIntfID := NniIntfID st;
     NumOfOnu := NumOfOnu st; SubscribersPerOnu := SubscribersPerOnu st;
     WorkflowName := WorkflowName st; TimeIntervalBetweenSubs := TimeIntervalBetweenSubs st;
     KVStoreHost := KVStoreHost st; KVStorePort := KVStorePort st;
     TpIDsString := TpIDsString st; TpIDList := TpIDList st; IsGroupTest := IsGroupTest st |}.
Definition set_TpIDList (v : list Z) (st : OpenOltScaleTesterConfig) : OpenOltScaleTesterConfig :=
  {| OpenOltAgentAddress := OpenOltAgentAddress st; OpenOltAgentIP := OpenOltAgentIP st;
     OpenOltAgentPort := OpenOltAgentPort st; NniIntfID := NniIntfID st;
     NumOfOnu := NumOfOnu st; SubscribersPerOnu := SubscribersPerOnu st;
     WorkflowName := WorkflowName st; TimeIntervalBetweenSubs := TimeIntervalBetweenSubs st;
     KVStoreHost := KVStoreHost st; KVStorePort := KVStorePort st;
     TpIDsString := TpIDsString st; TpIDList := v; IsGroupTest := IsGroupTest st |}.
Definition set_OpenOltAgentIP (v : string) (st : OpenOltScaleTesterConfig) : OpenOltScaleTesterConfig :=
  {| OpenOltAgentAddress := OpenOltAgentAddress st; OpenOltAgentIP := v;
     OpenOltAgentPort := OpenOltAgentPort st; NniIntfID := NniIntfID st;
     NumOfOnu := NumOfOnu st; SubscribersPerOnu := SubscribersPerOnu st;
     WorkflowName := WorkflowName st; TimeIntervalBetweenSubs := TimeIntervalBetweenSubs st;
     KVStoreHost := KVStoreHost st; KVStorePort := KVStorePort st;
     TpIDsString := TpIDsString st; TpIDList := TpIDList st; IsGroupTest := IsGroupTest st |}.
Definition set_OpenOltAgentPort (v : Z) (st : OpenOltScaleTesterConfig) : OpenOltScaleTesterConfig :=
  {| OpenOltAgentAddress := OpenOltAgentAddress st; OpenOltAgentIP := OpenOltAgentIP st;
     OpenOltAgentPort := v; NniIntfID := NniIntfID st; NumOfOnu := NumOfOnu st;
     SubscribersPerOnu := SubscribersPerOnu st; WorkflowName := WorkflowName st;
     TimeIntervalBetweenSubs := TimeIntervalBetweenSubs st; KVStoreHost := KVStoreHost st;
     KVStorePort := KVStorePort st; TpIDsString := TpIDsString st; TpIDList := TpIDList st;
     IsGroupTest := IsGroupTest st |}.
Definition set_NniIntfID (v : Z) (st : OpenOltScaleTesterConfig) : OpenOltScaleTesterConfig :=
  {| OpenOltAgentAddress := OpenOltAgentAddress st; OpenOltAgentIP := OpenOltAgentIP st;
     OpenOltAgentPort := OpenOltAgentPort st; NniIntfID := v; NumOfOnu := NumOfOnu st;
     SubscribersPerOnu := SubscribersPerOnu st; WorkflowName := WorkflowName st;
     TimeIntervalBetweenSubs := TimeIntervalBetweenSubs st; KVStoreHost := KVStoreHost st;
     KVStorePort := KVStorePort st; TpIDsString := TpIDsString st; TpIDList := TpIDList st;
     IsGroupTest := IsGroupTest st |}.
Definition set_NumOfOnu (v : Z) (st : OpenOltScaleTesterConfig) : OpenOltScaleTesterConfig :=
  {| OpenOltAgentAddress := OpenOltAgentAddress st; OpenOltAgentIP := OpenOltAgentIP st;
     OpenOltAgentPort := OpenOltAgentPort st; NniIntfID := NniIntfID st; NumOfOnu := v;
     SubscribersPerOnu := SubscribersPerOnu st; WorkflowName := WorkflowName st;
     TimeIntervalBetweenSubs := TimeIntervalBetweenSubs st; KVStoreHost := KVStoreHost st;
     KVStorePort := KVStorePort st; TpIDsString := TpIDsString st; TpIDList := TpIDList st;
     IsGroupTest := IsGroupTest st |}.
Definition set_SubscribersPerOnu (v : Z) (st : OpenOltScaleTesterConfig) : OpenOltScaleTesterConfig :=
  {| OpenOltAgentAddress := OpenOltAgentAddress st; OpenOltAgentIP := OpenOltAgentIP st;
     OpenOltAgentPort := OpenOltAgentPort st; NniIntfID := NniIntfID st;
     NumOfOnu := NumOfOnu st; SubscribersPerOnu := v; WorkflowName := WorkflowName st;
     TimeIntervalBetweenSubs := TimeIntervalBetweenSubs st; KVStoreHost := KVStoreHost st;
     KVStorePort := KVStorePort st; TpIDsString := TpIDsString st; TpIDList := TpIDList st;
     IsGroupTest := IsGroupTest st |}.
Definition set_WorkflowName (v : string) (st : OpenOltScaleTesterConfig) : OpenOltScaleTesterConfig :=
  {| OpenOltAgentAddress := OpenOltAgentAddress st; OpenOltAgentIP := OpenOltAgentIP st;
     OpenOltAgentPort := OpenOltAgentPort st; NniIntfID := NniIntfID st;
     NumOfOnu := NumOfOnu st; SubscribersPerOnu := SubscribersPerOnu st; WorkflowName := v;
     TimeIntervalBetweenSubs := TimeIntervalBetweenSubs st; KVStoreHost := KVStoreHost st;
     KVStorePort := KVStorePort st; TpIDsString := TpIDsString st; TpIDList := TpIDList st;
     IsGroupTest := IsGroupTest st |}.
Definition set_TimeIntervalBetweenSubs (v : Z) (st : OpenOltScaleTesterConfig) : OpenOltScaleTesterConfig :=
  {| OpenOltAgentAddress := OpenOltAgentAddress st; OpenOltAgentIP := OpenOltAgentIP st;
     OpenOltAgentPort := OpenOltAgentPort st; NniIntfID := NniIntfID st;
     NumOfOnu := NumOfOnu st; SubscribersPerOnu := SubscribersPerOnu st;
     WorkflowName := WorkflowName st; TimeIntervalBetweenSubs := v;
     KVStoreHost := KVStoreHost st; KVStorePort := KVStorePort st;
     TpIDsString := TpIDsString st; TpIDList := TpIDList st; IsGroupTest := IsGroupTest st |}.
Definition set_KVStoreHost (v : string) (st : OpenOltScaleTesterConfig) : OpenOltScaleTesterConfig :=
  {| OpenOltAgentAddress := OpenOltAgentAddress st; OpenOltAgentIP := OpenOltAgentIP st;
     OpenOltAgentPort := OpenOltAgentPort st; NniIntfID := NniIntfID st;
     NumOfOnu := NumOfOnu st; SubscribersPerOnu := SubscribersPerOnu st;
     WorkflowName := WorkflowName st; TimeIntervalBetweenSubs := TimeIntervalBetweenSubs st;
     KVStoreHost := v; KVStorePort := KVStorePort st; TpIDsString := TpIDsString st;
     TpIDList := TpIDList st; IsGroupTest := IsGroupTest st |}.
Definition set_KVStorePort (v : Z) (st : OpenOltScaleTesterConfig) : OpenOltScaleTesterConfig :=
  {| OpenOltAgentAddress := OpenOltAgentAddress st; OpenOltAgentIP := OpenOltAgentIP st;
     OpenOltAgentPort := OpenOltAgentPort st; NniIntfID := NniIntfID st;
     NumOfOnu := NumOfOnu st; SubscribersPerOnu := SubscribersPerOnu st;
     WorkflowName := WorkflowName st; TimeIntervalBetweenSubs := TimeIntervalBetweenSubs st;
     KVStoreHost := KVStoreHost st; KVStorePort := v; TpIDsString := TpIDsString st;
     TpIDList := TpIDList st; IsGroupTest := IsGroupTest st |}.
Definition set_TpIDsString (v : string) (st : OpenOltScaleTesterConfig) : OpenOltScaleTesterConfig :=
  {| OpenOltAgentAddress := OpenOltAgentAddress st; OpenOltAgentIP := OpenOltAgentIP st;
     OpenOltAgentPort := OpenOltAgentPort st; NniIntfID := NniIntfID st;
     NumOfOnu := NumOfOnu st; SubscribersPerOnu := SubscribersPerOnu st;
     WorkflowName := WorkflowName st; TimeIntervalBetweenSubs := TimeIntervalBetweenSubs st;
     KVStoreHost := KVStoreHost st; KVStorePort := KVStorePort st; TpIDsString := v;
     TpIDList := TpIDList st; IsGroupTest := IsGroupTest st |}.
Definition set_IsGroupTest (v : bool) (st : OpenOltScaleTesterConfig) : OpenOltScaleTesterConfig :=
  {| OpenOltAgentAddress := OpenOltAgentAddress st; OpenOltAgentIP := OpenOltAgentIP st;
     OpenOltAgentPort := OpenOltAgentPort st; NniIntfID := NniIntfID st;
     NumOfOnu := NumOfOnu st; SubscribersPerOnu := SubscribersPerOnu st;
     WorkflowName := WorkflowName st; TimeIntervalBetweenSubs := TimeIntervalBetweenSubs st;
     KVStoreHost := KVStoreHost st; KVStorePort := KVStorePort st;
     TpIDsString := TpIDsString st; TpIDList := TpIDList st; IsGroupTest := v |}.

(** The calls of [flag.StringVar], [UintVar], [IntVar] and [BoolVar]: the name, the
    field and the default of each flag. *)
Definition registered : list (string * Flag OpenOltScaleTesterConfig) :=
  [("openolt_agent_ip_address", StringFlag set_OpenOltAgentIP);
   ("openolt_agent_port", UintFlag set_OpenOltAgentPort);
   ("openolt_agent_nni_intf_id", UintFlag set_NniIntfID);
   ("num_of_onu", UintFlag set_NumOfOnu);
   ("subscribers_per_onu", UintFlag set_SubscribersPerOnu);
   ("workflow_name", StringFlag set_WorkflowName);
   ("time_interval_between_subs", UintFlag set_TimeIntervalBetweenSubs);
   ("kv_store_host", StringFlag set_KVStoreHost);
   ("kv_store_port", IntFlag set_KVStorePort);
   ("tp_ids", StringFlag set_TpIDsString);
   ("is_group_test", BoolFlag set_IsGroupTest)].

Definition formal (name : string) : option (Flag OpenOltScaleTesterConfig) :=
  snd <$> List.find (fun f => bool_decide (f.1 = name)) registered.

(** Registering a flag stores its default in the field it is bound to. *)
Definition store_defaults (st : OpenOltScaleTesterConfig) : OpenOltScaleTesterConfig :=
  let st := set_OpenOltAgentIP defaultOpenOltAgentIp st in
  let st := set_OpenOltAgentPort defaultOpenOltAgentPort st in
  let st := set_NniIntfID defaultNniIntfId st in
  let st := set_NumOfOnu defaultNumOfOnu st in
  let st := set_SubscribersPerOnu defaultNumOfSubscribersPerOnu st in
  let st := set_WorkflowName defaultWorkFlowName st in
  let st := set_TimeIntervalBetweenSubs defaultTimeIntervalBetweenSubs st in
  let st := set_KVStoreHost defaultKVstoreHost st in
  let st := set_KVStorePort defaultKVstorePort st in
  let st := set_TpIDsString defaultTpIDs st in
  let st := set_IsGroupTest defaultIsGroupTest st in
  st.

Definition ParseCommandArguments (arguments : list string) (st : OpenOltScaleTesterConfig)
    : Parsed OpenOltScaleTesterConfig :=
  Parse formal arguments (store_defaults st).

(** [main.main] up to the call of [core.NewOpenOltManager]. *)
Definition main_config (arguments : list string) : Parsed OpenOltScaleTesterConfig :=
  match ParseCommandArguments arguments NewOpenOltScaleTesterConfig with
  | ParseExit status => ParseExit status
  | ParsedArgs cf rest =>
      let cf := set_OpenOltAgentAddress
                  (OpenOltAgentIP cf +:+ ":" +:+ Itoa (OpenOltAgentPort cf)) cf in
      ParsedArgs (set_TpIDList (GetTpIDList (TpIDsString cf)) cf) rest
  end.

(** ** Specification: the configuration of a command line *)

(** The value given for each flag, if it was given. *)
Record CommandLine := {
  openolt_agent_ip_address : option string;
  openolt_agent_port : option Z;
  openolt_agent_nni_intf_id : option Z;
  num_of_onu : option Z;
  subscribers_per_onu : option Z;
  workflow_name : option string;
  time_interval_between_subs : option Z;
  kv_store_host : option string;
  kv_store_port : option Z;
  tp_ids : option string;
  is_group_test : option bool;
}.

Definition no_flags : CommandLine :=
  {| openolt_agent_ip_address := None; openolt_agent_port := None;
     openolt_agent_nni_intf_id := None; num_of_onu := None;
     subscribers_per_onu := None; workflow_name := None;
     time_interval_between_subs := None; kv_store_host := None;
     kv_store_port := None; tp_ids := None; is_group_test := None |}.

(** Each flag has its value or its default; the address of the agent and the list
    of profile ids follow from them. *)
Definition configured (c : CommandLine) : OpenOltScaleTesterConfig :=
  let ip := default defaultOpenOltAgentIp (openolt_agent_ip_address c) in
  let port := default defaultOpenOltAgentPort (openolt_agent_port c) in
  let ids := default defaultTpIDs (tp_ids c) in {|
  OpenOltAgentAddress := ip +:+ ":" +:+ Itoa port;
  OpenOltAgentIP := ip;
  OpenOltAgentPort := port;
  NniIntfID := default defaultNniIntfId (openolt_agent_nni_intf_id c);
  NumOfOnu := default defaultNumOfOnu (num_of_onu c);
  SubscribersPerOnu := default defaultNumOfSubscribersPerOnu (subscribers_per_onu c);
  WorkflowName := default defaultWorkFlowName (workflow_name c);
  TimeIntervalBetweenSubs :=
    default defaultTimeIntervalBetweenSubs (time_interval_between_subs c);
  KVStoreHost := default defaultKVstoreHost (kv_store_host c);
  KVStorePort := default defaultKVstorePort (kv_store_port c);
  TpIDsString := ids;
  TpIDList := GetTpIDList ids;
  IsGroupTest := default defaultIsGroupTest (is_group_test c);
|}.

(** A flag with a value. *)
Inductive Setting :=
  | OpenoltAgentIpAddressIs (v : string)
  | OpenoltAgentPortIs (v : Z)
  | OpenoltAgentNniIntfIdIs (v : Z)
  | NumOfOnuIs (v : Z)
  | SubscribersPerOnuIs (v : Z)
  | WorkflowNameIs (v : string)
  | TimeIntervalBetweenSubsIs (v : Z)
  | KvStoreHostIs (v : string)
  | KvStorePortIs (v : Z)
  | TpIdsIs (v : string)
  | IsGroupTestIs (v : bool).

Definition setting_name (s : Setting) : string :=
  match s with
  | OpenoltAgentIpAddressIs _ => "openolt_agent_ip_address"
  | OpenoltAgentPortIs _ => "openolt_agent_port"
  | OpenoltAgentNniIntfIdIs _ => "openolt_agent_nni_intf_id"
  | NumOfOnuIs _ => "num_of_onu"
  | SubscribersPerOnuIs _ => "subscribers_per_onu"
  | WorkflowNameIs _ => "workflow_name"
  | TimeIntervalBetweenSubsIs _ => "time_interval_between_subs"
  | KvStoreHostIs _ => "kv_store_host"
  | KvStorePortIs _ => "kv_store_port"
  | TpIdsIs _ => "tp_ids"
  | IsGroupTestIs _ => "is_group_test"
  end.

Definition setting_value (s : Setting) : string :=
  match s with
  | OpenoltAgentIpAddressIs v | WorkflowNameIs v | KvStoreHostIs v | TpIdsIs v => v
  | OpenoltAgentPortIs v | OpenoltAgentNniIntfIdIs v | NumOfOnuIs v | SubscribersPerOnuIs v
  | TimeIntervalBetweenSubsIs v | KvStorePortIs v => Itoa v
  | IsGroupTestIs v => if v then "true" else "false"
  end.

(** The values of the type of the flag. *)
Definition fits (s : Setting) : Prop :=
  match s with
  | OpenoltAgentPortIs v | OpenoltAgentNniIntfIdIs v | NumOfOnuIs v | SubscribersPerOnuIs v
  | TimeIntervalBetweenSubsIs v => is_u64 v
  | KvStorePortIs v => - 2 ^ 63 <= v < 2 ^ 63
  | _ => True
  end.

(** A flag given several times has the last value. *)
Definition last_given {A} (f : Setting -> option A) (l : list Setting) : option A := last (omap f l).

Definition command_line (l : list Setting) : CommandLine := {|
  openolt_agent_ip_address := last_given (fun s => match s with OpenoltAgentIpAddressIs v => Some v | _ => None end) l;
  openolt_agent_port := last_given (fun s => match s with OpenoltAgentPortIs v => Some v | _ => None end) l;
  openolt_agent_nni_intf_id := last_given (fun s => match s with OpenoltAgentNniIntfIdIs v => Some v | _ => None end) l;
  num_of_onu := last_given (fun s => match s with NumOfOnuIs v => Some v | _ => None end) l;
  subscribers_per_onu := last_given (fun s => match s with SubscribersPerOnuIs v => Some v | _ => None end) l;
  workflow_name := last_given (fun s => match s with WorkflowNameIs v => Some v | _ => None end) l;
  time_interval_between_subs := last_given (fun s => match s with TimeIntervalBetweenSubsIs v => Some v | _ => None end) l;
  kv_store_host := last_given (fun s => match s with KvStoreHostIs v => Some v | _ => None end) l;
  kv_store_port := last_given (fun s => match s with KvStorePortIs v => Some v | _ => None end) l;
  tp_ids := last_given (fun s => match s with TpIdsIs v => Some v | _ => None end) l;
  is_group_test := last_given (fun s => match s with IsGroupTestIs v => Some v | _ => None end) l
|}.

(** A setting with the way it is written; the flag that takes no argument must be
    joined to its value, or be alone when it is set. *)
Record Writing := {
  wr_double : bool;
  wr_style : Style;
  wr_setting : Setting;
}.

Definition written (w : Writing) : list string :=
  render {| gv_double := wr_double w; gv_style := wr_style w;
            gv_name := setting_name (wr_setting w); gv_value := setting_value (wr_setting w) |}.

Definition writable (w : Writing) : Prop :=
  match wr_style w, wr_setting w with
  | Joined, _ => True
  | Separate, IsGroupTestIs _ => False
  | Separate, _ => True
  | Bare, IsGroupTestIs true => True
  | Bare, _ => False
  end.

(** Where the flags end: at the end of the command line, at the terminator, or at
    an argument that is no flag, which remains. *)
Inductive flags_end : list string -> list string -> Prop :=
  | end_of_arguments : flags_end [] []
  | end_at_terminator rest : flags_end ("--" :: rest) rest
  | end_at_positional a rest : argument a = Positional -> flags_end (a :: rest) (a :: rest).

(** What ends the process instead, with its exit status: a number outside the range
    of its flag among them, and the request for help, which is no error. *)
Inductive refused : list string -> Z -> Prop :=
  | refused_range w args : ~ fits (wr_setting w) -> writable w -> refused (written w ++ args) 2
  | refused_syntax a args : argument a = BadSyntax -> refused (a :: args) 2
  | refused_unknown a name value args :
      argument a = FlagArg name value -> formal name = None -> name <> "help" -> name <> "h" ->
      refused (a :: args) 2
  | refused_missing a name f :
      argument a = FlagArg name None -> formal name = Some f -> fl_isBool f = false -> refused [a] 2
  | refused_value a name f value args :
      argument a = FlagArg name (Some value) -> formal name = Some f ->
      (forall st, fl_Set f value st = None) -> refused (a :: args) 2
  | refused_help a name value args :
      argument a = FlagArg name value -> name = "help" \/ name = "h" -> refused (a :: args) 0.

(** [strings.Join], the inverse the round trip is stated with. *)
Fixpoint Join (l : list string) (sep : ascii) : string :=
  match l with
  | [] => EmptyString
  | [s] => s
  | s :: l' => s +:+ String sep (Join l' sep)
  end.

(** ** Lemmas *)

Definition not_sep (sep c : ascii) : bool := if ascii_dec c sep then false else true.

Lemma Split_nonempty s sep : Split s sep <> [].
Proof. destruct s as [|c s]; simpl; [done|]. destruct (ascii_dec _ _); [done|].
  by destruct (Split s sep). Qed.

Lemma Split_none s sep : str_all (not_sep sep) s = true -> Split s sep = [s].
Proof.
  induction s as [|c s IH]; simpl; [done|].
  unfold not_sep at 1. destruct (ascii_dec c sep); simpl; [done|].
  intros Hs. by rewrite IH.
Qed.

(** Splitting a string at a separator it holds splits each half. *)
Lemma Split_app s t sep :
  Split (s +:+ String sep t) sep = Split s sep ++ Split t sep.
Proof.
  induction s as [|c s IH]; simpl.
  - by destruct (ascii_dec sep sep).
  - rewrite IH. destruct (ascii_dec c sep); simpl; [done|].
    destruct (Split s sep) as [|u us] eqn:E; simpl; [|done].
    by apply Split_nonempty in E.
Qed.

Lemma Split_Join l sep :
  l <> [] -> Forall (fun s => str_all (not_sep sep) s = true) l ->
  Split (Join l sep) sep = l.
Proof.
  intros Hne Hl. induction Hl as [|s l Hs Hl IH]; [done|].
  destruct l as [|s' l]; [by apply Split_none|].
  change (Join (s :: s' :: l) sep) with (s +:+ String sep (Join (s' :: l) sep)).
  by rewrite Split_app, Split_none, IH.
Qed.

Lemma GetTpIDList_omap s : GetTpIDList s = omap Atoi (Split s ",").
Proof.
  unfold GetTpIDList.
  cut (forall (acc : list Z) (l : list string), foldl (fun tpIDSlice s => match Atoi s with
      | Some tpID => tpIDSlice ++ [tpID] | None => tpIDSlice end) acc l
    = acc ++ omap Atoi l); [by intros ->|].
  intros acc l. revert acc. induction l as [|t l IH]; intros acc; csimpl.
  - by rewrite app_nil_r.
  - rewrite IH. destruct (Atoi t); [by rewrite <-app_assoc|done].
Qed.

Lemma is_digit_not_sign c : is_digit c = true -> c <> "-"%char /\ c <> "+"%char.
Proof. intros Hc. split; intros ->; by vm_compute in Hc. Qed.

Lemma parse_int_digits_pretty (neg : bool) x :
  - 2 ^ 63 <= (if neg then - Z.of_N x else Z.of_N x) < 2 ^ 63 ->
  parse_int_digits neg (pretty x) = Some (if neg then - Z.of_N x else Z.of_N x).
Proof.
  intros Hx. destruct (pretty_N_spec x) as (c & s & -> & _ & Hp).
  unfold parse_int_digits. rewrite Hp. cbv zeta.
  by rewrite (proj2 (Z.leb_le _ _)), (proj2 (Z.ltb_lt _ _)) by lia.
Qed.

Lemma Atoi_digits x : Z.of_N x < 2 ^ 63 -> Atoi (pretty x) = Some (Z.of_N x).
Proof.
  intros Hx. destruct (pretty_N_spec x) as (c & s & Hc & Hd & _).
  pose proof (parse_int_digits_pretty false x ltac:(lia)) as Hp.
  rewrite Hc in *. simpl in Hd. apply andb_prop in Hd as [Hd _].
  apply is_digit_not_sign in Hd as [??]. simpl.
  destruct (ascii_dec c "-"); [done|]. by destruct (ascii_dec c "+").
Qed.

Lemma Atoi_Itoa z : - 2 ^ 63 <= z < 2 ^ 63 -> Atoi (Itoa z) = Some z.
Proof.
  intros Hz. unfold Itoa, pretty, pretty_Z. destruct z as [|p|p]; [done| |].
  - apply (Atoi_digits (Npos p)). simpl. lia.
  - simpl. apply (parse_int_digits_pretty true (Npos p)). simpl. lia.
Qed.

Lemma is_digit_not_sep sep c : is_digit sep = false -> is_digit c = true -> not_sep sep c = true.
Proof. intros Hs Hc. unfold not_sep. destruct (ascii_dec c sep) as [->|]; [congruence|done]. Qed.

(** A rendered integer holds no separator that is neither a digit nor the sign. *)
Lemma Itoa_no_sep sep z :
  is_digit sep = false -> not_sep sep "-" = true -> str_all (not_sep sep) (Itoa z) = true.
Proof.
  intros Hs Hm.
  assert (forall p, str_all (not_sep sep) (pretty (Npos p)) = true) as Hp.
  { intros p. destruct (pretty_N_spec (Npos p)) as (c & s & -> & Hd & _).
    eapply str_all_impl; [|exact Hd]. intros d. by apply is_digit_not_sep. }
  assert (forall c, is_digit c = true -> not_sep sep c = true) as Hd by (intros; by apply is_digit_not_sep).
  unfold Itoa, pretty, pretty_Z. destruct z as [|p|p]; [|exact (Hp p)|].
  - cbn. by rewrite Hd.
  - change (str_all (not_sep sep) ("-" +:+ pretty (Npos p)) = true). rewrite str_all_app, Hp. cbn. by rewrite Hm.
Qed.

Lemma Itoa_no_comma z : str_all (not_sep ",") (Itoa z) = true.
Proof. by apply Itoa_no_sep. Qed.

(** *** The command line *)

(** What setting a flag does to the fields. *)
Definition put (st : OpenOltScaleTesterConfig) (s : Setting) : OpenOltScaleTesterConfig :=
  match s with
  | OpenoltAgentIpAddressIs v => set_OpenOltAgentIP v st
  | OpenoltAgentPortIs v => set_OpenOltAgentPort v st
  | OpenoltAgentNniIntfIdIs v => set_NniIntfID v st
  | NumOfOnuIs v => set_NumOfOnu v st
  | SubscribersPerOnuIs v => set_SubscribersPerOnu v st
  | WorkflowNameIs v => set_WorkflowName v st
  | TimeIntervalBetweenSubsIs v => set_TimeIntervalBetweenSubs v st
  | KvStoreHostIs v => set_KVStoreHost v st
  | KvStorePortIs v => set_KVStorePort v st
  | TpIdsIs v => set_TpIDsString v st
  | IsGroupTestIs v => set_IsGroupTest v st
  end.

#[export] Instance fits_dec s : Decision (fits s).
Proof. destruct s; unfold fits, is_u64; apply _. Defined.

(** The flag of a setting accepts exactly the values that fit. *)
Lemma formal_setting s :
  exists f, formal (setting_name s) = Some f /\ flag_name (setting_name s) = true
    /\ (fl_isBool f = match s with IsGroupTestIs _ => true | _ => false end)
    /\ forall st, fl_Set f (setting_value s) st = if decide (fits s) then Some (put st s) else None.
Proof.
  destruct s; (eexists; split_and!; [reflexivity|done|done|]); intros st;
    cbn [snd fl_Set StringFlag UintFlag IntFlag BoolFlag setting_value put fits] in *;
    case_decide as Hs; try done.
  all: rewrite ?ParseInt_Itoa, ?bool_decide_true, ?bool_decide_false, ?ParseUint_Itoa, ?ParseUint_Itoa_none by done.
  all: try done.
  by destruct v.
Qed.

Lemma Parse_written w rest st :
  writable w ->
  Parse formal (written w ++ rest) st
  = if decide (fits (wr_setting w)) then Parse formal rest (put st (wr_setting w)) else ParseExit 2.
Proof.
  intros Hw. destruct (formal_setting (wr_setting w)) as (f & Hn & Hname & Hb & Hset). unfold written.
  rewrite (Parse_given formal f) by (try done; unfold styled, writable in *; cbn in *; rewrite Hb;
    destruct (wr_style w), (wr_setting w) as [| | | | | | | | | |[]]; done).
  cbn. rewrite Hset. by case_decide.
Qed.

Lemma Parse_all_written l rest st :
  Forall (fun w => fits (wr_setting w) /\ writable w) l ->
  Parse formal (concat (written <$> l) ++ rest) st = Parse formal rest (foldl put st (wr_setting <$> l)).
Proof.
  intros Hl. revert st. induction Hl as [|w l [Hf Hw] Hl IH]; intros st; [done|].
  csimpl. rewrite <-app_assoc, Parse_written by done. case_decide; [apply IH|done].
Qed.

Lemma Parse_end rest rest' st : flags_end rest rest' -> Parse formal rest st = ParsedArgs st rest'.
Proof. intros [|?|a ? Ha]; [done..|]. cbn [Parse]. by rewrite Ha. Qed.

Lemma Parse_refused args status st : refused args status -> Parse formal args st = ParseExit status.
Proof.
  intros [w args' Hf Hw|a args' Ha|a name value args' Ha Hn H1 H2|a name f Ha Hn Hb|a name f value args' Ha Hn Hset
    |a name value args' Ha Hn].
  - rewrite Parse_written by done. by case_decide.
  - cbn [Parse]. by rewrite Ha.
  - cbn [Parse]. rewrite Ha, Hn. rewrite bool_decide_false; [done|]. by intros [|].
  - cbn [Parse]. by rewrite Ha, Hn, Hb.
  - cbn [Parse]. rewrite Ha, Hn. by destruct (fl_isBool f); cbn; rewrite Hset.
  - cbn [Parse]. rewrite Ha. assert (formal name = None) as -> by (by destruct Hn as [-> | ->]).
    by rewrite bool_decide_true.
Qed.

(** The numbers are in the ranges of their types. *)
Record config_typed (c : OpenOltScaleTesterConfig) : Prop := {
  ct_OpenOltAgentPort : is_u64 (OpenOltAgentPort c);
  ct_NniIntfID : is_u64 (NniIntfID c);
  ct_NumOfOnu : is_u64 (NumOfOnu c);
  ct_SubscribersPerOnu : is_u64 (SubscribersPerOnu c);
  ct_TimeIntervalBetweenSubs : is_u64 (TimeIntervalBetweenSubs c);
  ct_KVStorePort : - 2 ^ 63 <= KVStorePort c < 2 ^ 63;
}.

Lemma registered_typed : Forall (fun f => keeps config_typed f.2) registered.
Proof.
  repeat (apply Forall_cons; split); [..|done]; cbn [snd];
    (apply StringFlag_keeps || apply UintFlag_keeps || apply IntFlag_keeps || apply BoolFlag_keeps);
    intros; by match goal with H : config_typed _ |- _ => destruct H; split end.
Qed.

Lemma formal_typed name f : formal name = Some f -> keeps config_typed f.
Proof.
  unfold formal. destruct (List.find _ _) as [nf|] eqn:E; [|done]. intros [= <-].
  apply List.find_some in E as [Hin _]. revert nf Hin. apply List.Forall_forall, registered_typed.
Qed.

Lemma Atoi_range s z : Atoi s = Some z -> - 2 ^ 63 <= z < 2 ^ 63.
Proof.
  unfold Atoi, parse_int_digits. cbv zeta. intros Hs.
  repeat case_match; simplify_eq; match goal with H : _ && _ = true |- _ =>
    apply andb_prop in H as [?%Z.leb_le ?%Z.ltb_lt] end; done.
Qed.

Lemma GetTpIDList_range s : Forall (fun z => - 2 ^ 63 <= z < 2 ^ 63) (GetTpIDList s).
Proof.
  rewrite GetTpIDList_omap. apply Forall_forall. intros z (t & _ & Hz)%list_elem_of_omap.
  by apply Atoi_range in Hz.
Qed.

(** The fields after the flags have been stored. *)
Definition stored (c : CommandLine) : OpenOltScaleTesterConfig :=
  set_OpenOltAgentAddress (OpenOltAgentAddress NewOpenOltScaleTesterConfig)
    (set_TpIDList (TpIDList NewOpenOltScaleTesterConfig) (configured c)).

Lemma foldl_put l : foldl put (store_defaults NewOpenOltScaleTesterConfig) l = stored (command_line l).
Proof.
  induction l as [|s l IH] using rev_ind; [done|]. rewrite foldl_app, IH. cbn [foldl].
  unfold command_line, last_given. rewrite !omap_app. destruct s; csimpl; by rewrite ?app_nil_r, ?last_snoc.
Qed.

(** The configuration of a command line without flags. *)
Lemma no_flags_config :
  exists c, main_config [] = ParsedArgs c [] /\
  OpenOltAgentAddress c = "10.90.0.114:9191" /\ WorkflowName c = "TT"
  /\ KVStoreHost c = "192.168.1.1" /\ TpIDList c = [64].
Proof. eexists. split; [done|]. by vm_compute. Qed.

(** ** Properties *)

(** C10.  Any settings of the flags, in any order and with repetitions, written with
    one dash or two and joined to their value or before it, followed by what ends
    the flags, give the configuration in which each flag has its last value or its
    default, the agent's address is IP and port, and the profile ids are those of
    the last [tp_ids]; the arguments that remain are ignored. *)
Theorem command_line_roundtrip (l : list Writing) (rest rest' : list string) :
  Forall (fun w => fits (wr_setting w) /\ writable w) l -> flags_end rest rest' ->
  main_config (concat (written <$> l) ++ rest)
  = ParsedArgs (configured (command_line (wr_setting <$> l))) rest'.
Proof.
  intros Hl Hr. unfold main_config, ParseCommandArguments.
  by rewrite Parse_all_written, foldl_put, (Parse_end rest rest') by done.
Qed.

(** The command line of compose/openolt-scale-tester.yml, then one with the other
    ways of writing, a repetition and an argument that hides the last flag. *)
Lemma command_line_roundtrip_witness :
  main_config ["--openolt_agent_ip_address=10.0.0.7"; "--openolt_agent_port=9191";
    "--openolt_agent_nni_intf_id=0"; "--num_of_onu=512"; "--subscribers_per_onu=1";
    "--workflow_name=ATT"; "--time_interval_between_subs=0"; "--kv_store_host=10.0.0.8";
    "--kv_store_port=2379"; "--tp_ids=64"; "--is_group_test=false"]
  = ParsedArgs (configured (command_line
      [OpenoltAgentIpAddressIs "10.0.0.7"; OpenoltAgentPortIs 9191; OpenoltAgentNniIntfIdIs 0;
       NumOfOnuIs 512; SubscribersPerOnuIs 1; WorkflowNameIs "ATT"; TimeIntervalBetweenSubsIs 0;
       KvStoreHostIs "10.0.0.8"; KvStorePortIs 2379; TpIdsIs "64"; IsGroupTestIs false])) []
  /\ main_config ["-num_of_onu"; "8"; "-is_group_test"; "-num_of_onu=16"; "now"; "--tp_ids=65"]
  = ParsedArgs (configured (command_line [NumOfOnuIs 8; IsGroupTestIs true; NumOfOnuIs 16]))
      ["now"; "--tp_ids=65"].
Proof.
  split.
  - pose (l := Build_Writing true Joined <$>
      [OpenoltAgentIpAddressIs "10.0.0.7"; OpenoltAgentPortIs 9191; OpenoltAgentNniIntfIdIs 0;
       NumOfOnuIs 512; SubscribersPerOnuIs 1; WorkflowNameIs "ATT"; TimeIntervalBetweenSubsIs 0;
       KvStoreHostIs "10.0.0.8"; KvStorePortIs 2379; TpIdsIs "64"; IsGroupTestIs false]).
    assert (concat (written <$> l) ++ [] = _) as <- by (vm_compute; reflexivity).
    apply (command_line_roundtrip l [] []); [by repeat constructor|constructor].
  - pose (l := [{| wr_double := false; wr_style := Separate; wr_setting := NumOfOnuIs 8 |};
       {| wr_double := false; wr_style := Bare; wr_setting := IsGroupTestIs true |};
       {| wr_double := false; wr_style := Joined; wr_setting := NumOfOnuIs 16 |}]).
    assert (concat (written <$> l) ++ ["now"; "--tp_ids=65"] = _) as <- by (vm_compute; reflexivity).
    apply (command_line_roundtrip l); [by repeat constructor|by constructor].
Defined.

(** C28.  Whatever the arguments, [main] gets a configuration whose numbers are in
    the ranges of their types, and ignores a suffix of the arguments; or the
    process exits with status 0 or 2.  After well-formed settings it exits with
    status 2 at a number out of the range of its flag, a value its flag does not
    accept, a missing value, an unknown flag or one that is not well formed, and
    with status 0 at a request for help. *)
Theorem command_line_errors (arguments : list string) :
  match main_config arguments with
  | ParsedArgs cf rest =>
      config_typed cf /\ Forall (fun z => - 2 ^ 63 <= z < 2 ^ 63) (TpIDList cf) /\ rest `suffix_of` arguments
  | ParseExit status => status = 0 \/ status = 2
  end
  /\ forall l args status, arguments = concat (written <$> l) ++ args ->
       Forall (fun w => fits (wr_setting w) /\ writable w) l -> refused args status ->
       main_config arguments = ParseExit status.
Proof.
  unfold main_config, ParseCommandArguments. split.
  - destruct (Parse _ _ _) as [cf rest|status] eqn:E; [|by eapply Parse_exit].
    apply (Parse_invariant formal config_typed) in E as [[] Hr]; [|apply formal_typed|by split].
    split_and!; [by split|apply GetTpIDList_range|done].
  - intros l args status -> Hl Hr. by rewrite Parse_all_written, (Parse_refused _ status).
Qed.

(** A number of ONUs below 0, above 64 bits or in an unknown format, a flag without
    its value, an unknown one, and the request for help. *)
Lemma command_line_errors_witness :
  main_config ["--tp_ids=65"; "--num_of_onu=-1"] = ParseExit 2
  /\ main_config ["--num_of_onu=18446744073709551616"; "-x"] = ParseExit 2
  /\ main_config ["--num_of_onu=0b12"] = ParseExit 2
  /\ main_config ["--num_of_onu"] = ParseExit 2
  /\ main_config ["---num_of_onu=8"] = ParseExit 2
  /\ main_config ["--onus=8"] = ParseExit 2
  /\ main_config ["-help"; "--onus=8"] = ParseExit 0.
Proof.
  split_and!.
  - by apply (proj2 (command_line_errors _)
      [{| wr_double := true; wr_style := Joined; wr_setting := TpIdsIs "65" |}] ["--num_of_onu=-1"] 2 eq_refl);
      [repeat constructor|apply (refused_range {| wr_double := true; wr_style := Joined;
        wr_setting := NumOfOnuIs (-1) |} []); [intros []|]].
  - apply (proj2 (command_line_errors _) [] _ 2 eq_refl); [done|].
    by apply (refused_range {| wr_double := true; wr_style := Joined;
      wr_setting := NumOfOnuIs (2 ^ 64) |}); [intros []|].
  - apply (proj2 (command_line_errors _) [] _ 2 eq_refl); [done|]. by eapply refused_value.
  - apply (proj2 (command_line_errors _) [] _ 2 eq_refl); [done|]. by eapply refused_missing.
  - apply (proj2 (command_line_errors _) [] _ 2 eq_refl); [done|]. by apply refused_syntax.
  - apply (proj2 (command_line_errors _) [] _ 2 eq_refl); [done|]. by eapply refused_unknown.
  - apply (proj2 (command_line_errors _) [] _ 0 eq_refl); [done|]. eapply refused_help; [done|by left].
Defined.

(** The TP ids round trip through the [tp_ids] flag: rendering any
    non-empty list of 64-bit integers as decimal numbers separated by commas
    and parsing it with [GetTpIDList] gives the list back, in order and with
    its duplicates. *)
Theorem GetTpIDList_roundtrip (l : list Z) :
  l <> [] -> Forall (fun z => - 2 ^ 63 <= z < 2 ^ 63) l ->
  GetTpIDList (Join (Itoa <$> l) ",") = l.
Proof.
  intros Hne Hl. rewrite GetTpIDList_omap, Split_Join.
  - clear Hne. induction Hl as [|z l Hz Hl IH]; csimpl; [done|].
    by rewrite Atoi_Itoa, IH.
  - by intros ?%fmap_nil_inv.
  - apply Forall_fmap, Forall_true. intros z. apply Itoa_no_comma.
Qed.

Lemma GetTpIDList_roundtrip_witness :
  [64; -7; 64] <> [] /\ GetTpIDList "64,-7,64" = [64; -7; 64].
Proof.
  split; [done|]. apply (GetTpIDList_roundtrip [64; -7; 64]); [done|].
  repeat constructor; lia.
Defined.

(** [GetTpIDList] drops exactly the malformed tokens: a comma splits the
    flag into two independent parts, and a token that [strconv.Atoi] refuses
    contributes nothing (no error is reported), so a flag with no well-formed
    token yields the empty list. *)
Theorem GetTpIDList_tokens (s t : string) :
  GetTpIDList (s +:+ "," +:+ t) = GetTpIDList s ++ GetTpIDList t
  /\ (str_all (not_sep ",") s = true ->
      GetTpIDList s = match Atoi s with Some z => [z] | None => [] end).
Proof.
  split.
  - rewrite !GetTpIDList_omap. change (s +:+ "," +:+ t) with (s +:+ String "," t).
    by rewrite Split_app, omap_app.
  - intros Hs. rewrite GetTpIDList_omap, Split_none by done. csimpl.
    by destruct (Atoi s).
Qed.

Lemma GetTpIDList_tokens_witness :
  str_all (not_sep ",") "6x" = true /\ GetTpIDList "6x" = [].
Proof. split; [done|]. apply (GetTpIDList_tokens "6x" ""). reflexivity. Defined.
