(* ===== verification/Utils.v ===== *)
(** * Core utilities (src/core/utils.go) and serial-number rendering
      (the two stringify functions of src/core/olt_manager.go)

    The package variables of utils.go are the fields of [Globals]; a function
    that updates them takes and returns the record.  Every such function of
    the source holds [mutex] for its whole body (the serial-number generator is
    called with [lockRsrAlloc] held), so one call is one atomic step. *)
From S2P Require Import Prelude.
From Stdlib Require Import Ascii.

(** ** Package variables *)

Record DtStagKey := { dk_ponIntf : Z; dk_onuID : Z; dk_uniID : Z }.

#[export] Instance DtStagKey_eq_dec : EqDecision DtStagKey.
Proof. solve_decision. Defined.

#[export] Instance DtStagKey_countable : Countable DtStagKey.
Proof.
  refine (inj_countable' (fun k => (dk_ponIntf k, dk_onuID k, dk_uniID k))
    (fun t => {| dk_ponIntf := t.1.1; dk_onuID := t.1.2; dk_uniID := t.2 |}) _).
  by intros [].
Defined.

Record Globals := {
  currDtStag : Z;
  DtStag : gmap DtStagKey Z;
  DtCtag : gmap Z Z;
  AttCtag : gmap Z Z;
  TtCtag : gmap Z Z;
  vendorSpecificId : Z;
}.

(** The values the variables have after package initialisation. *)
Definition init_globals : Globals :=
  {| currDtStag := 0; DtStag := ∅; DtCtag := ∅; AttCtag := ∅; TtCtag := ∅;
     vendorSpecificId := 1000 |}.

Definition set_AttCtag (m : gmap Z Z) (g : Globals) : Globals :=
  {| currDtStag := currDtStag g; DtStag := DtStag g; DtCtag := DtCtag g;
     AttCtag := m; TtCtag := TtCtag g; vendorSpecificId := vendorSpecificId g |}.
Definition set_DtCtag (m : gmap Z Z) (g : Globals) : Globals :=
  {| currDtStag := currDtStag g; DtStag := DtStag g; DtCtag := m;
     AttCtag := AttCtag g; TtCtag := TtCtag g; vendorSpecificId := vendorSpecificId g |}.
Definition set_TtCtag (m : gmap Z Z) (g : Globals) : Globals :=
  {| currDtStag := currDtStag g; DtStag := DtStag g; DtCtag := DtCtag g;
     AttCtag := AttCtag g; TtCtag := m; vendorSpecificId := vendorSpecificId g |}.
Definition set_DtStag (s : Z) (m : gmap DtStagKey Z) (g : Globals) : Globals :=
  {| currDtStag := s; DtStag := m; DtCtag := DtCtag g;
     AttCtag := AttCtag g; TtCtag := TtCtag g; vendorSpecificId := vendorSpecificId g |}.
Definition set_vendorSpecificId (v : Z) (g : Globals) : Globals :=
  {| currDtStag := currDtStag g; DtStag := DtStag g; DtCtag := DtCtag g;
     AttCtag := AttCtag g; TtCtag := TtCtag g; vendorSpecificId := v |}.

(** ** Serial numbers *)

Definition vendorName : string := "ABCD".

(** [openolt.SerialNumber]; a Go byte slice is a list of bytes. *)
Record SerialNumber := { VendorId : list ascii; VendorSpecific : list ascii }.

Definition GenerateNextONUSerialNumber (g : Globals) : SerialNumber * Globals :=
  let vi := String.list_ascii_of_string vendorName in
  let id := vendorSpecificId g + 1 in
  let vs := String.list_ascii_of_string (Itoa id) in
  ({| VendorId := vi; VendorSpecific := vs |}, set_vendorSpecificId id g).

(** [fmt.Sprintf "%x"] of a number below 16. *)
Definition Sprintf_x (v : Z) : string :=
  match v with
  | 0 => "0" | 1 => "1" | 2 => "2" | 3 => "3" | 4 => "4" | 5 => "5" | 6 => "6" | 7 => "7"
  | 8 => "8" | 9 => "9" | 10 => "a" | 11 => "b" | 12 => "c" | 13 => "d" | 14 => "e" | _ => "f"
  end.

Definition byte_val (c : ascii) : Z := Z.of_N (N_of_ascii c).

(** [None]: an index is out of range and the call panics. *)
Definition stringifyVendorSpecific (vendorSpecific : list ascii) : option string :=
  match vendorSpecific with
  | b0 :: b1 :: b2 :: b3 :: _ =>
      Some (Sprintf_x (Z.land (Z.shiftr (byte_val b0) 4) 15) +:+
            Sprintf_x (Z.land (byte_val b0) 15) +:+
            Sprintf_x (Z.land (Z.shiftr (byte_val b1) 4) 15) +:+
            Sprintf_x (Z.land (byte_val b1) 15) +:+
            Sprintf_x (Z.land (Z.shiftr (byte_val b2) 4) 15) +:+
            Sprintf_x (Z.land (byte_val b2) 15) +:+
            Sprintf_x (Z.land (Z.shiftr (byte_val b3) 4) 15) +:+
            Sprintf_x (Z.land (byte_val b3) 15))
  | _ => None
  end.

(** The argument is a pointer: [None] is nil. *)
Definition stringifySerialNumber (serialNum : option SerialNumber) : option string :=
  match serialNum with
  | Some sn =>
      match stringifyVendorSpecific (VendorSpecific sn) with
      | Some s => Some (String.string_of_list_ascii (VendorId sn) +:+ s)
      | None => None
      end
  | None => Some ""
  end.

(** ** Port numbers *)

Definition bitsForUniID : Z := 4.
Definition bitsForONUID : Z := 8.
Definition MaxOnusPerPon : Z := Z.shiftl 1 bitsForONUID.

(** The test against [MaxOnusPerPon] only logs a warning. *)
Definition MkUniPortNum (intfID onuID uniID : Z) : Z :=
  Z.lor (Z.lor (u32 (Z.shiftl intfID (bitsForUniID + bitsForONUID)))
               (u32 (Z.shiftl onuID bitsForUniID)))
        uniID.

(** ** VLAN tags *)

Definition GetAttCtag (ponIntf : Z) (g : Globals) : Z * Globals :=
  match AttCtag g !! ponIntf with
  | None => (2, set_AttCtag (<[ponIntf := 2]> (AttCtag g)) g)
  | Some currCtag =>
      (u32 (currCtag + 1), set_AttCtag (<[ponIntf := u32 (currCtag + 1)]> (AttCtag g)) g)
  end.

Definition GetDtCtag (ponIntf : Z) (g : Globals) : Z * Globals :=
  match DtCtag g !! ponIntf with
  | None => (1, set_DtCtag (<[ponIntf := 1]> (DtCtag g)) g)
  | Some currCtag =>
      (u32 (currCtag + 1), set_DtCtag (<[ponIntf := u32 (currCtag + 1)]> (DtCtag g)) g)
  end.

Definition GetTtCtag (ponIntf : Z) (g : Globals) : Z * Globals :=
  match TtCtag g !! ponIntf with
  | None => (1, set_TtCtag (<[ponIntf := 1]> (TtCtag g)) g)
  | Some currCtag =>
      (u32 (currCtag + 1), set_TtCtag (<[ponIntf := u32 (currCtag + 1)]> (TtCtag g)) g)
  end.

Definition GetAttStag (ponIntf : Z) : Z := u32 (ponIntf + 2).

Definition GetDtStag (ponIntf onuID uniID : Z) (g : Globals) : Z * Globals :=
  let key := {| dk_ponIntf := ponIntf; dk_onuID := onuID; dk_uniID := uniID |} in
  match DtStag g !! key with
  | Some value => (value, g)
  | None => let s := u32 (currDtStag g + 1) in
            (s, set_DtStag s (<[key := s]> (DtStag g)) g)
  end.

Definition GetTtStag (ponIntf : Z) : Z := u32 (ponIntf + 2).

Definition GetCtag (workFlowName : string) (ponIntf : Z) (g : Globals) : Z * Globals :=
  if decide (workFlowName = "ATT") then GetAttCtag ponIntf g
  else if decide (workFlowName = "DT") then GetDtCtag ponIntf g
  else if decide (workFlowName = "TT") then GetTtCtag ponIntf g
  else (0, g).

Definition GetStag (workFlowName : string) (ponIntf onuID uniID : Z) (g : Globals)
    : Z * Globals :=
  if decide (workFlowName = "ATT") then (GetAttStag ponIntf, g)
  else if decide (workFlowName = "DT") then GetDtStag ponIntf onuID uniID g
  else if decide (workFlowName = "TT") then (GetTtStag ponIntf, g)
  else (0, g).

(** The tags of a sequence of subscribers, allocated one after the other the
    way [OnuDevice.Start] does (the C-tag first): [(ponIntf, onuID, uniID)] to
    [(stag, ctag)]. *)
Fixpoint tag_all (wf : string) (subs : list (Z * Z * Z)) (g : Globals)
    : list (Z * Z) * Globals :=
  match subs with
  | [] => ([], g)
  | (p, o, u) :: subs' =>
      let '(c, g1) := GetCtag wf p g in
      let '(s, g2) := GetStag wf p o u g1 in
      let '(l, g3) := tag_all wf subs' g2 in
      ((s, c) :: l, g3)
  end.

(** ** Lemmas *)

Lemma MkUniPortNum_sum i o u :
  0 <= i < 2 ^ 20 -> 0 <= o < 2 ^ 8 -> 0 <= u < 2 ^ 4 ->
  MkUniPortNum i o u = i * 2 ^ 12 + o * 2 ^ 4 + u.
Proof.
  intros Hi Ho Hu. unfold MkUniPortNum, bitsForUniID, bitsForONUID.
  rewrite !Z.shiftl_mul_pow2, !u32_small by lia.
  rewrite lor_shift_add by lia.
  replace (i * 2 ^ (4 + 8) + o * 2 ^ 4) with ((i * 2 ^ 8 + o) * 2 ^ 4) by lia.
  rewrite lor_shift_add by lia. lia.
Qed.

Lemma GetCtag_ATT p g : GetCtag "ATT" p g = GetAttCtag p g.
Proof. reflexivity. Qed.
Lemma GetCtag_DT p g : GetCtag "DT" p g = GetDtCtag p g.
Proof. reflexivity. Qed.
Lemma GetCtag_TT p g : GetCtag "TT" p g = GetTtCtag p g.
Proof. reflexivity. Qed.
Lemma GetStag_DT p o u g : GetStag "DT" p o u g = GetDtStag p o u g.
Proof. reflexivity. Qed.

(** The step the three C-tag counters share, with its first value. *)
Definition next_ctag (start : Z) (m : gmap Z Z) (p : Z) : Z * gmap Z Z :=
  match m !! p with
  | None => (start, <[p := start]> m)
  | Some c => (u32 (c + 1), <[p := u32 (c + 1)]> m)
  end.

Lemma GetAttCtag_next p g :
  GetAttCtag p g = (fst (next_ctag 2 (AttCtag g) p), set_AttCtag (snd (next_ctag 2 (AttCtag g) p)) g).
Proof. unfold GetAttCtag, next_ctag. by destruct (_ !! _). Qed.
Lemma GetTtCtag_next p g :
  GetTtCtag p g = (fst (next_ctag 1 (TtCtag g) p), set_TtCtag (snd (next_ctag 1 (TtCtag g) p)) g).
Proof. unfold GetTtCtag, next_ctag. by destruct (_ !! _). Qed.
Lemma GetDtCtag_next p g :
  GetDtCtag p g = (fst (next_ctag 1 (DtCtag g) p), set_DtCtag (snd (next_ctag 1 (DtCtag g) p)) g).
Proof. unfold GetDtCtag, next_ctag. by destruct (_ !! _). Qed.

Fixpoint pon_tags (start : Z) (ps : list Z) (m : gmap Z Z) : list (Z * Z) :=
  match ps with
  | [] => []
  | p :: ps' => let '(c, m') := next_ctag start m p in
                (u32 (p + 2), c) :: pon_tags start ps' m'
  end.

Lemma tag_all_ATT subs g :
  (tag_all "ATT" subs g).1 = pon_tags 2 ((fun s => s.1.1) <$> subs) (AttCtag g).
Proof.
  revert g. induction subs as [|[[p o] u] subs IH]; intros g; csimpl; [done|].
  rewrite GetCtag_ATT, GetAttCtag_next.
  destruct (next_ctag 2 (AttCtag g) p) as [c m]. cbn [fst snd].
  match goal with |- context [tag_all _ subs ?g'] =>
    specialize (IH g'); destruct (tag_all _ subs g') as [l g3] end.
  cbn in *. by rewrite IH.
Qed.

Lemma tag_all_TT subs g :
  (tag_all "TT" subs g).1 = pon_tags 1 ((fun s => s.1.1) <$> subs) (TtCtag g).
Proof.
  revert g. induction subs as [|[[p o] u] subs IH]; intros g; csimpl; [done|].
  rewrite GetCtag_TT, GetTtCtag_next.
  destruct (next_ctag 1 (TtCtag g) p) as [c m]. cbn [fst snd].
  match goal with |- context [tag_all _ subs ?g'] =>
    specialize (IH g'); destruct (tag_all _ subs g') as [l g3] end.
  cbn in *. by rewrite IH.
Qed.

(** The last C-tag given on a PON; one below the first value before that. *)
Definition last_ctag (start : Z) (m : gmap Z Z) (p : Z) : Z := default (start - 1) (m !! p).

Lemma next_ctag_last start m p q :
  0 <= start - 1 -> 0 <= last_ctag start m p < 2 ^ 32 - 1 ->
  (next_ctag start m p).1 = last_ctag start m p + 1
  /\ last_ctag start (next_ctag start m p).2 q
     = if decide (p = q) then last_ctag start m p + 1 else last_ctag start m q.
Proof.
  intros Hs Hl. unfold next_ctag, last_ctag in *.
  destruct (m !! p) as [c|] eqn:E; simpl in *.
  - rewrite u32_small by lia. split; [done|]. rewrite lookup_insert. by case_decide.
  - split; [lia|]. rewrite lookup_insert. case_decide; simpl; [lia|done].
Qed.

Lemma pon_tags_bounds start ps m p s c :
  0 <= start - 1 ->
  (forall q, 0 <= last_ctag start m q < 2 ^ 32 - Z.of_nat (length ps)) ->
  is_u32 p -> Forall is_u32 ps ->
  (s, c) ∈ pon_tags start ps m -> s = u32 (p + 2) -> last_ctag start m p < c.
Proof.
  intros Hs. revert m. induction ps as [|q ps IH]; intros m Hm Hp Hps Hin ->; csimpl in *.
  { by apply not_elem_of_nil in Hin. }
  apply Forall_cons in Hps as [Hq Hps].
  pose proof (fun r => next_ctag_last start m q r Hs ltac:(specialize (Hm q); lia)) as Hn.
  destruct (next_ctag start m q) as [c' m']. simpl in Hn.
  apply elem_of_cons in Hin as [Heq|Hin].
  - injection Heq as Hpq ->. apply u32_inj_shift in Hpq as ->; [|done..].
    destruct (Hn q) as [-> _]. lia.
  - apply IH in Hin; [|..|done|done|done].
    + destruct (Hn p) as [_ Hl]. rewrite Hl in Hin. case_decide; subst; lia.
    + intros r. destruct (Hn r) as [_ ->]. case_decide; subst; [specialize (Hm r)|specialize (Hm r)]; lia.
Qed.

Lemma pon_tags_NoDup start ps m :
  0 <= start - 1 ->
  (forall q, 0 <= last_ctag start m q < 2 ^ 32 - Z.of_nat (length ps)) ->
  Forall is_u32 ps -> NoDup (pon_tags start ps m).
Proof.
  intros Hs. revert m. induction ps as [|q ps IH]; intros m Hm Hps; csimpl in *; [constructor|].
  apply Forall_cons in Hps as [Hq Hps].
  pose proof (fun r => next_ctag_last start m q r Hs ltac:(specialize (Hm q); lia)) as Hn.
  destruct (next_ctag start m q) as [c' m']. simpl in Hn.
  assert (forall r, 0 <= last_ctag start m' r < 2 ^ 32 - Z.of_nat (length ps)) as Hm'.
  { intros r. destruct (Hn r) as [_ ->]. case_decide; subst; specialize (Hm r); lia. }
  constructor; [|by apply IH].
  intros Hin. pose proof (pon_tags_bounds _ _ _ q _ _ Hs Hm' Hq Hps Hin eq_refl) as Hlt.
  destruct (Hn q) as [-> Hl]. rewrite Hl, decide_True in Hlt by done. lia.
Qed.

(** The invariant of the S-tag table of the DT workflow. *)
Record dt_inv (g : Globals) : Prop := {
  dt_range : forall k s, DtStag g !! k = Some s -> 1 <= s <= currDtStag g;
  dt_inj : forall k1 k2 s, DtStag g !! k1 = Some s -> DtStag g !! k2 = Some s -> k1 = k2;
  dt_nonneg : 0 <= currDtStag g;
}.

Lemma dt_inv_init : dt_inv init_globals.
Proof. split; [done..|]. cbn. lia. Qed.

Lemma GetDtStag_spec p o u g :
  dt_inv g -> currDtStag g < 2 ^ 32 - 1 ->
  let '(s, g') := GetDtStag p o u g in
  dt_inv g' /\ DtStag g ⊆ DtStag g' /\ currDtStag g <= currDtStag g' <= currDtStag g + 1
  /\ DtStag g' !! {| dk_ponIntf := p; dk_onuID := o; dk_uniID := u |} = Some s.
Proof.
  intros [Hr Hi Hn] Hb. unfold GetDtStag.
  set (k := {| dk_ponIntf := p; dk_onuID := o; dk_uniID := u |}).
  destruct (DtStag g !! k) as [s|] eqn:E.
  - split_and!; [done|done|lia|lia|done].
  - rewrite u32_small by lia. split_and!; [split| | | |]; cbn.
    + intros k' s. rewrite lookup_insert. case_decide; intros Hk; [simplify_eq; lia|].
      apply Hr in Hk. lia.
    + intros k1 k2 s. rewrite !lookup_insert. intros H1 H2.
      repeat case_decide; simplify_eq; try done; try (by eauto);
        match goal with Hk : DtStag g !! _ = Some _ |- _ => apply Hr in Hk; lia end.
    + lia.
    + by apply insert_subseteq.
    + lia.
    + lia.
    + apply lookup_insert_eq.
Qed.

Lemma tag_all_DT subs g :
  dt_inv g -> currDtStag g + Z.of_nat (length subs) < 2 ^ 32 ->
  let '(l, g') := tag_all "DT" subs g in
  dt_inv g' /\ DtStag g ⊆ DtStag g'
  /\ Forall2 (fun sub t => DtStag g' !! {| dk_ponIntf := sub.1.1; dk_onuID := sub.1.2;
                                           dk_uniID := sub.2 |} = Some t.1) subs l.
Proof.
  revert g. induction subs as [|[[p o] u] subs IH]; intros g Hg Hb; csimpl in *; [done|].
  rewrite GetCtag_DT, GetDtCtag_next. cbn.
  set (g1 := set_DtCtag _ g). rewrite GetStag_DT.
  assert (dt_inv g1) as Hg1 by (destruct Hg; by split).
  pose proof (GetDtStag_spec p o u g1 Hg1 ltac:(cbn; lia)) as Hs.
  destruct (GetDtStag p o u g1) as [s g2]. destruct Hs as (Hg2 & Hsub & Hc & Hk).
  specialize (IH g2 Hg2 ltac:(cbn in Hc; lia)).
  destruct (tag_all "DT" subs g2) as [l g3]. destruct IH as (Hg3 & Hsub' & Hl).
  split_and!; [done|by etrans|]. constructor; [|done].
  by eapply lookup_weaken.
Qed.

Lemma Forall2_NoDup_fst {A K V} `{Countable K} (m : gmap K V) (key : A -> K)
    (l : list A) (r : list (V * V)) :
  (forall a b, key a = key b -> a = b) ->
  (forall k1 k2 v, m !! k1 = Some v -> m !! k2 = Some v -> k1 = k2) ->
  NoDup l -> Forall2 (fun a t => m !! key a = Some t.1) l r -> NoDup r.
Proof.
  intros Hkey Hinj. revert r. induction l as [|a l IH]; intros r Hnd Hr.
  - apply Forall2_nil_inv_l in Hr as ->. constructor.
  - apply Forall2_cons_inv_l in Hr as (t & r' & Ht & Hr & ->).
    apply NoDup_cons in Hnd as [Ha Hnd]. constructor; [|by apply IH].
    intros Hin. apply list_elem_of_lookup in Hin as [i Hi].
    destruct (Forall2_lookup_r _ _ _ _ _ Hr Hi) as (b & Hb & Hbt).
    apply Ha. rewrite (Hkey a b); [|by eapply Hinj]. by eapply list_elem_of_lookup_2.
Qed.

(** The serial number rendered for the value [n] of [vendorSpecificId]. *)
Definition serial_string (n : Z) : option string :=
  stringifySerialNumber
    (Some (GenerateNextONUSerialNumber (set_vendorSpecificId (n - 1) init_globals)).1).

(** The serials of the first [k] calls, starting from the globals [g]. *)
Fixpoint serials (k : nat) (g : Globals) : list (option string) :=
  match k with
  | O => []
  | S k' => let '(sn, g') := GenerateNextONUSerialNumber g in
            stringifySerialNumber (Some sn) :: serials k' g'
  end.

Lemma serials_eq k g :
  serials k g = serial_string <$> seqZ (vendorSpecificId g + 1) (Z.of_nat k).
Proof.
  revert g. induction k as [|k IH]; intros g; [done|].
  rewrite seqZ_cons by lia. rewrite Nat2Z.inj_succ, Z.pred_succ.
  cbn [fmap list_fmap].
  change (serials (S k) g) with
    (stringifySerialNumber (Some (GenerateNextONUSerialNumber g).1)
     :: serials k (set_vendorSpecificId (vendorSpecificId g + 1) g)).
  rewrite IH.
  cbn [vendorSpecificId set_vendorSpecificId].
  rewrite <-Z.add_1_r. f_equal.
  unfold serial_string, GenerateNextONUSerialNumber. cbn. by rewrite Z.add_simpl_r.
Qed.

Lemma serial_string_eq n :
  serial_string n =
  match stringifyVendorSpecific (String.list_ascii_of_string (Itoa n)) with
  | Some s => Some ("ABCD" +:+ s)
  | None => None
  end.
Proof. unfold serial_string. cbn. by rewrite Z.sub_add. Qed.

Lemma four_digits n :
  1000 <= n <= 9999 ->
  exists a b c d : N, (a < 10)%N /\ (b < 10)%N /\ (c < 10)%N /\ (d < 10)%N /\
    Itoa n = String (pretty_N_char a) (String (pretty_N_char b)
               (String (pretty_N_char c) (String (pretty_N_char d) ""))).
Proof.
  intros Hn.
  exists (Z.to_N (n / 1000)), (Z.to_N (n / 100 mod 10)), (Z.to_N (n / 10 mod 10)), (Z.to_N (n mod 10)).
  assert (0 <= n mod 10 < 10 /\ 0 <= n / 10 mod 10 < 10 /\ 0 <= n / 100 mod 10 < 10
    /\ 0 < n / 1000 < 10) as (?&?&?&?) by (Z.div_mod_to_equations; lia).
  split_and!; [lia..|].
  replace (Itoa n) with (Itoa (10 * (10 * (10 * (n / 1000) + n / 100 mod 10) + n / 10 mod 10) + n mod 10))
    by (f_equal; Z.div_mod_to_equations; lia).
  rewrite !Itoa_snoc by lia. by rewrite Itoa_digit by lia.
Qed.

(** An ASCII digit renders as ["3"] followed by the digit itself. *)
Lemma Sprintf_x_digit x :
  (x < 10)%N ->
  Sprintf_x (Z.land (Z.shiftr (byte_val (pretty_N_char x)) 4) 15) = "3"
  /\ Sprintf_x (Z.land (byte_val (pretty_N_char x)) 15) = String (pretty_N_char x) "".
Proof.
  intros Hx.
  assert (x = 0 \/ x = 1 \/ x = 2 \/ x = 3 \/ x = 4 \/ x = 5 \/ x = 6 \/ x = 7
    \/ x = 8 \/ x = 9)%N as H by lia.
  destruct_or! H; by subst.
Qed.

Lemma stringify_digits a b c d rest :
  (a < 10)%N -> (b < 10)%N -> (c < 10)%N -> (d < 10)%N ->
  stringifyVendorSpecific
    (pretty_N_char a :: pretty_N_char b :: pretty_N_char c :: pretty_N_char d :: rest)
  = Some (String "3" (String (pretty_N_char a) (String "3" (String (pretty_N_char b)
      (String "3" (String (pretty_N_char c) (String "3" (String (pretty_N_char d) "")))))))).
Proof.
  intros Ha Hb Hc Hd. unfold stringifyVendorSpecific.
  rewrite !(fun x H => proj1 (Sprintf_x_digit x H)), !(fun x H => proj2 (Sprintf_x_digit x H)) by done.
  done.
Qed.

Lemma list_ascii_app s t :
  String.list_ascii_of_string (s +:+ t)
  = String.list_ascii_of_string s ++ String.list_ascii_of_string t.
Proof. induction s as [|c s IH]; simpl; [done|by rewrite IH]. Qed.

Lemma Itoa_four n :
  1000 <= n -> exists a b c d rest, String.list_ascii_of_string (Itoa n) = a :: b :: c :: d :: rest.
Proof.
  intros Hn. assert (forall k, 1 <= k ->
    (1 <= length (String.list_ascii_of_string (Itoa k)))%nat) as H1.
  { intros k Hk. destruct k as [|k|]; [lia| |lia]. unfold Itoa, pretty, pretty_Z.
    destruct (pretty_N_spec (Npos k)) as (c & s & Hs & _). unfold pretty, pretty_positive.
    rewrite Hs. simpl. lia. }
  assert (forall k j, (j <= 3)%nat -> 10 ^ Z.of_nat j <= k ->
    (S j <= length (String.list_ascii_of_string (Itoa k)))%nat) as Hj.
  { intros k j. revert k. induction j as [|j IH]; intros k Hle Hk; [by apply H1|].
    rewrite Nat2Z.inj_succ, Z.pow_succ_r in Hk by lia.
    pose proof (Z.div_mod k 10 ltac:(lia)) as Hdm. pose proof (Z.mod_pos_bound k 10 ltac:(lia)).
    assert (10 ^ Z.of_nat j <= k / 10) by (apply Z.div_le_lower_bound; lia).
    assert (0 < 10 ^ Z.of_nat j) by lia.
    rewrite Hdm, Itoa_snoc by lia. rewrite list_ascii_app, length_app.
    specialize (IH (k / 10) ltac:(lia) ltac:(lia)). simpl. lia. }
  specialize (Hj n 3%nat ltac:(lia) ltac:(lia)).
  destruct (String.list_ascii_of_string (Itoa n)) as [|a [|b [|c [|d rest]]]]; simpl in Hj; try lia.
  by eexists _, _, _, _, _.
Qed.

(** ** Properties *)

(** C27.  The UNI port number packs its three fields without loss: for a PON
    index below 2^20, an ONU id below 2^8 and a UNI id below 2^4 the number
    fits a [uint32] and the fields are read back by shifts and masks, so
    distinct triples in these ranges get distinct port numbers. *)
Theorem MkUniPortNum_roundtrip (i o u : Z) :
  0 <= i < 2 ^ 20 -> 0 <= o < 2 ^ bitsForONUID -> 0 <= u < 2 ^ bitsForUniID ->
  let n := MkUniPortNum i o u in
  is_u32 n
  /\ Z.land n (Z.ones bitsForUniID) = u
  /\ Z.land (Z.shiftr n bitsForUniID) (Z.ones bitsForONUID) = o
  /\ Z.shiftr n (bitsForUniID + bitsForONUID) = i.
Proof.
  intros Hi Ho Hu n. subst n. unfold bitsForONUID, bitsForUniID in *.
  rewrite MkUniPortNum_sum by done. unfold is_u32.
  rewrite !Z.land_ones, !Z.shiftr_div_pow2 by lia.
  split; [lia|]. split_and!; Z.div_mod_to_equations; lia.
Qed.

Lemma MkUniPortNum_roundtrip_witness :
  Z.land (MkUniPortNum 15 255 7) (Z.ones bitsForUniID) = 7.
Proof. apply (MkUniPortNum_roundtrip 15 255 7); unfold bitsForONUID, bitsForUniID; lia. Defined.

(** The field widths are real limits and nothing enforces them: a UNI id
    of 16 to 31 on an even ONU id gives the port number of UNI id minus 16 on
    the next ONU, so more than 16 subscribers per ONU share port numbers with
    another ONU of the PON. *)
Theorem MkUniPortNum_collision (i o u : Z) :
  0 <= i < 2 ^ 20 -> 0 <= o < 2 ^ bitsForONUID -> Z.even o = true -> 16 <= u < 32 ->
  MkUniPortNum i o u = MkUniPortNum i (o + 1) (u - 16).
Proof.
  unfold bitsForONUID. intros Hi Ho He Hu.
  apply Z.even_spec in He as [h ->].
  rewrite (MkUniPortNum_sum i (2 * h + 1)) by lia.
  unfold MkUniPortNum, bitsForUniID, bitsForONUID.
  rewrite !Z.shiftl_mul_pow2, !u32_small by lia.
  rewrite lor_shift_add by lia.
  replace (i * 2 ^ (4 + 8) + 2 * h * 2 ^ 4) with ((i * 2 ^ 7 + h) * 2 ^ 5) by lia.
  rewrite lor_shift_add by lia. lia.
Qed.

Lemma MkUniPortNum_collision_witness : MkUniPortNum 3 4 17 = MkUniPortNum 3 5 1.
Proof. apply (MkUniPortNum_collision 3 4 17); unfold bitsForONUID; try lia; reflexivity. Defined.

(** C21.  Every subscriber gets its own VLAN tags: whatever sequence of
    distinct (PON, ONU, UNI) triples is provisioned, in any order, under the
    ATT, DT or TT workflow, no two of them get the same (S-tag, C-tag) pair,
    as long as there are fewer than 2^32 - 2 of them. *)
Theorem tags_unique (wf : string) (subs : list (Z * Z * Z)) :
  wf ∈ ["ATT"; "DT"; "TT"] -> NoDup subs ->
  Forall (fun s => is_u32 s.1.1) subs -> Z.of_nat (length subs) < 2 ^ 32 - 2 ->
  NoDup (tag_all wf subs init_globals).1.
Proof.
  intros Hwf Hnd Hp Hlen.
  assert (forall start, 1 <= start <= 2 ->
    NoDup (pon_tags start ((fun s => s.1.1) <$> subs) ∅)) as Hpon.
  { intros start Hs. apply pon_tags_NoDup; [lia| |by apply Forall_fmap].
    intros q. unfold last_ctag. rewrite lookup_empty, length_fmap. simpl. lia. }
  rewrite !elem_of_cons in Hwf. destruct Hwf as [->|[->|[->|[]%not_elem_of_nil]]].
  - rewrite tag_all_ATT. by apply Hpon.
  - pose proof (tag_all_DT subs init_globals dt_inv_init ltac:(cbn; lia)) as Hdt.
    destruct (tag_all "DT" subs init_globals) as [l g']. destruct Hdt as (Hg' & _ & Hl).
    eapply Forall2_NoDup_fst with (m := DtStag g')
      (key := fun sub : Z * Z * Z => {| dk_ponIntf := sub.1.1; dk_onuID := sub.1.2; dk_uniID := sub.2 |});
      [|apply Hg'|done..].
    intros [[??]?] [[??]?]. naive_solver.
  - rewrite tag_all_TT. by apply Hpon.
Qed.

Lemma tags_unique_witness :
  NoDup (tag_all "ATT" [(0, 1, 0); (0, 1, 1); (1, 1, 0)] init_globals).1
  /\ NoDup (tag_all "DT" [(0, 1, 0); (0, 1, 1); (1, 1, 0)] init_globals).1.
Proof.
  split; apply tags_unique; try (repeat constructor; unfold is_u32; cbn; lia);
    try (set_solver); cbn; try lia; apply (bool_decide_unpack _); by vm_compute.
Defined.

(** C26.  The serial numbers of the first 8999 ONUs are pairwise distinct:
    the ids 1001 to 9999 render to different strings. *)
Theorem serials_unique (k : nat) :
  Z.of_nat k <= 8999 -> NoDup (serials k init_globals).
Proof.
  intros Hk. rewrite serials_eq. cbn [vendorSpecificId init_globals].
  apply NoDup_fmap_2_strong; [|apply NoDup_seqZ].
  intros n m Hn Hm. rewrite elem_of_seqZ in Hn, Hm. rewrite !serial_string_eq.
  destruct (four_digits n ltac:(lia)) as (a & b & c & d & Ha & Hb & Hc & Hd & En).
  destruct (four_digits m ltac:(lia)) as (a' & b' & c' & d' & Ha' & Hb' & Hc' & Hd' & Em).
  rewrite En, Em. cbn [String.list_ascii_of_string]. rewrite !stringify_digits by done.
  intros [= H1 H2 H3 H4]. apply (inj (pretty (A := Z))).
  change (Itoa n = Itoa m). by rewrite En, Em, H1, H2, H3, H4.
Qed.

Lemma serials_unique_witness : NoDup (serials 20 init_globals).
Proof. apply serials_unique. lia. Defined.

(** From the 9000th ONU on the serial numbers repeat: only the first four
    bytes of the vendor-specific part are rendered, so every id from 10000 on
    has the serial number of the id without its last digit. *)
Theorem serial_collision (n d : Z) :
  1000 <= n -> 0 <= d < 10 -> serial_string (10 * n + d) = serial_string n.
Proof.
  intros Hn Hd. rewrite !serial_string_eq, Itoa_snoc, list_ascii_app by lia.
  by destruct (Itoa_four n Hn) as (a & b & c & e & rest & ->).
Qed.

Lemma serial_collision_witness : serial_string 10005 = serial_string 1000.
Proof. apply (serial_collision 1000 5); lia. Defined.
