(* ===== verification/Proto.v ===== *)
(** * Messages of the OpenOLT gRPC interface, gRPC errors

    The protobuf messages the program builds and reads (package [oop],
    src/vendor/.../openolt.pb.go, and [tp_pb], .../tech_profile.pb.go), each as
    a record of the fields the program ever sets or reads: the remaining fields
    keep their protobuf zero value throughout.  Enumerations have the source's
    constructors.  [Request] is one RPC sent to the OLT agent. *)
From S2P Require Import Prelude Utils.
From Stdlib Require Import Ascii.

(** ** Technology profiles *)

Inductive Direction := Direction_UPSTREAM | Direction_DOWNSTREAM | Direction_BIDIRECTIONAL.
Inductive SchedulingPolicy :=
  SchedulingPolicy_WRR | SchedulingPolicy_StrictPriority | SchedulingPolicy_Hybrid.
Inductive AdditionalBW :=
  AdditionalBW_None | AdditionalBW_NA | AdditionalBW_BestEffort | AdditionalBW_Auto.
Inductive DiscardPolicy :=
  DiscardPolicy_TailDrop | DiscardPolicy_WTailDrop | DiscardPolicy_Red | DiscardPolicy_WRed.

#[export] Instance Direction_eq_dec : EqDecision Direction.
Proof. solve_decision. Defined.

Record SchedulerConfig := {
  sc_Direction : Direction;
  sc_AdditionalBw : AdditionalBW;
  sc_Priority : Z;
  sc_Weight : Z;
  sc_SchedPolicy : SchedulingPolicy;
}.

Record TrafficShapingInfo := { Cir : Z; Cbs : Z; Pir : Z; Pbs : Z }.

Record TrafficScheduler := {
  ts_Direction : Direction;
  ts_AllocId : Z;
  ts_Scheduler : SchedulerConfig;
  ts_TrafficShapingInfo : TrafficShapingInfo;
}.

Record TrafficSchedulers := {
  tss_IntfId : Z;
  tss_OnuId : Z;
  tss_UniId : Z;
  tss_PortNo : Z;
  tss_TrafficScheds : list TrafficScheduler;
}.

Record TrafficQueue := {
  tq_Direction : Direction;
  tq_GemportId : Z;
  tq_PbitMap : string;
  tq_AesEncryption : bool;
  tq_SchedPolicy : SchedulingPolicy;
  tq_Priority : Z;
  tq_Weight : Z;
  tq_DiscardPolicy : DiscardPolicy;
}.

Record TrafficQueues := {
  tqs_IntfId : Z;
  tqs_OnuId : Z;
  tqs_UniId : Z;
  tqs_PortNo : Z;
  tqs_TrafficQueues : list TrafficQueue;
}.

Record SchedulerAttributes := {
  sa_Direction : Direction;
  sa_AllocId : Z;
  sa_AdditionalBw : AdditionalBW;
  sa_Priority : Z;
  sa_Weight : Z;
  sa_QSchedPolicy : SchedulingPolicy;
}.

Record GemPortAttributes := {
  gp_GemportId : Z;
  gp_PbitMap : string;
  gp_AesEncryption : string;
  gp_SchedulingPolicy : SchedulingPolicy;
  gp_PriorityQ : Z;
  gp_Weight : Z;
  gp_DiscardPolicy : DiscardPolicy;
  gp_IsMulticast : string;
}.

(** The scheduler fields are pointers; the elements of the two lists are
    pointers to structs built by [allocateTPInstance], never nil. *)
Record TechProfileInstance := {
  UsScheduler : option SchedulerAttributes;
  DsScheduler : option SchedulerAttributes;
  UpstreamGemPortAttributeList : list GemPortAttributes;
  DownstreamGemPortAttributeList : list GemPortAttributes;
}.

(** ** Flows *)

Record Classifier := {
  cl_OVid : Z;
  cl_IVid : Z;
  cl_OPbits : Z;
  cl_IPbits : Z;
  cl_EthType : Z;
  cl_DstMac : list Z;
  cl_IpProto : Z;
  cl_SrcPort : Z;
  cl_DstPort : Z;
  cl_PktTagType : string;
}.

Definition zero_Classifier : Classifier :=
  {| cl_OVid := 0; cl_IVid := 0; cl_OPbits := 0; cl_IPbits := 0; cl_EthType := 0;
     cl_DstMac := []; cl_IpProto := 0; cl_SrcPort := 0; cl_DstPort := 0;
     cl_PktTagType := "" |}.

Definition set_OPbits (v : Z) (c : Classifier) : Classifier :=
  {| cl_OVid := cl_OVid c; cl_IVid := cl_IVid c; cl_OPbits := v; cl_IPbits := cl_IPbits c;
     cl_EthType := cl_EthType c; cl_DstMac := cl_DstMac c; cl_IpProto := cl_IpProto c;
     cl_SrcPort := cl_SrcPort c; cl_DstPort := cl_DstPort c;
     cl_PktTagType := cl_PktTagType c |}.

Record ActionCmd := { AddOuterTag : bool; RemoveOuterTag : bool; TrapToHost : bool }.

Definition cmd_trap : ActionCmd :=
  {| AddOuterTag := false; RemoveOuterTag := false; TrapToHost := true |}.
Definition cmd_push : ActionCmd :=
  {| AddOuterTag := true; RemoveOuterTag := false; TrapToHost := false |}.
Definition cmd_pop : ActionCmd :=
  {| AddOuterTag := false; RemoveOuterTag := true; TrapToHost := false |}.

(** [act_Cmd] is a pointer: [None] is nil. *)
Record Action := {
  act_Cmd : option ActionCmd;
  act_OVid : Z;
  act_IVid : Z;
  act_OPbits : Z;
  act_IPbits : Z;
}.

Definition zero_Action : Action :=
  {| act_Cmd := None; act_OVid := 0; act_IVid := 0; act_OPbits := 0; act_IPbits := 0 |}.

(** [fl_Action] is a pointer: the multicast flow has none. *)
Record Flow := {
  fl_AccessIntfId : Z;
  fl_OnuId : Z;
  fl_UniId : Z;
  fl_FlowId : Z;
  fl_SymmetricFlowId : Z;
  fl_FlowType : string;
  fl_AllocId : Z;
  fl_GemportId : Z;
  fl_Classifier : Classifier;
  fl_Action : option Action;
  fl_Priority : Z;
  fl_PortNo : Z;
  fl_GroupId : Z;
  fl_ReplicateFlow : bool;
  fl_PbitToGemport : gmap Z Z;
}.

(** ** Multicast groups, ONUs *)

Inductive GroupMembersCommand := Group_ADD_MEMBERS | Group_REMOVE_MEMBERS | Group_SET_MEMBERS.
Inductive InterfaceType := GroupMember_PON | GroupMember_EPON_1G_PATH | GroupMember_EPON_10G_PATH.

Record GroupMember := {
  gm_InterfaceId : Z;
  gm_InterfaceType : InterfaceType;
  gm_GemPortId : Z;
  gm_Priority : Z;
}.

Record Group := { gr_GroupId : Z; gr_Command : GroupMembersCommand; gr_Members : list GroupMember }.

Record Onu := { ou_IntfId : Z; ou_OnuId : Z; ou_SerialNumber : SerialNumber; ou_Pir : Z }.

(** ** Requests sent to the OLT agent *)

Inductive Request :=
  | RpcActivateOnu (onu : Onu)
  | RpcFlowAdd (flow : Flow)
  | RpcCreateTrafficSchedulers (scheds : TrafficSchedulers)
  | RpcCreateTrafficQueues (queues : TrafficQueues)
  | RpcRemoveTrafficQueues (queues : TrafficQueues)
  | RpcPerformGroupOperation (group : Group).

(** ** gRPC status codes and Go errors *)

Inductive Code :=
  | OK | Canceled | Unknown | InvalidArgument | DeadlineExceeded | NotFound | AlreadyExists
  | PermissionDenied | ResourceExhausted | FailedPrecondition | Aborted | OutOfRange
  | Unimplemented | Internal | Unavailable | DataLoss | Unauthenticated.

#[export] Instance Code_eq_dec : EqDecision Code.
Proof. solve_decision. Defined.

(** [Code.String()]. *)
Definition Code_String (c : Code) : string :=
  match c with
  | OK => "OK" | Canceled => "Canceled" | Unknown => "Unknown"
  | InvalidArgument => "InvalidArgument" | DeadlineExceeded => "DeadlineExceeded"
  | NotFound => "NotFound" | AlreadyExists => "AlreadyExists"
  | PermissionDenied => "PermissionDenied" | ResourceExhausted => "ResourceExhausted"
  | FailedPrecondition => "FailedPrecondition" | Aborted => "Aborted"
  | OutOfRange => "OutOfRange" | Unimplemented => "Unimplemented"
  | Internal => "Internal" | Unavailable => "Unavailable" | DataLoss => "DataLoss"
  | Unauthenticated => "Unauthenticated"
  end.

(** A non-nil Go error: made by [errors.New], or a gRPC status. *)
Inductive GoError :=
  | ErrorsNew (msg : string)
  | StatusError (c : Code) (msg : string).

(** [err.Error()]. *)
Definition Error (e : GoError) : string :=
  match e with
  | ErrorsNew msg => msg
  | StatusError c msg => "rpc error: code = " +:+ Code_String c +:+ " desc = " +:+ msg
  end.

(** [status.FromError] followed by [Code]: OK for a nil error, the code of a
    gRPC status, Unknown for any other error. *)
Definition status_Code (err : option GoError) : Code :=
  match err with
  | None => OK
  | Some (StatusError c _) => c
  | Some (ErrorsNew _) => Unknown
  end.

(** The error a client call returns for the status the server answered with:
    nil exactly for OK ([Status.Err]). *)
Definition status_Err (st : Code * string) : option GoError :=
  if decide (st.1 = OK) then None else Some (StatusError st.1 st.2).

Lemma status_Code_Err st : status_Code (status_Err st) = st.1.
Proof. destruct st as [c m]. unfold status_Err. case_decide; by simpl in *. Qed.

Lemma status_Err_None st : status_Err st = None <-> st.1 = OK.
Proof. destruct st as [c m]. unfold status_Err. case_decide; split; by simpl. Qed.

(** ** Device description *)

Inductive PoolType := Pool_ONU_ID | Pool_ALLOC_ID | Pool_GEMPORT_ID | Pool_FLOW_ID.
#[export] Instance PoolType_eq_dec : EqDecision PoolType.
Proof. solve_decision. Defined.

Inductive SharingType :=
  DEDICATED_PER_INTF | SHARED_BY_ALL_INTF_ALL_TECH | SHARED_BY_ALL_INTF_SAME_TECH.

Record Pool := {
  pool_Type : PoolType;
  pool_Sharing : SharingType;
  pool_Start : Z;
  pool_End : Z;
}.

Record DeviceResourceRanges := {
  rr_IntfIds : list Z;
  rr_Technology : string;
  rr_Pools : list Pool;
}.

Record DeviceInfo := {
  di_Technology : string;
  di_PonPorts : Z;
  di_Ranges : list DeviceResourceRanges;
}.
