(* ===== verification/Runtime.v ===== *)
(** * The Go runtime the program uses, as an executable model

    A function of the source that has effects is a value of [prog A]: a finite
    tree of operations on the shared state.  Each operation [Op X] is one
    atomic action of the source (an RPC to the OLT agent, a critical section
    under a mutex, an atomic load or add, a WaitGroup method, an access to a
    heap object); [Go child k] is the [go] statement, [Panic] an unrecovered
    panic.  [exec] gives one operation its meaning on the store [World].
    [run] executes one goroutine alone; [step] interleaves any number of them,
    one operation at a time, until one panics: then the process is about to end.
    What the deferred calls of that goroutine, and the other goroutines, can still
    do to the process is in Process. *)
From S2P Require Import Prelude Utils Proto Config.

(** ** Heap objects *)

(** Resource types managed per PON ([ponrmgr.ONU_ID], ...). *)
Inductive ResourceType := ONU_ID | ALLOC_ID | GEMPORT_ID | FLOW_ID | UNI_ID.

(** [OpenOltResourceMgr]: the fields used after construction. *)
Record OpenOltResourceMgr := {
  rm_deviceInfo : DeviceInfo;
  rm_intfID : Z;
  rm_flow_id : Z;
}.

(** [Subscriber].  [RsrMgr] is a pointer, the index of the manager in
    [om.rsrMgr]; [subWg] names the WaitGroup.  The identifier lists, counters
    and failure lists of the struct are never written. *)
Record Subscriber := {
  SubscriberName : string;
  OnuID : Z;
  UniID : Z;
  PonIntf : Z;
  UniPortNo : Z;
  Ctag : Z;
  Stag : Z;
  Reason : string;
  TpInstance : gmap Z TechProfileInstance;
  TestConfig : OpenOltScaleTesterConfig;
  RsrMgr : nat;
  subWg : nat;
}.

Record OnuDeviceKey := { key_onuID : Z; key_ponInfID : Z }.

#[export] Instance OnuDeviceKey_eq_dec : EqDecision OnuDeviceKey.
Proof. solve_decision. Defined.

#[export] Instance OnuDeviceKey_countable : Countable OnuDeviceKey.
Proof.
  refine (inj_countable' (fun k => (key_onuID k, key_ponInfID k))
    (fun t => {| key_onuID := t.1; key_ponInfID := t.2 |}) _).
  by intros [].
Defined.

(** [OnuDevice]; the times are in nanoseconds, [None] the zero [time.Time].
    [onu_SubscriberMap] maps a subscriber name to the subscriber's address. *)
Record OnuDevice := {
  onu_SerialNum : string;
  onu_OnuID : Z;
  onu_PonIntf : Z;
  onu_StartTime : option Z;
  onu_EndTime : option Z;
  onu_DurationInMs : Z;
  onu_Reason : string;
  onu_SubscriberMap : gmap string nat;
  onu_testConfig : OpenOltScaleTesterConfig;
  onu_rsrMgr : nat;
  onu_onuWg : nat;
}.

(** ** The environment *)

(** [LogFatal] is [logger.Fatal], which ends the process. *)
Inductive PanicReason :=
  | NilDereference
  | IndexOutOfRange
  | DivideByZero
  | TypeAssertion
  | NegativeWaitGroup
  | LogFatal.

(** What is outside the program: the OLT agent, whose answer to a request is
    any function of the requests it received before; the pseudo-random source
    and the clock, as streams; the technology-profile manager of each PON,
    which keeps its state in a key-value store. *)
Class Env := {
  device : list Request -> Request -> Code * string;
  rand_src : nat -> Z;
  clock : nat -> Z;
  tp_state : Type;
  tp_GetResourceID :
    nat -> Z -> ResourceType -> Z -> tp_state -> (list Z * option GoError) * tp_state;
  tp_CreateTechProfileInstance :
    nat -> Z -> string -> Z -> tp_state -> (PanicReason + (option TechProfileInstance * option GoError)) * tp_state;
}.

(** ** The store *)

Record World `{Env} := {
  w_trace : list Request;                       (* requests sent, oldest first *)
  w_rsrMgr : list (option OpenOltResourceMgr);  (* om.rsrMgr; None is a nil pointer *)
  w_globals : Globals;
  w_lastPonIntf : Z;
  w_onus : list OnuDevice;                      (* heap, by address *)
  w_onuMap : gmap OnuDeviceKey nat;             (* om.OnuDeviceMap *)
  w_subs : list Subscriber;                     (* heap, by address *)
  w_wgs : list Z;                               (* WaitGroup counters *)
  w_rand : nat;                                 (* random numbers drawn *)
  w_clock : nat;                                (* clock readings made *)
  w_tp : tp_state;
  w_killed : bool;                              (* SIGINT sent to the process *)
}.

Section setters.
Context `{Env}.

Definition set_trace (t : list Request) (w : World) : World :=
  {| w_trace := t; w_rsrMgr := w_rsrMgr w; w_globals := w_globals w;
     w_lastPonIntf := w_lastPonIntf w; w_onus := w_onus w; w_onuMap := w_onuMap w;
     w_subs := w_subs w; w_wgs := w_wgs w; w_rand := w_rand w; w_clock := w_clock w;
     w_tp := w_tp w; w_killed := w_killed w |}.
Definition set_rsrMgr (l : list (option OpenOltResourceMgr)) (w : World) : World :=
  {| w_trace := w_trace w; w_rsrMgr := l; w_globals := w_globals w;
     w_lastPonIntf := w_lastPonIntf w; w_onus := w_onus w; w_onuMap := w_onuMap w;
     w_subs := w_subs w; w_wgs := w_wgs w; w_rand := w_rand w; w_clock := w_clock w;
     w_tp := w_tp w; w_killed := w_killed w |}.
Definition set_globals (g : Globals) (w : World) : World :=
  {| w_trace := w_trace w; w_rsrMgr := w_rsrMgr w; w_globals := g;
     w_lastPonIntf := w_lastPonIntf w; w_onus := w_onus w; w_onuMap := w_onuMap w;
     w_subs := w_subs w; w_wgs := w_wgs w; w_rand := w_rand w; w_clock := w_clock w;
     w_tp := w_tp w; w_killed := w_killed w |}.
Definition set_lastPonIntf (v : Z) (w : World) : World :=
  {| w_trace := w_trace w; w_rsrMgr := w_rsrMgr w; w_globals := w_globals w;
     w_lastPonIntf := v; w_onus := w_onus w; w_onuMap := w_onuMap w;
     w_subs := w_subs w; w_wgs := w_wgs w; w_rand := w_rand w; w_clock := w_clock w;
     w_tp := w_tp w; w_killed := w_killed w |}.
Definition set_onus (l : list OnuDevice) (w : World) : World :=
  {| w_trace := w_trace w; w_rsrMgr := w_rsrMgr w; w_globals := w_globals w;
     w_lastPonIntf := w_lastPonIntf w; w_onus := l; w_onuMap := w_onuMap w;
     w_subs := w_subs w; w_wgs := w_wgs w; w_rand := w_rand w; w_clock := w_clock w;
     w_tp := w_tp w; w_killed := w_killed w |}.
Definition set_onuMap (m : gmap OnuDeviceKey nat) (w : World) : World :=
  {| w_trace := w_trace w; w_rsrMgr := w_rsrMgr w; w_globals := w_globals w;
     w_lastPonIntf := w_lastPonIntf w; w_onus := w_onus w; w_onuMap := m;
     w_subs := w_subs w; w_wgs := w_wgs w; w_rand := w_rand w; w_clock := w_clock w;
     w_tp := w_tp w; w_killed := w_killed w |}.
Definition set_subs (l : list Subscriber) (w : World) : World :=
  {| w_trace := w_trace w; w_rsrMgr := w_rsrMgr w; w_globals := w_globals w;
     w_lastPonIntf := w_lastPonIntf w; w_onus := w_onus w; w_onuMap := w_onuMap w;
     w_subs := l; w_wgs := w_wgs w; w_rand := w_rand w; w_clock := w_clock w;
     w_tp := w_tp w; w_killed := w_killed w |}.
Definition set_wgs (l : list Z) (w : World) : World :=
  {| w_trace := w_trace w; w_rsrMgr := w_rsrMgr w; w_globals := w_globals w;
     w_lastPonIntf := w_lastPonIntf w; w_onus := w_onus w; w_onuMap := w_onuMap w;
     w_subs := w_subs w; w_wgs := l; w_rand := w_rand w; w_clock := w_clock w;
     w_tp := w_tp w; w_killed := w_killed w |}.
Definition set_rand (n : nat) (w : World) : World :=
  {| w_trace := w_trace w; w_rsrMgr := w_rsrMgr w; w_globals := w_globals w;
     w_lastPonIntf := w_lastPonIntf w; w_onus := w_onus w; w_onuMap := w_onuMap w;
     w_subs := w_subs w; w_wgs := w_wgs w; w_rand := n; w_clock := w_clock w;
     w_tp := w_tp w; w_killed := w_killed w |}.
Definition set_clock (n : nat) (w : World) : World :=
  {| w_trace := w_trace w; w_rsrMgr := w_rsrMgr w; w_globals := w_globals w;
     w_lastPonIntf := w_lastPonIntf w; w_onus := w_onus w; w_onuMap := w_onuMap w;
     w_subs := w_subs w; w_wgs := w_wgs w; w_rand := w_rand w; w_clock := n;
     w_tp := w_tp w; w_killed := w_killed w |}.
Definition set_tp (t : tp_state) (w : World) : World :=
  {| w_trace := w_trace w; w_rsrMgr := w_rsrMgr w; w_globals := w_globals w;
     w_lastPonIntf := w_lastPonIntf w; w_onus := w_onus w; w_onuMap := w_onuMap w;
     w_subs := w_subs w; w_wgs := w_wgs w; w_rand := w_rand w; w_clock := w_clock w;
     w_tp := t; w_killed := w_killed w |}.
Definition set_killed (w : World) : World :=
  {| w_trace := w_trace w; w_rsrMgr := w_rsrMgr w; w_globals := w_globals w;
     w_lastPonIntf := w_lastPonIntf w; w_onus := w_onus w; w_onuMap := w_onuMap w;
     w_subs := w_subs w; w_wgs := w_wgs w; w_rand := w_rand w; w_clock := w_clock w;
     w_tp := w_tp w; w_killed := true |}.

End setters.

(** ** Operations and programs *)

Inductive Op : Type -> Type :=
  | OpRpc (r : Request) : Op (option GoError)
  | OpRandIntn (n : Z) : Op Z
  | OpNow : Op Z
  (* resource managers *)
  | OpGetFlowID (mgr : nat) : Op Z
  | OpDeviceInfo (mgr : nat) : Op DeviceInfo
  | OpIndexRsrMgr (i : Z) : Op nat
  | OpGetResourceID (mgr : nat) (intf : Z) (t : ResourceType) (n : Z)
      : Op (list Z * option GoError)
  | OpCreateTechProfileInstance (mgr : nat) (tpID : Z) (uniPortName : string) (intf : Z)
      : Op (option TechProfileInstance * option GoError)
  (* package variables *)
  | OpGenerateSerial : Op SerialNumber
  | OpGetCtag (wf : string) (pon : Z) : Op Z
  | OpGetStag (wf : string) (pon onu uni : Z) : Op Z
  | OpLoadLastPonIntf : Op Z
  | OpAddLastPonIntf (d : Z) : Op Z
  (* WaitGroups *)
  | OpNewWg : Op nat
  | OpWgAdd (g : nat) (d : Z) : Op unit
  | OpWgWait (g : nat) : Op unit
  (* heap *)
  | OpNewOnu (d : OnuDevice) : Op nat
  | OpLoadOnu (a : nat) : Op OnuDevice
  | OpStoreOnu (a : nat) (d : OnuDevice) : Op unit
  | OpSetOnuMap (k : OnuDeviceKey) (a : nat) : Op unit
  | OpGetOnuMap (k : OnuDeviceKey) : Op nat
  | OpNewSub (s : Subscriber) : Op nat
  | OpLoadSub (a : nat) : Op Subscriber
  | OpStoreSub (a : nat) (s : Subscriber) : Op unit
  (* syscall.Kill (syscall.Getpid(), syscall.SIGINT) *)
  | OpKillSelf : Op unit.

Inductive prog (A : Type) : Type :=
  | Ret (a : A)
  | Panic (p : PanicReason)
  | Do {X : Type} (o : Op X) (k : X -> prog A)
  | Go (child : prog unit) (k : prog A).
Arguments Ret {A} a.
Arguments Panic {A} p.
Arguments Do {A X} o k.
Arguments Go {A} child k.

Fixpoint prog_bind {A B} (f : A -> prog B) (p : prog A) : prog B :=
  match p with
  | Ret a => f a
  | Panic r => Panic r
  | Do o k => Do o (fun x => prog_bind f (k x))
  | Go c k => Go c (prog_bind f k)
  end.

#[export] Instance prog_mbind : MBind prog := fun A B f p => prog_bind f p.

Definition op {X} (o : Op X) : prog X := Do o Ret.

(** A pointer dereference. *)
Definition deref {A} (p : option A) : prog A :=
  match p with Some a => Ret a | None => Panic NilDereference end.

(** [l[i]] on a slice. *)
Definition index {A} (l : list A) (i : nat) : prog A :=
  match l !! i with Some a => Ret a | None => Panic IndexOutOfRange end.

(** [for _, x := range l { body }]. *)
Fixpoint for_each {A} (l : list A) (body : A -> prog unit) : prog unit :=
  match l with
  | [] => Ret tt
  | x :: l' => _ ← body x; for_each l' body
  end.

(** A loop whose body may return a non-nil error from the function. *)
Fixpoint for_err {A} (l : list A) (body : A -> prog (option GoError))
    : prog (option GoError) :=
  match l with
  | [] => Ret None
  | x :: l' =>
      err ← body x;
      match err with Some e => Ret (Some e) | None => for_err l' body end
  end.

(** ** Meaning of the operations *)

Inductive result `{Env} (X : Type) :=
  | Done (x : X) (w : World)
  | Blocked
  | Crash (r : PanicReason).
Arguments Done {_ X} x w.
Arguments Blocked {_ X}.
Arguments Crash {_ X} r.

Section exec.
Context `{Env}.

Definition with_mgr {X} (w : World) (mgr : nat)
    (f : OpenOltResourceMgr -> result X) : result X :=
  match w_rsrMgr w !! mgr with
  | Some (Some m) => f m
  | Some None => Crash NilDereference
  | None => Crash IndexOutOfRange
  end.

(** [OpenOltResourceMgr.GetFlowID]: the counter is a [uint64]. *)
Definition next_flow_id (m : OpenOltResourceMgr) : OpenOltResourceMgr :=
  {| rm_deviceInfo := rm_deviceInfo m; rm_intfID := rm_intfID m;
     rm_flow_id := u64 (rm_flow_id m + 1) |}.

(** [WaitGroup.Add]: a negative counter panics. *)
Definition wg_add (g : nat) (d : Z) (w : World) : result unit :=
  match w_wgs w !! g with
  | Some c => if c + d <? 0 then Crash NegativeWaitGroup
              else Done tt (set_wgs (<[g := c + d]> (w_wgs w)) w)
  | None => Crash NilDereference
  end.

Definition exec {X} (o : Op X) (w : World) : result X :=
  match o in Op X return result X with
  | OpRpc r => Done (status_Err (device (w_trace w) r)) (set_trace (w_trace w ++ [r]) w)
  | OpRandIntn n => Done (rand_src (w_rand w) mod n) (set_rand (S (w_rand w)) w)
  | OpNow => Done (clock (w_clock w)) (set_clock (S (w_clock w)) w)
  | OpGetFlowID mgr =>
      with_mgr w mgr (fun m =>
        let m' := next_flow_id m in
        Done (rm_flow_id m') (set_rsrMgr (<[mgr := Some m']> (w_rsrMgr w)) w))
  | OpDeviceInfo mgr => with_mgr w mgr (fun m => Done (rm_deviceInfo m) w)
  | OpIndexRsrMgr i =>
      if (0 <=? i) && (i <? Z.of_nat (length (w_rsrMgr w)))
      then Done (Z.to_nat i) w else Crash IndexOutOfRange
  | OpGetResourceID mgr intf t n =>
      with_mgr w mgr (fun _ =>
        let '(r, s) := tp_GetResourceID mgr intf t n (w_tp w) in Done r (set_tp s w))
  | OpCreateTechProfileInstance mgr tpID name intf =>
      with_mgr w mgr (fun _ =>
        match tp_CreateTechProfileInstance mgr tpID name intf (w_tp w) with
        | (inl r, _) => Crash r
        | (inr x, s) => Done x (set_tp s w)
        end)
  | OpGenerateSerial =>
      let '(sn, g) := GenerateNextONUSerialNumber (w_globals w) in Done sn (set_globals g w)
  | OpGetCtag wf pon =>
      let '(c, g) := GetCtag wf pon (w_globals w) in Done c (set_globals g w)
  | OpGetStag wf pon onu uni =>
      let '(s, g) := GetStag wf pon onu uni (w_globals w) in Done s (set_globals g w)
  | OpLoadLastPonIntf => Done (w_lastPonIntf w) w
  | OpAddLastPonIntf d =>
      let v := u32 (w_lastPonIntf w + d) in Done v (set_lastPonIntf v w)
  | OpNewWg => Done (length (w_wgs w)) (set_wgs (w_wgs w ++ [0]) w)
  | OpWgAdd g d => wg_add g d w
  | OpWgWait g =>
      match w_wgs w !! g with
      | Some c => if c =? 0 then Done tt w else Blocked
      | None => Crash NilDereference
      end
  | OpNewOnu d => Done (length (w_onus w)) (set_onus (w_onus w ++ [d]) w)
  | OpLoadOnu a =>
      match w_onus w !! a with Some d => Done d w | None => Crash NilDereference end
  | OpStoreOnu a d => Done tt (set_onus (<[a := d]> (w_onus w)) w)
  | OpSetOnuMap k a => Done tt (set_onuMap (<[k := a]> (w_onuMap w)) w)
  | OpGetOnuMap k =>
      match w_onuMap w !! k with Some a => Done a w | None => Crash NilDereference end
  | OpNewSub s => Done (length (w_subs w)) (set_subs (w_subs w ++ [s]) w)
  | OpLoadSub a =>
      match w_subs w !! a with Some s => Done s w | None => Crash NilDereference end
  | OpStoreSub a s => Done tt (set_subs (<[a := s]> (w_subs w)) w)
  | OpKillSelf => Done tt (set_killed w)
  end.

(** ** One goroutine alone *)

Inductive outcome (A : Type) :=
  | Returns (a : A)
  | Panics (r : PanicReason)
  | Blocks.
Arguments Returns {A} a.
Arguments Panics {A} r.
Arguments Blocks {A}.

(** The outcome, the final store, and the goroutines started. *)
Fixpoint run {A} (p : prog A) (w : World) : outcome A * World * list (prog unit) :=
  match p with
  | Ret a => (Returns a, w, [])
  | Panic r => (Panics r, w, [])
  | Do o k =>
      match exec o w with
      | Done x w' => run (k x) w'
      | Blocked => (Blocks, w, [])
      | Crash r => (Panics r, w, [])
      end
  | Go c k => let '(r, w', cs) := run k w in (r, w', c :: cs)
  end.

(** ** Interleaving *)

Inductive config :=
  | Running (pool : list (prog unit)) (w : World)
  | Crashed (r : PanicReason).

Inductive thread_result :=
  | TNext (p : prog unit) (w : World) (spawned : list (prog unit))
  | TFinished
  | TBlocked
  | TCrash (r : PanicReason).

Definition thread_step (p : prog unit) (w : World) : thread_result :=
  match p with
  | Ret _ => TFinished
  | Panic r => TCrash r
  | Do o k =>
      match exec o w with
      | Done x w' => TNext (k x) w' []
      | Blocked => TBlocked
      | Crash r => TCrash r
      end
  | Go c k => TNext k w [c]
  end.

Inductive step : config -> config -> Prop :=
  | step_thread pool w i p p' w' spawned :
      pool !! i = Some p -> thread_step p w = TNext p' w' spawned ->
      step (Running pool w) (Running (<[i := p']> pool ++ spawned) w')
  | step_crash pool w i p r :
      pool !! i = Some p -> thread_step p w = TCrash r ->
      step (Running pool w) (Crashed r).

Definition steps : config -> config -> Prop := rtc step.

(** A deterministic scheduler: run the goroutines of the given indices in
    order, one operation each; an index that cannot move is skipped. *)
Definition schedule_step (c : config) (i : nat) : config :=
  match c with
  | Running pool w =>
      match pool !! i with
      | Some p => match thread_step p w with
                  | TNext p' w' spawned => Running (<[i := p']> pool ++ spawned) w'
                  | TCrash r => Crashed r
                  | _ => c
                  end
      | None => c
      end
  | Crashed _ => c
  end.

Definition schedule (c : config) (l : list nat) : config := foldl schedule_step c l.

End exec.
Arguments Returns {A} a.
Arguments Panics {A} r.
Arguments Blocks {A}.
Arguments exec {_ X} o w : simpl never.

(** ** Lemmas *)

Section lemmas.
Context `{Env}.

Lemma run_bind {A B} (f : A -> prog B) (p : prog A) w :
  run (p ≫= f) w =
  match run p w with
  | (Returns a, w', cs) => let '(r, w'', cs') := run (f a) w' in (r, w'', cs ++ cs')
  | (Panics r, w', cs) => (Panics r, w', cs)
  | (Blocks, w', cs) => (Blocks, w', cs)
  end.
Proof.
  unfold mbind, prog_mbind. revert w.
  induction p as [A a|A r|A X o k IH|A c IHc k IHk]; intros w; simpl.
  - by destruct (run (f a) w) as [[??]?].
  - done.
  - destruct (exec o w); [apply IH|done..].
  - rewrite IHk. destruct (run k w) as [[[a|r|] w'] cs]; [|done..].
    by destruct (run (f a) w') as [[??]?].
Qed.

(** The equation the specification lemmas are chained with. *)
Lemma run_bind_ret {A B} (f : A -> prog B) (p : prog A) w a w' :
  run p w = (Returns a, w', []) -> run (p ≫= f) w = run (f a) w'.
Proof. intros Hp. rewrite run_bind, Hp. by destruct (run (f a) w') as [[??]?]. Qed.

Lemma bind_assoc {A B C} (p : prog A) (f : A -> prog B) (g : B -> prog C) w :
  run ((p ≫= f) ≫= g) w = run (p ≫= (fun a => f a ≫= g)) w.
Proof.
  rewrite !run_bind. destruct (run p w) as [[[a|r|] w'] cs]; [|done..].
  rewrite run_bind. destruct (run (f a) w') as [[[b|r|] w''] cs']; [|done..].
  destruct (run (g b) w'') as [[??]?]. by rewrite app_assoc.
Qed.

Lemma run_op {X} (o : Op X) w x w' :
  exec o w = Done x w' -> run (op o) w = (Returns x, w', []).
Proof. intros Ho. simpl. by rewrite Ho. Qed.

Lemma run_op_bind {X A} (o : Op X) (f : X -> prog A) w x w' :
  exec o w = Done x w' -> run (op o ≫= f) w = run (f x) w'.
Proof. intros Ho. cbn. by rewrite Ho. Qed.

Lemma run_op_crash {X A} (o : Op X) (f : X -> prog A) w r :
  exec o w = Crash r -> run (op o ≫= f) w = (Panics r, w, []).
Proof. intros Ho. cbn. by rewrite Ho. Qed.

Lemma run_panic_bind {A B} (p : prog A) (f : A -> prog B) w w' r cs :
  run p w = (Panics r, w', cs) -> run (p ≫= f) w = (Panics r, w', cs).
Proof. intros Hp. by rewrite run_bind, Hp. Qed.

Lemma for_each_cons {A} (x : A) l body :
  for_each (x :: l) body = (_ ← body x; for_each l body).
Proof. done. Qed.

(** Every state the scheduler reaches is reachable. *)
Lemma schedule_step_steps c i : steps c (schedule_step c i).
Proof.
  destruct c as [pool w|r]; simpl; [|reflexivity].
  destruct (pool !! i) as [p|] eqn:Ei; [|reflexivity].
  destruct (thread_step p w) eqn:Et; [|reflexivity..|].
  - apply rtc_once. by econstructor.
  - apply rtc_once. by econstructor.
Qed.

Lemma schedule_steps c l : steps c (schedule c l).
Proof.
  revert c. induction l as [|i l IH]; intros c; simpl; [reflexivity|].
  etrans; [apply schedule_step_steps|apply IH].
Qed.

(** Invariants by rule induction. *)
Lemma steps_invariant (P : config -> Prop) :
  (forall c c', P c -> step c c' -> P c') -> forall c c', P c -> steps c c' -> P c'.
Proof. intros HP c c' Hc Hs. induction Hs; eauto. Qed.

End lemmas.
