(* ===== verification/Play.v ===== *)
(** * A goroutine under arbitrary interference

    The requests a workflow sends depend on the rest of the program through the
    flow ids it is given, the random numbers it draws and the answers of the
    OLT agent; other goroutines use the same counter, the same source and the
    same agent.  [play] runs a program on three streams of such answers, with
    nothing assumed about them, and returns the requests it sends.
    [local_steps] is one goroutine's part of any interleaving; [play_local]
    shows that each is a [play] for some streams, so a theorem about every
    [play] holds of the goroutine under every interleaving. *)
From S2P Require Import Prelude Utils Proto Config Runtime.

Record Streams := {
  s_flow : nat -> Z;
  s_rpc : nat -> option GoError;
  s_rand : nat -> Z;
}.

Definition pop_flow (s : Streams) : Streams :=
  {| s_flow := fun n => s_flow s (S n); s_rpc := s_rpc s; s_rand := s_rand s |}.
Definition pop_rpc (s : Streams) : Streams :=
  {| s_flow := s_flow s; s_rpc := fun n => s_rpc s (S n); s_rand := s_rand s |}.
Definition pop_rand (s : Streams) : Streams :=
  {| s_flow := s_flow s; s_rpc := s_rpc s; s_rand := fun n => s_rand s (S n) |}.

(** The answer of an operation that only uses the streams, and the request it
    sends; [None] for the operations on the rest of the store. *)
Definition answer {X} (o : Op X) (s : Streams) : option (X * list Request * Streams) :=
  match o in Op X return option (X * list Request * Streams) with
  | OpRpc r => Some (s_rpc s 0%nat, [r], pop_rpc s)
  | OpGetFlowID _ => Some (s_flow s 0%nat, [], pop_flow s)
  | OpRandIntn n => Some (s_rand s 0%nat mod n, [], pop_rand s)
  | _ => None
  end.

(** [None]: the program is not one of the kind described above. *)
Fixpoint play {A} (p : prog A) (s : Streams)
    : option ((A + PanicReason) * list Request * Streams) :=
  match p with
  | Ret a => Some (inl a, [], s)
  | Panic r => Some (inr r, [], s)
  | Do o k =>
      '(x, reqs, s') ← answer o s;
      '(r, reqs', s'') ← play (k x) s';
      Some (r, reqs ++ reqs', s'')
  | Go _ _ => None
  end.

Lemma play_bind {A B} (f : A -> prog B) (p : prog A) s :
  play (p ≫= f) s =
  match play p s with
  | Some (inl a, reqs, s') =>
      '(r, reqs', s'') ← play (f a) s'; Some (r, reqs ++ reqs', s'')
  | Some (inr r, reqs, s') => Some (inr r, reqs, s')
  | None => None
  end.
Proof.
  revert s. induction p as [A a|A r|A X o k IH|A c _ k _]; intros s; cbn; [|done| |done].
  - by destruct (play (f a) s) as [[[??]?]|].
  - destruct (answer o s) as [[[x reqs] s']|]; cbn; [|done].
    change (prog_bind f (k x)) with (k x ≫= f). rewrite IH.
    destruct (play (k x) s') as [[[[a|r] reqs'] s'']|]; cbn; [|done..].
    destruct (play (f a) s'') as [[[r reqs''] s3]|]; cbn; [|done].
    by rewrite app_assoc.
Qed.

(** The equation the specification lemmas are chained with. *)
Lemma play_bind_ret {A B} (f : A -> prog B) (p : prog A) s a reqs s' :
  play p s = Some (inl a, reqs, s') ->
  play (p ≫= f) s = '(r, reqs', s'') ← play (f a) s'; Some (r, reqs ++ reqs', s'').
Proof. intros Hp. by rewrite play_bind, Hp. Qed.

Lemma play_assoc {A B C} (p : prog A) (f : A -> prog B) (g : B -> prog C) s :
  play ((p ≫= f) ≫= g) s = play (p ≫= (fun a => f a ≫= g)) s.
Proof.
  rewrite !play_bind. destruct (play p s) as [[[[a|r] reqs] s']|]; [|done..].
  rewrite play_bind. destruct (play (f a) s') as [[[[b|r] reqs'] s'']|]; cbn; [|done..].
  destruct (play (g b) s'') as [[[r reqs''] s3]|]; cbn; [|done]. by rewrite app_assoc.
Qed.

Lemma play_bind_Ret {A} (p : prog A) s : play (p ≫= Ret) s = play p s.
Proof.
  rewrite play_bind. destruct (play p s) as [[[[a|r] reqs] s']|]; cbn; [|done..].
  by rewrite app_nil_r.
Qed.

Lemma play_nil {A} (x : option ((A + PanicReason) * list Request * Streams)) :
  ('(r, reqs', s'') ← x; Some (r, [] ++ reqs', s'')) = x.
Proof. by destruct x as [[[??]?]|]. Qed.

Lemma play_ret_bind {A B} (f : A -> prog B) a s : play (Ret a ≫= f) s = play (f a) s.
Proof. done. Qed.

Lemma play_panic_bind {A B} (f : A -> prog B) r s :
  play (Panic r ≫= f) s = Some (inr r, [], s).
Proof. done. Qed.

Lemma play_deref_bind {A B} (f : A -> prog B) x s :
  play (deref (Some x) ≫= f) s = play (f x) s.
Proof. done. Qed.

(** ** Interference *)

Definition push_flow (v : Z) (s : Streams) : Streams :=
  {| s_flow := fun n => match n with O => v | S n => s_flow s n end;
     s_rpc := s_rpc s; s_rand := s_rand s |}.
Definition push_rpc (v : option GoError) (s : Streams) : Streams :=
  {| s_flow := s_flow s; s_rpc := fun n => match n with O => v | S n => s_rpc s n end;
     s_rand := s_rand s |}.
Definition push_rand (v : Z) (s : Streams) : Streams :=
  {| s_flow := s_flow s; s_rpc := s_rpc s;
     s_rand := fun n => match n with O => v | S n => s_rand s n end |}.

Lemma pop_push_flow v s : pop_flow (push_flow v s) = s.
Proof. by destruct s. Qed.
Lemma pop_push_rpc v s : pop_rpc (push_rpc v s) = s.
Proof. by destruct s. Qed.
Lemma pop_push_rand v s : pop_rand (push_rand v s) = s.
Proof. by destruct s. Qed.

(** The requests an operation sends. *)
Definition sent {X} (o : Op X) : list Request :=
  match o with OpRpc r => [r] | _ => [] end.

Section interference.
Context `{Env}.

(** One goroutine's part of an execution: its operations in order, each on
    whatever store the others have left, with the requests it sends. *)
Fixpoint local_steps {A} (p : prog A) (reqs : list Request) (q : prog A) : Prop :=
  (p = q /\ reqs = []) \/
  match p with
  | Do o k => exists x w w' reqs', exec o w = Done x w' /\ local_steps (k x) reqs' q
                                   /\ reqs = sent o ++ reqs'
  | Go _ k => local_steps k reqs q
  | _ => False
  end.

Lemma local_nil {A} (p : prog A) : local_steps p [] p.
Proof. destruct p; by left. Qed.

Lemma local_trans {A} (p q r : prog A) l1 l2 :
  local_steps p l1 q -> local_steps q l2 r -> local_steps p (l1 ++ l2) r.
Proof.
  revert l1. induction p as [A a|A e|A X o k IH|A c _ k IH]; intros l1 [[-> ->]|H1] Hq;
    try done.
  - right. destruct H1 as (x & w & w' & l & Ho & Hk & ->).
    exists x, w, w', (l ++ l2). rewrite app_assoc. eauto.
  - right. cbn in H1 |- *. eauto.
Qed.

(** A goroutine inside [p] of [p ≫= f], or past it. *)
Lemma local_bind {A B} (p : prog A) (f : A -> prog B) reqs q :
  local_steps (p ≫= f) reqs q ->
  (exists p', q = p' ≫= f /\ local_steps p reqs p')
  \/ exists a r1 r2, local_steps p r1 (Ret a) /\ local_steps (f a) r2 q /\ reqs = r1 ++ r2.
Proof.
  revert reqs. induction p as [A a|A r|A X o k IH|A c _ k IH]; intros reqs Hl.
  - right. exists a, [], reqs. split_and!; [by left|exact Hl|done].
  - left. destruct Hl as [[<- ->]|[]]. exists (Panic r). split; [done|by left].
  - destruct Hl as [[<- ->]|(x & w & w' & l & Ho & Hk & ->)].
    { left. exists (Do o k). split; [done|apply local_nil]. }
    destruct (IH x f _ Hk) as [(p' & -> & Hp')|(a & r1 & r2 & H1 & H2 & ->)].
    + left. exists p'. split; [done|]. right. by exists x, w, w', l.
    + right. exists a, (sent o ++ r1), r2.
      split_and!; [right; by exists x, w, w', r1|done|by rewrite app_assoc].
  - destruct Hl as [[<- ->]|Hk].
    { left. exists (Go c k). split; [done|apply local_nil]. }
    destruct (IH f _ Hk) as [(p' & -> & Hp')|(a & r1 & r2 & H1 & H2 & ->)].
    + left. exists p'. split; [done|by right].
    + right. exists a, r1, r2. split_and!; [by right|done..].
Qed.

(** Every complete run of a program that uses only the streams is a [play]. *)
Lemma play_local {A} (p : prog A) reqs a :
  (forall s, play p s <> None) -> local_steps p reqs (Ret a) ->
  exists s s', play p s = Some (inl a, reqs, s').
Proof.
  pose (s0 := {| s_flow := fun _ => 0; s_rpc := fun _ => None; s_rand := fun _ => 0 |}).
  revert reqs. induction p as [A b|A e|A X o k IH|A c _ k IH]; intros reqs Hp Hl.
  - destruct Hl as [[[= ->] ->]|[]]. by exists s0, s0.
  - by destruct Hl as [[[=] _]|[]].
  - destruct Hl as [[[=] _]|(x & w & w' & l & Ho & Hl & ->)].
    destruct o; try (exfalso; by apply (Hp s0)).
    + assert (forall s, play (k x) s <> None) as Hk.
      { intros s Hs. apply (Hp (push_rpc x s)). cbn. rewrite pop_push_rpc. by rewrite Hs. }
      destruct (IH _ _ _ Hk Hl) as (s & s' & Hs). exists (push_rpc x s), s'.
      cbn. rewrite pop_push_rpc. by rewrite Hs.
    + cbv [exec] in Ho. injection Ho as <- <-. pose (v := rand_src (w_rand w)).
      assert (forall s, play (k (v mod n)) s <> None) as Hk.
      { intros s Hs. apply (Hp (push_rand v s)). cbn. rewrite pop_push_rand. by rewrite Hs. }
      destruct (IH _ _ _ Hk Hl) as (s & s' & Hs). exists (push_rand v s), s'.
      cbn. rewrite pop_push_rand. by rewrite Hs.
    + assert (forall s, play (k x) s <> None) as Hk.
      { intros s Hs. apply (Hp (push_flow x s)). cbn. rewrite pop_push_flow. by rewrite Hs. }
      destruct (IH _ _ _ Hk Hl) as (s & s' & Hs). exists (push_flow x s), s'.
      cbn. rewrite pop_push_flow. by rewrite Hs.
  - exfalso. by apply (Hp s0).
Qed.

(** ** One goroutine of a pool *)

Lemma exec_trace {X} (o : Op X) w x w' :
  exec o w = Done x w' -> w_trace w' = w_trace w ++ sent o.
Proof.
  destruct o; cbv [exec with_mgr wg_add]; intros Ho;
    repeat match type of Ho with
    | context [match ?e with _ => _ end] => destruct e
    end; try discriminate; injection Ho as <- <-; cbn; by rewrite ?app_nil_r.
Qed.

Lemma thread_step_local p w p' w' spawned :
  thread_step p w = TNext p' w' spawned ->
  exists reqs, local_steps p reqs p' /\ w_trace w' = w_trace w ++ reqs.
Proof.
  destruct p as [a|r|X o k|c k]; cbn; [done..| |].
  - destruct (exec o w) as [x w1| |] eqn:Ho; [|done..]. intros [= <- <- <-].
    exists (sent o). split; [|by eapply exec_trace].
    right. exists x, w, w1, []. rewrite app_nil_r. split_and!; [done|apply local_nil|done].
  - intros [= <- <- <-]. exists []. rewrite app_nil_r. split; [right; apply local_nil|done].
Qed.

(** In any interleaving, goroutine [i] makes some local steps, and the requests
    it sends are, in order, among those the agent receives. *)
Lemma steps_local pool w pool' w' i p :
  steps (Running pool w) (Running pool' w') -> pool !! i = Some p ->
  exists p' reqs new, pool' !! i = Some p' /\ local_steps p reqs p'
    /\ w_trace w' = w_trace w ++ new /\ reqs `sublist_of` new.
Proof.
  intros Hs Hi. remember (Running pool' w') as c' eqn:Hc'.
  remember (Running pool w) as c eqn:Hc.
  revert pool w p Hc Hi Hc'. induction Hs as [c|c c1 c2 Hstep Hs IH]; intros pool w p Hc Hi Hc'.
  - rewrite Hc in Hc'. injection Hc' as -> ->. exists p, [], [].
    rewrite app_nil_r. split_and!; [done|apply local_nil|done|constructor].
  - subst c. inversion Hstep as [? ? j q q' w1 spawned Hj Hq|]; subst.
    + apply thread_step_local in Hq as (r1 & Hl & Ht).
      assert (i < length pool)%nat by by eapply lookup_lt_Some.
      destruct (decide (i = j)) as [->|Hij].
      * simplify_eq. edestruct (IH (<[j:=q']> pool ++ spawned) w1 q')
          as (p' & reqs & new & H1 & H2 & H3 & H4); [done| |done|].
        { rewrite lookup_app_l by (by rewrite length_insert). by apply list_lookup_insert_eq. }
        exists p', (r1 ++ reqs), (r1 ++ new). rewrite H3, Ht, app_assoc.
        split_and!; [done|by eapply local_trans|done|]. by apply sublist_app.
      * edestruct (IH (<[j:=q']> pool ++ spawned) w1 p)
          as (p' & reqs & new & H1 & H2 & H3 & H4); [done| |done|].
        { rewrite lookup_app_l by (by rewrite length_insert). by rewrite list_lookup_insert_ne. }
        exists p', reqs, (r1 ++ new). rewrite H3, Ht, app_assoc.
        split_and!; [done..|]. by apply sublist_inserts_l.
    + exfalso. inversion Hs as [|? ? ? Hs1]; simplify_eq. inversion Hs1.
Qed.

End interference.
