(* ===== verification/Judgement.v ===== *)
(** * Judgements on goroutines

    What a goroutine may do, given what it holds.  A logic ([Logic R]) says of
    every operation which shares of type [R] allow it, and how a share splits at
    a [go] statement; [judge p r Q] says that [p], holding [r], does only what its
    share allows, on every answer of its environment.  A panic is allowed: it
    ends the process.  An invariant of the store and of all the shares that every
    allowed operation preserves ([Sound]) then holds along every interleaving
    ([judged_steps]).

    [sends P p V] is the judgement of programs that hold no part in the state the
    logics follow, such as the stages of the workflows: they only send requests
    that satisfy [P], and return values that satisfy [V]. *)
From S2P Require Import Prelude Utils Proto Config Runtime.

(** ** Logics *)

Class Logic (R : Type) := {
  allows : forall {X}, Op X -> R -> (X -> R -> Prop) -> Prop;
  splits : R -> R -> R -> Prop;  (* a share, the child's part, what is left *)
  allows_mono : forall {X} (o : Op X) r (K K' : X -> R -> Prop),
    allows o r K -> (forall x r', K x r' -> K' x r') -> allows o r K';
}.

Definition anything {A R : Type} : A -> R -> Prop := fun _ _ => True.

Fixpoint judge {R : Type} {A : Type} `{Logic R} (p : prog A) (r : R) (Q : A -> R -> Prop) : Prop :=
  match p with
  | Ret a => Q a r
  | Panic _ => True
  | Do o k => allows o r (fun x r' => judge (k x) r' Q)
  | Go c k => exists rc rk, splits r rc rk /\ judge c rc anything /\ judge k rk Q
  end.

Section judge.
Context {R : Type} `{Logic R}.

Lemma judge_mono {A} (p : prog A) r (Q Q' : A -> R -> Prop) :
  judge p r Q -> (forall a r', Q a r' -> Q' a r') -> judge p r Q'.
Proof.
  intros Hp HQ. revert r Hp. induction p as [A a|A e|A X o k IH|A c _ k IH]; intros r Hp; cbn in *.
  - by apply HQ.
  - done.
  - eapply allows_mono; [exact Hp|]. intros x r'. by apply IH.
  - destruct Hp as (rc & rk & Hs & Hc & Hk). exists rc, rk. split_and!; [done..|]. by eapply IH.
Qed.

Lemma judge_bind {A B} (p : prog A) (f : A -> prog B) r Q :
  judge p r (fun a r' => judge (f a) r' Q) -> judge (p ≫= f) r Q.
Proof.
  revert r. induction p as [A a|A e|A X o k IH|A c _ k IH]; intros r Hp; cbn in *; [done|done| |].
  - eapply allows_mono; [exact Hp|]. intros x r'. apply IH.
  - destruct Hp as (rc & rk & Hs & Hc & Hk). exists rc, rk. split_and!; [done..|]. by apply IH.
Qed.

Lemma judge_op {X} (o : Op X) r Q : allows o r Q -> judge (op o) r Q.
Proof. done. Qed.

Lemma judge_op_bind {X B} (o : Op X) (f : X -> prog B) r Q :
  allows o r (fun x r' => judge (f x) r' Q) -> judge (op o ≫= f) r Q.
Proof. done. Qed.

Lemma judge_deref_bind {A B} (p : option A) (f : A -> prog B) r Q :
  (forall a, p = Some a -> judge (f a) r Q) -> judge (deref p ≫= f) r Q.
Proof. destruct p as [a|]; [|done]. intros Hf. by apply Hf. Qed.

Lemma judge_index_bind {A B} (l : list A) i (f : A -> prog B) r Q :
  (forall a, l !! i = Some a -> judge (f a) r Q) -> judge (index l i ≫= f) r Q.
Proof. unfold index. destruct (l !! i) as [a|]; [|done]. intros Hf. by apply Hf. Qed.

(** A loop with an invariant on the share. *)
Lemma judge_for_each {A} (l : list A) body (I : R -> Prop) r Q :
  (forall x r' Q', x ∈ l -> I r' -> (forall r'', I r'' -> Q' tt r'') -> judge (body x) r' Q') ->
  I r -> (forall r', I r' -> Q tt r') -> judge (for_each l body) r Q.
Proof.
  intros Hb Hr HQ. revert r Hr. induction l as [|x l IH]; intros r Hr; [by apply HQ|].
  rewrite for_each_cons. apply judge_bind, Hb; [apply elem_of_cons; by left|done|].
  intros r' Hr'. apply IH; [|done]. intros y r1 Q' Hy. apply Hb, elem_of_cons. by right.
Qed.

End judge.

(** ** Programs outside the state a logic follows *)

(** An error has a text. *)
Definition told (err : option GoError) : Prop := forall e, err = Some e -> Error e <> "".

Lemma told_None : told None.
Proof. done. Qed.

Lemma told_ErrorsNew msg : msg <> "" -> told (Some (ErrorsNew msg)).
Proof. by intros Hm e [= <-]. Qed.

(** A status has the text of its code at least. *)
Lemma told_status st : told (status_Err st).
Proof. intros e. unfold status_Err. case_decide; [done|]. by intros [= <-]. Qed.

Fixpoint sends {A : Type} (P : Request -> Prop) (p : prog A) (V : A -> Prop) : Prop :=
  match p with
  | Ret a => V a
  | Panic _ => True
  | Go _ _ => False
  | Do o k =>
      match o in Op X return ((X -> Prop) -> Prop) with
      | OpRpc q => fun K => P q /\ forall err, told err -> K err
      | OpRandIntn n => fun K => forall v, (0 < n -> 0 <= v < n) -> K v
      | OpGetFlowID _ => fun K => forall v, is_u64 v -> K v
      | OpDeviceInfo _ | OpLoadLastPonIntf | OpAddLastPonIntf _ => fun K => forall v, K v
      | _ => fun _ => False
      end (fun x => sends P (k x) V)
  end.

(** A logic in which these operations are free. *)
Class Neutral (R : Type) `{Logic R} (P : Request -> Prop) := {
  neutral_rpc q r K : P q -> (forall err, told err -> K err r) -> allows (OpRpc q) r K;
  neutral_rand n r K : (forall v, (0 < n -> 0 <= v < n) -> K v r) -> allows (OpRandIntn n) r K;
  neutral_flow_id m r K : (forall v, is_u64 v -> K v r) -> allows (OpGetFlowID m) r K;
  neutral_device m r K : (forall v, K v r) -> allows (OpDeviceInfo m) r K;
  neutral_load_last r K : (forall v, K v r) -> allows OpLoadLastPonIntf r K;
  neutral_add_last d r K : (forall v, K v r) -> allows (OpAddLastPonIntf d) r K;
}.

Lemma sends_judge {R A} `{Neutral R P} (p : prog A) V r Q :
  sends P p V -> (forall a, V a -> Q a r) -> judge p r Q.
Proof.
  intros Hp HQ. induction p as [A a|A e|A X o k IH|A c _ k _]; cbn in *; [by apply HQ|done| |done].
  destruct o; try done.
  - destruct Hp as [Hq Hk]. apply neutral_rpc; [done|]. intros err He. eapply IH; [by apply Hk|done].
  - apply neutral_rand. intros v Hv. eapply IH; [by apply Hp|done].
  - apply neutral_flow_id. intros v Hv. eapply IH; [by apply Hp|done].
  - apply neutral_device. intros v. eapply IH; [by apply Hp|done].
  - apply neutral_load_last. intros v. eapply IH; [by apply Hp|done].
  - apply neutral_add_last. intros v. eapply IH; [by apply Hp|done].
Qed.

Lemma sends_mono {A} (P P' : Request -> Prop) (p : prog A) (V V' : A -> Prop) :
  sends P p V -> (forall q, P q -> P' q) -> (forall a, V a -> V' a) -> sends P' p V'.
Proof.
  intros Hp HP HV. induction p as [A a|A e|A X o k IH|A c _ k _]; cbn in *; [by apply HV|done| |done].
  destruct o; try done; [destruct Hp; split; auto|..]; intros; eapply IH; eauto.
Qed.

Lemma sends_bind {A B} P (p : prog A) (f : A -> prog B) V W :
  sends P p V -> (forall a, V a -> sends P (f a) W) -> sends P (p ≫= f) W.
Proof.
  intros Hp Hf. induction p as [A a|A e|A X o k IH|A c _ k _]; cbn in *; [by apply Hf|done| |done].
  destruct o; try done; [destruct Hp as [Hq Hp]; split; [done|]|..]; intros; eapply IH; eauto.
Qed.

Lemma sends_ret {A} P (a : A) (V : A -> Prop) : V a -> sends P (Ret a) V.
Proof. done. Qed.

Lemma sends_rpc P q (V : option GoError -> Prop) :
  P q -> (forall err, told err -> V err) -> sends P (op (OpRpc q)) V.
Proof. intros Hq HV. cbn. by split. Qed.

Lemma sends_deref {A} P (p : option A) V : (forall a, p = Some a -> V a) -> sends P (deref p) V.
Proof. destruct p as [a|]; [|done]. intros HV. by apply HV. Qed.

Lemma sends_index {A} P (l : list A) i V :
  (forall a, l !! i = Some a -> V a) -> sends P (index l i) V.
Proof. unfold index. destruct (l !! i) as [a|]; [|done]. intros HV. by apply HV. Qed.

Lemma sends_for_err {A} P (l : list A) body :
  (forall x, x ∈ l -> sends P (body x) told) -> sends P (for_err l body) told.
Proof.
  intros Hb. induction l as [|x l IH]; [done|]. cbn [for_err].
  eapply sends_bind; [apply Hb, elem_of_cons; by left|]. intros [e|] He; [done|].
  apply IH. intros y Hy. apply Hb, elem_of_cons. by right.
Qed.

(** ** Soundness *)

(** [inv w rs] relates the store to the shares of all goroutines.  Its laws hold
    as long as the store is [allowed]. *)
Class Sound (R : Type) `{Env, Logic R} (allowed : World -> Prop)
    (inv : World -> list R -> Prop) := {
  inv_perm w rs rs' : rs ≡ₚ rs' -> inv w rs -> inv w rs';
  inv_op w r rs {X} (o : Op X) K x w' :
    inv w (r :: rs) -> allows o r K -> exec o w = Done x w' -> allowed w' ->
    exists r', K x r' /\ inv w' (r' :: rs);
  inv_go w r rc rk rs : inv w (r :: rs) -> splits r rc rk -> inv w (rk :: rc :: rs);
  allowed_back {X} (o : Op X) w x w' : exec o w = Done x w' -> allowed w' -> allowed w;
}.

Section sound.
Context `{Sound R allowed inv}.

Definition judged (c : config) : Prop :=
  match c with
  | Running pool w =>
      exists rs, Forall2 (fun p r => judge p r anything) pool rs /\ inv w rs
  | Crashed _ => True
  end.

Definition permitted (c : config) : Prop :=
  match c with Running _ w => allowed w | Crashed _ => True end.

(** The goroutine at [i] first, the others after it. *)
Lemma judged_focus pool w rs i p :
  Forall2 (fun p r => judge p r anything) pool rs -> inv w rs -> pool !! i = Some p ->
  exists r rs0, judge p r anything /\ inv w (r :: rs0)
    /\ forall p' r' ps w', judge p' r' anything -> Forall2 (fun p r => judge p r anything) ps.*1 ps.*2 ->
         inv w' (r' :: ps.*2 ++ rs0) -> judged (Running (<[i := p']> pool ++ ps.*1) w').
Proof.
  intros Hj Hinv Hi. destruct (Forall2_lookup_l _ _ _ _ _ Hj Hi) as (r & Hr & Hp).
  destruct (insert_app_perm rs i r r [] Hr) as (rs0 & Hrs & _).
  exists r, rs0. split_and!; [done|by eapply inv_perm|].
  intros p' r' ps w' Hp' Hps Hinv'. exists (<[i := r']> rs ++ ps.*2). split.
  - apply Forall2_app; [|done]. by apply Forall2_insert.
  - destruct (insert_app_perm rs i r r' ps.*2 Hr) as (rs1 & Hrs1 & Hrs2).
    rewrite Hrs in Hrs1. apply (inj (cons _)) in Hrs1.
    eapply inv_perm; [symmetry; exact Hrs2|]. eapply inv_perm; [|exact Hinv'].
    by rewrite Hrs1.
Qed.

Lemma judged_step pool w pool' w' :
  judged (Running pool w) -> step (Running pool w) (Running pool' w') -> allowed w' ->
  judged (Running pool' w').
Proof.
  intros (rs & Hj & Hinv) Hs Ha. inversion Hs as [? ? i p p' ? sp Hi Hp|]; subst.
  destruct (judged_focus _ _ _ _ _ Hj Hinv Hi) as (r & rs0 & Hjp & Hinv0 & Hnew).
  destruct p as [a|e|X o k|c k]; cbn in Hp; [done..| |].
  - destruct (exec o w) as [x w1| |] eqn:He; [|done..]. injection Hp as <- <- <-.
    destruct (inv_op _ _ _ _ _ _ _ Hinv0 Hjp He Ha) as (r' & Hk & Hinv').
    by apply (Hnew (k x) r' []).
  - injection Hp as <- <- <-. destruct Hjp as (rc & rk & Hsp & Hc & Hk).
    apply (Hnew k rk [(c, rc)]); cbn; [done| |by eapply inv_go].
    by apply Forall2_cons_2.
Qed.

Lemma allowed_step pool w pool' w' :
  step (Running pool w) (Running pool' w') -> allowed w' -> allowed w.
Proof.
  intros Hs Ha. inversion Hs as [? ? i p p' ? sp Hi Hp|]; subst.
  destruct p as [a|e|X o k|c k]; cbn in Hp; [done..| |].
  - destruct (exec o w) as [x w1| |] eqn:He; [|done..]. injection Hp as <- <- <-.
    by eapply allowed_back.
  - by injection Hp as <- <- <-.
Qed.

Lemma judged_steps pool w pool' w' :
  judged (Running pool w) -> steps (Running pool w) (Running pool' w') -> allowed w' ->
  judged (Running pool' w').
Proof.
  intros Hj Hs Ha. remember (Running pool w) as c eqn:Hc. remember (Running pool' w') as c' eqn:Hc'.
  revert pool w Hc Hj.
  assert (forall c, steps c c' -> forall pool w, c = Running pool w -> allowed w) as Hback.
  { intros c1 Hs1. induction Hs1 as [c1|c1 c2 c3 H12 H23 IH]; intros p1 w1 ->; simplify_eq; [done|].
    destruct c2 as [p2 w2|e]; [|inversion H23 as [|? ? ? Hs2]; simplify_eq; inversion Hs2].
    eapply allowed_step; [exact H12|]. by eapply IH. }
  induction Hs as [c|c c2 c3 H12 H23 IH]; intros p1 w1 -> Hj; simplify_eq; [done|].
  destruct c2 as [p2 w2|e]; [|inversion H23 as [|? ? ? Hs2]; simplify_eq; inversion Hs2].
  eapply IH; [done..|]. eapply judged_step; [exact Hj|done|]. by eapply Hback.
Qed.

(** Where every store is allowed, the invariant holds after any execution. *)
Lemma judged_inv pool w rs pool' w' :
  Forall2 (fun p r => judge p r anything) pool rs -> inv w rs ->
  steps (Running pool w) (Running pool' w') -> allowed w' -> exists rs', inv w' rs'.
Proof.
  intros Hj Hinv Hs Ha.
  destruct (judged_steps pool w pool' w') as (rs' & _ & Hinv'); [by exists rs|done..|by exists rs'].
Qed.

End sound.
