(* ===== verification/Samples.v ===== *)
(** * Concrete inputs

    A technology profile, an accepting agent and small stores, at which the
    witnesses of the theorems evaluate the definitions. *)
From S2P Require Import Prelude Utils Proto Config Runtime.

Definition sample_sched (d : Direction) : SchedulerAttributes :=
  {| sa_Direction := d; sa_AllocId := 1024; sa_AdditionalBw := AdditionalBW_BestEffort;
     sa_Priority := 0; sa_Weight := 0; sa_QSchedPolicy := SchedulingPolicy_Hybrid |}.

Definition sample_gem (id : Z) (pbits : string) : GemPortAttributes :=
  {| gp_GemportId := id; gp_PbitMap := pbits; gp_AesEncryption := "True";
     gp_SchedulingPolicy := SchedulingPolicy_WRR; gp_PriorityQ := 3; gp_Weight := 10;
     gp_DiscardPolicy := DiscardPolicy_TailDrop; gp_IsMulticast := "False" |}.

Definition sample_tp : TechProfileInstance :=
  {| UsScheduler := Some (sample_sched Direction_UPSTREAM);
     DsScheduler := Some (sample_sched Direction_DOWNSTREAM);
     UpstreamGemPortAttributeList := [sample_gem 1024 "0b00000101"; sample_gem 1025 "0b00001010"];
     DownstreamGemPortAttributeList :=
       [sample_gem 1024 "0b00000101"; sample_gem 1025 "0b00001010"] |}.

(** The configuration of the command line with this workflow name, number of
    ONUs and of subscribers per ONU. *)
Definition sample_config (wf : string) (onus subscribers : Z) : OpenOltScaleTesterConfig :=
  configured
    {| openolt_agent_ip_address := None; openolt_agent_port := None;
       openolt_agent_nni_intf_id := None; num_of_onu := Some onus;
       subscribers_per_onu := Some subscribers; workflow_name := Some wf;
       time_interval_between_subs := None; kv_store_host := None; kv_store_port := None;
       tp_ids := None; is_group_test := None |}.

Definition sample_subs (wf : string) (pon onu uni : Z) : Subscriber :=
  {| SubscriberName := "ABCD31303031-0"; OnuID := onu; UniID := uni; PonIntf := pon;
     UniPortNo := MkUniPortNum pon onu uni; Ctag := 2; Stag := 2; Reason := "";
     TpInstance := {[ 64 := sample_tp ]}; TestConfig := sample_config wf 1 1; RsrMgr := 0%nat;
     subWg := 0%nat |}.

Definition sample_deviceInfo (ponPorts : Z) : DeviceInfo :=
  {| di_Technology := "XGS-PON"; di_PonPorts := ponPorts; di_Ranges := [] |}.

(** The agent answers [answers] to a request; the technology-profile manager
    counts the ids it gives. *)
Definition sample_env (answers : list Request -> Request -> Code * string) : Env :=
  {| device := answers; rand_src := fun n => Z.of_nat n; clock := fun n => Z.of_nat n;
     tp_state := Z;
     tp_GetResourceID := fun _ _ _ _ n => (([n], None), n + 1);
     tp_CreateTechProfileInstance := fun _ _ _ _ n => (inr (Some sample_tp, None), n) |}.

Definition accepting : list Request -> Request -> Code * string := fun _ _ => (OK, "").

Definition sample_world (answers : list Request -> Request -> Code * string)
    (ponPorts : Z) (subs : list Subscriber) (wgs : list Z) : @World (sample_env answers) :=
  @Build_World (sample_env answers) []
    ((fun p => Some {| rm_deviceInfo := sample_deviceInfo ponPorts; rm_intfID := p;
                       rm_flow_id := 0 |}) <$> seqZ 0 ponPorts)
    init_globals 0 [] ∅ subs wgs 0%nat 0%nat 1 false.

Definition pool_of `{Env} (c : config) : list (prog unit) :=
  match c with Running pool _ => pool | Crashed _ => [] end.
Definition world_of `{Env} (w0 : World) (c : config) : World :=
  match c with Running _ w => w | Crashed _ => w0 end.

Lemma running_eq `{Env} (w0 : World) (c : config) :
  match c with Running _ _ => true | Crashed _ => false end = true ->
  c = Running (pool_of c) (world_of w0 c).
Proof. by destruct c. Qed.
