(* ===== verification/TechProfile.v ===== *)
(** * Technology-profile accessors

    The methods of [TechProfileMgr] (voltha-lib-go's techprofile package, in
    src/vendor) that read a technology-profile instance without touching the
    key-value store.  The two methods that allocate ids from the store are
    operations of the environment ([Env] of Runtime). *)
From S2P Require Import Prelude Utils Proto Config Runtime.

Definition isMulticastGem (isMulticastAttrValue : string) : bool :=
  negb (bool_decide (isMulticastAttrValue = "")) &&
  (bool_decide (isMulticastAttrValue = "True") || bool_decide (isMulticastAttrValue = "true")
   || bool_decide (isMulticastAttrValue = "TRUE")).

Definition sched_config (s : SchedulerAttributes) : SchedulerConfig :=
  {| sc_Direction := sa_Direction s; sc_AdditionalBw := sa_AdditionalBw s;
     sc_Priority := sa_Priority s; sc_Weight := sa_Weight s;
     sc_SchedPolicy := sa_QSchedPolicy s |}.

Definition GetUsScheduler (tpInstance : option TechProfileInstance)
    : prog (option SchedulerConfig) :=
  tp ← deref tpInstance;
  s ← deref (UsScheduler tp);
  Ret (Some (sched_config s)).

Definition GetDsScheduler (tpInstance : option TechProfileInstance)
    : prog (option SchedulerConfig) :=
  tp ← deref tpInstance;
  s ← deref (DsScheduler tp);
  Ret (Some (sched_config s)).

Definition GetTrafficScheduler (tpInstance : option TechProfileInstance)
    (SchedCfg : option SchedulerConfig) (ShapingCfg : TrafficShapingInfo)
    : prog TrafficScheduler :=
  cfg ← deref SchedCfg;
  tp ← deref tpInstance;
  us ← deref (UsScheduler tp);
  Ret {| ts_Direction := sc_Direction cfg; ts_AllocId := sa_AllocId us;
         ts_Scheduler := cfg; ts_TrafficShapingInfo := ShapingCfg |}.

Definition queue_of_gem (direction : Direction) (g : GemPortAttributes) : TrafficQueue :=
  let encryp := bool_decide (gp_AesEncryption g = "True") in
  {| tq_Direction := direction; tq_GemportId := gp_GemportId g; tq_PbitMap := gp_PbitMap g;
     tq_AesEncryption := encryp; tq_SchedPolicy := gp_SchedulingPolicy g;
     tq_Priority := gp_PriorityQ g; tq_Weight := gp_Weight g;
     tq_DiscardPolicy := gp_DiscardPolicy g |}.

(** The slice result is never nil when the error is nil. *)
Definition GetTrafficQueues (tp : option TechProfileInstance) (direction : Direction)
    : prog (option (list TrafficQueue) * option GoError) :=
  if decide (direction = Direction_UPSTREAM) then
    tp ← deref tp;
    Ret (Some (foldl (fun GemPorts g => GemPorts ++ [queue_of_gem direction g]) []
                 (UpstreamGemPortAttributeList tp)), None)
  else if decide (direction = Direction_DOWNSTREAM) then
    tp ← deref tp;
    Ret (Some (foldl (fun GemPorts g =>
                 if isMulticastGem (gp_IsMulticast g) then GemPorts
                 else GemPorts ++ [queue_of_gem direction g]) []
                 (DownstreamGemPortAttributeList tp)), None)
  else Ret (None, Some (ErrorsNew
         "downstream gem port traffic queue creation failed due to unsupported direction")).

(** The queues of one direction as a filtered map over the gem ports. *)
Definition traffic_queues (tp : TechProfileInstance) (direction : Direction) : list TrafficQueue :=
  match direction with
  | Direction_UPSTREAM => queue_of_gem direction <$> UpstreamGemPortAttributeList tp
  | Direction_DOWNSTREAM =>
      queue_of_gem direction <$>
        filter (fun g => isMulticastGem (gp_IsMulticast g) = false) (DownstreamGemPortAttributeList tp)
  | Direction_BIDIRECTIONAL => []
  end.

Lemma GetTrafficQueues_eq tp d :
  d <> Direction_BIDIRECTIONAL ->
  GetTrafficQueues (Some tp) d = Ret (Some (traffic_queues tp d), None).
Proof.
  assert (forall l acc, foldl (fun GemPorts g => GemPorts ++ [queue_of_gem d g]) acc l
    = acc ++ (queue_of_gem d <$> l)) as Hus.
  { intros l. induction l as [|g l IH]; intros acc; csimpl; [by rewrite app_nil_r|].
    by rewrite IH, <-app_assoc. }
  assert (forall l acc, foldl (fun GemPorts g =>
      if isMulticastGem (gp_IsMulticast g) then GemPorts else GemPorts ++ [queue_of_gem d g]) acc l
    = acc ++ (queue_of_gem d <$> filter (fun g => isMulticastGem (gp_IsMulticast g) = false) l))
    as Hds.
  { intros l. induction l as [|g l IH]; intros acc; csimpl; [by rewrite app_nil_r|].
    rewrite filter_cons. destruct (isMulticastGem (gp_IsMulticast g)); csimpl.
    - by rewrite IH.
    - by rewrite IH, <-app_assoc. }
  intros Hd. unfold GetTrafficQueues, traffic_queues. destruct d; [..|done].
  - rewrite decide_True by done. cbn. by rewrite Hus.
  - rewrite decide_False, decide_True by done. cbn. by rewrite Hds.
Qed.

(** C33. [GetTrafficQueues] builds its slice by appending in a loop; the result is a
    filtered map: all the upstream gem ports, or the downstream ones that are not
    multicast, in order, each as a queue of its own.  Any other direction is an
    error, and a nil instance a panic. *)
Theorem GetTrafficQueues_reference (tp : option TechProfileInstance) (direction : Direction) :
  GetTrafficQueues tp direction =
  match direction, tp with
  | Direction_BIDIRECTIONAL, _ =>
      Ret (None, Some (ErrorsNew "downstream gem port traffic queue creation failed due to unsupported direction"))
  | _, None => Panic NilDereference
  | Direction_UPSTREAM, Some tp => Ret (Some (queue_of_gem direction <$> UpstreamGemPortAttributeList tp), None)
  | Direction_DOWNSTREAM, Some tp =>
      Ret (Some (queue_of_gem direction <$>
                   filter (fun g => isMulticastGem (gp_IsMulticast g) = false) (DownstreamGemPortAttributeList tp)),
           None)
  end.
Proof. destruct direction, tp; try done; by apply GetTrafficQueues_eq. Qed.
