(* ===== verification/ResourceManager.v ===== *)
(** * Resource manager, flow ids (src/core/resource_manager.go)

    The per-PON [OpenOltResourceMgr] as the workflows use it: flow-id
    generation and the ONU-id request. *)
From S2P Require Import Prelude Utils Proto Config Runtime.

(** [GetFlowID] never fails; the PON argument is ignored. *)
Definition GetFlowID (RsrcMgr : nat) (ponIntfID : Z) : prog (Z * option GoError) :=
  id ← op (OpGetFlowID RsrcMgr);
  Ret (id, None).

Definition GetONUID (RsrcMgr : nat) (ponIntfID : Z) : prog (Z * option GoError) :=
  '(onuID, err) ← op (OpGetResourceID RsrcMgr ponIntfID ONU_ID 1);
  match err with
  | Some e => Ret (0, Some e)
  | None => match onuID with
            | id :: _ => Ret (id, None)
            | [] => Ret (0, None)
            end
  end.

(** [deviceInfo.GetPonPorts()]. *)
Definition GetPonPorts (d : DeviceInfo) : Z := di_PonPorts d.
