(* ===== verification/WorkflowUtils.v ===== *)
(** * Workflow utilities (src/core/workflow_utils.go)

    Building and sending the requests the workflows share: schedulers, queues,
    flows, multicast groups, and the three retry loops.  Reason codes come from
    src/core/subscriber_manager.go. *)
From S2P Require Import Prelude Utils Proto Config Runtime Play Samples TechProfile ResourceManager.
From Stdlib Require Import Ascii.

(** ** Reason codes (subscriber_manager.go) *)

Inductive ReasonCode :=
  | SUBSCRIBER_PROVISION_SUCCESS
  | TP_INSTANCE_CREATION_FAILED
  | FLOW_ID_GENERATION_FAILED
  | FLOW_ADD_FAILED
  | SCHED_CREATION_FAILED
  | QUEUE_CREATION_FAILED.

Definition iota_of (c : ReasonCode) : nat :=
  match c with
  | SUBSCRIBER_PROVISION_SUCCESS => 0
  | TP_INSTANCE_CREATION_FAILED => 1
  | FLOW_ID_GENERATION_FAILED => 2
  | FLOW_ADD_FAILED => 3
  | SCHED_CREATION_FAILED => 4
  | QUEUE_CREATION_FAILED => 5
  end%nat.

Definition Reasons : list string :=
  [ "SUBSCRIBER_PROVISION_SUCCESS"; "TP_INSTANCE_CREATION_FAILED";
    "FLOW_ID_GENERATION_FAILED"; "FLOW_ADD_FAILED"; "SCHED_CREATION_FAILED";
    "QUEUE_CREATION_FAILED" ].

(** Every constant is an index of the table, so the call cannot panic. *)
Definition ReasonCodeToReasonString (c : ReasonCode) : string :=
  nth (iota_of c) Reasons "".

Definition reason_error (c : ReasonCode) : option GoError :=
  Some (ErrorsNew (ReasonCodeToReasonString c)).

(** ** Constants *)

Definition DhcpIPProto : Z := 17.
Definition HsiaFlow : string := "HSIA_FLOW".
Definition DhcpFlowIPV4 : string := "DHCP_FLOW_IPV4".
Definition IPv4EthType : Z := 0x800.
Definition DhcpSrcPortIPV4 : Z := 68.
Definition DhcpDstPortIPV4 : Z := 67.
Definition DhcpFlowIPV6 : string := "DHCP_FLOW_IPV6".
Definition IPv6EthType : Z := 0x86dd.
Definition DhcpSrcPortIPV6 : Z := 547.
Definition DhcpDstPortIPV6 : Z := 546.
Definition EapolFlow : string := "EAPOL_FLOW".
Definition EapEthType : Z := 0x888e.
Definition Upstream : string := "upstream".
Definition Downstream : string := "downstream".
Definition Untagged : string := "untagged".
Definition SingleTag : string := "single_tag".
Definition DoubleTag : string := "double_tag".
Definition VoipFlow : string := "VOIP_FLOW".
Definition VodFlow : string := "VOD_FLOW".
Definition MgmtFlow : string := "MGMT_FLOW".
Definition IgmpProto : Z := 2.
Definition IgmpFlow : string := "IGMP_FLOW".
Definition MacSize : nat := 6.
Definition MacMin : Z := 0.
Definition MacMax : Z := 0xFF.

Record GroupData := {
  gd_Subs : Subscriber;
  gd_GroupID : Z;
  gd_Weight : Z;
  gd_Priority : Z;
  gd_OnuID : Z;
  gd_UniID : Z;
  gd_AllocID : Z;
  gd_GemPortID : Z;
  gd_SchedPolicy : SchedulingPolicy;
  gd_AddGroup : bool;
  gd_AddFlow : bool;
  gd_AddSched : bool;
  gd_AddQueue : bool;
  gd_AddMember : bool;
}.

(** ** Schedulers and queues *)

(** [subs.TpInstance[subs.TestConfig.TpIDList[0]]]: the index panics on an
    empty list, a missing key gives a nil pointer. *)
Definition first_TpInstance (subs : Subscriber) : prog (option TechProfileInstance) :=
  tpID ← index (TpIDList (TestConfig subs)) 0;
  Ret (TpInstance subs !! tpID).

Definition getTrafficSched (subs : Subscriber) (direction : Direction)
    : prog (option (list TrafficScheduler)) :=
  inst ← first_TpInstance subs;
  SchedCfg ← (if decide (direction = Direction_DOWNSTREAM) then GetDsScheduler inst
              else GetUsScheduler inst);
  match SchedCfg with
  | None => Ret None
  | Some _ =>
      let cir := 16000 in
      let cbs := 5000 in
      let eir := 16000 in
      let ebs := 5000 in
      let pir := cir + eir in
      let pbs := cbs + ebs in
      let TrafficShaping := {| Cir := u32 cir; Cbs := u32 cbs; Pir := u32 pir; Pbs := u32 pbs |} in
      inst ← first_TpInstance subs;
      s ← GetTrafficScheduler inst SchedCfg TrafficShaping;
      Ret (Some [s])
  end.

Definition getTrafficQueues (subs : Subscriber) (direction : Direction)
    : prog (option (list TrafficQueue)) :=
  inst ← first_TpInstance subs;
  '(trafficQueues, err) ← GetTrafficQueues inst direction;
  match err with
  | None => Ret trafficQueues
  | Some _ => Ret None
  end.

(** ** Flows *)

Definition FormatClassfierAction (flowType direction : string) (subs : Subscriber)
    : Classifier * Action :=
  if decide (direction = Upstream) then
    if decide (flowType = EapolFlow) then
      ({| cl_OVid := Ctag subs; cl_IVid := 0; cl_OPbits := 0; cl_IPbits := 0;
          cl_EthType := EapEthType; cl_DstMac := []; cl_IpProto := 0; cl_SrcPort := 0;
          cl_DstPort := 0; cl_PktTagType := SingleTag |},
       {| act_Cmd := Some cmd_trap; act_OVid := 0; act_IVid := 0; act_OPbits := 0; act_IPbits := 0 |})
    else if decide (flowType = DhcpFlowIPV4) then
      ({| cl_OVid := 0; cl_IVid := 0; cl_OPbits := 0; cl_IPbits := 0;
          cl_EthType := IPv4EthType; cl_DstMac := []; cl_IpProto := DhcpIPProto;
          cl_SrcPort := DhcpSrcPortIPV4; cl_DstPort := DhcpDstPortIPV4;
          cl_PktTagType := SingleTag |},
       {| act_Cmd := Some cmd_trap; act_OVid := 0; act_IVid := 0; act_OPbits := 0; act_IPbits := 0 |})
    else if decide (flowType = DhcpFlowIPV6) then
      ({| cl_OVid := 0; cl_IVid := 0; cl_OPbits := 0; cl_IPbits := 0;
          cl_EthType := IPv6EthType; cl_DstMac := []; cl_IpProto := DhcpIPProto;
          cl_SrcPort := DhcpSrcPortIPV6; cl_DstPort := DhcpDstPortIPV6;
          cl_PktTagType := SingleTag |},
       {| act_Cmd := Some cmd_trap; act_OVid := 0; act_IVid := 0; act_OPbits := 0; act_IPbits := 0 |})
    else if decide (flowType = HsiaFlow) then
      ({| cl_OVid := Ctag subs; cl_IVid := 0; cl_OPbits := 0; cl_IPbits := 0;
          cl_EthType := 0; cl_DstMac := []; cl_IpProto := 0; cl_SrcPort := 0;
          cl_DstPort := 0; cl_PktTagType := SingleTag |},
       {| act_Cmd := Some cmd_push; act_OVid := Stag subs; act_IVid := 0; act_OPbits := 0;
          act_IPbits := 0 |})
    else (zero_Classifier, zero_Action)
  else if decide (direction = Downstream) then
    if decide (flowType = HsiaFlow) then
      ({| cl_OVid := Stag subs; cl_IVid := Ctag subs; cl_OPbits := 0; cl_IPbits := 0;
          cl_EthType := 0; cl_DstMac := []; cl_IpProto := 0; cl_SrcPort := 0;
          cl_DstPort := 0; cl_PktTagType := DoubleTag |},
       {| act_Cmd := Some cmd_pop; act_OVid := Stag subs; act_IVid := 0; act_OPbits := 0;
          act_IPbits := 0 |})
    else (zero_Classifier, zero_Action)
  else (zero_Classifier, zero_Action).

(** The answer to [FlowAdd] as [AddFlow] and [AddTtFlow] judge it. *)
Definition flow_verdict (err : option GoError) : option GoError :=
  if decide (status_Code err = AlreadyExists) then None
  else match err with
       | Some _ => reason_error FLOW_ADD_FAILED
       | None => None
       end.

Definition AddFlow (subs : Subscriber) (flowType direction : string) (flowID allocID gemID pcp : Z)
    (replicateFlow : bool) (symmetricFlowID : Z) (pbitToGem : gmap Z Z)
    : prog (option GoError) :=
  let '(flowClassifier, actionInfo) := FormatClassfierAction flowType direction subs in
  let flowClassifier := if decide (pcp <> 0xff) then set_OPbits pcp flowClassifier
                        else flowClassifier in
  let flow := {|
    fl_AccessIntfId := i32 (PonIntf subs); fl_OnuId := i32 (OnuID subs);
    fl_UniId := i32 (UniID subs); fl_FlowId := flowID; fl_SymmetricFlowId := symmetricFlowID;
    fl_FlowType := direction; fl_AllocId := i32 allocID; fl_GemportId := i32 gemID;
    fl_Classifier := flowClassifier; fl_Action := Some actionInfo; fl_Priority := 1000;
    fl_PortNo := UniPortNo subs; fl_GroupId := 0; fl_ReplicateFlow := replicateFlow;
    fl_PbitToGemport := pbitToGem |} in
  err ← op (OpRpc (RpcFlowAdd flow));
  Ret (flow_verdict err).

(** The trap-from-NNI flows (here and in the workflow files) are downstream
    flows of no PON, ONU or UNI.  They return the error of the device itself. *)
Definition nni_flow (flowID : Z) (config : OpenOltScaleTesterConfig) (c : Classifier) : Flow :=
  {| fl_AccessIntfId := -1; fl_OnuId := -1; fl_UniId := -1; fl_FlowId := flowID;
     fl_SymmetricFlowId := 0; fl_FlowType := "downstream"; fl_AllocId := -1;
     fl_GemportId := -1; fl_Classifier := c;
     fl_Action := Some {| act_Cmd := Some cmd_trap; act_OVid := 0; act_IVid := 0;
                          act_OPbits := 0; act_IPbits := 0 |};
     fl_Priority := 1000; fl_PortNo := u32 (NniIntfID config); fl_GroupId := 0;
     fl_ReplicateFlow := false; fl_PbitToGemport := ∅ |}.

Definition already_exists_ok (err : option GoError) : option GoError :=
  if decide (status_Code err = AlreadyExists) then None else err.

Definition AddLldpFlow (config : OpenOltScaleTesterConfig) (rsrMgr : nat)
    : prog (option GoError) :=
  '(flowID, err) ← GetFlowID rsrMgr (u32 (NniIntfID config));
  match err with
  | Some e => Ret (Some e)
  | None =>
      let flowClassifier :=
        {| cl_OVid := 0; cl_IVid := 0; cl_OPbits := 0; cl_IPbits := 0; cl_EthType := 35020;
           cl_DstMac := []; cl_IpProto := 0; cl_SrcPort := 0; cl_DstPort := 0;
           cl_PktTagType := "untagged" |} in
      err ← op (OpRpc (RpcFlowAdd (nni_flow flowID config flowClassifier)));
      Ret (already_exists_ok err)
  end.

(** ** MAC addresses *)

(** [byte(rand.Intn(MacMax-MacMin)+MacMin)]. *)
Definition random_mac_byte : prog Z :=
  r ← op (OpRandIntn (MacMax - MacMin));
  Ret (u8 (r + MacMin)).

Fixpoint random_mac (n : nat) (mac : list Z) : prog (list Z) :=
  match n with
  | O => Ret mac
  | S n' => b ← random_mac_byte; random_mac n' (mac ++ [b])
  end.

Definition GenerateMac (isRand : bool) : prog (list Z) :=
  if isRand then random_mac MacSize []
  else Ret [0x12; 0xAB; 0x34; 0xCD; 0x56; 0xEF].

Definition GenerateMulticastMac (onu_id group_id : Z) : prog (list Z) :=
  let mac := [0x01; 0x00; 0x5E] in
  let mac := mac ++ [u8 (onu_id mod 255)] in
  b ← random_mac_byte;
  let mac := mac ++ [b] in
  let mac := mac ++ [u8 group_id] in
  Ret mac.

(** ** Multicast *)

(** The calls answer an empty message; only the error matters. *)
Definition PerformGroupOperation (grp : GroupData) (groupCfg : Group) : prog (option GoError) :=
  op (OpRpc (RpcPerformGroupOperation groupCfg)).

Definition CreateGroup (grp : GroupData) : prog (option GoError) :=
  PerformGroupOperation grp
    {| gr_GroupId := gd_GroupID grp; gr_Command := Group_SET_MEMBERS; gr_Members := [] |}.

Definition OpMulticastTrafficQueue (grp : GroupData) (isCreating : bool)
    : prog (option GoError) :=
  let trafficQueue :=
    {| tq_Direction := Direction_DOWNSTREAM; tq_GemportId := gd_GemPortID grp;
       tq_PbitMap := ""; tq_AesEncryption := false; tq_SchedPolicy := gd_SchedPolicy grp;
       tq_Priority := gd_Priority grp; tq_Weight := gd_Weight grp;
       tq_DiscardPolicy := DiscardPolicy_TailDrop |} in
  let request :=
    {| tqs_IntfId := PonIntf (gd_Subs grp); tqs_OnuId := OnuID (gd_Subs grp);
       tqs_UniId := UniID (gd_Subs grp); tqs_PortNo := 0;
       tqs_TrafficQueues := [trafficQueue] |} in
  if isCreating then op (OpRpc (RpcCreateTrafficQueues request))
  else op (OpRpc (RpcRemoveTrafficQueues request)).

Definition AddMulticastFlow (grp : GroupData) : prog (option GoError) :=
  let config := TestConfig (gd_Subs grp) in
  '(flowID, err) ← GetFlowID (RsrMgr (gd_Subs grp)) (u32 (NniIntfID config));
  match err with
  | Some e => Ret (Some e)
  | None =>
      mac ← GenerateMulticastMac (OnuID (gd_Subs grp)) (gd_GroupID grp);
      let flowClassifier :=
        {| cl_OVid := 255; cl_IVid := 55; cl_OPbits := 255; cl_IPbits := 255; cl_EthType := 0;
           cl_DstMac := mac; cl_IpProto := 0; cl_SrcPort := 0; cl_DstPort := 0;
           cl_PktTagType := DoubleTag |} in
      let flow :=
        {| fl_AccessIntfId := i32 (PonIntf (gd_Subs grp)); fl_OnuId := i32 (OnuID (gd_Subs grp));
           fl_UniId := i32 (UniID (gd_Subs grp)); fl_FlowId := flowID; fl_SymmetricFlowId := 0;
           fl_FlowType := "multicast"; fl_AllocId := i32 (gd_AllocID grp);
           fl_GemportId := i32 (gd_GemPortID grp); fl_Classifier := flowClassifier;
           fl_Action := None; fl_Priority := i32 (gd_Priority grp);
           fl_PortNo := UniPortNo (gd_Subs grp); fl_GroupId := gd_GroupID grp;
           fl_ReplicateFlow := false; fl_PbitToGemport := ∅ |} in
      err ← op (OpRpc (RpcFlowAdd flow));
      Ret (already_exists_ok err)
  end.

(** The nil test of the source is on a slice literal and never succeeds. *)
Definition AddMulticastSched (grp : GroupData) : prog (option GoError) :=
  let SchedCfg :=
    {| sc_Direction := Direction_DOWNSTREAM; sc_AdditionalBw := AdditionalBW_BestEffort;
       sc_Priority := gd_Priority grp; sc_Weight := gd_Weight grp;
       sc_SchedPolicy := SchedulingPolicy_WRR |} in
  let cir := 1948 in
  let cbs := 31768 in
  let eir := 100 in
  let ebs := 1000 in
  let pir := cir + eir in
  let pbs := cbs + ebs in
  let TfShInfo := {| Cir := u32 cir; Cbs := u32 cbs; Pir := u32 pir; Pbs := u32 pbs |} in
  inst ← first_TpInstance (gd_Subs grp);
  s ← GetTrafficScheduler inst (Some SchedCfg) TfShInfo;
  err ← op (OpRpc (RpcCreateTrafficSchedulers
    {| tss_IntfId := PonIntf (gd_Subs grp); tss_OnuId := OnuID (gd_Subs grp);
       tss_UniId := UniID (gd_Subs grp); tss_PortNo := UniPortNo (gd_Subs grp);
       tss_TrafficScheds := [s] |}));
  match err with
  | Some _ => Ret (reason_error SCHED_CREATION_FAILED)
  | None => Ret None
  end.

Definition OpMemberToGroup (grp : GroupData) (isAdding : bool) : prog (option GoError) :=
  let member0 :=
    {| gm_InterfaceId := PonIntf (gd_Subs grp); gm_InterfaceType := GroupMember_PON;
       gm_GemPortId := gd_GemPortID grp; gm_Priority := gd_Priority grp |} in
  PerformGroupOperation grp
    {| gr_GroupId := gd_GroupID grp;
       gr_Command := if isAdding then Group_ADD_MEMBERS else Group_REMOVE_MEMBERS;
       gr_Members := [member0] |}.

Definition when_nil (err : option GoError) (k : prog (option GoError)) : prog (option GoError) :=
  match err with Some e => Ret (Some e) | None => k end.

Definition AddMulticastQueueFlow (grp : GroupData) : prog (option GoError) :=
  err ← (if gd_AddGroup grp then CreateGroup grp else Ret None);
  when_nil err (
  err ← (if gd_AddFlow grp then AddMulticastFlow grp else Ret None);
  when_nil err (
  err ← (if gd_AddSched grp then AddMulticastSched grp else Ret None);
  when_nil err (
  err ← (if gd_AddQueue grp then OpMulticastTrafficQueue grp true else Ret None);
  when_nil err (
  err ← (if gd_AddMember grp then OpMemberToGroup grp true else Ret None);
  when_nil err (Ret None))))).

(** ** Retry loops *)

Definition maxRetry : nat := 20.

Fixpoint retry_sched (n : nat) (sched : TrafficSchedulers) : prog (option GoError) :=
  match n with
  | O => Ret (Some (ErrorsNew "failed-to-create-traffic-sched-after-all-retries"))
  | S n' =>
      err ← op (OpRpc (RpcCreateTrafficSchedulers sched));
      match err with Some _ => retry_sched n' sched | None => Ret None end
  end.

Definition CreateTrafficSchedWithRetry (sched : TrafficSchedulers) : prog (option GoError) :=
  err ← op (OpRpc (RpcCreateTrafficSchedulers sched));
  match err with None => Ret None | Some _ => retry_sched maxRetry sched end.

Fixpoint retry_queue (n : nat) (queue : TrafficQueues) : prog (option GoError) :=
  match n with
  | O => Ret (Some (ErrorsNew "failed-to-create-traffic-queue-after-all-retries"))
  | S n' =>
      err ← op (OpRpc (RpcCreateTrafficQueues queue));
      match err with Some _ => retry_queue n' queue | None => Ret None end
  end.

Definition CreateTrafficQueuesWithRetry (queue : TrafficQueues) : prog (option GoError) :=
  err ← op (OpRpc (RpcCreateTrafficQueues queue));
  match err with None => Ret None | Some _ => retry_queue maxRetry queue end.

(** The loop goes on for every code other than OK, AlreadyExists included, and
    returns the error of the last attempt. *)
Fixpoint retry_flow (n : nat) (flow : Flow) (err : option GoError) : prog (option GoError) :=
  match n with
  | O => Ret err
  | S n' =>
      err ← op (OpRpc (RpcFlowAdd flow));
      if decide (status_Code err = ResourceExhausted) then retry_flow n' flow err
      else if decide (status_Code err = OK) then Ret None
      else retry_flow n' flow err
  end.

Definition AddFlowWithRetry (flow : Flow) : prog (option GoError) :=
  err ← op (OpRpc (RpcFlowAdd flow));
  if decide (status_Code err = AlreadyExists) then Ret None
  else if decide (status_Code err = ResourceExhausted) then retry_flow maxRetry flow err
  else Ret err.

(** ** Pieces of code the workflow files repeat *)

(** The inner loop over the bytes of a p-bit map: the priority code points of
    the bytes equal to ['1'].  Go ranges over runes, and a rune ['1'] is a byte
    ['1'] at the same position; the index arithmetic is in [uint32]. *)
Fixpoint pbits_from (s : string) (len pos : Z) : list Z :=
  match s with
  | EmptyString => []
  | String c s' =>
      if ascii_dec c "1"
      then u32 (u32 (u32 len - 1) - u32 pos) :: pbits_from s' len (pos + 1)
      else pbits_from s' len (pos + 1)
  end.

Definition pbit_pcps (pBitMap : string) : list Z :=
  let s := TrimPrefix pBitMap "0b" in
  pbits_from s (Z.of_nat (String.length s)) 0.

(** The alloc id and the upstream gem ports of the first TP instance. *)
Definition us_gems (subs : Subscriber) : prog (Z * list GemPortAttributes) :=
  inst ← first_TpInstance subs;
  tp ← deref inst;
  us ← deref (UsScheduler tp);
  Ret (sa_AllocId us, UpstreamGemPortAttributeList tp).

(** The map from priority code point to gem port; a later gem port with the
    same bit set replaces an earlier one. *)
Definition build_pbitToGem (gems : list GemPortAttributes) : gmap Z Z :=
  foldl (fun m g =>
           foldl (fun m pcp => <[pcp := gp_GemportId g]> m) m (pbit_pcps (gp_PbitMap g)))
        ∅ gems.

(** Take a flow id of the subscriber's PON, or fail. *)
Definition with_flow_id (subs : Subscriber) (k : Z -> prog (option GoError))
    : prog (option GoError) :=
  '(flowID, err) ← GetFlowID (RsrMgr subs) (PonIntf subs);
  match err with
  | Some _ => Ret (reason_error FLOW_ID_GENERATION_FAILED)
  | None => k flowID
  end.

(** One direction of [ProvisionScheds]. *)
Definition send_scheds (subs : Subscriber) (direction : Direction) : prog (option GoError) :=
  trafficSched ← getTrafficSched subs direction;
  match trafficSched with
  | None => Ret (reason_error SCHED_CREATION_FAILED)
  | Some ts =>
      err ← op (OpRpc (RpcCreateTrafficSchedulers
        {| tss_IntfId := PonIntf subs; tss_OnuId := OnuID subs; tss_UniId := UniID subs;
           tss_PortNo := UniPortNo subs; tss_TrafficScheds := ts |}));
      match err with
      | Some _ => Ret (reason_error SCHED_CREATION_FAILED)
      | None => Ret None
      end
  end.

(** One direction of [ProvisionQueues]. *)
Definition send_queues (subs : Subscriber) (direction : Direction) : prog (option GoError) :=
  trafficQueues ← getTrafficQueues subs direction;
  match trafficQueues with
  | None => Ret (reason_error QUEUE_CREATION_FAILED)
  | Some qs =>
      err ← op (OpRpc (RpcCreateTrafficQueues
        {| tqs_IntfId := PonIntf subs; tqs_OnuId := OnuID subs; tqs_UniId := UniID subs;
           tqs_PortNo := UniPortNo subs; tqs_TrafficQueues := qs |}));
      match err with
      | Some _ => Ret (reason_error QUEUE_CREATION_FAILED)
      | None => Ret None
      end
  end.

(** The first non-nil error of a group of calls that were all made. *)
Fixpoint first_error (errs : list (option GoError)) : option GoError :=
  match errs with
  | [] => None
  | Some e :: _ => Some e
  | None :: errs' => first_error errs'
  end.

(** ** Lemmas: p-bit maps *)

Lemma pbits_from_spec s len pos pcp :
  0 <= pos -> pos + Z.of_nat (String.length s) <= len -> len < 2 ^ 32 ->
  pcp ∈ pbits_from s len pos <->
  exists i, String.get i s = Some "1"%char /\ pcp = len - 1 - (pos + Z.of_nat i).
Proof.
  revert pos. induction s as [|c s IH]; intros pos Hpos Hlen Hb.
  { split; [by intros ?%not_elem_of_nil|by intros (i & Hi & _); destruct i]. }
  cbn [String.length] in Hlen.
  assert (pcp ∈ pbits_from s len (pos + 1) <->
    exists i, String.get i s = Some "1"%char /\ pcp = len - 1 - (pos + 1 + Z.of_nat i)) as IH'
    by (apply IH; lia).
  assert ((exists i, String.get i (String c s) = Some "1"%char /\ pcp = len - 1 - (pos + Z.of_nat i))
    <-> (c = "1"%char /\ pcp = len - 1 - pos) \/ pcp ∈ pbits_from s len (pos + 1)) as ->.
  { rewrite IH'. split.
    - intros ([|i] & Hi & ->); cbn in Hi; [left; split; [by injection Hi|lia]|].
      right. exists i. split; [done|lia].
    - intros [[-> ->]|(i & Hi & ->)]; [exists O; split; [done|lia]|].
      exists (S i). split; [done|lia]. }
  cbn [pbits_from]. rewrite !(u32_small len), !(u32_small pos), !u32_small by (rewrite ?u32_small; lia).
  destruct (ascii_dec c "1") as [->|Hc]; [rewrite elem_of_cons; tauto|tauto].
Qed.

Lemma TrimPrefix_0b bits : TrimPrefix ("0b" +:+ bits) "0b" = bits.
Proof.
  unfold TrimPrefix. change ("0b" +:+ bits) with (String "0" (String "b" bits)).
  assert (String.prefix "0b" (String "0" (String "b" bits)) = true) as -> by by destruct bits.
  cbn [String.length Nat.sub String.substring]. rewrite Nat.sub_0_r.
  induction bits as [|c s IH]; cbn; [done|]. by f_equal.
Qed.

(** The digit of weight [pcp] of the map is 1. *)
Definition carries (bits : string) (pcp : Z) : Prop :=
  0 <= pcp < Z.of_nat (String.length bits) /\
  String.get (String.length bits - 1 - Z.to_nat pcp) bits = Some "1"%char.

Lemma String_get_lt i s c : String.get i s = Some c -> (i < String.length s)%nat.
Proof.
  revert i. induction s as [|d s IH]; intros [|i] Hi; cbn in *; try done; [lia|].
  apply IH in Hi. lia.
Qed.

Lemma pbit_pcps_spec bits pcp :
  Z.of_nat (String.length bits) < 2 ^ 32 ->
  pcp ∈ pbit_pcps ("0b" +:+ bits) <-> carries bits pcp.
Proof.
  intros Hlen. unfold pbit_pcps, carries. rewrite TrimPrefix_0b, pbits_from_spec by lia.
  split.
  - intros (i & Hi & ->). pose proof (String_get_lt _ _ _ Hi). split; [lia|].
    by replace (String.length bits - 1 - Z.to_nat (Z.of_nat (String.length bits) - 1 - (0 + Z.of_nat i)))%nat
      with i by lia.
  - intros [Hp Hg]. eexists. split; [exact Hg|]. lia.
Qed.

Lemma foldl_insert_lookup (l : list Z) (v : Z) (m : gmap Z Z) k :
  foldl (fun m pcp => <[pcp := v]> m) m l !! k =
  if decide (k ∈ l) then Some v else m !! k.
Proof.
  revert m. induction l as [|x l IH]; intros m; csimpl.
  { done. }
  rewrite IH. destruct (decide (k ∈ l)) as [Hk|Hk].
  - rewrite decide_True; [done|]. apply elem_of_cons. by right.
  - destruct (decide (k = x)) as [->|Hx].
    + rewrite decide_True by (apply elem_of_cons; by left). apply lookup_insert_eq.
    + rewrite decide_False by (rewrite elem_of_cons; by intros [?|?]).
      by rewrite lookup_insert_ne.
Qed.

(** Lookup scans the gem ports from the last one. *)
Lemma build_pbitToGem_app gems g k :
  build_pbitToGem (gems ++ [g]) !! k =
  if decide (k ∈ pbit_pcps (gp_PbitMap g)) then Some (gp_GemportId g)
  else build_pbitToGem gems !! k.
Proof. unfold build_pbitToGem. by rewrite foldl_app, <-foldl_insert_lookup. Qed.

(** ** Lemmas: retry loops *)

(** [n] attempts at [req]: every answer but the last is an error. *)
Definition attempts (req : Request) (n : nat) (s : Streams) (reqs : list Request) : Prop :=
  reqs = replicate n req /\ forall m, (S m < n)%nat -> s_rpc s m <> None.

Lemma attempts_more req n s reqs :
  s_rpc s 0%nat <> None -> (1 <= n)%nat -> attempts req n (pop_rpc s) reqs ->
  attempts req (S n) s (req :: reqs).
Proof.
  intros H0 Hn [-> Hm]. split; [done|]. intros [|m] Hlt; [done|]. apply (Hm m). lia.
Qed.

(** The two loops are the same up to the request and the final error. *)
Fixpoint retry (req : Request) (e : GoError) (n : nat) : prog (option GoError) :=
  match n with
  | O => Ret (Some e)
  | S n' =>
      err ← op (OpRpc req);
      match err with Some _ => retry req e n' | None => Ret None end
  end.

Lemma retry_spec req e n s :
  exists m r s' reqs,
    play (retry req e n) s = Some (inl r, reqs, s')
    /\ (m <= n)%nat /\ attempts req m s reqs
    /\ ((r = None /\ (1 <= m)%nat /\ s_rpc s (m - 1)%nat = None)
        \/ (r = Some e /\ m = n /\ forall k, (k < n)%nat -> s_rpc s k <> None)).
Proof.
  revert s. induction n as [|n IH]; intros s.
  { exists O, (Some e), s, []. split_and!; [done|lia|by split; [|lia]|].
    right. split_and!; [done..|lia]. }
  cbn. destruct (s_rpc s 0%nat) as [e0|] eqn:E0.
  - destruct (IH (pop_rpc s)) as (m & r & s' & reqs & Hp & Hm & [-> Ha] & Hr).
    exists (S m), r, s', (req :: replicate m req). cbn in Hp. rewrite Hp. cbn.
    split_and!; [done|lia| |].
    + split; [done|]. intros [|k] Hk; [by rewrite E0|]. apply (Ha k). lia.
    + destruct Hr as [(-> & H1 & H2)|(-> & -> & H2)]; [left|right].
      * split_and!; [done|lia|]. cbn in H2. rewrite Nat.sub_0_r. by replace m with (S (m - 1)) by lia.
      * split_and!; [done..|]. intros [|k] Hk; [by rewrite E0|]. apply (H2 k). lia.
  - exists 1%nat, None, (pop_rpc s), [req]. cbn. split_and!; [done|lia| |].
    + split; [done|lia].
    + left. split_and!; [done|lia|done].
Qed.

Lemma retry_sched_eq n sched s :
  play (retry_sched n sched) s =
  play (retry (RpcCreateTrafficSchedulers sched)
          (ErrorsNew "failed-to-create-traffic-sched-after-all-retries") n) s.
Proof.
  revert s. induction n as [|n IH]; intros s; cbn; [done|].
  destruct (s_rpc s 0%nat); cbn; [by rewrite IH|done].
Qed.

Lemma retry_queue_eq n queue s :
  play (retry_queue n queue) s =
  play (retry (RpcCreateTrafficQueues queue)
          (ErrorsNew "failed-to-create-traffic-queue-after-all-retries") n) s.
Proof.
  revert s. induction n as [|n IH]; intros s; cbn; [done|].
  destruct (s_rpc s 0%nat); cbn; [by rewrite IH|done].
Qed.

Lemma sched_with_retry_eq sched s :
  play (CreateTrafficSchedWithRetry sched) s =
  play (retry (RpcCreateTrafficSchedulers sched)
          (ErrorsNew "failed-to-create-traffic-sched-after-all-retries") (S maxRetry)) s.
Proof.
  unfold CreateTrafficSchedWithRetry. cbn -[maxRetry retry retry_sched].
  change (retry ?r ?e (S maxRetry)) with
    (err ← op (OpRpc r); match err with Some _ => retry r e maxRetry | None => Ret None end).
  cbn -[maxRetry retry retry_sched].
  destruct (s_rpc s 0%nat); [by rewrite retry_sched_eq|done].
Qed.

Lemma queue_with_retry_eq queue s :
  play (CreateTrafficQueuesWithRetry queue) s =
  play (retry (RpcCreateTrafficQueues queue)
          (ErrorsNew "failed-to-create-traffic-queue-after-all-retries") (S maxRetry)) s.
Proof.
  unfold CreateTrafficQueuesWithRetry. cbn -[maxRetry retry retry_queue].
  change (retry ?r ?e (S maxRetry)) with
    (err ← op (OpRpc r); match err with Some _ => retry r e maxRetry | None => Ret None end).
  cbn -[maxRetry retry retry_queue].
  destruct (s_rpc s 0%nat); [by rewrite retry_queue_eq|done].
Qed.

(** The flow loop stops at the first OK answer, AlreadyExists not being one. *)
Lemma retry_flow_spec flow n err0 s :
  exists m r s' reqs,
    play (retry_flow n flow err0) s = Some (inl r, reqs, s')
    /\ (m <= n)%nat /\ reqs = replicate m (RpcFlowAdd flow)
    /\ (forall k, (S k < m)%nat -> status_Code (s_rpc s k) <> OK)
    /\ ((r = None /\ (1 <= m)%nat /\ status_Code (s_rpc s (m - 1)%nat) = OK)
        \/ (m = n /\ (forall k, (k < n)%nat -> status_Code (s_rpc s k) <> OK)
            /\ r = match n with O => err0 | S k => s_rpc s k end)).
Proof.
  revert err0 s. induction n as [|n IH]; intros err0 s.
  { exists O, err0, s, []. split_and!; [done|lia|done|lia|right; split_and!; [done|lia|done]]. }
  cbn. set (c := status_Code (s_rpc s 0%nat)).
  destruct (decide (c = OK)) as [Hok|Hok].
  { rewrite (decide_False (P := c = ResourceExhausted)) by (rewrite Hok; discriminate).
    exists 1%nat, None, (pop_rpc s), [RpcFlowAdd flow]. cbn.
    split_and!; [done|lia|done|lia|left; split_and!; [done|lia|done]]. }
  destruct (IH (s_rpc s 0%nat) (pop_rpc s)) as (m & r & s' & reqs & Hp & Hm & -> & Hk & Hr).
  exists (S m), r, s', (replicate (S m) (RpcFlowAdd flow)).
  split_and!; [|lia|done| |].
  - cbn in Hp. destruct (decide (c = ResourceExhausted)); by rewrite Hp.
  - intros [|k] Hlt; [done|]. apply (Hk k). lia.
  - destruct Hr as [(-> & H1 & H2)|(-> & H1 & ->)]; [left|right].
    + split_and!; [done|lia|]. cbn in H2 |- *. rewrite Nat.sub_0_r.
      by replace m with (S (m - 1)) by lia.
    + split_and!; [done| |by destruct n]. intros [|k] Hlt; [done|]. apply (H1 k). lia.
Qed.

(** ** Multicast: the calls of a group, one after the other *)

Inductive mc_call := McGroup | McFlow | McSched | McQueue | McMember.

(** The calls the flags of the group ask for, in order. *)
Definition mc_plan (grp : GroupData) : list mc_call :=
  (if gd_AddGroup grp then [McGroup] else []) ++ (if gd_AddFlow grp then [McFlow] else [])
  ++ (if gd_AddSched grp then [McSched] else []) ++ (if gd_AddQueue grp then [McQueue] else [])
  ++ (if gd_AddMember grp then [McMember] else []).

(** The request of a call, given the alloc id of the subscriber and, for the
    flow, its id and the random byte of its address. *)
Definition mc_request (grp : GroupData) (alloc : Z) (c : mc_call) (id byte : Z) : Request :=
  let subs := gd_Subs grp in
  match c with
  | McGroup => RpcPerformGroupOperation
      {| gr_GroupId := gd_GroupID grp; gr_Command := Group_SET_MEMBERS; gr_Members := [] |}
  | McFlow => RpcFlowAdd
      {| fl_AccessIntfId := i32 (PonIntf subs); fl_OnuId := i32 (OnuID subs);
         fl_UniId := i32 (UniID subs); fl_FlowId := id; fl_SymmetricFlowId := 0;
         fl_FlowType := "multicast"; fl_AllocId := i32 (gd_AllocID grp);
         fl_GemportId := i32 (gd_GemPortID grp);
         fl_Classifier :=
           {| cl_OVid := 255; cl_IVid := 55; cl_OPbits := 255; cl_IPbits := 255; cl_EthType := 0;
              cl_DstMac := [0x01; 0x00; 0x5E; OnuID subs mod 255; byte; u8 (gd_GroupID grp)];
              cl_IpProto := 0; cl_SrcPort := 0; cl_DstPort := 0; cl_PktTagType := DoubleTag |};
         fl_Action := None; fl_Priority := i32 (gd_Priority grp); fl_PortNo := UniPortNo subs;
         fl_GroupId := gd_GroupID grp; fl_ReplicateFlow := false; fl_PbitToGemport := ∅ |}
  | McSched => RpcCreateTrafficSchedulers
      {| tss_IntfId := PonIntf subs; tss_OnuId := OnuID subs; tss_UniId := UniID subs;
         tss_PortNo := UniPortNo subs;
         tss_TrafficScheds :=
           [ {| ts_Direction := Direction_DOWNSTREAM; ts_AllocId := alloc;
                ts_Scheduler :=
                  {| sc_Direction := Direction_DOWNSTREAM;
                     sc_AdditionalBw := AdditionalBW_BestEffort; sc_Priority := gd_Priority grp;
                     sc_Weight := gd_Weight grp; sc_SchedPolicy := SchedulingPolicy_WRR |};
                ts_TrafficShapingInfo :=
                  {| Cir := 1948; Cbs := 31768; Pir := 2048; Pbs := 32768 |} |} ] |}
  | McQueue => RpcCreateTrafficQueues
      {| tqs_IntfId := PonIntf subs; tqs_OnuId := OnuID subs; tqs_UniId := UniID subs;
         tqs_PortNo := 0;
         tqs_TrafficQueues :=
           [ {| tq_Direction := Direction_DOWNSTREAM; tq_GemportId := gd_GemPortID grp;
                tq_PbitMap := ""; tq_AesEncryption := false; tq_SchedPolicy := gd_SchedPolicy grp;
                tq_Priority := gd_Priority grp; tq_Weight := gd_Weight grp;
                tq_DiscardPolicy := DiscardPolicy_TailDrop |} ] |}
  | McMember => RpcPerformGroupOperation
      {| gr_GroupId := gd_GroupID grp; gr_Command := Group_ADD_MEMBERS;
         gr_Members := [ {| gm_InterfaceId := PonIntf subs; gm_InterfaceType := GroupMember_PON;
                            gm_GemPortId := gd_GemPortID grp; gm_Priority := gd_Priority grp |} ] |}
  end.

(** The flow tolerates AlreadyExists; the scheduler hides the device's error. *)
Definition mc_verdict (c : mc_call) (err : option GoError) : option GoError :=
  match c with
  | McFlow => already_exists_ok err
  | McSched => match err with Some _ => reason_error SCHED_CREATION_FAILED | None => None end
  | _ => err
  end.

Fixpoint exec_mc (grp : GroupData) (alloc : Z) (calls : list mc_call) (s : Streams)
    : option GoError * list Request * Streams :=
  match calls with
  | [] => (None, [], s)
  | c :: calls' =>
      let '(req, s1) :=
        match c with
        | McFlow => (mc_request grp alloc c (s_flow s 0%nat) (s_rand s 0%nat mod 255),
                     pop_rand (pop_flow s))
        | _ => (mc_request grp alloc c 0 0, s)
        end in
      match mc_verdict c (s_rpc s1 0%nat) with
      | Some e => (Some e, [req], pop_rpc s1)
      | None => let '(r, reqs, s2) := exec_mc grp alloc calls' (pop_rpc s1) in
                (r, req :: reqs, s2)
      end
  end.

Definition mc_refines (grp : GroupData) (alloc : Z) (p : prog (option GoError))
    (calls : list mc_call) : Prop :=
  forall s, play p s = let '(r, reqs, s') := exec_mc grp alloc calls s in
                       Some (inl r, reqs, s').

Lemma mc_refines_nil grp alloc : mc_refines grp alloc (Ret None) [].
Proof. by intros s. Qed.

Lemma exec_mc_app grp alloc l1 l2 s :
  exec_mc grp alloc (l1 ++ l2) s =
  let '(r, reqs, s1) := exec_mc grp alloc l1 s in
  match r with
  | Some e => (Some e, reqs, s1)
  | None => let '(r, reqs', s2) := exec_mc grp alloc l2 s1 in (r, reqs ++ reqs', s2)
  end.
Proof.
  revert s. induction l1 as [|c l1 IH]; intros s; cbn.
  { by destruct (exec_mc _ _ l2 s) as [[??]?]. }
  destruct (match c with McFlow => _ | _ => _ end) as [req s1].
  destruct (mc_verdict c (s_rpc s1 0%nat)); [done|]. rewrite IH.
  destruct (exec_mc _ _ l1 _) as [[[e|] reqs] s2]; [done|].
  by destruct (exec_mc _ _ l2 _) as [[??]?].
Qed.

Lemma mc_refines_seq grp alloc p q l1 l2 :
  mc_refines grp alloc p l1 -> mc_refines grp alloc q l2 ->
  mc_refines grp alloc (err ← p; when_nil err q) (l1 ++ l2).
Proof.
  intros Hp Hq s. rewrite play_bind, (Hp s), exec_mc_app.
  destruct (exec_mc grp alloc l1 s) as [[[e|] reqs] s1]; cbn; [by rewrite app_nil_r|].
  rewrite (Hq s1). by destruct (exec_mc grp alloc l2 s1) as [[??]?].
Qed.

Lemma mc_refines_if grp alloc (b : bool) p l :
  mc_refines grp alloc p l ->
  mc_refines grp alloc (if b then p else Ret None) (if b then l else []).
Proof. intros Hp. destruct b; [done|apply mc_refines_nil]. Qed.

Lemma mc_refines_group grp alloc : mc_refines grp alloc (CreateGroup grp) [McGroup].
Proof. intros s. cbn. by destruct (s_rpc s 0%nat). Qed.
Lemma mc_refines_queue grp alloc :
  mc_refines grp alloc (OpMulticastTrafficQueue grp true) [McQueue].
Proof. intros s. cbn. by destruct (s_rpc s 0%nat). Qed.
Lemma mc_refines_member grp alloc : mc_refines grp alloc (OpMemberToGroup grp true) [McMember].
Proof. intros s. cbn. by destruct (s_rpc s 0%nat). Qed.

Lemma mc_refines_flow grp alloc : mc_refines grp alloc (AddMulticastFlow grp) [McFlow].
Proof.
  intros s. unfold AddMulticastFlow. cbn -[u8 already_exists_ok]. unfold MacMax, MacMin.
  pose proof (Z.mod_pos_bound (OnuID (gd_Subs grp)) 255 eq_refl).
  pose proof (Z.mod_pos_bound (s_rand s 0%nat) 255 eq_refl).
  change (255 - 0) with 255. rewrite Z.add_0_r.
  assert (forall b, 0 <= b < 255 -> u8 b = b) as Hu8 by (intros b Hb; apply Z.mod_small; lia).
  rewrite (Hu8 (_ mod 255)), (Hu8 (s_rand s 0%nat mod 255)) by done.
  by destruct (already_exists_ok _).
Qed.

Lemma mc_refines_sched grp tpID tp us :
  TpIDList (TestConfig (gd_Subs grp)) !! 0%nat = Some tpID ->
  TpInstance (gd_Subs grp) !! tpID = Some tp -> UsScheduler tp = Some us ->
  mc_refines grp (sa_AllocId us) (AddMulticastSched grp) [McSched].
Proof.
  intros H1 H2 H3 s. unfold AddMulticastSched, first_TpInstance, index. rewrite H1. cbn.
  rewrite H2. cbn. rewrite H3. cbn. by destruct (s_rpc s 0%nat).
Qed.

(** ** Properties *)

(** C25. The p-bit map a replicated flow carries: a priority code point is sent
    to the gem port that carries it in the bit string of its p-bit map, the
    digit of weight [pcp] being 1; when several do, to the last one of the
    list; and no other code point is in the map. *)
Theorem build_pbitToGem_spec (gems : list GemPortAttributes) (bits : GemPortAttributes -> string)
    (pcp id : Z) :
  (forall g, g ∈ gems -> gp_PbitMap g = "0b" +:+ bits g
                         /\ Z.of_nat (String.length (bits g)) < 2 ^ 32) ->
  build_pbitToGem gems !! pcp = Some id <->
  exists l1 g l2, gems = l1 ++ g :: l2 /\ gp_GemportId g = id /\ carries (bits g) pcp
                  /\ forall g', g' ∈ l2 -> ~ carries (bits g') pcp.
Proof.
  induction gems as [|g gems IH] using rev_ind; intros Hg.
  { split; [by intros [=]|by intros ([|??] & ? & ? & ? & _)]. }
  destruct (Hg g) as [Hb Hl]; [set_solver|].
  rewrite build_pbitToGem_app, Hb.
  case_decide as Hc; rewrite pbit_pcps_spec in Hc by done.
  - split.
    + intros [= <-]. exists gems, g, []. split_and!; [done..|]. by intros g' ?%not_elem_of_nil.
    + intros (l1 & g0 & l2 & Heq & <- & Hc0 & Hno).
      destruct l2 as [|g2 l2 _] using rev_ind; [by apply app_inj_tail in Heq as [_ ->]|].
      rewrite app_comm_cons, app_assoc in Heq. apply app_inj_tail in Heq as [_ ->].
      exfalso. apply (Hno g2); [set_solver|done].
  - rewrite IH by (intros g' Hg'; apply Hg; set_solver). split.
    + intros (l1 & g0 & l2 & -> & <- & Hc0 & Hno). exists l1, g0, (l2 ++ [g]).
      split_and!; [by rewrite <-app_assoc|done..|].
      intros g' [Hin| ->%list_elem_of_singleton]%elem_of_app; [by apply Hno|done].
    + intros (l1 & g0 & l2 & Heq & <- & Hc0 & Hno).
      destruct l2 as [|g2 l2 _] using rev_ind; [by apply app_inj_tail in Heq as [_ ->]|].
      rewrite app_comm_cons, app_assoc in Heq. apply app_inj_tail in Heq as [-> ->].
      exists l1, g0, l2. split_and!; [done..|]. intros g' Hg'. apply Hno. set_solver.
Qed.

Definition gem_pair : list GemPortAttributes :=
  [sample_gem 1024 "0b00000101"; sample_gem 1025 "0b00000110"].

Lemma build_pbitToGem_spec_witness :
  let bits g := if decide (gp_GemportId g = 1024) then "00000101" else "00000110" in
  build_pbitToGem gem_pair !! 2 = Some 1025 <->
  exists l1 g l2, gem_pair = l1 ++ g :: l2 /\ gp_GemportId g = 1025 /\ carries (bits g) 2
                  /\ forall g', g' ∈ l2 -> ~ carries (bits g') 2.
Proof.
  intros bits. apply (build_pbitToGem_spec gem_pair bits). intros g Hg.
  repeat (apply elem_of_cons in Hg as [->|Hg]; [by vm_compute|]).
  by apply not_elem_of_nil in Hg.
Defined.

(** C23. The scheduler and queue loops send the same request at most 21 times,
    stop at the first success, and report failure exactly when all 21 attempts
    failed. *)
Theorem retry_bounded (sched : TrafficSchedulers) (queue : TrafficQueues) (s : Streams)
    (p : prog (option GoError)) (req : Request) :
  (p, req) ∈ [ (CreateTrafficSchedWithRetry sched, RpcCreateTrafficSchedulers sched);
               (CreateTrafficQueuesWithRetry queue, RpcCreateTrafficQueues queue) ] ->
  exists n r s' reqs,
    play p s = Some (inl r, reqs, s') /\ (1 <= n <= 21)%nat /\ attempts req n s reqs
    /\ ((r = None /\ s_rpc s (n - 1)%nat = None)
        \/ ((exists msg, r = Some (ErrorsNew msg)) /\ n = 21%nat /\ s_rpc s 20%nat <> None)).
Proof.
  intros Hp. assert (exists msg, play p s = play (retry req (ErrorsNew msg) (S maxRetry)) s)
    as [msg ->].
  { apply elem_of_cons in Hp as [[= -> ->]|Hp]; [eexists; apply sched_with_retry_eq|].
    apply list_elem_of_singleton in Hp as [= -> ->]. eexists. apply queue_with_retry_eq. }
  destruct (retry_spec req (ErrorsNew msg) (S maxRetry) s) as (m & r & s' & reqs & H1 & H2 & H3 & H4).
  exists m, r, s', reqs. unfold maxRetry in *.
  destruct H4 as [(-> & Hm & Hok)|(-> & -> & Hno)]; split_and!; try done; try lia; [by left|].
  right. split_and!; [by exists msg|done|]. apply Hno. lia.
Qed.

Lemma retry_bounded_witness :
  let sched := {| tss_IntfId := 0; tss_OnuId := 1; tss_UniId := 0; tss_PortNo := 16;
                  tss_TrafficScheds := [] |} in
  let s := {| s_flow := fun _ => 0; s_rand := fun _ => 0;
              s_rpc := fun n => if (n <? 3)%nat then Some (ErrorsNew "busy") else None |} in
  exists n r s' reqs,
    play (CreateTrafficSchedWithRetry sched) s = Some (inl r, reqs, s') /\ (1 <= n <= 21)%nat
    /\ attempts (RpcCreateTrafficSchedulers sched) n s reqs
    /\ ((r = None /\ s_rpc s (n - 1)%nat = None)
        \/ ((exists msg, r = Some (ErrorsNew msg)) /\ n = 21%nat /\ s_rpc s 20%nat <> None)).
Proof.
  intros sched s.
  apply (retry_bounded sched {| tqs_IntfId := 0; tqs_OnuId := 1; tqs_UniId := 0; tqs_PortNo := 16;
                                tqs_TrafficQueues := [] |} s).
  apply elem_of_cons. by left.
Defined.

(** C24. [AddFlowWithRetry] retries only a flow refused for lack of resources,
    at most 20 times, until the agent answers OK.  A flow the agent already has
    is a success on the first attempt but not on a retry: there the loop goes on
    and, if no attempt answers OK, returns the last answer as an error. *)
Theorem flow_retry_spec (flow : Flow) (s : Streams) :
  exists n r s',
    play (AddFlowWithRetry flow) s = Some (inl r, replicate n (RpcFlowAdd flow), s')
    /\ (1 <= n <= 21)%nat
    /\ ((n = 1%nat /\ status_Code (s_rpc s 0%nat) <> ResourceExhausted
         /\ r = if decide (status_Code (s_rpc s 0%nat) = AlreadyExists) then None
                else s_rpc s 0%nat)
        \/ (status_Code (s_rpc s 0%nat) = ResourceExhausted
            /\ (forall k, (1 <= k < n - 1)%nat -> status_Code (s_rpc s k) <> OK)
            /\ ((r = None /\ (2 <= n)%nat /\ status_Code (s_rpc s (n - 1)%nat) = OK)
                \/ (n = 21%nat /\ status_Code (s_rpc s 20%nat) <> OK /\ r = s_rpc s 20%nat)))).
Proof.
  unfold AddFlowWithRetry. cbn -[maxRetry retry_flow].
  destruct (decide (status_Code (s_rpc s 0%nat) = AlreadyExists)) as [Ha|Ha].
  { exists 1%nat, None, (pop_rpc s). cbn. split_and!; [done|lia..|]. left.
    split_and!; [done|by rewrite Ha|done]. }
  destruct (decide (status_Code (s_rpc s 0%nat) = ResourceExhausted)) as [Hr|Hr].
  - destruct (retry_flow_spec flow maxRetry (s_rpc s 0%nat) (pop_rpc s))
      as (m & r & s' & reqs & -> & Hm & -> & Hk & Hres).
    exists (S m), r, s'. unfold maxRetry in *.
    split_and!; [done|lia..|]. right. split_and!; [done| |].
    + intros [|k] Hlt; [lia|]. apply (Hk k). lia.
    + destruct Hres as [(-> & H1 & H2)|(-> & H1 & ->)]; [left|right].
      * split_and!; [done|lia|]. cbn in H2 |- *. rewrite Nat.sub_0_r.
        by replace m with (S (m - 1)) by lia.
      * split_and!; [done| |done]. apply (H1 19%nat). lia.
  - exists 1%nat, (s_rpc s 0%nat), (pop_rpc s). cbn. split_and!; [done|lia..|]. by left.
Qed.

(** C13. Provisioning a multicast group makes the calls its flags ask for, in
    the order group, flow, scheduler, queue, member, each with its contents; the
    first call that fails ends it with that call's error. *)
Theorem multicast_refines (grp : GroupData) (tpID : Z) (tp : TechProfileInstance)
    (us : SchedulerAttributes) (s : Streams) :
  TpIDList (TestConfig (gd_Subs grp)) !! 0%nat = Some tpID ->
  TpInstance (gd_Subs grp) !! tpID = Some tp -> UsScheduler tp = Some us ->
  play (AddMulticastQueueFlow grp) s =
  let '(r, reqs, s') := exec_mc grp (sa_AllocId us) (mc_plan grp) s in Some (inl r, reqs, s').
Proof.
  intros H1 H2 H3. revert s. unfold AddMulticastQueueFlow, mc_plan.
  change (mc_refines grp (sa_AllocId us) (AddMulticastQueueFlow grp) (mc_plan grp)).
  unfold AddMulticastQueueFlow, mc_plan.
  rewrite <-(app_nil_r (if gd_AddMember grp then [McMember] else [])).
  repeat (apply mc_refines_seq; [apply mc_refines_if|]); [..|apply mc_refines_nil];
    eauto using mc_refines_group, mc_refines_flow, mc_refines_sched, mc_refines_queue,
      mc_refines_member.
Qed.

Lemma multicast_refines_witness :
  let grp := {| gd_Subs := sample_subs "TT" 0 1 0; gd_GroupID := 1; gd_Weight := 20;
                gd_Priority := 0; gd_OnuID := 6666; gd_UniID := 6666; gd_AllocID := 0;
                gd_GemPortID := 4069; gd_SchedPolicy := SchedulingPolicy_WRR;
                gd_AddGroup := true; gd_AddFlow := true; gd_AddSched := true;
                gd_AddQueue := true; gd_AddMember := true |} in
  let s := {| s_flow := fun _ => 1; s_rpc := fun _ => None; s_rand := fun _ => 300 |} in
  play (AddMulticastQueueFlow grp) s =
  let '(r, reqs, s') := exec_mc grp 1024 (mc_plan grp) s in Some (inl r, reqs, s').
Proof.
  intros grp s. by apply (multicast_refines grp 64 sample_tp (sample_sched Direction_UPSTREAM)).
Defined.
