(* ===== verification/AttWorkflow.v ===== *)
(** * The ATT workflow (src/core/att_workflow.go) *)
From S2P Require Import Prelude Utils Proto Config Runtime TechProfile ResourceManager WorkflowUtils.

Definition AddDhcpIPV4Flow (config : OpenOltScaleTesterConfig) (rsrMgr : nat)
    : prog (option GoError) :=
  '(flowID, err) ← GetFlowID rsrMgr (u32 (NniIntfID config));
  match err with
  | Some e => Ret (Some e)
  | None =>
      let flowClassifier :=
        {| cl_OVid := 0; cl_IVid := 0; cl_OPbits := 0; cl_IPbits := 0; cl_EthType := 2048;
           cl_DstMac := []; cl_IpProto := 17; cl_SrcPort := 67; cl_DstPort := 68;
           cl_PktTagType := "double_tag" |} in
      err ← op (OpRpc (RpcFlowAdd (nni_flow flowID config flowClassifier)));
      Ret (already_exists_ok err)
  end.

(** The body is commented out in the source. *)
Definition AddDhcpIPV6Flow (config : OpenOltScaleTesterConfig) (rsrMgr : nat)
    : prog (option GoError) := Ret None.

(** The three results are discarded. *)
Definition ProvisionAttNniTrapFlow (config : OpenOltScaleTesterConfig) (rsrMgr : nat)
    : prog (option GoError) :=
  _ ← AddDhcpIPV4Flow config rsrMgr;
  _ ← AddDhcpIPV6Flow config rsrMgr;
  _ ← AddLldpFlow config rsrMgr;
  Ret None.

Definition att_ProvisionScheds (subs : Subscriber) : prog (option GoError) :=
  err ← send_scheds subs Direction_DOWNSTREAM;
  when_nil err (send_scheds subs Direction_UPSTREAM).

Definition att_ProvisionQueues (subs : Subscriber) : prog (option GoError) :=
  err ← send_queues subs Direction_DOWNSTREAM;
  when_nil err (send_queues subs Direction_UPSTREAM).

Definition att_ProvisionEapFlow (subs : Subscriber) : prog (option GoError) :=
  '(allocID, gems) ← us_gems subs;
  let pbitToGem := build_pbitToGem gems in
  with_flow_id subs (fun flowID =>
  AddFlow subs EapolFlow Upstream flowID allocID 0 0xff true 0 pbitToGem).

Definition att_ProvisionDhcpIPV4Flow (subs : Subscriber) : prog (option GoError) :=
  '(allocID, gems) ← us_gems subs;
  let pbitToGem := build_pbitToGem gems in
  with_flow_id subs (fun flowID =>
  AddFlow subs DhcpFlowIPV4 Upstream flowID allocID 0 0xff true 0 pbitToGem).

Definition att_ProvisionDhcpIPV6Flow (subs : Subscriber) : prog (option GoError) := Ret None.

Definition att_ProvisionIgmpFlow (subs : Subscriber) : prog (option GoError) := Ret None.

Definition att_ProvisionHsiaFlow (subs : Subscriber) : prog (option GoError) :=
  '(allocID, gems) ← us_gems subs;
  let pbitToGem := build_pbitToGem gems in
  with_flow_id subs (fun flowIDUs =>
  err ← AddFlow subs HsiaFlow Upstream flowIDUs allocID 0 0xff true 0 pbitToGem;
  when_nil err (
  with_flow_id subs (fun flowIDDs =>
  AddFlow subs HsiaFlow Downstream flowIDDs allocID 0 0xff true flowIDUs pbitToGem))).

Definition att_ProvisionVoipFlow (subs : Subscriber) : prog (option GoError) := Ret None.
Definition att_ProvisionVodFlow (subs : Subscriber) : prog (option GoError) := Ret None.
Definition att_ProvisionMgmtFlow (subs : Subscriber) : prog (option GoError) := Ret None.
Definition att_ProvisionMulticastFlow (subs : Subscriber) : prog (option GoError) := Ret None.
