(* ===== verification/DtWorkflow.v ===== *)
(** * The DT workflow (src/core/dt_workflow.go) *)
From S2P Require Import Prelude Utils Proto Config Runtime TechProfile ResourceManager WorkflowUtils.

(** The result is discarded. *)
Definition ProvisionDtNniTrapFlow (config : OpenOltScaleTesterConfig) (rsrMgr : nat)
    : prog (option GoError) :=
  _ ← AddLldpFlow config rsrMgr;
  Ret None.

Definition dt_ProvisionScheds (subs : Subscriber) : prog (option GoError) :=
  err ← send_scheds subs Direction_DOWNSTREAM;
  when_nil err (send_scheds subs Direction_UPSTREAM).

Definition dt_ProvisionQueues (subs : Subscriber) : prog (option GoError) :=
  err ← send_queues subs Direction_DOWNSTREAM;
  when_nil err (send_queues subs Direction_UPSTREAM).

Definition dt_ProvisionEapFlow (subs : Subscriber) : prog (option GoError) := Ret None.
Definition dt_ProvisionDhcpIPV4Flow (subs : Subscriber) : prog (option GoError) := Ret None.
Definition dt_ProvisionDhcpIPV6Flow (subs : Subscriber) : prog (option GoError) := Ret None.
Definition dt_ProvisionIgmpFlow (subs : Subscriber) : prog (option GoError) := Ret None.

Definition dt_ProvisionHsiaFlow (subs : Subscriber) : prog (option GoError) :=
  '(allocID, gems) ← us_gems subs;
  let pbitToGem := build_pbitToGem gems in
  with_flow_id subs (fun flowIDUs =>
  err ← AddFlow subs HsiaFlow Upstream flowIDUs allocID 0 0xff true 0 pbitToGem;
  when_nil err (
  with_flow_id subs (fun flowIDDs =>
  AddFlow subs HsiaFlow Downstream flowIDDs allocID 0 0xff true flowIDUs pbitToGem))).

Definition dt_ProvisionVoipFlow (subs : Subscriber) : prog (option GoError) := Ret None.
Definition dt_ProvisionVodFlow (subs : Subscriber) : prog (option GoError) := Ret None.
Definition dt_ProvisionMgmtFlow (subs : Subscriber) : prog (option GoError) := Ret None.
Definition dt_ProvisionMulticastFlow (subs : Subscriber) : prog (option GoError) := Ret None.
