(* ===== verification/TtWorkflow.v ===== *)
(** * The TT workflow (src/core/tt_workflow.go)

    The TT flows are per gem port and per priority code point: every such pair
    gets its own group of flows.  The calls of a group are all made, whatever
    their results, and the first error of the group ends the function. *)
From S2P Require Import Prelude Utils Proto Config Runtime TechProfile ResourceManager WorkflowUtils.

Definition AddTtDhcpIPV4Flow (config : OpenOltScaleTesterConfig) (rsrMgr : nat)
    : prog (option GoError) :=
  '(flowID, err) ← GetFlowID rsrMgr 0;
  match err with
  | Some e => Ret (Some e)
  | None =>
      let flowClassifier :=
        {| cl_OVid := 0; cl_IVid := 0; cl_OPbits := 0; cl_IPbits := 0; cl_EthType := 2048;
           cl_DstMac := []; cl_IpProto := 17; cl_SrcPort := 67; cl_DstPort := 68;
           cl_PktTagType := "double_tag" |} in
      err ← op (OpRpc (RpcFlowAdd (nni_flow flowID config flowClassifier)));
      Ret (already_exists_ok err)
  end.

Definition AddTtDhcpIPV6Flow (config : OpenOltScaleTesterConfig) (rsrMgr : nat)
    : prog (option GoError) := Ret None.

(** The result is discarded. *)
Definition ProvisionTtNniTrapFlow (config : OpenOltScaleTesterConfig) (rsrMgr : nat)
    : prog (option GoError) :=
  _ ← AddTtDhcpIPV4Flow config rsrMgr;
  Ret None.

Definition FormatTtClassfierAction (flowType direction : string) (subs : Subscriber)
    : prog (Classifier * Action) :=
  if decide (direction = Upstream) then
    if decide (flowType = IgmpFlow) then
      Ret ({| cl_OVid := 0; cl_IVid := 0; cl_OPbits := 0; cl_IPbits := 0;
              cl_EthType := IPv4EthType; cl_DstMac := []; cl_IpProto := IgmpProto;
              cl_SrcPort := 0; cl_DstPort := 0; cl_PktTagType := SingleTag |},
           {| act_Cmd := Some cmd_trap; act_OVid := 0; act_IVid := 0; act_OPbits := 0;
              act_IPbits := 0 |})
    else if decide (flowType = HsiaFlow) then
      Ret ({| cl_OVid := 33; cl_IVid := 0; cl_OPbits := 0; cl_IPbits := 255; cl_EthType := 0;
              cl_DstMac := []; cl_IpProto := 0; cl_SrcPort := 0; cl_DstPort := 0;
              cl_PktTagType := SingleTag |},
           {| act_Cmd := Some cmd_push; act_OVid := 7; act_IVid := 33; act_OPbits := 0;
              act_IPbits := 0 |})
    else if decide (flowType = VoipFlow) then
      Ret ({| cl_OVid := 63; cl_IVid := 0; cl_OPbits := 7; cl_IPbits := 255; cl_EthType := 0;
              cl_DstMac := []; cl_IpProto := 0; cl_SrcPort := 0; cl_DstPort := 0;
              cl_PktTagType := SingleTag |},
           {| act_Cmd := Some cmd_push; act_OVid := 10; act_IVid := 63; act_OPbits := 7;
              act_IPbits := 0 |})
    else if decide (flowType = VodFlow) then
      Ret ({| cl_OVid := 55; cl_IVid := 0; cl_OPbits := 5; cl_IPbits := 255; cl_EthType := 0;
              cl_DstMac := []; cl_IpProto := 0; cl_SrcPort := 0; cl_DstPort := 0;
              cl_PktTagType := SingleTag |},
           {| act_Cmd := Some cmd_push; act_OVid := 555; act_IVid := 55; act_OPbits := 5;
              act_IPbits := 0 |})
    else if decide (flowType = MgmtFlow) then
      Ret ({| cl_OVid := 75; cl_IVid := 0; cl_OPbits := 7; cl_IPbits := 255; cl_EthType := 0;
              cl_DstMac := []; cl_IpProto := 0; cl_SrcPort := 0; cl_DstPort := 0;
              cl_PktTagType := SingleTag |},
           {| act_Cmd := Some cmd_push; act_OVid := 575; act_IVid := 75; act_OPbits := 7;
              act_IPbits := 0 |})
    else Ret (zero_Classifier, zero_Action)
  else if decide (direction = Downstream) then
    if decide (flowType = HsiaFlow) then
      Ret ({| cl_OVid := 7; cl_IVid := 33; cl_OPbits := 255; cl_IPbits := 255; cl_EthType := 0;
              cl_DstMac := []; cl_IpProto := 0; cl_SrcPort := 0; cl_DstPort := 0;
              cl_PktTagType := DoubleTag |},
           {| act_Cmd := Some cmd_pop; act_OVid := 0; act_IVid := 33; act_OPbits := 0;
              act_IPbits := 0 |})
    else if decide (flowType = VoipFlow) then
      mac ← GenerateMac true;
      Ret ({| cl_OVid := 10; cl_IVid := 63; cl_OPbits := 255; cl_IPbits := 255; cl_EthType := 0;
              cl_DstMac := mac; cl_IpProto := 0; cl_SrcPort := 0; cl_DstPort := 0;
              cl_PktTagType := DoubleTag |},
           {| act_Cmd := Some cmd_pop; act_OVid := 0; act_IVid := 63; act_OPbits := 0;
              act_IPbits := 7 |})
    else if decide (flowType = VodFlow) then
      mac ← GenerateMac true;
      Ret ({| cl_OVid := 555; cl_IVid := 55; cl_OPbits := 255; cl_IPbits := 255; cl_EthType := 0;
              cl_DstMac := mac; cl_IpProto := 0; cl_SrcPort := 0; cl_DstPort := 0;
              cl_PktTagType := DoubleTag |},
           {| act_Cmd := Some cmd_pop; act_OVid := 0; act_IVid := 55; act_OPbits := 0;
              act_IPbits := 5 |})
    else if decide (flowType = MgmtFlow) then
      mac ← GenerateMac true;
      Ret ({| cl_OVid := 575; cl_IVid := 75; cl_OPbits := 255; cl_IPbits := 255; cl_EthType := 0;
              cl_DstMac := mac; cl_IpProto := 0; cl_SrcPort := 0; cl_DstPort := 0;
              cl_PktTagType := DoubleTag |},
           {| act_Cmd := Some cmd_pop; act_OVid := 0; act_IVid := 75; act_OPbits := 0;
              act_IPbits := 7 |})
    else Ret (zero_Classifier, zero_Action)
  else Ret (zero_Classifier, zero_Action).

Definition AddTtFlow (subs : Subscriber) (flowType direction : string)
    (flowID allocID gemID pcp : Z) (replicateFlow : bool) (symmetricFlowID : Z)
    (pbitToGem : gmap Z Z) : prog (option GoError) :=
  '(flowClassifier, actionInfo) ← FormatTtClassfierAction flowType direction subs;
  let flowClassifier := if decide (pcp <> 0xff) then set_OPbits pcp flowClassifier
                        else flowClassifier in
  let flow := {|
    fl_AccessIntfId := i32 (PonIntf subs); fl_OnuId := i32 (OnuID subs);
    fl_UniId := i32 (UniID subs); fl_FlowId := flowID; fl_SymmetricFlowId := symmetricFlowID;
    fl_FlowType := direction; fl_AllocId := i32 allocID; fl_GemportId := i32 gemID;
    fl_Classifier := flowClassifier; fl_Action := Some actionInfo; fl_Priority := 1000;
    fl_PortNo := UniPortNo subs; fl_GroupId := 0; fl_ReplicateFlow := replicateFlow;
    fl_PbitToGemport := pbitToGem |} in
  err ← op (OpRpc (RpcFlowAdd flow));
  Ret (flow_verdict err).

Definition tt_ProvisionScheds (subs : Subscriber) : prog (option GoError) :=
  err ← send_scheds subs Direction_DOWNSTREAM;
  when_nil err (send_scheds subs Direction_UPSTREAM).

Definition tt_ProvisionQueues (subs : Subscriber) : prog (option GoError) :=
  err ← send_queues subs Direction_DOWNSTREAM;
  when_nil err (send_queues subs Direction_UPSTREAM).

Definition tt_ProvisionEapFlow (subs : Subscriber) : prog (option GoError) := Ret None.
Definition tt_ProvisionDhcpIPV4Flow (subs : Subscriber) : prog (option GoError) := Ret None.
Definition tt_ProvisionDhcpIPV6Flow (subs : Subscriber) : prog (option GoError) := Ret None.
Definition tt_ProvisionIgmpFlow (subs : Subscriber) : prog (option GoError) := Ret None.

(** In the four functions below [pbitToGem] is made empty and never filled. *)
Definition tt_ProvisionHsiaFlow (subs : Subscriber) : prog (option GoError) :=
  '(allocID, gems) ← us_gems subs;
  for_err gems (fun gem =>
  let gemID := gp_GemportId gem in
  for_err (pbit_pcps (gp_PbitMap gem)) (fun pcp =>
    with_flow_id subs (fun flowIDUs =>
    errUs ← AddTtFlow subs HsiaFlow Upstream flowIDUs allocID gemID pcp false 0 ∅;
    with_flow_id subs (fun flowIDDs =>
    errDs ← AddTtFlow subs HsiaFlow Downstream flowIDDs allocID gemID pcp false flowIDUs ∅;
    Ret (first_error [errUs; errDs]))))).

Definition tt_ProvisionVoipFlow (subs : Subscriber) : prog (option GoError) :=
  '(allocID, gems) ← us_gems subs;
  for_err gems (fun gem =>
  let gemID := gp_GemportId gem in
  for_err (pbit_pcps (gp_PbitMap gem)) (fun pcp =>
    with_flow_id subs (fun flowIDUs =>
    errUs ← AddTtFlow subs VoipFlow Upstream flowIDUs allocID gemID pcp false 0 ∅;
    with_flow_id subs (fun flowIDDs =>
    errDs ← AddTtFlow subs VoipFlow Downstream flowIDDs allocID gemID pcp false flowIDUs ∅;
    with_flow_id subs (fun flowIDDhcp =>
    errDhcp ← AddFlow subs DhcpFlowIPV4 Upstream flowIDDhcp allocID gemID pcp false 0 ∅;
    Ret (first_error [errUs; errDs; errDhcp])))))).

Definition tt_ProvisionVodFlow (subs : Subscriber) : prog (option GoError) :=
  '(allocID, gems) ← us_gems subs;
  for_err gems (fun gem =>
  let gemID := gp_GemportId gem in
  for_err (pbit_pcps (gp_PbitMap gem)) (fun pcp =>
    with_flow_id subs (fun flowIDUs =>
    errUs ← AddTtFlow subs VodFlow Upstream flowIDUs allocID gemID pcp false 0 ∅;
    with_flow_id subs (fun flowIDDs =>
    errDs ← AddTtFlow subs VodFlow Downstream flowIDDs allocID gemID pcp false flowIDUs ∅;
    with_flow_id subs (fun flowIDDhcp =>
    errDhcp ← AddFlow subs DhcpFlowIPV4 Upstream flowIDDhcp allocID gemID pcp false 0 ∅;
    with_flow_id subs (fun flowIDIgmp =>
    errIgmp ← AddTtFlow subs IgmpFlow Upstream flowIDIgmp allocID gemID pcp false 0 ∅;
    Ret (first_error [errUs; errDs; errDhcp; errIgmp]))))))).

Definition tt_ProvisionMgmtFlow (subs : Subscriber) : prog (option GoError) :=
  '(allocID, gems) ← us_gems subs;
  for_err gems (fun gem =>
  let gemID := gp_GemportId gem in
  for_err (pbit_pcps (gp_PbitMap gem)) (fun pcp =>
    with_flow_id subs (fun flowIDUs =>
    errUs ← AddTtFlow subs MgmtFlow Upstream flowIDUs allocID gemID pcp false 0 ∅;
    with_flow_id subs (fun flowIDDs =>
    errDs ← AddTtFlow subs MgmtFlow Downstream flowIDDs allocID gemID pcp false flowIDUs ∅;
    with_flow_id subs (fun flowIDDhcp =>
    errDhcp ← AddFlow subs DhcpFlowIPV4 Upstream flowIDDhcp allocID gemID pcp false 0 ∅;
    Ret (first_error [errUs; errDs; errDhcp])))))).

(** The number of ONUs per PON is only logged, but its division is evaluated. *)
Definition tt_ProvisionMulticastFlow (subs : Subscriber) : prog (option GoError) :=
  di ← op (OpDeviceInfo (RsrMgr subs));
  if GetPonPorts di =? 0 then Panic DivideByZero else
  let AddGroupFlow := PonIntf subs =? 0 in
  last ← op OpLoadLastPonIntf;
  AddSchedQueue ← (if PonIntf subs =? last
                   then _ ← op (OpAddLastPonIntf 1); Ret true
                   else Ret false);
  let grp :=
    {| gd_Subs := subs; gd_GroupID := OnuID subs; gd_Weight := 20; gd_Priority := 0;
       gd_OnuID := 6666; gd_UniID := 6666; gd_AllocID := 0; gd_GemPortID := 4069;
       gd_SchedPolicy := SchedulingPolicy_WRR;
       gd_AddGroup := AddGroupFlow; gd_AddFlow := AddGroupFlow;
       gd_AddSched := AddSchedQueue; gd_AddQueue := AddSchedQueue; gd_AddMember := true |} in
  AddMulticastQueueFlow grp.
