(* ===== verification/WorkflowManager.v ===== *)
(** * Workflow manager (src/core/workflow_manager.go)

    [WorkFlow] is the interface every workflow implements; the three instances
    are the structs [AttWorkFlow], [DtWorkFlow] and [TtWorkFlow].
    [DeployWorkflow] is the goroutine that provisions one subscriber, whose
    object is at address [a] of the heap. *)
From S2P Require Import Prelude Utils Proto Config Runtime Play Samples TechProfile ResourceManager WorkflowUtils AttWorkflow DtWorkflow TtWorkflow.

Record WorkFlow := {
  ProvisionScheds : Subscriber -> prog (option GoError);
  ProvisionQueues : Subscriber -> prog (option GoError);
  ProvisionEapFlow : Subscriber -> prog (option GoError);
  ProvisionDhcpIPV4Flow : Subscriber -> prog (option GoError);
  ProvisionDhcpIPV6Flow : Subscriber -> prog (option GoError);
  ProvisionIgmpFlow : Subscriber -> prog (option GoError);
  ProvisionHsiaFlow : Subscriber -> prog (option GoError);
  ProvisionVoipFlow : Subscriber -> prog (option GoError);
  ProvisionVodFlow : Subscriber -> prog (option GoError);
  ProvisionMgmtFlow : Subscriber -> prog (option GoError);
  ProvisionMulticastFlow : Subscriber -> prog (option GoError);
}.

Definition AttWorkFlow : WorkFlow := {|
  ProvisionScheds := att_ProvisionScheds; ProvisionQueues := att_ProvisionQueues;
  ProvisionEapFlow := att_ProvisionEapFlow; ProvisionDhcpIPV4Flow := att_ProvisionDhcpIPV4Flow;
  ProvisionDhcpIPV6Flow := att_ProvisionDhcpIPV6Flow; ProvisionIgmpFlow := att_ProvisionIgmpFlow;
  ProvisionHsiaFlow := att_ProvisionHsiaFlow; ProvisionVoipFlow := att_ProvisionVoipFlow;
  ProvisionVodFlow := att_ProvisionVodFlow; ProvisionMgmtFlow := att_ProvisionMgmtFlow;
  ProvisionMulticastFlow := att_ProvisionMulticastFlow |}.

Definition DtWorkFlow : WorkFlow := {|
  ProvisionScheds := dt_ProvisionScheds; ProvisionQueues := dt_ProvisionQueues;
  ProvisionEapFlow := dt_ProvisionEapFlow; ProvisionDhcpIPV4Flow := dt_ProvisionDhcpIPV4Flow;
  ProvisionDhcpIPV6Flow := dt_ProvisionDhcpIPV6Flow; ProvisionIgmpFlow := dt_ProvisionIgmpFlow;
  ProvisionHsiaFlow := dt_ProvisionHsiaFlow; ProvisionVoipFlow := dt_ProvisionVoipFlow;
  ProvisionVodFlow := dt_ProvisionVodFlow; ProvisionMgmtFlow := dt_ProvisionMgmtFlow;
  ProvisionMulticastFlow := dt_ProvisionMulticastFlow |}.

Definition TtWorkFlow : WorkFlow := {|
  ProvisionScheds := tt_ProvisionScheds; ProvisionQueues := tt_ProvisionQueues;
  ProvisionEapFlow := tt_ProvisionEapFlow; ProvisionDhcpIPV4Flow := tt_ProvisionDhcpIPV4Flow;
  ProvisionDhcpIPV6Flow := tt_ProvisionDhcpIPV6Flow; ProvisionIgmpFlow := tt_ProvisionIgmpFlow;
  ProvisionHsiaFlow := tt_ProvisionHsiaFlow; ProvisionVoipFlow := tt_ProvisionVoipFlow;
  ProvisionVodFlow := tt_ProvisionVodFlow; ProvisionMgmtFlow := tt_ProvisionMgmtFlow;
  ProvisionMulticastFlow := tt_ProvisionMulticastFlow |}.

(** [None] is the nil interface value. *)
Definition getWorkFlow (subs : Subscriber) : option WorkFlow :=
  let name := WorkflowName (TestConfig subs) in
  if decide (name = "ATT") then Some AttWorkFlow
  else if decide (name = "DT") then Some DtWorkFlow
  else if decide (name = "TT") then Some TtWorkFlow
  else None.

Definition set_Reason (r : string) (s : Subscriber) : Subscriber :=
  {| SubscriberName := SubscriberName s; OnuID := OnuID s; UniID := UniID s;
     PonIntf := PonIntf s; UniPortNo := UniPortNo s; Ctag := Ctag s; Stag := Stag s;
     Reason := r; TpInstance := TpInstance s; TestConfig := TestConfig s;
     RsrMgr := RsrMgr s; subWg := subWg s |}.

(** The calls of the non-group branch, in order. *)
Definition unicast_stages (wf : WorkFlow) : list (Subscriber -> prog (option GoError)) :=
  [ ProvisionScheds wf; ProvisionQueues wf; ProvisionEapFlow wf; ProvisionDhcpIPV4Flow wf;
    ProvisionDhcpIPV6Flow wf; ProvisionIgmpFlow wf; ProvisionHsiaFlow wf; ProvisionVoipFlow wf;
    ProvisionVodFlow wf; ProvisionMgmtFlow wf ].

(** [DeployWorkflow] without its deferred call: the value stored in
    [subs.Reason]. *)
Definition deploy_reason (wf : WorkFlow) (subs : Subscriber) (isGroup : bool) : prog string :=
  err ← (if isGroup then ProvisionMulticastFlow wf subs
         else for_err (unicast_stages wf) (fun stage => stage subs));
  match err with
  | Some e => Ret (Error e)
  | None => Ret (ReasonCodeToReasonString SUBSCRIBER_PROVISION_SUCCESS)
  end.

(** The end of every path that returns: the reason is stored, and the deferred
    [subWg.Done] runs.  After a panic it runs too, while the process ends: Process
    accounts for what that can lead to. *)
Definition finish_deploy (a : nat) (subs : Subscriber) (reason : string) : prog unit :=
  _ ← op (OpStoreSub a (set_Reason reason subs));
  op (OpWgAdd (subWg subs) (-1)).

(** A method call on the nil interface panics. *)
Definition DeployWorkflow (a : nat) (isGroup : bool) : prog unit :=
  subs ← op (OpLoadSub a);
  wf ← deref (getWorkFlow subs);
  reason ← deploy_reason wf subs isGroup;
  finish_deploy a subs reason.

Definition ProvisionNniTrapFlow (config : OpenOltScaleTesterConfig) (rsrMgr : nat)
    : prog (option GoError) :=
  if decide (WorkflowName config = "ATT") then ProvisionAttNniTrapFlow config rsrMgr
  else if decide (WorkflowName config = "DT") then ProvisionDtNniTrapFlow config rsrMgr
  else if decide (WorkflowName config = "TT") then ProvisionTtNniTrapFlow config rsrMgr
  else Ret (Some (ErrorsNew "workflow-not-supported")).

(** ** Lemmas *)

Definition dhcp_trap : Classifier :=
  {| cl_OVid := 0; cl_IVid := 0; cl_OPbits := 0; cl_IPbits := 0; cl_EthType := 2048;
     cl_DstMac := []; cl_IpProto := 17; cl_SrcPort := 67; cl_DstPort := 68;
     cl_PktTagType := "double_tag" |}.
Definition lldp_trap : Classifier :=
  {| cl_OVid := 0; cl_IVid := 0; cl_OPbits := 0; cl_IPbits := 0; cl_EthType := 35020;
     cl_DstMac := []; cl_IpProto := 0; cl_SrcPort := 0; cl_DstPort := 0;
     cl_PktTagType := "untagged" |}.

(** The traps of each workflow, in order; [None] is an unknown workflow. *)
Definition nni_traps (wf : string) : option (list Classifier) :=
  if decide (wf = "ATT") then Some [dhcp_trap; lldp_trap]
  else if decide (wf = "DT") then Some [lldp_trap]
  else if decide (wf = "TT") then Some [dhcp_trap]
  else None.

(** ** Properties *)

(** C34. Whatever the agent answers, the trap-from-NNI flows of a supported
    workflow are all requested, in order, with consecutive flow ids from the
    manager, and no error is ever reported, the results being discarded; for
    another workflow nothing is requested and an error is returned. *)
Theorem ProvisionNniTrapFlow_spec (config : OpenOltScaleTesterConfig) (rsrMgr : nat) (s : Streams) :
  exists s',
    play (ProvisionNniTrapFlow config rsrMgr) s =
    match nni_traps (WorkflowName config) with
    | Some traps =>
        Some (inl None, imap (fun k c => RpcFlowAdd (nni_flow (s_flow s k) config c)) traps, s')
    | None => Some (inl (Some (ErrorsNew "workflow-not-supported")), [], s')
    end.
Proof.
  unfold ProvisionNniTrapFlow, nni_traps. repeat case_decide; by eexists.
Qed.

(** C40. Two configurations the command line accepts crash every subscriber: an
    unknown workflow name, at the first method call on a nil interface, and an
    empty list of technology profiles, at the first stage of the deployment.
    Up to the panic nothing is sent to the agent and nothing recorded. *)
Theorem DeployWorkflow_panics `{Env} (a : nat) (isGroup : bool) (w : World) (s : Subscriber) :
  w_subs w !! a = Some s ->
  (nni_traps (WorkflowName (TestConfig s)) = None ->
     run (DeployWorkflow a isGroup) w = (Panics NilDereference, w, []))
  /\ (nni_traps (WorkflowName (TestConfig s)) <> None -> TpIDList (TestConfig s) = [] ->
     run (DeployWorkflow a false) w = (Panics IndexOutOfRange, w, [])).
Proof.
  intros Hs. unfold DeployWorkflow, nni_traps, getWorkFlow.
  split; rewrite (run_op_bind _ _ w s w) by (unfold exec; by rewrite Hs).
  - repeat case_decide; done.
  - intros Hn Ht.
    assert (first_TpInstance s = Panic IndexOutOfRange) as Hf
      by (unfold first_TpInstance, index; by rewrite Ht).
    assert (forall d, send_scheds s d = Panic IndexOutOfRange) as Hd
      by (intros d; unfold send_scheds, getTrafficSched; by rewrite Hf).
    repeat case_decide; try done; cbn; unfold att_ProvisionScheds, dt_ProvisionScheds,
      tt_ProvisionScheds; by rewrite (Hd Direction_DOWNSTREAM).
Qed.

Lemma DeployWorkflow_panics_witness :
  let s := sample_subs "BBF" 0 1 0 in
  let w := sample_world accepting 1 [s] [1] in
  (nni_traps "BBF" = None ->
     run (H := sample_env accepting) (DeployWorkflow 0 true) w = (Panics NilDereference, w, []))
  /\ (nni_traps "BBF" <> None -> TpIDList (TestConfig s) = [] ->
     run (H := sample_env accepting) (DeployWorkflow 0 false) w = (Panics IndexOutOfRange, w, [])).
Proof. intros s w. apply (DeployWorkflow_panics (H := sample_env accepting) 0 true w s). done. Defined.
