(* ===== verification/SubscriberManager.v ===== *)
(** * Subscriber manager (src/core/subscriber_manager.go)

    [Subscriber.Start] creates the technology-profile instances of one
    subscriber, whose object is at address [a] of the heap, and starts the
    workflow goroutine.  The reason codes of the file are in WorkflowUtils. *)
From S2P Require Import Prelude Utils Proto Config Runtime Samples TechProfile ResourceManager WorkflowUtils WorkflowManager.

(** [fmt.Sprintf(UniPortName, ponIntf, onuID, uniID)] with
    [UniPortName = "olt-{1}/pon-{%d}/onu-{%d}/uni-{%d}"]. *)
Definition uniPortName (ponIntf onuID uniID : Z) : string :=
  "olt-{1}/pon-{" +:+ Itoa ponIntf +:+ "}/onu-{" +:+ Itoa onuID +:+ "}/uni-{"
  +:+ Itoa uniID +:+ "}".

Definition set_TpInstance (m : gmap Z TechProfileInstance) (s : Subscriber) : Subscriber :=
  {| SubscriberName := SubscriberName s; OnuID := OnuID s; UniID := UniID s;
     PonIntf := PonIntf s; UniPortNo := UniPortNo s; Ctag := Ctag s; Stag := Stag s;
     Reason := Reason s; TpInstance := m; TestConfig := TestConfig s;
     RsrMgr := RsrMgr s; subWg := subWg s |}.

(** The loop over [TpIDList].  The type assertion on the returned interface
    comes before the test of the error, and panics on a nil interface.  [true]
    is the end of the loop, [false] the early return. *)
Fixpoint create_tp_instances (a : nat) (tpIDs : list Z) : prog bool :=
  match tpIDs with
  | [] => Ret true
  | tpID :: tpIDs' =>
      subs ← op (OpLoadSub a);
      '(tpInstInterface, err) ← op (OpCreateTechProfileInstance (RsrMgr subs) (u32 tpID)
        (uniPortName (PonIntf subs) (OnuID subs) (UniID subs)) (PonIntf subs));
      match tpInstInterface with
      | None => Panic TypeAssertion
      | Some inst =>
          _ ← op (OpStoreSub a (set_TpInstance (<[tpID := inst]> (TpInstance subs)) subs));
          match err with
          | Some _ =>
              subs ← op (OpLoadSub a);
              _ ← op (OpStoreSub a
                    (set_Reason (ReasonCodeToReasonString TP_INSTANCE_CREATION_FAILED) subs));
              Ret false
          | None => create_tp_instances a tpIDs'
          end
      end
  end.

Definition Subscriber_Start (a : nat) (isGroup : bool) : prog unit :=
  subs ← op (OpLoadSub a);
  _ ← op (OpStoreSub a (set_TpInstance ∅ subs));
  completed ← create_tp_instances a (TpIDList (TestConfig subs));
  if completed : bool then Go (DeployWorkflow a isGroup) (Ret tt) else Ret tt.

(** ** Lemmas *)

(** The creation of the instances as a function of the state of the
    technology-profile managers. *)
Inductive creation `{Env} :=
  | AllCreated (m : gmap Z TechProfileInstance) (st : tp_state)
  | CreationError (m : gmap Z TechProfileInstance) (st : tp_state)
  | NoInstance (m : gmap Z TechProfileInstance) (st : tp_state)
  | CreationPanics (m : gmap Z TechProfileInstance) (st : tp_state) (r : PanicReason).

Section lemmas.
Context `{Env}.

Fixpoint creations (s : Subscriber) (tpIDs : list Z) (m : gmap Z TechProfileInstance)
    (st : tp_state) : creation :=
  match tpIDs with
  | [] => AllCreated m st
  | tpID :: tpIDs' =>
      match tp_CreateTechProfileInstance (RsrMgr s) (u32 tpID)
              (uniPortName (PonIntf s) (OnuID s) (UniID s)) (PonIntf s) st with
      | (inl r, _) => CreationPanics m st r
      | (inr (None, _), st') => NoInstance m st'
      | (inr (Some inst, Some _), st') => CreationError (<[tpID := inst]> m) st'
      | (inr (Some inst, None), st') => creations s tpIDs' (<[tpID := inst]> m) st'
      end
  end.

(** The store with the subscriber at [a] and the managers in the states given. *)
Definition with_sub (a : nat) (s : Subscriber) (st : tp_state) (w : World) : World :=
  set_tp st (set_subs (<[a := s]> (w_subs w)) w).

Lemma with_sub_twice a s s' st st' w : with_sub a s' st' (with_sub a s st w) = with_sub a s' st' w.
Proof. unfold with_sub, set_tp, set_subs. cbn. by rewrite list_insert_insert_eq. Qed.

Lemma with_sub_lookup a s st w : (a < length (w_subs w))%nat -> w_subs (with_sub a s st w) !! a = Some s.
Proof. intros Ha. cbn. by rewrite list_lookup_insert_eq. Qed.

Lemma exec_load_with_sub a s st w :
  (a < length (w_subs w))%nat ->
  exec (OpLoadSub a) (with_sub a s st w) = Done s (with_sub a s st w).
Proof. intros Ha. unfold exec. by rewrite with_sub_lookup. Qed.

Lemma exec_store_with_sub a s s' st w :
  exec (OpStoreSub a s') (with_sub a s st w) = Done tt (with_sub a s' st w).
Proof.
  unfold exec. f_equal. transitivity (with_sub a s' st (with_sub a s st w)); [done|].
  by rewrite with_sub_twice.
Qed.

Lemma run_create_tp_instances a s tpIDs m st w r :
  (a < length (w_subs w))%nat -> w_rsrMgr w !! RsrMgr s = Some (Some r) ->
  run (create_tp_instances a tpIDs) (with_sub a (set_TpInstance m s) st w) =
  match creations s tpIDs m st with
  | AllCreated m' st' => (Returns true, with_sub a (set_TpInstance m' s) st' w, [])
  | CreationError m' st' =>
      (Returns false, with_sub a (set_Reason "TP_INSTANCE_CREATION_FAILED" (set_TpInstance m' s)) st' w, [])
  | NoInstance m' st' => (Panics TypeAssertion, with_sub a (set_TpInstance m' s) st' w, [])
  | CreationPanics m' st' e => (Panics e, with_sub a (set_TpInstance m' s) st' w, [])
  end.
Proof.
  intros Ha Hr. revert m st. induction tpIDs as [|tpID tpIDs IH]; intros m st; [done|].
  cbn [create_tp_instances creations].
  rewrite (run_op_bind _ _ _ _ _ (exec_load_with_sub a (set_TpInstance m s) st w Ha)).
  cbn [RsrMgr PonIntf OnuID UniID set_TpInstance].
  destruct (tp_CreateTechProfileInstance (RsrMgr s) (u32 tpID)
    (uniPortName (PonIntf s) (OnuID s) (UniID s)) (PonIntf s) st) as [[e|[inst err]] st'] eqn:E.
  { apply run_op_crash. unfold exec, with_mgr. cbn. by rewrite Hr, E. }
  rewrite (run_op_bind _ _ _ (inst, err) (with_sub a (set_TpInstance m s) st' w)).
  2: { unfold exec, with_mgr. cbn. by rewrite Hr, E. }
  destruct inst as [inst|]; [|done].
  rewrite (run_op_bind _ _ _ _ _ (exec_store_with_sub a _ _ st' w)).
  destruct err as [e|]; [|apply IH].
  rewrite (run_op_bind _ _ _ _ _ (exec_load_with_sub a _ st' w Ha)).
  by rewrite (run_op_bind _ _ _ _ _ (exec_store_with_sub a _ _ st' w)).
Qed.

End lemmas.

(** ** Properties *)

(** C16. What starting a subscriber does, on every answer of the
    technology-profile manager.  With every instance created it records them
    and starts one workflow goroutine.  At an error that comes with an instance
    it records the reason and starts nothing; without an instance, as the
    library returns an error, the type assertion panics before the error is
    looked at; a panic of the library is a panic.  It never touches a WaitGroup: after an error, the ONU that waits
    for this subscriber is not told. *)
Theorem Subscriber_Start_spec `{Env} (a : nat) (isGroup : bool) (w : World) (s : Subscriber)
    (r : OpenOltResourceMgr) :
  w_subs w !! a = Some s -> w_rsrMgr w !! RsrMgr s = Some (Some r) ->
  run (Subscriber_Start a isGroup) w =
  match creations s (TpIDList (TestConfig s)) ∅ (w_tp w) with
  | AllCreated m st =>
      (Returns tt, with_sub a (set_TpInstance m s) st w, [DeployWorkflow a isGroup])
  | CreationError m st =>
      (Returns tt, with_sub a (set_Reason "TP_INSTANCE_CREATION_FAILED" (set_TpInstance m s)) st w, [])
  | NoInstance m st => (Panics TypeAssertion, with_sub a (set_TpInstance m s) st w, [])
  | CreationPanics m st e => (Panics e, with_sub a (set_TpInstance m s) st w, [])
  end.
Proof.
  intros Hs Hr. apply lookup_lt_Some in Hs as Ha. unfold Subscriber_Start.
  rewrite (run_op_bind _ _ w s w) by (unfold exec; by rewrite Hs).
  rewrite (run_op_bind _ _ w tt (with_sub a (set_TpInstance ∅ s) (w_tp w) w)) by by destruct w.
  rewrite run_bind, (run_create_tp_instances a s _ ∅ _ w r Ha Hr).
  by destruct (creations s _ ∅ (w_tp w)).
Qed.

(** One profile, created; and an agent whose profile manager has none. *)
Lemma Subscriber_Start_spec_witness :
  let w := sample_world accepting 1 [sample_subs "ATT" 0 1 0] [1] in
  run (H := sample_env accepting) (Subscriber_Start 0 false) w =
  (Returns tt, with_sub (H := sample_env accepting) 0 (sample_subs "ATT" 0 1 0) 1 w,
   [DeployWorkflow 0 false]).
Proof.
  intros w.
  rewrite (Subscriber_Start_spec (H := sample_env accepting) 0 false w (sample_subs "ATT" 0 1 0)
    {| rm_deviceInfo := sample_deviceInfo 1; rm_intfID := 0; rm_flow_id := 0 |}); [|reflexivity..].
  reflexivity.
Defined.
