(* ===== verification/OnuManager.v ===== *)
(** * ONU manager (src/core/onu_manager.go)

    [OnuDevice.Start] provisions the subscribers of one ONU, whose object is at
    address [a] of the heap, and reports to the batch's WaitGroup. *)
From S2P Require Import Prelude Utils Proto Config Runtime Samples TechProfile ResourceManager WorkflowUtils WorkflowManager SubscriberManager.

Definition set_SubscriberMap (m : gmap string nat) (d : OnuDevice) : OnuDevice :=
  {| onu_SerialNum := onu_SerialNum d; onu_OnuID := onu_OnuID d; onu_PonIntf := onu_PonIntf d;
     onu_StartTime := onu_StartTime d; onu_EndTime := onu_EndTime d;
     onu_DurationInMs := onu_DurationInMs d; onu_Reason := onu_Reason d;
     onu_SubscriberMap := m; onu_testConfig := onu_testConfig d;
     onu_rsrMgr := onu_rsrMgr d; onu_onuWg := onu_onuWg d |}.

(** The composite literal of the loop body: the C-tag is taken first. *)
Definition new_subscriber (onu : OnuDevice) (subs : Z) (subWg : nat) : prog Subscriber :=
  let subsName := onu_SerialNum onu +:+ "-" +:+ Itoa (i64 subs) in
  let wf := WorkflowName (onu_testConfig onu) in
  ctag ← op (OpGetCtag wf (onu_PonIntf onu));
  stag ← op (OpGetStag wf (onu_PonIntf onu) (onu_OnuID onu) (u32 subs));
  Ret {| SubscriberName := subsName; OnuID := onu_OnuID onu; UniID := u32 subs;
         PonIntf := onu_PonIntf onu;
         UniPortNo := MkUniPortNum (onu_PonIntf onu) (onu_OnuID onu) (u32 subs);
         Ctag := ctag; Stag := stag; Reason := ""; TpInstance := ∅;
         TestConfig := onu_testConfig onu; RsrMgr := onu_rsrMgr onu; subWg := subWg |}.

(** One iteration of the loop over the subscribers. *)
Definition start_subscriber (a : nat) (subWg : nat) (subs : Z) : prog unit :=
  onu ← op (OpLoadOnu a);
  s ← new_subscriber onu subs subWg;
  sa ← op (OpNewSub s);
  _ ← op (OpStoreOnu a
        (set_SubscriberMap (<[SubscriberName s := sa]> (onu_SubscriberMap onu)) onu));
  _ ← op (OpWgAdd subWg 1);
  Go (Subscriber_Start sa (IsGroupTest (onu_testConfig onu))) (Ret tt).

Definition OnuDevice_Start (a : nat) : prog unit :=
  onu ← op (OpLoadOnu a);
  _ ← op (OpStoreOnu a (set_SubscriberMap ∅ onu));
  subWg ← op OpNewWg;
  _ ← for_each (seqZ 0 (SubscribersPerOnu (onu_testConfig onu))) (start_subscriber a subWg);
  _ ← op (OpWgWait subWg);
  op (OpWgAdd (onu_onuWg onu) (-1)).

(** ** Lemmas *)

Definition subscriber_name (onu : OnuDevice) (i : Z) : string :=
  onu_SerialNum onu +:+ "-" +:+ Itoa (i64 i).

(** [s] is the subscriber with UNI [i] of an ONU, reporting to [wg]. *)
Record subscriber_of (onu : OnuDevice) (wg : nat) (i : Z) (s : Subscriber) : Prop := {
  so_name : SubscriberName s = subscriber_name onu i;
  so_onu : OnuID s = onu_OnuID onu;
  so_pon : PonIntf s = onu_PonIntf onu;
  so_uni : UniID s = u32 i;
  so_port : UniPortNo s = MkUniPortNum (onu_PonIntf onu) (onu_OnuID onu) (u32 i);
  so_fresh : Reason s = "" /\ TpInstance s = ∅;
  so_mgr : RsrMgr s = onu_rsrMgr onu;
  so_cfg : TestConfig s = onu_testConfig onu;
  so_wg : subWg s = wg;
}.

Section lemmas.
Context `{Env}.

Lemma run_new_subscriber onu i wg w :
  exists s g, run (new_subscriber onu i wg) w = (Returns s, set_globals g w, [])
    /\ subscriber_of onu wg i s.
Proof.
  unfold new_subscriber. set (wf := WorkflowName (onu_testConfig onu)).
  destruct (GetCtag wf (onu_PonIntf onu) (w_globals w)) as [c g1] eqn:E1.
  destruct (GetStag wf (onu_PonIntf onu) (onu_OnuID onu) (u32 i) g1) as [t g2] eqn:E2.
  eexists _, g2.
  rewrite (run_op_bind _ _ w c (set_globals g1 w)) by (unfold exec; by rewrite E1).
  rewrite (run_op_bind _ _ _ t (set_globals g2 w)) by (unfold exec; cbn; by rewrite E2).
  split; [done|]. by split.
Qed.

(** What starting the subscribers [unis] of the ONU at [a] does. *)
Record subscribers_started (a : nat) (onu : OnuDevice) (wg : nat) (unis : list Z) (c : Z)
    (w w' : World) (cs : list (prog unit)) : Prop := {
  ss_trace : w_trace w' = w_trace w;
  ss_subs : exists subs, w_subs w' = w_subs w ++ subs /\ Forall2 (subscriber_of onu wg) unis subs;
  ss_wgs : w_wgs w' = <[wg := c + Z.of_nat (length unis)]> (w_wgs w);
  ss_children : cs = (fun k => Subscriber_Start k (IsGroupTest (onu_testConfig onu)))
                       <$> seq (length (w_subs w)) (length unis);
  ss_map : exists m, w_onus w' !! a = Some (set_SubscriberMap m onu)
    /\ (forall k, k ∉ subscriber_name onu <$> unis -> m !! k = onu_SubscriberMap onu !! k)
    /\ (NoDup (subscriber_name onu <$> unis) ->
          forall j i, unis !! j = Some i -> m !! subscriber_name onu i = Some (length (w_subs w) + j)%nat);
}.

Lemma run_start_subscriber a onu wg i c w :
  w_onus w !! a = Some onu -> w_wgs w !! wg = Some c -> 0 <= c ->
  exists s w', run (start_subscriber a wg i) w =
      (Returns tt, w', [Subscriber_Start (length (w_subs w)) (IsGroupTest (onu_testConfig onu))])
    /\ subscriber_of onu wg i s /\ w_subs w' = w_subs w ++ [s] /\ w_trace w' = w_trace w
    /\ w_wgs w' = <[wg := c + 1]> (w_wgs w)
    /\ w_onus w' !! a = Some (set_SubscriberMap
         (<[subscriber_name onu i := length (w_subs w)]> (onu_SubscriberMap onu)) onu).
Proof.
  intros Ha Hc Hc0. apply lookup_lt_Some in Ha as Hlt. unfold start_subscriber.
  rewrite (run_op_bind _ _ w onu w) by (unfold exec; by rewrite Ha).
  destruct (run_new_subscriber onu i wg w) as (s & g & Hrun & Hs).
  rewrite (run_bind_ret _ _ _ _ _ Hrun).
  rewrite (run_op_bind _ _ _ (length (w_subs w)) (set_subs (w_subs w ++ [s]) (set_globals g w))) by done.
  erewrite (run_op_bind (OpStoreOnu _ _)) by (unfold exec; reflexivity).
  erewrite (run_op_bind (OpWgAdd _ _)).
  2: { unfold exec, wg_add. cbn [w_wgs set_onus set_subs set_globals]. rewrite Hc.
       assert ((c + 1 <? 0) = false) as -> by lia. reflexivity. }
  eexists s, _. split; [reflexivity|]. cbn. split_and!; try done.
  rewrite (so_name _ _ _ _ Hs). by apply list_lookup_insert_eq.
Qed.

Lemma run_start_subscribers a onu wg unis c w :
  w_onus w !! a = Some onu -> w_wgs w !! wg = Some c -> 0 <= c ->
  exists w' cs, run (for_each unis (start_subscriber a wg)) w = (Returns tt, w', cs)
    /\ subscribers_started a onu wg unis c w w' cs.
Proof.
  revert onu c w. induction unis as [|i unis IH]; intros onu c w Ha Hc Hc0.
  { eexists w, []. split; [done|]. split; cbn; try done.
    - exists []. by rewrite app_nil_r.
    - by rewrite Z.add_0_r, list_insert_id.
    - exists (onu_SubscriberMap onu). split; [by destruct onu|done]. }
  apply lookup_lt_Some in Hc as Hlt.
  destruct (run_start_subscriber a onu wg i c w Ha Hc Hc0) as (s & w1 & Hrun & Hs & Hsubs & Htr & Hwg & Honu).
  edestruct (IH _ (c + 1) w1 Honu) as (w2 & cs & Hrun2 & [S1 (subs & S2 & S2') S3 S4 (m & M1 & M2 & M3)]);
    [rewrite Hwg; by apply list_lookup_insert_eq|lia|].
  exists w2. eexists. rewrite for_each_cons, run_bind, Hrun, Hrun2. split; [done|].
  rewrite Hsubs, length_app in S4, M3. cbn [length] in S4, M3. split.
  - congruence.
  - exists (s :: subs). split; [by rewrite S2, Hsubs, <-app_assoc|]. constructor; [done|].
    eapply Forall2_impl; [exact S2'|]. intros j t []. by split.
  - rewrite S3, Hwg, list_insert_insert_eq. f_equal. cbn [length]. lia.
  - rewrite S4. by rewrite Nat.add_1_r.
  - exists m. split; [done|]. split.
    + intros k Hk. rewrite fmap_cons in Hk. apply not_elem_of_cons in Hk as [Hk1 Hk2].
      rewrite (M2 k Hk2). cbn. by rewrite lookup_insert_ne.
    + intros Hnd j i' Hj. rewrite fmap_cons in Hnd. apply NoDup_cons in Hnd as [Hn1 Hn2].
      destruct j as [|j]; cbn in Hj.
      * injection Hj as <-. rewrite (M2 _ Hn1). cbn. by rewrite lookup_insert_eq, Nat.add_0_r.
      * etrans; [exact (M3 Hn2 j i' Hj)|]. f_equal. lia.
Qed.

Lemma subscriber_names_NoDup onu n :
  n < 2 ^ 63 -> NoDup (subscriber_name onu <$> seqZ 0 n).
Proof.
  intros Hn. apply NoDup_fmap_2_strong; [|apply NoDup_seqZ].
  intros x y Hx%elem_of_seqZ Hy%elem_of_seqZ Heq. unfold subscriber_name in Heq.
  apply (inj (String.append _)), (inj (String.append _)) in Heq. unfold Itoa in Heq.
  apply (inj pretty) in Heq. unfold i64, u64 in Heq. rewrite !Z.mod_small in Heq by lia.
  assert ((x <? 2 ^ 63) = true /\ (y <? 2 ^ 63) = true) as [Ex Ey] by lia.
  by rewrite Ex, Ey in Heq.
Qed.

End lemmas.

(** ** Properties *)

(** C15. What starting an ONU does, up to its wait: it makes one subscriber per
    configured index, with the ONU's serial number and that index as name, the
    port number of that UNI, and nothing provisioned yet; records each under its
    own name; starts one goroutine for each; and then waits on a WaitGroup of
    its own that counts exactly these goroutines.  It sends no request. *)
Theorem OnuDevice_Start_spec `{Env} (a : nat) (w : World) (onu : OnuDevice) :
  let n := SubscribersPerOnu (onu_testConfig onu) in
  w_onus w !! a = Some onu -> 0 < n < 2 ^ 63 ->
  exists w' subs m,
    run (OnuDevice_Start a) w =
      (Blocks, w', (fun k => Subscriber_Start k (IsGroupTest (onu_testConfig onu)))
                     <$> seq (length (w_subs w)) (Z.to_nat n))
    /\ w_trace w' = w_trace w /\ w_wgs w' = w_wgs w ++ [n]
    /\ w_subs w' = w_subs w ++ subs
    /\ Forall2 (subscriber_of onu (length (w_wgs w))) (seqZ 0 n) subs
    /\ w_onus w' !! a = Some (set_SubscriberMap m onu)
    /\ forall i, 0 <= i < n ->
         m !! subscriber_name onu i = Some (length (w_subs w) + Z.to_nat i)%nat.
Proof.
  intros n Ha Hn. apply lookup_lt_Some in Ha as Hlt. unfold OnuDevice_Start.
  rewrite (run_op_bind _ _ w onu w) by (unfold exec; by rewrite Ha).
  set (w1 := set_onus (<[a := set_SubscriberMap ∅ onu]> (w_onus w)) w).
  rewrite (run_op_bind _ _ w tt w1) by done.
  set (w2 := set_wgs (w_wgs w ++ [0]) w1).
  rewrite (run_op_bind _ _ w1 (length (w_wgs w)) w2) by done.
  edestruct (run_start_subscribers a (set_SubscriberMap ∅ onu) (length (w_wgs w)) (seqZ 0 n) 0 w2)
    as (w3 & cs & Hrun & [S1 (subs & S2 & S2') S3 S4 (m & M1 & M2 & M3)]).
  { cbn. by apply list_lookup_insert_eq. }
  { cbn. by apply list_lookup_middle. }
  { done. }
  rewrite run_bind. fold n. rewrite Hrun.
  assert (w_wgs w3 = w_wgs w ++ [n]) as Hwg.
  { rewrite S3. cbn. rewrite insert_app_r_alt, Nat.sub_diag by lia. cbn. rewrite length_seqZ.
    do 2 f_equal. lia. }
  exists w3, subs, m. cbn. unfold exec. rewrite Hwg, list_lookup_middle by done.
  assert ((n =? 0) = false) as -> by lia. split.
  { f_equal. rewrite app_nil_r, S4, length_seqZ. done. }
  split_and!; [done..| | |].
  - eapply Forall2_impl; [exact S2'|]. intros i s []. by split.
  - exact M1.
  - intros i Hi. apply (M3 (subscriber_names_NoDup onu n ltac:(lia)) (Z.to_nat i) i).
    rewrite lookup_seqZ. lia.
Qed.

Lemma OnuDevice_Start_spec_witness :
  let onu := {| onu_SerialNum := "ABCD31303031"; onu_OnuID := 1; onu_PonIntf := 0;
                onu_StartTime := None; onu_EndTime := None; onu_DurationInMs := 0;
                onu_Reason := "OK"; onu_SubscriberMap := ∅;
                onu_testConfig := sample_config "DT" 1 3; onu_rsrMgr := 0; onu_onuWg := 0 |} in
  let w := set_onus (H := sample_env accepting) [onu] (sample_world accepting 1 [] [1]) in
  exists w' subs m,
    run (H := sample_env accepting) (OnuDevice_Start 0) w =
      (Blocks, w', (fun k => Subscriber_Start k false) <$> [0; 1; 2]%nat)
    /\ w_trace w' = [] /\ w_wgs w' = [1; 3] /\ w_subs w' = [] ++ subs
    /\ Forall2 (subscriber_of onu 1) [0; 1; 2] subs
    /\ w_onus w' !! 0%nat = Some (set_SubscriberMap m onu)
    /\ forall i, 0 <= i < 3 -> m !! subscriber_name onu i = Some (0 + Z.to_nat i)%nat.
Proof.
  intros onu w. apply (OnuDevice_Start_spec (H := sample_env accepting) 0 w onu); [done|].
  cbn. lia.
Defined.
