(* ===== verification/OltManager.v ===== *)
(** * OLT manager (src/core/olt_manager.go)

    [provisionONUs] activates the ONUs in batches spread over the PON ports and
    waits for each batch; [activateONU] activates one ONU and starts its
    provisioning.  [om.testConfig] and [om.deviceInfo] are set before these run
    and never change: they are arguments. *)
From S2P Require Import Prelude Utils Proto Config Runtime Samples TechProfile ResourceManager WorkflowUtils WorkflowManager SubscriberManager OnuManager.

Definition ReasonOk : string := "OK".

(** [(numOfOnus & (numOfOnus - 1)) == 0] on a [uint] of 64 bits. *)
Definition isPowerOfTwo (numOfOnus : Z) : bool :=
  Z.land numOfOnus (u64 (numOfOnus - 1)) =? 0.

(** [for uint32(numOfONUsPerPon) < per { per /= 2 }].  [per] halves at every
    turn and the loop ends at 0, so [S per] turns are enough. *)
Fixpoint halving_loop (fuel : nat) (numOfONUsPerPon per : Z) : option Z :=
  match fuel with
  | O => None
  | S fuel' =>
      if u32 numOfONUsPerPon <? per then halving_loop fuel' numOfONUsPerPon (per / 2)
      else Some per
  end.

Definition onusPerIterationPerPonPort (numOfONUsPerPon : Z) : option Z :=
  halving_loop 5 numOfONUsPerPon 4.

Definition activateONU (config : OpenOltScaleTesterConfig) (intfID onuID : Z)
    (serialNum : SerialNumber) (serialNumber : string) (onuWg : nat) : prog unit :=
  let pir := 1000000 in
  rsrMgr ← op (OpIndexRsrMgr intfID);
  let onuDeviceKey := {| key_onuID := onuID; key_ponInfID := intfID |} in
  let onu := {| ou_IntfId := intfID; ou_OnuId := onuID; ou_SerialNumber := serialNum;
                ou_Pir := pir |} in
  now ← op OpNow;
  let nanos := now in
  let milliStart := Z.quot nanos 1000000 in
  let onuDevice (EndTime : option Z) (DurationInMs : Z) (Reason : string) :=
    {| onu_SerialNum := serialNumber; onu_OnuID := onuID; onu_PonIntf := intfID;
       onu_StartTime := Some nanos; onu_EndTime := EndTime; onu_DurationInMs := DurationInMs;
       onu_Reason := Reason; onu_SubscriberMap := ∅; onu_testConfig := config;
       onu_rsrMgr := rsrMgr; onu_onuWg := onuWg |} in
  err ← op (OpRpc (RpcActivateOnu onu));
  let device :=
    match err with
    | Some e =>
        if decide (status_Code err = AlreadyExists) then onuDevice None 0 ""
        else let nanos := now in
             let milliEnd := Z.quot nanos 1000000 in
             onuDevice (Some nanos) (i64 (milliEnd - milliStart)) (Error e)
    | None =>
        let nanos := now in
        let milliEnd := Z.quot nanos 1000000 in
        onuDevice (Some nanos) (i64 (milliEnd - milliStart)) ReasonOk
    end in
  a ← op (OpNewOnu device);
  _ ← op (OpSetOnuMap onuDeviceKey a);
  match err with
  | None =>
      a ← op (OpGetOnuMap onuDeviceKey);
      Go (OnuDevice_Start a) (Ret tt)
  | Some _ => Ret tt
  end.

(** The body of the three loops: ONU [k] of batch [i] on PON [j].  The resource
    manager is the one at the batch index [i]; the id is asked for PON [j]. *)
Definition provision_one (config : OpenOltScaleTesterConfig) (onuWg : nat) (i j k : Z)
    : prog unit :=
  sn ← op OpGenerateSerial;
  mgr ← op (OpIndexRsrMgr i);
  '(onuIDSl, err) ← op (OpGetResourceID mgr j ONU_ID 1);
  match err with
  | Some _ => Ret tt
  | None =>
      onuID ← index onuIDSl 0;
      _ ← op (OpWgAdd onuWg 1);
      serialNumber ← (match stringifySerialNumber (Some sn) with
                      | Some s => Ret s
                      | None => Panic IndexOutOfRange
                      end);
      Go (activateONU config j onuID sn serialNumber onuWg) (Ret tt)
  end.

Definition provision_batch (config : OpenOltScaleTesterConfig) (ponPorts per : Z)
    (onuWg : nat) (i : Z) : prog unit :=
  _ ← for_each (seqZ 0 ponPorts) (fun j =>
        for_each (seqZ 0 per) (fun k => provision_one config onuWg i j k));
  op (OpWgWait onuWg).

(** [provisionONUs] without its deferred call. *)
Definition provision_body (config : OpenOltScaleTesterConfig) (deviceInfo : DeviceInfo)
    : prog unit :=
  let ponPorts := di_PonPorts deviceInfo in
  onuWg ← op OpNewWg;
  if negb (isPowerOfTwo (NumOfOnu config)) then Ret tt
  else if NumOfOnu config <? ponPorts then Ret tt
  else if ponPorts =? 0 then Panic DivideByZero
  else
    let numOfONUsPerPon := NumOfOnu config / ponPorts in
    match onusPerIterationPerPonPort numOfONUsPerPon with
    | None => Ret tt
    | Some per =>
        startTime ← op OpNow;
        if per =? 0 then Panic DivideByZero else
        _ ← for_each (seqZ 0 (u32 numOfONUsPerPon / per)) (provision_batch config ponPorts per onuWg);
        endTime ← op OpNow;
        Ret tt
    end.

(** The deferred call ends the process once the body returns.  When the body panics
    it is made by [deferred_step] of Process. *)
Definition provisionONUs (config : OpenOltScaleTesterConfig) (deviceInfo : DeviceInfo)
    : prog unit :=
  _ ← provision_body config deviceInfo;
  op OpKillSelf.

(** ** Lemmas *)

Lemma land_pred_pow2 k : 0 <= k -> Z.land (2 ^ k) (2 ^ k - 1) = 0.
Proof.
  intros Hk. replace (2 ^ k - 1) with (Z.ones k) by (rewrite Z.ones_equiv; lia).
  rewrite Z.land_ones by done. apply Z.mod_same. lia.
Qed.

Lemma land_pred_inv n : 0 < n -> Z.land n (n - 1) = 0 -> n = 2 ^ Z.log2 n.
Proof.
  intros Hn Hl. pose proof (Z.log2_spec n Hn) as [H1 H2].
  destruct (decide (n = 2 ^ Z.log2 n)) as [|Hne]; [done|]. exfalso.
  assert (Z.log2 (n - 1) = Z.log2 n) as Hlog.
  { pose proof (Z.log2_nonneg n). apply Z.log2_unique; lia. }
  assert (Z.testbit (Z.land n (n - 1)) (Z.log2 n) = true) as Hb.
  { rewrite Z.land_spec, Z.bit_log2 by done. rewrite <-Hlog. apply Z.bit_log2.
    pose proof (Z.pow_pos_nonneg 2 (Z.log2 n) ltac:(lia) (Z.log2_nonneg n)). lia. }
  by rewrite Hl, Z.bits_0 in Hb.
Qed.

Lemma isPowerOfTwo_spec n :
  0 <= n < 2 ^ 64 -> isPowerOfTwo n = true <-> n = 0 \/ exists k, 0 <= k /\ n = 2 ^ k.
Proof.
  intros Hn. unfold isPowerOfTwo. rewrite Z.eqb_eq. split.
  - intros Hl. destruct (decide (n = 0)) as [|Hn0]; [by left|right].
    rewrite u64_small in Hl by lia. exists (Z.log2 n). split; [apply Z.log2_nonneg|].
    apply land_pred_inv; [lia|done].
  - intros [->|(k & Hk & ->)]; [done|].
    assert (0 < 2 ^ k) by (by apply Z.pow_pos_nonneg).
    rewrite u64_small by lia. by apply land_pred_pow2.
Qed.

Lemma onusPerIteration_cases n :
  onusPerIterationPerPonPort n =
  Some (if 4 <=? u32 n then 4 else if 2 <=? u32 n then 2 else u32 n).
Proof.
  unfold onusPerIterationPerPonPort. pose proof (u32_range n) as Hr.
  cbn [halving_loop]. change (4 / 2) with 2. change (2 / 2) with 1. change (1 / 2) with 0.
  zbool; try lia; f_equal; lia.
Qed.

Lemma seqZ_0_cons n : 0 < n -> seqZ 0 n = 0 :: seqZ 1 (n - 1).
Proof. intros Hn. by rewrite seqZ_cons. Qed.

(** The batch index is used as an index of the resource managers, of which
    there is one per PON. *)
Lemma run_provision_one_index `{Env} config onuWg i j k w :
  Z.of_nat (length (w_rsrMgr w)) <= i ->
  exists w', run (provision_one config onuWg i j k) w = (Panics IndexOutOfRange, w', []).
Proof.
  intros Hi. unfold provision_one. eexists.
  rewrite (run_op_bind OpGenerateSerial _ w (GenerateNextONUSerialNumber (w_globals w)).1
    (set_globals (GenerateNextONUSerialNumber (w_globals w)).2 w)) by done.
  apply run_op_crash. unfold exec. cbn.
  assert ((0 <=? i) && (i <? Z.of_nat (length (w_rsrMgr w))) = false) as ->; [|done].
  apply andb_false_iff. right. zbool; [lia|done].
Qed.

(** Any number of goroutines, one step each in turn, [n] times. *)
Definition round_robin (goroutines n : nat) : list nat :=
  mjoin (replicate n (seq 0 goroutines)).

(** The batches of [n] ONUs on [p] PONs. *)
Lemma even_batches (n p : Z) :
  0 <= n < 2 ^ 32 -> 0 < p -> p <= n ->
  exists per, onusPerIterationPerPonPort (n / p) = Some per /\ 1 <= per <= 4
    /\ (isPowerOfTwo n = true -> isPowerOfTwo p = true -> u32 (n / p) / per * p * per = n).
Proof.
  intros Hn Hp Hpn. pose proof (isPowerOfTwo_spec n ltac:(lia)) as Hsn.
  pose proof (isPowerOfTwo_spec p ltac:(lia)) as Hsp.
  assert (1 <= n / p) as Hq by (apply Z.div_le_lower_bound; lia).
  assert (n / p <= n) by (apply Z.div_le_upper_bound; nia).
  rewrite onusPerIteration_cases. eexists. split; [done|]. rewrite u32_small by lia.
  split; [zbool; lia|]. rewrite Hsn, Hsp.
  intros [->|(k & Hk & ->)]; [lia|]. intros [->|(l & Hl & ->)]; [lia|].
  assert (l <= k) as Hlk by (apply (Z.pow_le_mono_r_iff 2); lia).
  assert (2 ^ k = 2 ^ (k - l) * 2 ^ l) as Hkl by (rewrite <-Z.pow_add_r by lia; f_equal; lia).
  rewrite Hkl, Z.div_mul by lia. rewrite Hkl, Z.div_mul in Hq by lia.
  assert (forall q e, 0 <= e <= q -> 2 ^ q / 2 ^ e * 2 ^ l * 2 ^ e = 2 ^ q * 2 ^ l) as Hd.
  { intros q e He. pose proof (Z.pow_pos_nonneg 2 e ltac:(lia) ltac:(lia)).
    assert (2 ^ q = 2 ^ (q - e) * 2 ^ e) as -> by (rewrite <-Z.pow_add_r by lia; f_equal; lia).
    rewrite Z.div_mul by lia. ring. }
  destruct (decide (k - l = 0)) as [->|H0].
  { change (2 ^ 0) with 1. change (if 4 <=? 1 then 4 else _) with 1. rewrite Z.div_1_r. lia. }
  destruct (decide (k - l = 1)) as [->|H1].
  { change (2 ^ 1) with 2. change (if 4 <=? 2 then 4 else _) with 2. change (2 / 2) with 1. lia. }
  assert (2 ^ 2 <= 2 ^ (k - l)) by (apply Z.pow_le_mono_r; lia).
  zbool; [|lia..]. apply (Hd (k - l) 2). lia.
Qed.

(** ** Properties *)

(** C17. The guards and the batch size of [provisionONUs].  Every number of
    ONUs it accepts is 0 or a power of two; the halving loop ends within its
    bound, at 4 ONUs per PON and batch, or at the whole share of a PON with
    fewer; and when the number of PON ports is a power of two not above it, the
    batches cover exactly the configured number of ONUs. *)
Theorem even_distribution (n p : Z) :
  0 <= n < 2 ^ 32 -> 0 < p -> p <= n ->
  (isPowerOfTwo n = true <-> exists k, 0 <= k /\ n = 2 ^ k)
  /\ exists per, onusPerIterationPerPonPort (n / p) = Some per /\ 1 <= per <= 4
       /\ (isPowerOfTwo n = true -> isPowerOfTwo p = true ->
            u32 (n / p) / per * p * per = n).
Proof.
  intros Hn Hp Hpn. split; [|by apply even_batches].
  rewrite isPowerOfTwo_spec by lia. split; [intros [->|?]; [lia|done]|by right].
Qed.

Lemma even_distribution_witness :
  (isPowerOfTwo 128 = true <-> exists k, 0 <= k /\ 128 = 2 ^ k)
  /\ exists per, onusPerIterationPerPonPort (128 / 16) = Some per /\ 1 <= per <= 4
       /\ (isPowerOfTwo 128 = true -> isPowerOfTwo 16 = true ->
            u32 (128 / 16) / per * 16 * per = 128).
Proof. apply (even_distribution 128 16); lia. Defined.

(** C14. [activateONU] sends one request and records the ONU under its key.
    Accepted, the ONU is OK and one goroutine is started to provision it;
    refused, it records the error (or nothing when the agent already has it) and
    starts no goroutine, and the WaitGroup is left as it is: the batch that
    waits for this ONU is never told.  The duration is always 0, both times
    being taken from one reading of the clock. *)
Theorem activateONU_spec `{Env} (config : OpenOltScaleTesterConfig) (intfID onuID : Z)
    (sn : SerialNumber) (serialNumber : string) (onuWg : nat) (w : World) :
  0 <= intfID < Z.of_nat (length (w_rsrMgr w)) ->
  let onu := {| ou_IntfId := intfID; ou_OnuId := onuID; ou_SerialNumber := sn;
                ou_Pir := 1000000 |} in
  let a := length (w_onus w) in
  let err := status_Err (device (w_trace w) (RpcActivateOnu onu)) in
  exists w' d,
    run (activateONU config intfID onuID sn serialNumber onuWg) w =
      (Returns tt, w', match err with None => [OnuDevice_Start a] | Some _ => [] end)
    /\ w_trace w' = w_trace w ++ [RpcActivateOnu onu] /\ w_wgs w' = w_wgs w
    /\ w_onuMap w' = <[ {| key_onuID := onuID; key_ponInfID := intfID |} := a ]> (w_onuMap w)
    /\ w_onus w' !! a = Some d /\ onu_DurationInMs d = 0
    /\ onu_Reason d = match err with
                      | None => "OK"
                      | Some e => if decide (status_Code err = AlreadyExists) then "" else Error e
                      end.
Proof.
  intros Hi onu a err. subst a err. unfold activateONU. cbn -[status_Code].
  assert ((0 <=? intfID) && (intfID <? Z.of_nat (length (w_rsrMgr w))) = true) as Hb
    by (apply andb_true_intro; zbool; lia).
  unfold exec at 1. rewrite Hb. unfold exec at 1. unfold exec at 1. cbn -[exec status_Code].
  fold onu. rewrite Z.sub_diag. change (i64 0) with 0.
  destruct (status_Err (device (w_trace w) (RpcActivateOnu onu))) as [e|] eqn:He.
  - do 2 (cbn -[exec decide status_Code]; unfold exec at 1). cbn -[decide status_Code].
    eexists _, _. split; [done|]. cbn -[decide status_Code]. split_and!; [done..| | |].
    + apply list_lookup_middle. done.
    + by case_decide.
    + by case_decide.
  - cbn -[exec]. unfold exec at 1. cbn -[exec]. unfold exec at 1. cbn -[exec].
    unfold exec at 1. cbn -[exec]. rewrite lookup_insert_eq. cbn.
    eexists _, _. split; [done|]. cbn. split_and!; [done..| | |].
    + by apply list_lookup_middle.
    + done.
    + done.
Qed.

Lemma activateONU_spec_witness :
  let w := sample_world accepting 1 [] [1] in
  let sn := {| VendorId := []; VendorSpecific := [] |} in
  let onu := {| ou_IntfId := 0; ou_OnuId := 1; ou_SerialNumber := sn; ou_Pir := 1000000 |} in
  exists w' d,
    run (H := sample_env accepting) (activateONU (sample_config "ATT" 1 1) 0 1 sn "ABCD" 0) w =
      (Returns tt, w', [OnuDevice_Start 0])
    /\ w_trace w' = [] ++ [RpcActivateOnu onu] /\ w_wgs w' = [1]
    /\ w_onuMap w' = <[ {| key_onuID := 1; key_ponInfID := 0 |} := 0%nat ]> ∅
    /\ w_onus w' !! 0%nat = Some d /\ onu_DurationInMs d = 0 /\ onu_Reason d = "OK".
Proof.
  intros w sn onu.
  apply (activateONU_spec (H := sample_env accepting) (sample_config "ATT" 1 1) 0 1 sn "ABCD" 0 w).
  by vm_compute.
Defined.

(** C37. A batch whose number is not below the number of PON ports crashes the
    process: the batch number is used where the PON number is meant.  So a
    configuration every guard accepts, with an agent that accepts everything,
    can crash: 8 ONUs on 1 PON make two batches. *)
Theorem batch_index_crash `{Env} (config : OpenOltScaleTesterConfig) (ponPorts per i : Z)
    (onuWg : nat) (w : World) :
  0 < ponPorts -> 0 < per -> Z.of_nat (length (w_rsrMgr w)) <= i ->
  (exists w', run (provision_batch config ponPorts per onuWg i) w
              = (Panics IndexOutOfRange, w', []))
  /\ steps (H := sample_env accepting)
       (Running [provisionONUs (sample_config "ATT" 8 1) (sample_deviceInfo 1)]
          (sample_world accepting 1 [] []))
       (Crashed IndexOutOfRange).
Proof.
  intros Hp Hper Hi. split.
  - destruct (run_provision_one_index config onuWg i 0 0 w Hi) as [w' Hw'].
    exists w'. unfold provision_batch. apply run_panic_bind.
    rewrite seqZ_0_cons, for_each_cons by done. apply run_panic_bind.
    rewrite seqZ_0_cons, for_each_cons by done. by apply run_panic_bind.
  - assert (Crashed IndexOutOfRange = schedule (H := sample_env accepting)
      (Running [provisionONUs (sample_config "ATT" 8 1) (sample_deviceInfo 1)]
         (sample_world accepting 1 [] [])) (round_robin 30 100)) as -> by (vm_compute; reflexivity).
    apply schedule_steps.
Qed.

Lemma batch_index_crash_witness :
  (exists w', run (H := sample_env accepting)
                (provision_batch (sample_config "ATT" 8 1) 1 4 0 1) (sample_world accepting 1 [] [0])
              = (Panics IndexOutOfRange, w', []))
  /\ steps (H := sample_env accepting)
       (Running [provisionONUs (sample_config "ATT" 8 1) (sample_deviceInfo 1)]
          (sample_world accepting 1 [] []))
       (Crashed IndexOutOfRange).
Proof.
  apply (batch_index_crash (H := sample_env accepting) (sample_config "ATT" 8 1) 1 4 1 0
    (sample_world accepting 1 [] [0])); [done..|]. by vm_compute.
Defined.
