(* ===== verification/Typing.v ===== *)
(** * The widths of the messages

    Integers are [Z]; the protobuf messages have 32- and 64-bit fields.  [typed]
    says that every field of a message is in the range of its Go type.  The
    first part shows what a stage of a workflow sends: no activation, and, for a
    subscriber in range, only messages in range ([sends_stage]).  The second is
    the judgement of the whole program, whose theorem is that every request of
    every execution is typed. *)
From S2P Require Import Prelude Utils Proto Config Runtime Judgement Samples TechProfile ResourceManager WorkflowUtils AttWorkflow DtWorkflow TtWorkflow WorkflowManager SubscriberManager OnuManager OltManager.

(** ** Messages in range *)

Class Typed (A : Type) := typed : A -> Prop.

#[export] Instance typed_list `{Typed A} : Typed (list A) := Forall typed.
#[export] Instance typed_option `{Typed A} : Typed (option A) :=
  fun x => forall a, x = Some a -> typed a.
#[export] Instance typed_map `{Countable K, Typed A} : Typed (gmap K A) :=
  fun m => forall k a, m !! k = Some a -> typed a.

#[export] Instance typed_SchedulerConfig : Typed SchedulerConfig :=
  fun s => is_u32 (sc_Priority s) /\ is_u32 (sc_Weight s).
#[export] Instance typed_TrafficShapingInfo : Typed TrafficShapingInfo :=
  fun i => is_u32 (Cir i) /\ is_u32 (Cbs i) /\ is_u32 (Pir i) /\ is_u32 (Pbs i).
#[export] Instance typed_TrafficScheduler : Typed TrafficScheduler :=
  fun s => is_u32 (ts_AllocId s) /\ typed (ts_Scheduler s) /\ typed (ts_TrafficShapingInfo s).
#[export] Instance typed_TrafficSchedulers : Typed TrafficSchedulers :=
  fun s => is_u32 (tss_IntfId s) /\ is_u32 (tss_OnuId s) /\ is_u32 (tss_UniId s)
    /\ is_u32 (tss_PortNo s) /\ typed (tss_TrafficScheds s).
#[export] Instance typed_TrafficQueue : Typed TrafficQueue :=
  fun q => is_u32 (tq_GemportId q) /\ is_u32 (tq_Priority q) /\ is_u32 (tq_Weight q).
#[export] Instance typed_TrafficQueues : Typed TrafficQueues :=
  fun q => is_u32 (tqs_IntfId q) /\ is_u32 (tqs_OnuId q) /\ is_u32 (tqs_UniId q)
    /\ is_u32 (tqs_PortNo q) /\ typed (tqs_TrafficQueues q).
#[export] Instance typed_SchedulerAttributes : Typed SchedulerAttributes :=
  fun s => is_u32 (sa_AllocId s) /\ is_u32 (sa_Priority s) /\ is_u32 (sa_Weight s).
#[export] Instance typed_GemPortAttributes : Typed GemPortAttributes :=
  fun g => is_u32 (gp_GemportId g) /\ is_u32 (gp_PriorityQ g) /\ is_u32 (gp_Weight g).
#[export] Instance typed_TechProfileInstance : Typed TechProfileInstance :=
  fun tp => typed (UsScheduler tp) /\ typed (DsScheduler tp)
    /\ typed (UpstreamGemPortAttributeList tp) /\ typed (DownstreamGemPortAttributeList tp).
#[export] Instance typed_Classifier : Typed Classifier :=
  fun c => is_u32 (cl_OVid c) /\ is_u32 (cl_IVid c) /\ is_u32 (cl_OPbits c) /\ is_u32 (cl_IPbits c)
    /\ is_u32 (cl_EthType c) /\ Forall is_u8 (cl_DstMac c) /\ is_u32 (cl_IpProto c)
    /\ is_u32 (cl_SrcPort c) /\ is_u32 (cl_DstPort c).
#[export] Instance typed_Action : Typed Action :=
  fun a => is_u32 (act_OVid a) /\ is_u32 (act_IVid a) /\ is_u32 (act_OPbits a) /\ is_u32 (act_IPbits a).
#[export] Instance typed_Flow : Typed Flow :=
  fun f => is_i32 (fl_AccessIntfId f) /\ is_i32 (fl_OnuId f) /\ is_i32 (fl_UniId f)
    /\ is_u64 (fl_FlowId f) /\ is_u64 (fl_SymmetricFlowId f) /\ is_i32 (fl_AllocId f)
    /\ is_i32 (fl_GemportId f) /\ typed (fl_Classifier f) /\ typed (fl_Action f)
    /\ is_i32 (fl_Priority f) /\ is_u32 (fl_PortNo f) /\ is_u32 (fl_GroupId f)
    /\ map_Forall (fun pcp gem => is_u32 pcp /\ is_u32 gem) (fl_PbitToGemport f).
#[export] Instance typed_GroupMember : Typed GroupMember :=
  fun m => is_u32 (gm_InterfaceId m) /\ is_u32 (gm_GemPortId m) /\ is_u32 (gm_Priority m).
#[export] Instance typed_Group : Typed Group :=
  fun g => is_u32 (gr_GroupId g) /\ typed (gr_Members g).
#[export] Instance typed_Onu : Typed Onu :=
  fun o => is_u32 (ou_IntfId o) /\ is_u32 (ou_OnuId o) /\ is_u32 (ou_Pir o).

#[export] Instance typed_Request : Typed Request :=
  fun q => match q with
           | RpcActivateOnu onu => typed onu
           | RpcFlowAdd flow => typed flow
           | RpcCreateTrafficSchedulers s => typed s
           | RpcCreateTrafficQueues q | RpcRemoveTrafficQueues q => typed q
           | RpcPerformGroupOperation g => typed g
           end.

(** The subscriber a stage is given. *)
#[export] Instance typed_Subscriber : Typed Subscriber :=
  fun s => is_u32 (OnuID s) /\ is_u32 (UniID s) /\ is_u32 (PonIntf s) /\ is_u32 (UniPortNo s)
    /\ is_u32 (Ctag s) /\ is_u32 (Stag s) /\ typed (TpInstance s).

(** ** What a stage sends *)

(** Requests of a stage for the subscriber [s]. *)
Definition stage_request (s : Subscriber) (q : Request) : Prop :=
  (forall onu, q <> RpcActivateOnu onu) /\ (typed s -> typed q).

Lemma typed_nil `{Typed A} : typed (@nil A).
Proof. constructor. Qed.
Lemma typed_one `{Typed A} (a : A) : typed a -> typed [a].
Proof. intros Ha. by constructor. Qed.

Lemma typed_snoc `{Typed A} (l : list A) (a : A) : typed l -> typed a -> typed (l ++ [a]).
Proof. intros Hl Ha. apply Forall_app. split; [done|by apply typed_one]. Qed.

Ltac widths :=
  repeat match goal with
  | H : ?P -> _, H' : ?P |- _ => specialize (H H')
  | H : typed _ |- _ => progress (hnf in H)
  | H : _ /\ _ |- _ => destruct H
  end;
  repeat (cbn; match goal with
  | |- _ /\ _ => split
  | |- typed [] => apply typed_nil
  | |- typed [_] => apply typed_one
  | |- typed (Some _) => intros ? [= <-]
  | |- typed None => intros ? [=]
  | |- typed _ => hnf
  | |- is_u32 (u32 _) => apply u32_range
  | |- is_u64 (u64 _) => apply u64_range
  | |- is_i32 (i32 _) => apply i32_range
  | |- is_u8 (u8 _) => apply u8_range
  | |- map_Forall _ ∅ => apply map_Forall_empty
  end); try done.

Lemma typed_traffic_queues tp d : typed tp -> typed (traffic_queues tp d).
Proof.
  intros (_ & _ & Hus & Hds). hnf in Hus, Hds. hnf. unfold traffic_queues. rewrite Forall_forall in Hus, Hds.
  apply Forall_forall. intros q Hq.
  destruct d; [|  |by apply not_elem_of_nil in Hq]; apply list_elem_of_fmap in Hq as (g & -> & Hg).
  - apply (Hus g Hg).
  - apply list_elem_of_filter in Hg as [_ Hg]. apply (Hds g Hg).
Qed.

Lemma pbit_pcps_u32 bits : Forall is_u32 (pbit_pcps bits).
Proof.
  unfold pbit_pcps. generalize (TrimPrefix bits "0b"). intros t. generalize (Z.of_nat (String.length t)). intros n.
  generalize 0. induction t as [|c t IH]; intros pos; cbn; [constructor|].
  case_match; [constructor; [apply u32_range|apply IH]|apply IH].
Qed.

Lemma typed_build_pbitToGem gems :
  typed gems -> map_Forall (fun pcp gem => is_u32 pcp /\ is_u32 gem) (build_pbitToGem gems).
Proof.
  intros Hg. hnf in Hg. induction gems as [|g gems IH] using rev_ind; [apply map_Forall_empty|].
  apply Forall_app in Hg as [Hg1 Hg2]. apply Forall_cons_1 in Hg2 as [Hg2 _].
  intros k v. rewrite build_pbitToGem_app. case_decide as Hk; [|by apply IH].
  intros [= <-]. split; [|apply Hg2].
  pose proof (pbit_pcps_u32 (gp_PbitMap g)) as Hb. rewrite Forall_forall in Hb. by apply Hb.
Qed.

Section stages.
Variable s : Subscriber.

(** The values of the profile instance are in range when the subscriber is. *)
Definition if_typed {A} `{Typed A} (a : A) : Prop := typed s -> typed a.

Lemma sends_first_TpInstance :
  sends (stage_request s) (first_TpInstance s) (fun inst => if_typed inst).
Proof.
  eapply sends_bind; [by apply (sends_index _ _ _ (fun _ => True))|]. intros tpID _.
  intros (_ & _ & _ & _ & _ & _ & Htp) inst Hi. by eapply Htp.
Qed.

Lemma sends_GetFlowID mgr pon :
  sends (stage_request s) (GetFlowID mgr pon) (fun x => is_u64 x.1 /\ x.2 = None).
Proof. intros v Hv. by split. Qed.

Lemma sends_with_flow_id k :
  (forall id, is_u64 id -> sends (stage_request s) (k id) told) ->
  sends (stage_request s) (with_flow_id s k) told.
Proof.
  intros Hk. eapply sends_bind; [apply sends_GetFlowID|]. intros [id err] [Hid He]. cbn in *. subst. by apply Hk.
Qed.

Lemma sends_us_gems :
  sends (stage_request s) (us_gems s) (fun x => if_typed x.2).
Proof.
  eapply sends_bind; [apply sends_first_TpInstance|]. intros inst Hi.
  eapply sends_bind; [apply (sends_deref _ _ (fun tp => inst = Some tp)); auto|]. intros tp ->.
  eapply sends_bind; [by apply (sends_deref _ _ (fun _ => True))|]. intros us _ Hs.
  by destruct (Hi Hs tp eq_refl) as (_ & _ & ? & _).
Qed.

Lemma sends_GetTrafficScheduler inst cfg shaping :
  if_typed inst -> if_typed cfg -> if_typed shaping ->
  sends (stage_request s) (GetTrafficScheduler inst cfg shaping) (fun ts => if_typed ts).
Proof.
  intros Hi Hc Hs.
  eapply sends_bind; [apply (sends_deref _ _ (fun c => cfg = Some c)); auto|]. intros c ->.
  eapply sends_bind; [apply (sends_deref _ _ (fun tp => inst = Some tp)); auto|]. intros tp ->.
  eapply sends_bind; [apply (sends_deref _ _ (fun us => UsScheduler tp = Some us)); auto|].
  intros us Hus Hts. destruct (Hi Hts tp eq_refl) as (Htp & _). specialize (Htp us Hus).
  specialize (Hc Hts c eq_refl). specialize (Hs Hts). by destruct Htp.
Qed.

Lemma sends_scheduler_config inst d :
  if_typed inst ->
  sends (stage_request s) (if decide (d = Direction_DOWNSTREAM) then GetDsScheduler inst else GetUsScheduler inst)
    (fun c => if_typed c).
Proof.
  intros Hi. case_decide; (eapply sends_bind;
    [apply (sends_deref _ _ (fun tp => inst = Some tp)); auto|]; intros tp ->).
  - eapply sends_bind; [apply (sends_deref _ _ (fun x => DsScheduler tp = Some x)); auto|].
    intros sa Hsa Hts c [= <-]. destruct (Hi Hts tp eq_refl) as (_ & Htp & _).
    by destruct (Htp sa Hsa) as (_ & ? & ?).
  - eapply sends_bind; [apply (sends_deref _ _ (fun x => UsScheduler tp = Some x)); auto|].
    intros sa Hsa Hts c [= <-]. destruct (Hi Hts tp eq_refl) as (Htp & _).
    by destruct (Htp sa Hsa) as (_ & ? & ?).
Qed.

Lemma sends_schedulers d : sends (stage_request s) (send_scheds s d) told.
Proof.
  eapply sends_bind.
  - eapply sends_bind; [apply sends_first_TpInstance|]. intros inst Hi.
    eapply sends_bind; [by apply sends_scheduler_config|]. intros [c|] Hc; [|by apply (sends_ret _ _ (fun x => if_typed x))].
    eapply sends_bind; [apply sends_first_TpInstance|]. intros inst' Hi'.
    eapply sends_bind; [apply sends_GetTrafficScheduler; [done|done|]|].
    { intros _. by vm_compute. }
    intros ts Hts. apply (sends_ret _ _ (fun x => if_typed x)). intros Hs l [= <-].
    apply typed_one, Hts, Hs.
  - intros [ts|] Hts; [|by apply told_ErrorsNew]. eapply sends_bind.
    + apply sends_rpc with (V := told); [|auto]. split; [done|]. intros Hs. specialize (Hts Hs ts eq_refl). widths.
    + intros [e|] _; [by apply told_ErrorsNew|done].
Qed.

Lemma sends_send_queues d : sends (stage_request s) (send_queues s d) told.
Proof.
  eapply sends_bind.
  - eapply sends_bind; [apply sends_first_TpInstance|]. intros inst Hi.
    eapply (sends_bind _ _ _ (fun x => if_typed x.1 /\ told x.2)).
    + destruct (decide (d = Direction_BIDIRECTIONAL)) as [->|Hd].
      { split; [by intros _ l|by apply told_ErrorsNew]. }
      destruct inst as [tp|]; [|by destruct d].
      rewrite GetTrafficQueues_eq by done. split; [|done]. intros Hs qs [= <-].
      apply typed_traffic_queues. exact (Hi Hs tp eq_refl).
    + intros [qs err] [Hq _]. destruct err as [e|]; apply (sends_ret _ _ (fun x => if_typed x)); [by intros _ l|done].
  - intros [qs|] Hq; [|by apply told_ErrorsNew]. eapply sends_bind.
    + apply sends_rpc with (V := told); [|auto]. split; [done|]. intros Hs. specialize (Hq Hs qs eq_refl). widths.
    + intros [e|] _; [by apply told_ErrorsNew|done].
Qed.

(** *** Flows *)

Lemma sends_random_mac n mac :
  Forall is_u8 mac -> sends (stage_request s) (random_mac n mac) (Forall is_u8).
Proof.
  revert mac. induction n as [|n IH]; intros mac Hm; [done|]. intros v _. apply IH.
  apply Forall_app. split; [done|]. constructor; [apply u8_range|done].
Qed.

Lemma typed_set_OPbits pcp c : is_u32 pcp -> typed c -> typed (set_OPbits pcp c).
Proof. intros Hp Hc. widths. Qed.

(** The classifier of a flow with its priority code point. *)
Lemma typed_pcp pcp c :
  is_u32 pcp -> typed c -> typed (if decide (pcp <> 0xff) then set_OPbits pcp c else c).
Proof. intros Hp Hc. case_decide; [by apply typed_set_OPbits|done]. Qed.

Lemma typed_FormatClassfierAction ty dir :
  typed s -> typed (FormatClassfierAction ty dir s).1 /\ typed (FormatClassfierAction ty dir s).2.
Proof. intros Hs. unfold FormatClassfierAction. repeat case_decide; widths. Qed.

Lemma told_flow_verdict err : told (flow_verdict err).
Proof. unfold flow_verdict. case_decide; [done|]. destruct err; [by apply told_ErrorsNew|done]. Qed.

Lemma told_already_exists_ok err : told err -> told (already_exists_ok err).
Proof. unfold already_exists_ok. by case_decide. Qed.

(** The numbers a stage puts in a flow. *)
Definition flow_args (id pcp sym : Z) (m : gmap Z Z) : Prop :=
  is_u64 id /\ is_u32 pcp /\ is_u64 sym
  /\ (typed s -> map_Forall (fun pcp gem => is_u32 pcp /\ is_u32 gem) m).

Lemma sends_AddFlow ty dir id alloc gem pcp rep sym m :
  flow_args id pcp sym m ->
  sends (stage_request s) (AddFlow s ty dir id alloc gem pcp rep sym m) told.
Proof.
  intros (Hid & Hpcp & Hsym & Hm). pose proof (typed_FormatClassfierAction ty dir) as Hca.
  unfold AddFlow. destruct (FormatClassfierAction ty dir s) as [c a]. cbn in Hca.
  eapply sends_bind; [apply sends_rpc with (V := fun _ => True); [|done]|].
  - split; [done|]. intros Hs. destruct (Hca Hs) as [Hc Ha]. apply (typed_pcp pcp) in Hc; [|done].
    pose proof Hs as (_ & _ & _ & Hport & _). specialize (Hm Hs).
    clear Hca. widths.
  - intros err _. apply told_flow_verdict.
Qed.

Lemma sends_FormatTtClassfierAction ty dir :
  sends (stage_request s) (FormatTtClassfierAction ty dir s) (fun ca => typed ca.1 /\ typed ca.2).
Proof.
  unfold FormatTtClassfierAction. repeat case_decide; try (by widths);
    (eapply sends_bind; [by apply sends_random_mac|]; intros mac Hmac; by widths).
Qed.

Lemma sends_AddTtFlow ty dir id alloc gem pcp rep sym m :
  flow_args id pcp sym m ->
  sends (stage_request s) (AddTtFlow s ty dir id alloc gem pcp rep sym m) told.
Proof.
  intros (Hid & Hpcp & Hsym & Hm). eapply sends_bind; [apply sends_FormatTtClassfierAction|].
  intros [c a] [Hc Ha]. apply (typed_pcp pcp) in Hc; [|done].
  eapply sends_bind; [apply sends_rpc with (V := fun _ => True); [|done]|].
  - split; [done|]. intros Hs. pose proof Hs as (_ & _ & _ & Hport & _). specialize (Hm Hs).
    cbn in Hc, Ha. widths.
  - intros err _. apply told_flow_verdict.
Qed.

(** *** Multicast *)

(** The group data of a stage. *)
Definition group_ok (grp : GroupData) : Prop :=
  gd_Subs grp = s /\ (typed s -> is_u32 (gd_GroupID grp)) /\ is_u32 (gd_Weight grp)
  /\ is_u32 (gd_Priority grp) /\ is_u32 (gd_GemPortID grp).

Lemma sends_group_rpc grp q :
  group_ok grp -> (forall onu, q <> RpcActivateOnu onu) ->
  (typed s -> gd_Subs grp = s -> group_ok grp -> typed q) ->
  sends (stage_request s) (op (OpRpc q)) told.
Proof. intros Hg Hq Ht. apply sends_rpc; [|done]. split; [done|]. intros Hs. apply Ht; [done|apply Hg|done]. Qed.

Lemma sends_AddMulticastFlow grp :
  group_ok grp -> sends (stage_request s) (AddMulticastFlow grp) told.
Proof.
  intros Hg. eapply sends_bind; [apply sends_GetFlowID|]. intros [id err] [Hid He]. cbn in Hid, He. subst err.
  eapply (sends_bind _ _ _ (Forall is_u8)).
  { intros v _. repeat (constructor; [try apply u8_range; try done|]). constructor. }
  intros mac Hmac. eapply sends_bind; [apply (sends_group_rpc grp _ Hg); [done|]|].
  - intros Hs Hsub (_ & Hgid & Hw & Hp & Hge). rewrite Hsub. widths.
  - intros err He. by apply told_already_exists_ok.
Qed.

Lemma sends_AddMulticastSched grp :
  group_ok grp -> sends (stage_request s) (AddMulticastSched grp) told.
Proof.
  intros Hg. unfold AddMulticastSched. pose proof Hg as (Hsub & _ & Hw & Hp & _). rewrite Hsub.
  eapply sends_bind; [apply sends_first_TpInstance|]. intros inst Hi.
  eapply sends_bind; [apply sends_GetTrafficScheduler; [done| |]|].
  - intros _ c [= <-]. by split.
  - intros _. by vm_compute.
  - intros ts Hts. eapply sends_bind; [apply (sends_group_rpc grp _ Hg); [done|]|].
    + intros Hs _ _. specialize (Hts Hs). clear Hi. widths.
    + intros [e|] _; [by apply told_ErrorsNew|done].
Qed.

Lemma sends_AddMulticastQueueFlow grp :
  group_ok grp -> sends (stage_request s) (AddMulticastQueueFlow grp) told.
Proof.
  intros Hg.
  assert (forall b p k, sends (stage_request s) p told -> sends (stage_request s) k told ->
    sends (stage_request s) (err ← (if b : bool then p else Ret None); when_nil err k) told) as Hpart.
  { intros b p k Hp Hk. eapply (sends_bind _ _ _ told); [by destruct b|]. by intros [e|] He. }
  pose proof Hg as (Hsub & _). unfold AddMulticastQueueFlow, CreateGroup, OpMulticastTrafficQueue,
    OpMemberToGroup, PerformGroupOperation. rewrite Hsub.
  repeat (apply Hpart; [first [by apply sends_AddMulticastFlow|by apply sends_AddMulticastSched|
    apply (sends_group_rpc grp _ Hg); [done|]; intros Hs _ (_ & Hgid & Hw & Hp & Hge); widths]|]).
  done.
Qed.

Lemma sends_tt_multicast : sends (stage_request s) (tt_ProvisionMulticastFlow s) told.
Proof.
  eapply (sends_bind _ _ _ (fun _ => True)); [done|]. intros di _.
  destruct (GetPonPorts di =? 0); [done|].
  eapply (sends_bind _ _ _ (fun _ => True)); [done|]. intros last _.
  eapply (sends_bind _ _ _ (fun _ => True)); [by destruct (PonIntf s =? last)|]. intros b _.
  apply sends_AddMulticastQueueFlow. split_and!; try done. by intros (? & _).
Qed.

(** *** The workflows *)

Lemma sends_two P p k :
  sends P p told -> sends P k told -> sends P (err ← p; when_nil err k) told.
Proof. intros Hp Hk. eapply sends_bind; [exact Hp|]. by intros [e|] He. Qed.

(** A flow of every gem port and priority code point. *)
Lemma sends_gem_loop body :
  (forall gem pcp, is_u32 pcp -> sends (stage_request s) (body gem pcp) told) ->
  forall gems, sends (stage_request s)
    (for_err gems (fun gem => for_err (pbit_pcps (gp_PbitMap gem)) (body gem))) told.
Proof.
  intros Hb gems. apply sends_for_err. intros gem _. apply sends_for_err. intros pcp Hpcp.
  apply Hb. pose proof (pbit_pcps_u32 (gp_PbitMap gem)) as Hall. rewrite Forall_forall in Hall. by apply Hall.
Qed.

Lemma told_first_error errs : Forall told errs -> told (first_error errs).
Proof. induction 1 as [|[e|] errs He _ IH]; done. Qed.

Ltac flow_stage :=
  repeat match goal with
  | |- sends _ (us_gems _ ≫= _) _ => eapply sends_bind; [apply sends_us_gems|]; intros [? ?] ?
  | |- sends _ (for_err _ (fun _ => for_err _ _)) _ => apply sends_gem_loop; intros ? ? ?
  | |- sends _ (with_flow_id _ _) _ => apply sends_with_flow_id; intros ? ?
  | |- sends _ (_ ≫= (fun err => when_nil err _)) _ => apply sends_two
  | |- sends _ (AddFlow _ _ _ _ _ _ _ _ _ _) _ => apply sends_AddFlow
  | |- sends _ (AddTtFlow _ _ _ _ _ _ _ _ _ _) _ => apply sends_AddTtFlow
  | |- sends _ (AddFlow _ _ _ _ _ _ _ _ _ _ ≫= _) _ => eapply sends_bind; [apply sends_AddFlow|intros ? ?]
  | |- sends _ (AddTtFlow _ _ _ _ _ _ _ _ _ _ ≫= _) _ => eapply sends_bind; [apply sends_AddTtFlow|intros ? ?]
  | |- sends _ (send_scheds _ _) _ => apply sends_schedulers
  | |- sends _ (send_queues _ _) _ => apply sends_send_queues
  | |- sends _ (Ret None) _ => apply told_None
  | |- sends _ (Ret (first_error _)) _ => apply told_first_error; by repeat constructor
  | |- flow_args _ _ _ _ => split_and!; [done|done|done|]
  | |- typed s -> map_Forall _ ∅ => intros _; apply map_Forall_empty
  | H : if_typed ?g |- typed s -> map_Forall _ (build_pbitToGem ?g) =>
      intros Hs; apply typed_build_pbitToGem, (H Hs)
  | H : if_typed (_, ?g).2 |- _ => change (if_typed g) in H
  end.

Lemma sends_stage wf stage :
  getWorkFlow s = Some wf -> stage ∈ ProvisionMulticastFlow wf :: unicast_stages wf ->
  sends (stage_request s) (stage s) told.
Proof.
  intros Hwf Hin. unfold getWorkFlow in Hwf.
  repeat case_decide; try done; injection Hwf as <-;
    repeat (apply elem_of_cons in Hin as [->|Hin]; [|]); try (by apply not_elem_of_nil in Hin);
    cbn [ProvisionMulticastFlow unicast_stages ProvisionScheds ProvisionQueues ProvisionEapFlow
      ProvisionDhcpIPV4Flow ProvisionDhcpIPV6Flow ProvisionIgmpFlow ProvisionHsiaFlow
      ProvisionVoipFlow ProvisionVodFlow ProvisionMgmtFlow AttWorkFlow DtWorkFlow TtWorkFlow];
    try apply sends_tt_multicast;
    match goal with |- sends _ (?stage s) _ => unfold stage end; flow_stage.
Qed.

Lemma sends_deploy_reason wf isGroup :
  getWorkFlow s = Some wf ->
  sends (stage_request s) (deploy_reason wf s isGroup) (fun reason => reason <> "").
Proof.
  intros Hwf. eapply (sends_bind _ _ _ told); [|intros [e|] He; [by apply He|done]].
  destruct isGroup.
  - eapply sends_stage; [done|]. apply elem_of_cons. by left.
  - assert (forall l, (forall stage, stage ∈ l -> sends (stage_request s) (stage s) told) ->
      sends (stage_request s) (for_err l (fun stage => stage s)) told) as Hl
      by (intros l Hl; by apply sends_for_err).
    apply Hl. intros stage Hst. eapply sends_stage; [done|]. apply elem_of_cons. by right.
Qed.

End stages.

(** ** The whole program *)

#[export] Instance typed_OnuDevice : Typed OnuDevice :=
  fun d => is_u32 (onu_OnuID d) /\ is_u32 (onu_PonIntf d).

#[export] Instance typed_Globals : Typed Globals :=
  fun g => is_u32 (currDtStag g) /\ map_Forall (fun _ => is_u32) (DtStag g)
    /\ map_Forall (fun _ => is_u32) (DtCtag g) /\ map_Forall (fun _ => is_u32) (AttCtag g)
    /\ map_Forall (fun _ => is_u32) (TtCtag g).

(** Ids and profile instances come as Go values of their types. *)
Class TypedEnv `{Env} : Prop := {
  te_ids m intf t n st : Forall is_u32 (tp_GetResourceID m intf t n st).1.1;
  te_tp m tpID name intf st inst err :
    (tp_CreateTechProfileInstance m tpID name intf st).1 = inr (inst, err) -> typed inst;
}.

Record typed_store `{Env} (w : World) : Prop := {
  ts_trace : typed (w_trace w);
  ts_globals : typed (w_globals w);
  ts_onus : typed (w_onus w);
  ts_subs : typed (w_subs w);
}.

(** Every goroutine may use every value in range. *)
Inductive in_range := InRange.

Definition op_typed {X : Type} (o : Op X) (r : in_range) (K : X -> in_range -> Prop) : Prop :=
  match o in Op X return (X -> in_range -> Prop) -> Prop with
  | OpRpc q => fun K => typed q /\ forall e, told e -> K e r
  | OpRandIntn k => fun K => forall v, (0 < k -> 0 <= v < k) -> K v r
  | OpGetFlowID _ => fun K => forall v, is_u64 v -> K v r
  | OpGetResourceID _ _ _ _ => fun K => forall ids err, Forall is_u32 ids -> K (ids, err) r
  | OpCreateTechProfileInstance _ _ _ _ => fun K => forall inst err, typed inst -> K (inst, err) r
  | OpGetCtag _ _ | OpGetStag _ _ _ _ => fun K => forall v, is_u32 v -> K v r
  | OpNewOnu d => fun K => typed d /\ forall a, K a r
  | OpLoadOnu _ => fun K => forall d, typed d -> K d r
  | OpStoreOnu _ d => fun K => typed d /\ K tt r
  | OpNewSub s => fun K => typed s /\ forall a, K a r
  | OpLoadSub _ => fun K => forall s, typed s -> K s r
  | OpStoreSub _ s => fun K => typed s /\ K tt r
  | _ => fun K => forall x, K x r
  end K.

Lemma op_typed_mono {X} (o : Op X) r (K K' : X -> in_range -> Prop) :
  op_typed o r K -> (forall x r', K x r' -> K' x r') -> op_typed o r K'.
Proof. intros Ho HK. destruct o; cbn in *; auto; by destruct Ho; auto. Qed.

#[export] Instance range_logic : Logic in_range := {
  allows := @op_typed;
  splits _ _ _ := True;
  allows_mono := @op_typed_mono;
}.

#[export] Instance range_neutral : Neutral in_range typed.
Proof. split; intros; cbn; auto. Qed.

Lemma typed_go {A} c (k : prog A) r (Q : A -> in_range -> Prop) :
  judge c r anything -> judge k r Q -> judge (Go c k) r Q.
Proof. intros Hc Hk. by exists r, r. Qed.

Lemma typed_MkUniPortNum p o u : is_u32 u -> is_u32 (MkUniPortNum p o u).
Proof. intros Hu. unfold MkUniPortNum. repeat apply lor_range; try done; apply u32_range. Qed.

Lemma typed_DeployWorkflow a isGroup r : judge (DeployWorkflow a isGroup) r anything.
Proof.
  apply judge_op_bind. intros s Hs. apply judge_deref_bind. intros wf Hwf.
  apply judge_bind. eapply sends_judge.
  - eapply sends_mono; [by apply (sends_deploy_reason s wf)|by intros q [_ ?]; auto|done].
  - intros reason _. apply judge_op_bind. by split.
Qed.

Lemma typed_create_tp_instances a ids r Q :
  (forall b, Q b r) -> judge (create_tp_instances a ids) r Q.
Proof.
  intros HQ. induction ids as [|id ids IH]; [apply HQ|]. cbn [create_tp_instances].
  apply judge_op_bind. intros s Hs. apply judge_op_bind. intros [inst|] err Hi; [|done].
  apply judge_op_bind. split.
  - destruct Hs as (? & ? & ? & ? & ? & ? & Hm). split_and!; try done.
    intros k i. cbn. rewrite lookup_insert_Some. intros [[_ <-]|[_ Hk]]; [by apply Hi|by eapply Hm].
  - destruct err as [e|]; [|exact IH]. apply judge_op_bind. intros s' Hs'. apply judge_op_bind.
    split; [done|apply HQ].
Qed.

Lemma typed_Subscriber_Start a isGroup r : judge (Subscriber_Start a isGroup) r anything.
Proof.
  apply judge_op_bind. intros s Hs. apply judge_op_bind. split.
  - destruct Hs as (? & ? & ? & ? & ? & ? & _). by split_and!.
  - apply judge_bind, typed_create_tp_instances. intros [|]; [|done].
    by apply typed_go; [apply typed_DeployWorkflow|].
Qed.

Lemma typed_start_subscriber a g i r Q : Q tt r -> judge (start_subscriber a g i) r Q.
Proof.
  intros HQ. apply judge_op_bind. intros onu [Hid Hpon]. apply judge_bind.
  apply judge_op_bind. intros ctag Hc. apply judge_op_bind. intros stag Ht. cbn [judge].
  apply judge_op_bind. split.
  - split_and!; cbn; try done; [apply u32_range|apply typed_MkUniPortNum, u32_range].
  - intros sa. apply judge_op_bind. split; [done|]. apply judge_op_bind. intros [].
    by apply typed_go; [apply typed_Subscriber_Start|].
Qed.

Lemma typed_OnuDevice_Start a r : judge (OnuDevice_Start a) r anything.
Proof.
  apply judge_op_bind. intros onu Honu. apply judge_op_bind. split; [done|].
  apply judge_op_bind. intros g. apply judge_bind, (judge_for_each _ _ (fun _ => True)); [|done|].
  - intros i r' Q _ _ HQ. by apply typed_start_subscriber, HQ.
  - intros r' _. apply judge_op_bind. by intros [] [].
Qed.

Lemma typed_activateONU cfg intf onuID sn name g r :
  is_u32 intf -> is_u32 onuID -> judge (activateONU cfg intf onuID sn name g) r anything.
Proof.
  intros Hi Ho. apply judge_op_bind. intros mgr. apply judge_op_bind. intros now.
  apply judge_op_bind. split; [by split_and!|]. intros err _.
  apply judge_op_bind. split; [destruct err; [case_decide|]; by split|]. intros a.
  apply judge_op_bind. intros []. destruct err; [done|].
  apply judge_op_bind. intros a'. by apply typed_go; [apply typed_OnuDevice_Start|].
Qed.

Lemma typed_provision_one cfg g i j k r Q :
  is_u32 j -> Q tt r -> judge (provision_one cfg g i j k) r Q.
Proof.
  intros Hj HQ. apply judge_op_bind. intros sn. apply judge_op_bind. intros mgr.
  apply judge_op_bind. intros ids err Hids. destruct err as [e|]; [done|].
  apply judge_index_bind. intros onuID Hid. apply judge_op_bind. intros [].
  apply judge_bind. destruct (stringifySerialNumber (Some sn)) as [name|]; [|done].
  apply typed_go; [|done]. apply typed_activateONU; [done|].
  rewrite Forall_lookup in Hids. by eapply Hids.
Qed.

(** The batches of ONUs, for a logic that the operations between them are free in:
    what matters is the provisioning of one ONU. *)
Definition driver_op {X : Type} (o : Op X) : Prop :=
  match o with OpNewWg | OpNow | OpWgWait _ | OpKillSelf => True | _ => False end.

Lemma judge_provisionONUs `{Logic R} (I : R -> Prop) cfg di r :
  I r -> (forall X (o : Op X) r' (K : X -> R -> Prop), driver_op o -> I r' -> (forall x, K x r') -> allows o r' K) ->
  (forall g i j k r' (Q : unit -> R -> Prop), j ∈ seqZ 0 (di_PonPorts di) -> I r' -> (forall r2, I r2 -> Q tt r2) ->
     judge (provision_one cfg g i j k) r' Q) ->
  judge (provisionONUs cfg di) r anything.
Proof.
  intros Hr Ho Hone. apply judge_bind.
  assert (forall r', I r' -> judge (op OpKillSelf) r' anything) as Hkill by (intros; by apply Ho).
  apply judge_op_bind, Ho; [done..|]. intros g. cbv zeta.
  destruct (negb _); [by apply Hkill|]. destruct (_ <? _); [by apply Hkill|]. destruct (_ =? 0); [done|].
  destruct (onusPerIterationPerPonPort _) as [per|]; [|by apply Hkill].
  apply judge_op_bind, Ho; [done..|]. intros start. destruct (per =? 0); [done|].
  apply judge_bind, (judge_for_each _ _ I); [|done|].
  - intros i r' Q _ Hr' HQ. apply judge_bind, (judge_for_each _ _ I); [|done|].
    + intros j r2 Q2 Hj Hr2 HQ2. apply (judge_for_each _ _ I); [|done|done].
      intros k r3 Q3 _ Hr3 HQ3. by apply Hone.
    + intros r2 Hr2. apply Ho; [done..|]. intros []. by apply HQ.
  - intros r' Hr'. apply judge_op_bind, Ho; [done..|]. intros e. by apply Hkill.
Qed.

Lemma typed_provisionONUs cfg di r :
  is_u32 (di_PonPorts di) -> judge (provisionONUs cfg di) r anything.
Proof.
  intros Hp. apply (judge_provisionONUs (fun _ => True)); [done|by intros X [] r' K|].
  intros g i j k r' Q Hj%elem_of_seqZ _ HQ. apply typed_provision_one; [unfold is_u32 in *; lia|by apply HQ].
Qed.

(** *** The store *)

Lemma typed_GetCtag wf pon g : typed g -> is_u32 (GetCtag wf pon g).1 /\ typed (GetCtag wf pon g).2.
Proof.
  intros (H1 & H2 & H3 & H4 & H5). unfold GetCtag, GetAttCtag, GetDtCtag, GetTtCtag.
  assert (is_u32 1 /\ is_u32 2) as [] by by vm_compute.
  repeat case_decide; try case_match; split; try done; try apply u32_range;
    split_and!; try done; apply map_Forall_insert_2; try done; apply u32_range.
Qed.

Lemma typed_GetStag wf pon onu uni g :
  typed g -> is_u32 (GetStag wf pon onu uni g).1 /\ typed (GetStag wf pon onu uni g).2.
Proof.
  intros (H1 & H2 & H3 & H4 & H5). unfold GetStag, GetAttStag, GetDtStag, GetTtStag.
  repeat case_decide; try case_match eqn:E; split; try done; try apply u32_range; [by eapply H2|].
  split_and!; try done; [apply u32_range|]. apply map_Forall_insert_2; [apply u32_range|done].
Qed.

Section sound.
Context `{TypedEnv}.

Lemma typed_exec {X} (o : Op X) w r K x w' :
  typed_store w -> op_typed o r K -> exec o w = Done x w' -> K x r /\ typed_store w'.
Proof.
  intros Ht Ho He. pose proof Ht as [T1 T2 T3 T4]. destruct o;
    try (cbv [exec with_mgr wg_add] in He;
         repeat match type of He with
         | context [match ?e with _ => _ end] => destruct e
         end; try discriminate; injection He as <- <-; split; [by apply Ho|by split]).
  - cbv [exec] in He. injection He as <- <-. destruct Ho as [Hq HK].
    split; [apply HK, told_status|]. split; try done. by apply typed_snoc.
  - cbv [exec] in He. injection He as <- <-. split; [|by split]. apply Ho. intros Hn.
    by apply Z.mod_pos_bound.
  - unfold exec, with_mgr in He. repeat case_match; try done. injection He as <- <-.
    split; [apply Ho, u64_range|by split].
  - unfold exec, with_mgr in He. destruct (w_rsrMgr w !! mgr) as [[m|]|]; try done.
    pose proof (te_ids mgr intf t n (w_tp w)) as Hids.
    destruct (tp_GetResourceID mgr intf t n (w_tp w)) as [[ids err] st]. injection He as <- <-.
    split; [by apply Ho|by split].
  - unfold exec, with_mgr in He. destruct (w_rsrMgr w !! mgr) as [[m|]|]; try done.
    pose proof (te_tp mgr tpID uniPortName intf (w_tp w)) as Hinst.
    destruct (tp_CreateTechProfileInstance mgr tpID uniPortName intf (w_tp w)) as [[e|[inst err]] st]; [done|].
    injection He as <- <-. split; [apply Ho; by eapply Hinst|by split].
  - cbv [exec] in He. injection He as <- <-. split; [apply Ho|by split].
  - unfold exec in He. pose proof (typed_GetCtag wf pon _ T2) as [Hc Hg].
    destruct (GetCtag wf pon (w_globals w)) as [c g]. injection He as <- <-. split; [by apply Ho|by split].
  - unfold exec in He. pose proof (typed_GetStag wf pon onu uni _ T2) as [Hc Hg].
    destruct (GetStag wf pon onu uni (w_globals w)) as [c g]. injection He as <- <-. split; [by apply Ho|by split].
  - cbv [exec] in He. injection He as <- <-. destruct Ho as [Hd HK]. split; [apply HK|].
    split; try done. by apply typed_snoc.
  - unfold exec in He. destruct (w_onus w !! a) as [d|] eqn:Ha; [|done]. injection He as <- <-.
    split; [|done]. apply Ho. hnf in T3. rewrite Forall_lookup in T3. by eapply T3.
  - cbv [exec] in He. injection He as <- <-. destruct Ho as [Hd HK]. split; [done|].
    split; try done. by apply Forall_insert.
  - cbv [exec] in He. injection He as <- <-. destruct Ho as [Hd HK]. split; [apply HK|].
    split; try done. by apply typed_snoc.
  - unfold exec in He. destruct (w_subs w !! a) as [d|] eqn:Ha; [|done]. injection He as <- <-.
    split; [|done]. apply Ho. hnf in T4. rewrite Forall_lookup in T4. by eapply T4.
  - cbv [exec] in He. injection He as <- <-. destruct Ho as [Hd HK]. split; [done|].
    split; try done. by apply Forall_insert.
Qed.

#[export] Instance range_sound : Sound in_range (fun _ => True) (fun w _ => typed_store w).
Proof.
  split; try done. intros w r rs X o K x w' Ht Ho He _. exists r. by eapply typed_exec.
Qed.

End sound.

(** ** Properties *)

(** C9. Every request the program ever sends, in any execution, has each of its
    fields in the range of its protobuf type, when the ids and technology
    profiles it gets from its libraries do: the 64-bit flow ids, the 32-bit ids
    of PON, ONU, UNI, port, gem port and group, the signed fields of the flows,
    the VLAN tags, the bytes of the MAC addresses and the keys and values of the
    p-bit maps. *)
Theorem requests_typed `{TypedEnv} (cfg : OpenOltScaleTesterConfig) (di : DeviceInfo) (w : World)
    (pool : list (prog unit)) (w' : World) :
  is_u32 (di_PonPorts di) -> typed_store w ->
  steps (Running [provisionONUs cfg di] w) (Running pool w') -> Forall typed (w_trace w').
Proof.
  intros Hp Ht Hs.
  destruct (judged_inv (inv := fun w _ => typed_store w) [provisionONUs cfg di] w [InRange] pool w')
    as [rs Ht']; try done; [|apply Ht'].
  constructor; [by apply typed_provisionONUs|constructor].
Qed.

(** An agent that accepts everything; the profile manager counts its ids in a
    [uint32]. *)
Definition counting_env : Env :=
  {| device := accepting; rand_src := fun n => Z.of_nat n; clock := fun n => Z.of_nat n;
     tp_state := Z; tp_GetResourceID := fun _ _ _ _ n => (([u32 n], None), n + 1);
     tp_CreateTechProfileInstance := fun _ _ _ _ n => (inr (Some sample_tp, None), n) |}.

Definition counting_world : @World counting_env :=
  @Build_World counting_env []
    [Some {| rm_deviceInfo := sample_deviceInfo 1; rm_intfID := 0; rm_flow_id := 0 |}]
    init_globals 0 [] ∅ [] [] 0%nat 0%nat 1 false.

Lemma counting_env_typed : TypedEnv (H := counting_env).
Proof.
  split.
  - intros m intf t n st. constructor; [apply u32_range|constructor].
  - intros m tpID name intf st inst err [= <- _] a [= <-]. split_and!; [by intros ? [= <-]..| |]; by repeat constructor.
Qed.

(** One ONU with two subscribers of the TT workflow. *)
Lemma requests_typed_witness :
  let c := schedule (H := counting_env)
             (Running [provisionONUs (sample_config "TT" 1 2) (sample_deviceInfo 1)] counting_world)
             (round_robin 7 60) in
  match c with
  | Running pool w' => Forall typed (w_trace (H := counting_env) w')
  | Crashed _ => False
  end.
Proof.
  intros c. pose proof (schedule_steps (H := counting_env)
    (Running [provisionONUs (sample_config "TT" 1 2) (sample_deviceInfo 1)] counting_world)
    (round_robin 7 60)) as Hs. fold c in Hs.
  assert (match c with Running _ _ => true | Crashed _ => false end = true) as Hc by (vm_compute; reflexivity).
  destruct c as [pool w'|]; [|discriminate].
  apply (requests_typed (H := counting_env) (H0 := counting_env_typed) (sample_config "TT" 1 2)
    (sample_deviceInfo 1) counting_world pool w'); [|split|exact Hs].
  - split; [discriminate|reflexivity].
  - constructor.
  - by split_and!.
  - constructor.
  - constructor.
Defined.
