(* ===== verification/Plan.v ===== *)
(** * What provisioning a subscriber means: the abstract plan

    The specification the workflows implement.  The plan of a subscriber is a
    list of groups of items; an item is one scheduler, queue or flow request,
    written as data.  [exec_plan] is the reference semantics: the requests of a
    group are all sent, the first bad answer of a group ends the plan with the
    reason of its request, and flow ids are taken as the flows are sent.
    The refinement theorems of Refinement.v say that the code of the three
    workflows behaves as its plan. *)
From S2P Require Import Prelude Utils Proto Config Runtime Play TechProfile ResourceManager WorkflowUtils.

(** A flow of the plan: the classifier table it is taken from (that of the TT
    workflow or the common one), type, direction, gem port, priority code point
    (0xff: none), whether the agent replicates it over the p-bit map, and
    whether it is the other direction of the flow before it. *)
Record flow_item := {
  fi_tt : bool;
  fi_type : string;
  fi_dir : string;
  fi_gem : Z;
  fi_pcp : Z;
  fi_replicate : bool;
  fi_symmetric : bool;
  fi_pbits : gmap Z Z;
}.

Inductive item :=
  | ISched (d : Direction)
  | IQueue (d : Direction)
  | IFlow (f : flow_item).

(** ** Flow contents *)

(** The table of the TT workflow; [mac] is the destination address of the
    downstream flows that have one. *)
Definition tt_format (flowType direction : string) (mac : list Z) : Classifier * Action :=
  let cls ov iv op ip eth mac proto tag :=
    {| cl_OVid := ov; cl_IVid := iv; cl_OPbits := op; cl_IPbits := ip; cl_EthType := eth;
       cl_DstMac := mac; cl_IpProto := proto; cl_SrcPort := 0; cl_DstPort := 0;
       cl_PktTagType := tag |} in
  let act cmd ov iv op ip :=
    {| act_Cmd := Some cmd; act_OVid := ov; act_IVid := iv; act_OPbits := op;
       act_IPbits := ip |} in
  if decide (direction = Upstream) then
    if decide (flowType = IgmpFlow)
    then (cls 0 0 0 0 IPv4EthType [] IgmpProto SingleTag, act cmd_trap 0 0 0 0)
    else if decide (flowType = HsiaFlow)
    then (cls 33 0 0 255 0 [] 0 SingleTag, act cmd_push 7 33 0 0)
    else if decide (flowType = VoipFlow)
    then (cls 63 0 7 255 0 [] 0 SingleTag, act cmd_push 10 63 7 0)
    else if decide (flowType = VodFlow)
    then (cls 55 0 5 255 0 [] 0 SingleTag, act cmd_push 555 55 5 0)
    else if decide (flowType = MgmtFlow)
    then (cls 75 0 7 255 0 [] 0 SingleTag, act cmd_push 575 75 7 0)
    else (zero_Classifier, zero_Action)
  else if decide (direction = Downstream) then
    if decide (flowType = HsiaFlow)
    then (cls 7 33 255 255 0 [] 0 DoubleTag, act cmd_pop 0 33 0 0)
    else if decide (flowType = VoipFlow)
    then (cls 10 63 255 255 0 mac 0 DoubleTag, act cmd_pop 0 63 0 7)
    else if decide (flowType = VodFlow)
    then (cls 555 55 255 255 0 mac 0 DoubleTag, act cmd_pop 0 55 0 5)
    else if decide (flowType = MgmtFlow)
    then (cls 575 75 255 255 0 mac 0 DoubleTag, act cmd_pop 0 75 0 7)
    else (zero_Classifier, zero_Action)
  else (zero_Classifier, zero_Action).

Definition has_mac (f : flow_item) : bool :=
  fi_tt f && bool_decide (fi_dir f = Downstream) &&
  (bool_decide (fi_type f = VoipFlow) || bool_decide (fi_type f = VodFlow)
   || bool_decide (fi_type f = MgmtFlow)).

Definition mac_byte (r : Z) : Z := u8 (r mod 255 + 0).

(** The six draws of [GenerateMac], and the source after them. *)
Definition mac_of (s : Streams) : list Z :=
  (fun n => mac_byte (s_rand s n)) <$> [0; 1; 2; 3; 4; 5]%nat.
Definition after_mac (s : Streams) : Streams := Nat.iter 6 pop_rand s.

Section subscriber.
Variables (subs : Subscriber) (tp : TechProfileInstance) (us ds : SchedulerAttributes).

Definition item_sched (d : Direction) : Request :=
  RpcCreateTrafficSchedulers
    {| tss_IntfId := PonIntf subs; tss_OnuId := OnuID subs; tss_UniId := UniID subs;
       tss_PortNo := UniPortNo subs;
       tss_TrafficScheds :=
         [ {| ts_Direction := sa_Direction (if decide (d = Direction_DOWNSTREAM) then ds else us);
              ts_AllocId := sa_AllocId us;
              ts_Scheduler := sched_config (if decide (d = Direction_DOWNSTREAM) then ds else us);
              ts_TrafficShapingInfo :=
                {| Cir := 16000; Cbs := 5000; Pir := 32000; Pbs := 10000 |} |} ] |}.

Definition item_queue (d : Direction) : Request :=
  RpcCreateTrafficQueues
    {| tqs_IntfId := PonIntf subs; tqs_OnuId := OnuID subs; tqs_UniId := UniID subs;
       tqs_PortNo := UniPortNo subs; tqs_TrafficQueues := traffic_queues tp d |}.

Definition item_flow (f : flow_item) (id symmetric : Z) (mac : list Z) : Request :=
  let '(c, a) := if fi_tt f then tt_format (fi_type f) (fi_dir f) mac
                 else FormatClassfierAction (fi_type f) (fi_dir f) subs in
  RpcFlowAdd
    {| fl_AccessIntfId := i32 (PonIntf subs); fl_OnuId := i32 (OnuID subs);
       fl_UniId := i32 (UniID subs); fl_FlowId := id;
       fl_SymmetricFlowId := symmetric;
       fl_FlowType := fi_dir f; fl_AllocId := i32 (sa_AllocId us);
       fl_GemportId := i32 (fi_gem f);
       fl_Classifier := if decide (fi_pcp f = 0xff) then c else set_OPbits (fi_pcp f) c;
       fl_Action := Some a; fl_Priority := 1000; fl_PortNo := UniPortNo subs; fl_GroupId := 0;
       fl_ReplicateFlow := fi_replicate f; fl_PbitToGemport := fi_pbits f |}.

(** What a bad answer to an item gives; a flow the agent already has is no
    error. *)
Definition flow_item_verdict (err : option GoError) : option ReasonCode :=
  match err with
  | None => None
  | Some e => if decide (status_Code (Some e) = AlreadyExists) then None
              else Some FLOW_ADD_FAILED
  end.

Definition item_verdict (it : item) (err : option GoError) : option ReasonCode :=
  match it with
  | ISched _ => match err with Some _ => Some SCHED_CREATION_FAILED | None => None end
  | IQueue _ => match err with Some _ => Some QUEUE_CREATION_FAILED | None => None end
  | IFlow _ => flow_item_verdict err
  end.

(** ** Reference semantics *)

(** One item after the flow [prev]: its request, the last flow id, and the
    streams left when the request is sent. *)
Definition item_request (it : item) (prev : Z) (s : Streams) : Request * Z * Streams :=
  match it with
  | ISched d => (item_sched d, prev, s)
  | IQueue d => (item_queue d, prev, s)
  | IFlow f =>
      let id := s_flow s 0%nat in
      let s := pop_flow s in
      let '(mac, s) := if has_mac f then (mac_of s, after_mac s) else ([], s) in
      (item_flow f id (if fi_symmetric f then prev else 0) mac, id, s)
  end.

Fixpoint exec_group (its : list item) (prev : Z) (s : Streams)
    : list Request * option ReasonCode * Z * Streams :=
  match its with
  | [] => ([], None, prev, s)
  | it :: its' =>
      let '(req, prev', s1) := item_request it prev s in
      let v := item_verdict it (s_rpc s1 0%nat) in
      let '(reqs, v', prev'', s2) := exec_group its' prev' (pop_rpc s1) in
      (req :: reqs, match v with Some c => Some c | None => v' end, prev'', s2)
  end.

Fixpoint exec_plan (groups : list (list item)) (prev : Z) (s : Streams)
    : list Request * option ReasonCode * Z * Streams :=
  match groups with
  | [] => ([], None, prev, s)
  | its :: groups' =>
      let '(reqs, v, prev', s') := exec_group its prev s in
      match v with
      | Some c => (reqs, Some c, prev', s')
      | None =>
          let '(reqs', v', prev'', s'') := exec_plan groups' prev' s' in
          (reqs ++ reqs', v', prev'', s'')
      end
  end.

(** ** The plans of the three workflows *)

Definition scheds_plan : list (list item) :=
  [ [ISched Direction_DOWNSTREAM]; [ISched Direction_UPSTREAM] ].
Definition queues_plan : list (list item) :=
  [ [IQueue Direction_DOWNSTREAM]; [IQueue Direction_UPSTREAM] ].
Definition bearer_plan : list (list item) := scheds_plan ++ queues_plan.

(** A flow the agent replicates over the whole p-bit map. *)
Definition mapped_flow (ty dir : string) (sym : bool) : item :=
  IFlow {| fi_tt := false; fi_type := ty; fi_dir := dir; fi_gem := 0; fi_pcp := 0xff;
           fi_replicate := true; fi_symmetric := sym;
           fi_pbits := build_pbitToGem (UpstreamGemPortAttributeList tp) |}.

Definition hsia_plan : list (list item) :=
  [ [mapped_flow HsiaFlow Upstream false]; [mapped_flow HsiaFlow Downstream true] ].

Definition att_plan : list (list item) :=
  bearer_plan ++
  [ [mapped_flow EapolFlow Upstream false]; [mapped_flow DhcpFlowIPV4 Upstream false] ] ++
  hsia_plan.

Definition dt_plan : list (list item) := bearer_plan ++ hsia_plan.

(** A flow of one gem port and one priority code point. *)
Definition pcp_flow (tt : bool) (ty dir : string) (sym : bool) (gp : Z * Z) : item :=
  IFlow {| fi_tt := tt; fi_type := ty; fi_dir := dir; fi_gem := gp.1; fi_pcp := gp.2;
           fi_replicate := false; fi_symmetric := sym; fi_pbits := ∅ |}.

(** The pairs of an upstream gem port and a priority code point it carries. *)
Definition gem_pcps : list (Z * Z) :=
  g ← UpstreamGemPortAttributeList tp; (fun pcp => (gp_GemportId g, pcp)) <$> pbit_pcps (gp_PbitMap g).

Definition tt_service (ty : string) (rest : list (Z * Z -> item)) : list (list item) :=
  (fun gp => [pcp_flow true ty Upstream false gp; pcp_flow true ty Downstream true gp]
             ++ ((fun f => f gp) <$> rest)) <$> gem_pcps.

Definition dhcp_item : Z * Z -> item := pcp_flow false DhcpFlowIPV4 Upstream false.
Definition igmp_item : Z * Z -> item := pcp_flow true IgmpFlow Upstream false.

Definition tt_plan : list (list item) :=
  bearer_plan ++ tt_service HsiaFlow [] ++ tt_service VoipFlow [dhcp_item]
  ++ tt_service VodFlow [dhcp_item; igmp_item] ++ tt_service MgmtFlow [dhcp_item].

Definition plan_of (workflow : string) : list (list item) :=
  if decide (workflow = "ATT") then att_plan
  else if decide (workflow = "DT") then dt_plan
  else if decide (workflow = "TT") then tt_plan
  else [].

(** ** Properties of the reference semantics *)

Lemma exec_plan_app p1 p2 prev s :
  exec_plan (p1 ++ p2) prev s =
  let '(reqs, v, prev', s') := exec_plan p1 prev s in
  match v with
  | Some c => (reqs, Some c, prev', s')
  | None => let '(reqs', v', prev'', s'') := exec_plan p2 prev' s' in
            (reqs ++ reqs', v', prev'', s'')
  end.
Proof.
  revert prev s. induction p1 as [|its p1 IH]; intros prev s; cbn.
  { by destruct (exec_plan p2 prev s) as [[[??]?]?]. }
  destruct (exec_group its prev s) as [[[reqs [c|]] prev'] s']; cbn; [done|].
  rewrite IH. destruct (exec_plan p1 prev' s') as [[[reqs' [c|]] p''] s'']; cbn; [done|].
  destruct (exec_plan p2 p'' s'') as [[[??]?]?]. by rewrite app_assoc.
Qed.

(** The requests of a list of items, without the answers: every flow has an id,
    the other direction of a flow names the id of the flow before it, and a
    destination address, where there is one, has six bytes below 255. *)
Inductive plan_requests : Z -> list item -> list Request -> Prop :=
  | pr_nil prev : plan_requests prev [] []
  | pr_sched prev d its reqs :
      plan_requests prev its reqs ->
      plan_requests prev (ISched d :: its) (item_sched d :: reqs)
  | pr_queue prev d its reqs :
      plan_requests prev its reqs ->
      plan_requests prev (IQueue d :: its) (item_queue d :: reqs)
  | pr_flow prev f id mac its reqs :
      length mac = (if has_mac f then 6 else 0)%nat ->
      Forall (fun b => 0 <= b < 255) mac ->
      plan_requests id its reqs ->
      plan_requests prev (IFlow f :: its)
        (item_flow f id (if fi_symmetric f then prev else 0) mac :: reqs).

Definition item_reason (it : item) : ReasonCode :=
  match it with
  | ISched _ => SCHED_CREATION_FAILED
  | IQueue _ => QUEUE_CREATION_FAILED
  | IFlow _ => FLOW_ADD_FAILED
  end.

(** How a plan ends: complete, or with the reason of an item of its last
    group. *)
Definition plan_ends (groups : list (list item)) (k : nat) (v : option ReasonCode) : Prop :=
  match v with
  | None => k = length groups
  | Some c => exists k' its it, k = S k' /\ groups !! k' = Some its /\ it ∈ its
                                /\ item_reason it = c
  end.

Lemma mac_byte_range r : 0 <= mac_byte r < 255.
Proof.
  unfold mac_byte, u8. pose proof (Z.mod_pos_bound r 255).
  rewrite Z.mod_small; lia.
Qed.

Lemma exec_group_requests its prev s :
  let '(reqs, v, prev', s') := exec_group its prev s in
  (forall its' reqs', plan_requests prev' its' reqs' ->
     plan_requests prev (its ++ its') (reqs ++ reqs'))
  /\ (forall c, v = Some c -> exists it, it ∈ its /\ item_reason it = c).
Proof.
  revert prev s. induction its as [|it its IH]; intros prev s; cbn -[item_request].
  { by split; [|intros c [=]]. }
  destruct (item_request it prev s) as [[req prev'] s1] eqn:Hit.
  specialize (IH prev' (pop_rpc s1)).
  destruct (exec_group its prev' (pop_rpc s1)) as [[[reqs v] prev''] s2].
  destruct IH as [IHr IHv]. split.
  - intros its' reqs' Hr. specialize (IHr _ _ Hr).
    destruct it as [d|d|f]; cbn -[mac_of after_mac] in Hit; [simplify_eq; by constructor..|].
    destruct (has_mac f) eqn:Hf; simplify_eq; apply pr_flow; rewrite ?Hf; try done.
    apply Forall_fmap, Forall_true. intros n. apply mac_byte_range.
  - intros c Hc. destruct (item_verdict it (s_rpc s1 0%nat)) as [c'|] eqn:Hv.
    + injection Hc as ->. exists it. split; [apply elem_of_cons; by left|].
      destruct it; cbn -[flow_item_verdict] in *; unfold flow_item_verdict in *;
        destruct (s_rpc s1 0%nat); try case_decide; by simplify_eq.
    + destruct (IHv c Hc) as (it' & Hin & Hr). exists it'. split; [|done].
      apply elem_of_cons. by right.
Qed.

Lemma exec_plan_requests groups prev s :
  let '(reqs, v, _, _) := exec_plan groups prev s in
  exists k, plan_requests prev (mjoin (take k groups)) reqs /\ plan_ends groups k v.
Proof.
  revert prev s. induction groups as [|its groups IH]; intros prev s; cbn.
  { exists O. by split; [constructor|]. }
  pose proof (exec_group_requests its prev s) as Hg.
  destruct (exec_group its prev s) as [[[reqs v] prev'] s']. destruct Hg as [Hr Hv].
  destruct v as [c|].
  - exists 1%nat. cbn. rewrite take_0, app_nil_r. split.
    + rewrite <-(app_nil_r its), <-(app_nil_r reqs). apply Hr. constructor.
    + destruct (Hv c eq_refl) as (it & Hin & Hc). by exists O, its, it.
  - specialize (IH prev' s'). destruct (exec_plan groups prev' s') as [[[reqs' v'] ?] ?].
    destruct IH as (k & Hk & He). exists (S k). split; [by apply Hr|].
    destruct v' as [c|]; cbn in *; [|by rewrite He].
    destruct He as (k' & its' & it & -> & ? & ? & ?). by exists (S k'), its', it.
Qed.

End subscriber.
