(* ===== verification/Refinement.v ===== *)
(** * The workflows implement their plans

    Each stage of a workflow refines a part of the plan of Plan.v, and
    [DeployWorkflow] refines the whole of it, under any interference (Play.v). *)
From S2P Require Import Prelude Utils Proto Config Runtime Play TechProfile ResourceManager WorkflowUtils AttWorkflow DtWorkflow TtWorkflow WorkflowManager Plan Samples.

Definition reason_of (v : option ReasonCode) : option GoError :=
  v ≫= reason_error.

(** The conditions under which no nil pointer is met: the first technology
    profile has an instance with both schedulers. *)
Record provisionable (subs : Subscriber) (tp : TechProfileInstance)
    (us ds : SchedulerAttributes) : Prop := {
  pv_tpID : exists tpID, TpIDList (TestConfig subs) !! 0%nat = Some tpID /\ TpInstance subs !! tpID = Some tp;
  pv_us : UsScheduler tp = Some us;
  pv_ds : DsScheduler tp = Some ds;
}.

Section refinement.
Variables (subs : Subscriber) (tp : TechProfileInstance) (us ds : SchedulerAttributes).
Hypothesis Hpv : provisionable subs tp us ds.

(** The program behaves as the groups, on every stream. *)
Definition refines (p : prog (option GoError)) (groups : list (list item)) : Prop :=
  forall prev s,
    play p s = let '(reqs, v, _, s') := exec_plan subs tp us ds groups prev s in
               Some (inl (reason_of v), reqs, s').

Lemma refines_nil : refines (Ret None) [].
Proof. by intros prev s. Qed.

Lemma play_first_TpInstance_bind {A} (f : option TechProfileInstance -> prog A) s :
  play (first_TpInstance subs ≫= f) s = play (f (Some tp)) s.
Proof.
  destruct Hpv as [(tpID & H1 & H2) _ _]. unfold first_TpInstance, index. rewrite H1.
  cbn. by rewrite H2.
Qed.

Lemma play_us_gems_bind {A} (f : Z * list GemPortAttributes -> prog A) s :
  play (us_gems subs ≫= f) s
  = play (f (sa_AllocId us, UpstreamGemPortAttributeList tp)) s.
Proof.
  rewrite play_bind. unfold us_gems. rewrite play_first_TpInstance_bind.
  cbn. rewrite (pv_us _ _ _ _ Hpv). cbn.
  by destruct (play (f _) s) as [[[??]?]|].
Qed.

Lemma flow_verdict_reason err : flow_verdict err = reason_of (flow_item_verdict err).
Proof. destruct err as [e|]; [|done]. unfold flow_verdict, flow_item_verdict. by case_decide. Qed.

(** ** Schedulers and queues *)

Lemma refines_send_scheds d :
  d <> Direction_BIDIRECTIONAL -> refines (send_scheds subs d) [[ISched d]].
Proof.
  intros Hd prev s. unfold send_scheds, getTrafficSched.
  rewrite play_bind, play_first_TpInstance_bind.
  assert ((if decide (d = Direction_DOWNSTREAM) then GetDsScheduler (Some tp)
           else GetUsScheduler (Some tp))
    = Ret (Some (sched_config (if decide (d = Direction_DOWNSTREAM) then ds else us)))) as ->.
  { unfold GetDsScheduler, GetUsScheduler. cbn.
    rewrite (pv_us _ _ _ _ Hpv), (pv_ds _ _ _ _ Hpv). by case_decide. }
  rewrite play_ret_bind, play_first_TpInstance_bind. cbn.
  rewrite (pv_us _ _ _ _ Hpv). cbn.
  destruct (s_rpc s 0%nat); reflexivity.
Qed.

Lemma refines_send_queues d :
  d <> Direction_BIDIRECTIONAL -> refines (send_queues subs d) [[IQueue d]].
Proof.
  intros Hd prev s. unfold send_queues, getTrafficQueues.
  rewrite play_bind, play_first_TpInstance_bind, (GetTrafficQueues_eq _ _ Hd). cbn.
  destruct (s_rpc s 0%nat); reflexivity.
Qed.

(** ** Flows *)

Lemma play_GenerateMac_bind {A} (f : list Z -> prog A) s :
  play (GenerateMac true ≫= f) s = play (f (mac_of s)) (after_mac s).
Proof. cbn. by destruct (play (f _) _) as [[[??]?]|]. Qed.

Lemma play_with_flow_id k s :
  play (with_flow_id subs k) s = play (k (s_flow s 0%nat)) (pop_flow s).
Proof. unfold with_flow_id. cbn. apply play_nil. Qed.

(** The flow a call of [AddFlow] or [AddTtFlow] sends. *)
Definition flow_of_call (tt : bool) (ty dir : string) (gem pcp : Z) (rep sym : bool)
    (pb : gmap Z Z) : flow_item :=
  {| fi_tt := tt; fi_type := ty; fi_dir := dir; fi_gem := gem; fi_pcp := pcp;
     fi_replicate := rep; fi_symmetric := sym; fi_pbits := pb |}.

Lemma play_AddFlow_bind {A} (f : option GoError -> prog A) ty dir id gem pcp rep symmetric pb s :
  play (AddFlow subs ty dir id (sa_AllocId us) gem pcp rep symmetric pb ≫= f) s =
  '(r, reqs, s') ← play (f (reason_of (flow_item_verdict (s_rpc s 0%nat)))) (pop_rpc s);
  Some (r, item_flow subs us (flow_of_call false ty dir gem pcp rep false pb) id symmetric []
           :: reqs, s').
Proof.
  unfold AddFlow, item_flow, flow_of_call. cbn [fi_tt fi_type fi_dir fi_pcp fi_gem fi_replicate fi_pbits].
  destruct (FormatClassfierAction ty dir subs) as [c a].
  rewrite (decide_not (pcp = 255)). cbn. rewrite flow_verdict_reason. by destruct (play (f _) _) as [[[??]?]|].
Qed.

Lemma play_FormatTt_bind {A} (f : Classifier * Action -> prog A) it s :
  fi_tt it = true ->
  play (FormatTtClassfierAction (fi_type it) (fi_dir it) subs ≫= f) s =
  let '(mac, s') := if has_mac it then (mac_of s, after_mac s) else ([], s) in
  play (f (tt_format (fi_type it) (fi_dir it) mac)) s'.
Proof.
  intros Htt. unfold FormatTtClassfierAction, has_mac, tt_format. rewrite Htt.
  generalize (fi_type it) (fi_dir it). intros ty dir.
  destruct (decide (dir = Upstream)) as [->|Hu].
  { change (bool_decide (Upstream = Downstream)) with false. cbn [andb].
    destruct (decide (ty = IgmpFlow)); [reflexivity|].
    destruct (decide (ty = HsiaFlow)); [reflexivity|].
    destruct (decide (ty = VoipFlow)); [reflexivity|].
    destruct (decide (ty = VodFlow)); [reflexivity|].
    destruct (decide (ty = MgmtFlow)); reflexivity. }
  destruct (decide (dir = Downstream)) as [->|Hd].
  - rewrite bool_decide_true by done.
    destruct (decide (ty = HsiaFlow)) as [->|]; [reflexivity|].
    destruct (decide (ty = VoipFlow)) as [->|];
      [rewrite play_assoc, play_GenerateMac_bind; reflexivity|].
    destruct (decide (ty = VodFlow)) as [->|];
      [rewrite play_assoc, play_GenerateMac_bind; reflexivity|].
    destruct (decide (ty = MgmtFlow)) as [->|];
      [rewrite play_assoc, play_GenerateMac_bind; reflexivity|].
    by rewrite !bool_decide_false.
  - by rewrite bool_decide_false.
Qed.

Lemma play_AddTtFlow_bind {A} (f : option GoError -> prog A) ty dir id gem pcp rep symmetric pb s :
  play (AddTtFlow subs ty dir id (sa_AllocId us) gem pcp rep symmetric pb ≫= f) s =
  let it := flow_of_call true ty dir gem pcp rep false pb in
  let '(mac, s') := if has_mac it then (mac_of s, after_mac s) else ([], s) in
  '(r, reqs, s'') ← play (f (reason_of (flow_item_verdict (s_rpc s' 0%nat)))) (pop_rpc s');
  Some (r, item_flow subs us it id symmetric mac :: reqs, s'').
Proof.
  rewrite play_bind. unfold AddTtFlow.
  pose (it := flow_of_call true ty dir gem pcp rep false pb).
  change ty with (fi_type it) at 1. change dir with (fi_dir it) at 1.
  rewrite play_FormatTt_bind by done. change (fi_type it) with ty. fold it.
  destruct (has_mac it); cbn -[tt_format mac_of after_mac];
    unfold item_flow; cbn -[tt_format mac_of after_mac];
    destruct (tt_format ty dir _) as [c a]; cbn -[mac_of after_mac]; rewrite (decide_not (pcp = 255)), flow_verdict_reason;
    by destruct (play (f _) _) as [[[??]?]|].
Qed.

(** ** Composition *)

Lemma refines_seq p q g1 g2 :
  refines p g1 -> refines q g2 -> refines (err ← p; when_nil err q) (g1 ++ g2).
Proof.
  intros Hp Hq prev s. rewrite play_bind, (Hp prev s), exec_plan_app.
  destruct (exec_plan subs tp us ds g1 prev s) as [[[reqs [c|]] prev'] s']; cbn.
  - by rewrite app_nil_r.
  - rewrite (Hq prev' s'). by destruct (exec_plan subs tp us ds g2 prev' s') as [[[??]?]?].
Qed.

Lemma refines_for_err {X} (l : list X) (body : X -> prog (option GoError))
    (groups : X -> list (list item)) :
  (forall x, x ∈ l -> refines (body x) (groups x)) ->
  refines (for_err l body) (x ← l; groups x).
Proof.
  induction l as [|x l IH]; intros Hb; [exact refines_nil|].
  change (refines (err ← body x; when_nil err (for_err l body)) (groups x ++ (x ← l; groups x))).
  apply refines_seq; [apply Hb, elem_of_cons; by left|].
  apply IH. intros y Hy. apply Hb, elem_of_cons. by right.
Qed.

(** ** The stages *)

Lemma refines_scheds :
  refines (err ← send_scheds subs Direction_DOWNSTREAM;
           when_nil err (send_scheds subs Direction_UPSTREAM))
    scheds_plan.
Proof. by apply (refines_seq _ _ [_] [_]); apply refines_send_scheds. Qed.

Lemma refines_queues :
  refines (err ← send_queues subs Direction_DOWNSTREAM;
           when_nil err (send_queues subs Direction_UPSTREAM))
    queues_plan.
Proof. by apply (refines_seq _ _ [_] [_]); apply refines_send_queues. Qed.

Lemma refines_mapped_flow ty dir :
  refines ('(allocID, gems) ← us_gems subs;
           let pbitToGem := build_pbitToGem gems in
           with_flow_id subs (fun flowID =>
           AddFlow subs ty dir flowID allocID 0 0xff true 0 pbitToGem))
    [[mapped_flow tp ty dir false]].
Proof.
  intros prev s. rewrite play_us_gems_bind, play_with_flow_id, <-play_bind_Ret.
  rewrite play_AddFlow_bind. cbn -[item_flow flow_item_verdict].
  by destruct (flow_item_verdict _).
Qed.

Lemma refines_hsia :
  refines ('(allocID, gems) ← us_gems subs;
           let pbitToGem := build_pbitToGem gems in
           with_flow_id subs (fun flowIDUs =>
           err ← AddFlow subs HsiaFlow Upstream flowIDUs allocID 0 0xff true 0 pbitToGem;
           when_nil err (
           with_flow_id subs (fun flowIDDs =>
           AddFlow subs HsiaFlow Downstream flowIDDs allocID 0 0xff true flowIDUs pbitToGem))))
    (hsia_plan tp).
Proof.
  intros prev s. rewrite play_us_gems_bind, play_with_flow_id, play_AddFlow_bind.
  cbn -[item_flow flow_item_verdict with_flow_id AddFlow].
  destruct (flow_item_verdict _) as [c|]; [done|].
  unfold when_nil, reason_of. cbn -[item_flow flow_item_verdict with_flow_id AddFlow].
  rewrite play_with_flow_id, <-play_bind_Ret, play_AddFlow_bind.
  cbn -[item_flow flow_item_verdict]. by destruct (flow_item_verdict _).
Qed.

(** A group of flows of the TT workflow. *)
Lemma refines_tt_service ty rest body :
  (forall g pcp, refines (body (sa_AllocId us) g pcp)
     [[pcp_flow true ty Upstream false (gp_GemportId g, pcp);
       pcp_flow true ty Downstream true (gp_GemportId g, pcp)]
      ++ ((fun f => f (gp_GemportId g, pcp)) <$> rest)]) ->
  refines ('(allocID, gems) ← us_gems subs;
           for_err gems (fun gem => for_err (pbit_pcps (gp_PbitMap gem)) (body allocID gem)))
    (tt_service tp ty rest).
Proof.
  intros Hb prev s. rewrite play_us_gems_bind.
  assert (tt_service tp ty rest =
    g ← UpstreamGemPortAttributeList tp; pcp ← pbit_pcps (gp_PbitMap g);
    [[pcp_flow true ty Upstream false (gp_GemportId g, pcp);
      pcp_flow true ty Downstream true (gp_GemportId g, pcp)]
      ++ ((fun f => f (gp_GemportId g, pcp)) <$> rest)]) as ->.
  { unfold tt_service, gem_pcps. induction (UpstreamGemPortAttributeList tp) as [|g l IH]; [done|].
    cbn. rewrite fmap_app. f_equal; [|exact IH].
    by induction (pbit_pcps (gp_PbitMap g)) as [|pcp l' IH']; cbn; [|f_equal]. }
  apply refines_for_err. intros g _. apply refines_for_err. intros pcp _. apply Hb.
Qed.

(** Run the flows of a group one after the other. *)
Ltac known_mac :=
  repeat match goal with
  | |- context [has_mac ?f] =>
      first [change (has_mac f) with false | change (has_mac f) with true]
  end.
Ltac play_flows :=
  unfold exec_plan, exec_group, item_request, pcp_flow, dhcp_item, igmp_item;
  repeat (first
    [ rewrite play_with_flow_id
    | rewrite play_AddTtFlow_bind
    | rewrite play_AddFlow_bind ];
    cbv beta zeta; known_mac;
    cbn -[item_flow flow_item_verdict has_mac AddTtFlow AddFlow with_flow_id mac_of after_mac]);
  repeat match goal with
  | |- context [flow_item_verdict ?e] => destruct (flow_item_verdict e)
  end; reflexivity.

Ltac tt_stage := apply refines_tt_service; intros g pcp prev s; play_flows.

Lemma refines_tt_hsia : refines (tt_ProvisionHsiaFlow subs) (tt_service tp HsiaFlow []).
Proof. tt_stage. Qed.
Lemma refines_tt_voip : refines (tt_ProvisionVoipFlow subs) (tt_service tp VoipFlow [dhcp_item]).
Proof. tt_stage. Qed.
Lemma refines_tt_vod :
  refines (tt_ProvisionVodFlow subs) (tt_service tp VodFlow [dhcp_item; igmp_item]).
Proof. tt_stage. Qed.
Lemma refines_tt_mgmt : refines (tt_ProvisionMgmtFlow subs) (tt_service tp MgmtFlow [dhcp_item]).
Proof. tt_stage. Qed.

(** ** The workflows *)

Lemma refines_stages (wf : WorkFlow) (groups : list (list (list item))) :
  Forall2 (fun stage g => refines (stage subs) g) (unicast_stages wf) groups ->
  refines (for_err (unicast_stages wf) (fun stage => stage subs)) (mjoin groups).
Proof.
  induction 1 as [|stage g stages groups Hs _ IH]; [exact refines_nil|].
  by apply refines_seq.
Qed.

Lemma refines_ATT :
  refines (for_err (unicast_stages AttWorkFlow) (fun stage => stage subs)) (att_plan tp).
Proof.
  apply (refines_stages AttWorkFlow
    [ scheds_plan; queues_plan; [[mapped_flow tp EapolFlow Upstream false]];
      [[mapped_flow tp DhcpFlowIPV4 Upstream false]]; []; []; hsia_plan tp; []; []; []]).
  repeat apply Forall2_cons_2; [..|by apply Forall2_nil_2].
  - exact refines_scheds.
  - exact refines_queues.
  - apply refines_mapped_flow.
  - apply refines_mapped_flow.
  - exact refines_nil.
  - exact refines_nil.
  - exact refines_hsia.
  - exact refines_nil.
  - exact refines_nil.
  - exact refines_nil.
Qed.

Lemma refines_DT :
  refines (for_err (unicast_stages DtWorkFlow) (fun stage => stage subs)) (dt_plan tp).
Proof.
  apply (refines_stages DtWorkFlow [ scheds_plan; queues_plan; []; []; []; []; hsia_plan tp; []; []; []]).
  repeat apply Forall2_cons_2; [..|by apply Forall2_nil_2].
  - exact refines_scheds.
  - exact refines_queues.
  - exact refines_nil.
  - exact refines_nil.
  - exact refines_nil.
  - exact refines_nil.
  - exact refines_hsia.
  - exact refines_nil.
  - exact refines_nil.
  - exact refines_nil.
Qed.

Lemma refines_TT :
  refines (for_err (unicast_stages TtWorkFlow) (fun stage => stage subs)) (tt_plan tp).
Proof.
  unfold tt_plan. rewrite <-(app_nil_r (tt_service tp MgmtFlow [dhcp_item])).
  apply (refines_stages TtWorkFlow [ scheds_plan; queues_plan; []; []; []; []; tt_service tp HsiaFlow [];
    tt_service tp VoipFlow [dhcp_item]; tt_service tp VodFlow [dhcp_item; igmp_item];
    tt_service tp MgmtFlow [dhcp_item] ]).
  repeat apply Forall2_cons_2; [..|by apply Forall2_nil_2].
  - exact refines_scheds.
  - exact refines_queues.
  - exact refines_nil.
  - exact refines_nil.
  - exact refines_nil.
  - exact refines_nil.
  - exact refines_tt_hsia.
  - exact refines_tt_voip.
  - exact refines_tt_vod.
  - exact refines_tt_mgmt.
Qed.

End refinement.

(** ** The whole of [DeployWorkflow] *)

(** The string stored in [subs.Reason]. *)
Definition reason_string (v : option ReasonCode) : string :=
  ReasonCodeToReasonString (default SUBSCRIBER_PROVISION_SUCCESS v).

Lemma refines_workflow subs tp us ds wf :
  provisionable subs tp us ds -> getWorkFlow subs = Some wf ->
  refines subs tp us ds (for_err (unicast_stages wf) (fun stage => stage subs))
    (plan_of tp (WorkflowName (TestConfig subs))).
Proof.
  intros Hpv. unfold getWorkFlow, plan_of.
  destruct (decide (_ = "ATT")); [intros [= <-]; by apply refines_ATT|].
  destruct (decide (_ = "DT")); [intros [= <-]; by apply refines_DT|].
  destruct (decide (_ = "TT")); [intros [= <-]; by apply refines_TT|done].
Qed.

Lemma play_deploy_reason subs tp us ds wf prev s :
  provisionable subs tp us ds -> getWorkFlow subs = Some wf ->
  play (deploy_reason wf subs false) s =
  let '(reqs, v, _, s') :=
    exec_plan subs tp us ds (plan_of tp (WorkflowName (TestConfig subs))) prev s in
  Some (inl (reason_string v), reqs, s').
Proof.
  intros Hpv Hwf. unfold deploy_reason.
  rewrite play_bind, (refines_workflow _ _ _ _ _ Hpv Hwf prev).
  destruct (exec_plan _ _ _ _ _ _ _) as [[[reqs [c|]] ?] ?]; cbn; by rewrite app_nil_r.
Qed.

Lemma deploy_local `{Env} subs tp us ds wf reqs reason :
  provisionable subs tp us ds -> getWorkFlow subs = Some wf ->
  local_steps (deploy_reason wf subs false) reqs (Ret reason) ->
  exists k v,
    reason = reason_string v
    /\ plan_requests subs tp us ds 0
         (mjoin (take k (plan_of tp (WorkflowName (TestConfig subs))))) reqs
    /\ plan_ends (plan_of tp (WorkflowName (TestConfig subs))) k v.
Proof.
  intros Hpv Hwf Hl. apply play_local in Hl as (s & s' & Hs).
  - rewrite (play_deploy_reason _ _ _ _ _ 0 _ Hpv Hwf) in Hs.
    pose proof (exec_plan_requests subs tp us ds
      (plan_of tp (WorkflowName (TestConfig subs))) 0 s) as Hr.
    destruct (exec_plan _ _ _ _ _ _ _) as [[[reqs' v] ?] ?]. injection Hs as <- <- <-.
    destruct Hr as (k & Hk & He). by exists k, v.
  - intros s. rewrite (play_deploy_reason _ _ _ _ _ 0 _ Hpv Hwf).
    by destruct (exec_plan _ _ _ _ _ _ _) as [[[??]?]?].
Qed.

(** The end of the goroutine sends nothing. *)
Lemma finish_deploy_sends `{Env} a subs reason reqs p :
  local_steps (finish_deploy a subs reason) reqs p -> reqs = [].
Proof.
  intros [[_ ->]|(x & w & w' & l & _ & [[_ ->]|(y & w1 & w2 & l' & _ & [[_ ->]|[]] & ->)] & ->)];
    done.
Qed.

(** ** Properties *)

(** The goroutines of two subscribers of one ONU, alternating. *)
Definition sample_pool (wf : WorkFlow) (s1 s2 : Subscriber) : list (prog unit) :=
  [ (reason ← deploy_reason wf s1 false; finish_deploy 0 s1 reason);
    (reason ← deploy_reason wf s2 false; finish_deploy 1 s2 reason) ].
Definition alternate (n : nat) : list nat := mjoin (replicate n [0; 1]%nat).

Definition sample_start (wf : string) : World (H := sample_env accepting) :=
  sample_world accepting 1 [sample_subs wf 0 1 0; sample_subs wf 0 1 1] [2].
Definition sample_run (wf : string) : config :=
  schedule (H := sample_env accepting)
    (Running (sample_pool (default AttWorkFlow (getWorkFlow (sample_subs wf 0 1 0)))
                (sample_subs wf 0 1 0) (sample_subs wf 0 1 1)) (sample_start wf))
    (alternate 200).

(** C1. For the ATT, DT and TT workflows, [DeployWorkflow] of a subscriber with
    a technology-profile instance behaves exactly as the reference execution of
    the workflow's plan, whatever flow ids, random numbers and answers it gets:
    the same requests, in the same order and with the same contents, the same
    use of ids and random numbers, and the same reason. *)
Theorem deploy_refines_plan (subs : Subscriber) (tp : TechProfileInstance)
    (us ds : SchedulerAttributes) (wf : WorkFlow) (prev : Z) (s : Streams) :
  provisionable subs tp us ds -> getWorkFlow subs = Some wf ->
  play (deploy_reason wf subs false) s =
  let '(reqs, v, _, s') :=
    exec_plan subs tp us ds (plan_of tp (WorkflowName (TestConfig subs))) prev s in
  Some (inl (reason_string v), reqs, s').
Proof. apply play_deploy_reason. Qed.

Lemma deploy_refines_plan_witness :
  let subs := sample_subs "TT" 0 1 0 in
  let s := {| s_flow := fun n => Z.of_nat n + 1; s_rpc := fun _ => None;
              s_rand := fun n => Z.of_nat n |} in
  play (deploy_reason TtWorkFlow subs false) s =
  let '(reqs, v, _, s') :=
    exec_plan subs sample_tp (sample_sched Direction_UPSTREAM)
      (sample_sched Direction_DOWNSTREAM) (plan_of sample_tp "TT") 0 s in
  Some (inl (reason_string v), reqs, s').
Proof.
  intros subs s. apply (deploy_refines_plan subs); [|reflexivity].
  split; [|reflexivity..]. exists 64. split; reflexivity.
Defined.

(** C12. Under every interleaving with the other goroutines, a workflow goroutine
    that has finished has sent a prefix of its plan made of whole groups, each
    request with its contents, every downstream flow naming the upstream flow
    it belongs to, and has recorded why it stopped: success exactly when the
    plan is complete, otherwise the reason of an item of the last group sent. *)
Theorem deploy_interleaved `{Env} (pool pool' : list (prog unit)) (w w' : World) (i a : nat)
    (subs : Subscriber) (tp : TechProfileInstance) (us ds : SchedulerAttributes)
    (wf : WorkFlow) :
  provisionable subs tp us ds -> getWorkFlow subs = Some wf ->
  pool !! i = Some (reason ← deploy_reason wf subs false; finish_deploy a subs reason) ->
  steps (Running pool w) (Running pool' w') -> pool' !! i = Some (Ret tt) ->
  exists k v reqs new,
    w_trace w' = w_trace w ++ new /\ reqs `sublist_of` new
    /\ plan_requests subs tp us ds 0
         (mjoin (take k (plan_of tp (WorkflowName (TestConfig subs))))) reqs
    /\ plan_ends (plan_of tp (WorkflowName (TestConfig subs))) k v
    /\ local_steps (finish_deploy a subs (reason_string v)) [] (Ret tt).
Proof.
  intros Hpv Hwf Hi Hs Hi'.
  destruct (steps_local _ _ _ _ _ _ Hs Hi) as (p' & reqs & new & Hp' & Hl & Ht & Hsub).
  rewrite Hi' in Hp'. injection Hp' as <-.
  destruct (local_bind _ _ _ _ Hl) as [(q & Hq & Hl')|(r & r1 & r2 & H1 & H2 & ->)].
  - exfalso. by destruct q.
  - assert (r2 = []) as -> by by eapply finish_deploy_sends.
    rewrite app_nil_r in Hsub.
    destruct (deploy_local _ _ _ _ _ _ _ Hpv Hwf H1) as (k & v & -> & Hk & He).
    by exists k, v, r1, new.
Qed.

Lemma deploy_interleaved_witness :
  exists k v reqs new,
    w_trace (world_of (sample_start "ATT") (sample_run "ATT")) = [] ++ new
    /\ reqs `sublist_of` new
    /\ plan_requests (sample_subs "ATT" 0 1 1) sample_tp (sample_sched Direction_UPSTREAM)
         (sample_sched Direction_DOWNSTREAM) 0 (mjoin (take k (plan_of sample_tp "ATT"))) reqs
    /\ plan_ends (plan_of sample_tp "ATT") k v
    /\ local_steps (H := sample_env accepting)
         (finish_deploy 1 (sample_subs "ATT" 0 1 1) (reason_string v)) [] (Ret tt).
Proof.
  eapply (deploy_interleaved (H := sample_env accepting)
    (sample_pool AttWorkFlow (sample_subs "ATT" 0 1 0) (sample_subs "ATT" 0 1 1))
    (pool_of (sample_run "ATT")) (sample_start "ATT")
    (world_of (sample_start "ATT") (sample_run "ATT")) 1 1 (sample_subs "ATT" 0 1 1)).
  - split; [|reflexivity..]. exists 64. split; reflexivity.
  - reflexivity.
  - reflexivity.
  - assert (Running (pool_of (sample_run "ATT")) (world_of (sample_start "ATT") (sample_run "ATT"))
      = sample_run "ATT") as -> by (vm_compute; reflexivity).
    apply schedule_steps.
  - vm_compute. reflexivity.
Defined.
