(* ===== verification/Termination.v ===== *)
(** * Every interleaving ends

    A step of a goroutine leaves a strictly smaller program, and the goroutines
    it starts are parts of it: by a multiset argument on the pool, no schedule
    is infinite, whatever the agent, the store and the scheduler do. *)
From S2P Require Import Prelude Utils Proto Config Runtime Samples OltManager.

(** ** Inevitability *)

(** [P] comes to hold in every execution from [c], whatever the scheduler: [P]
    holds, or something can move and every move leads closer. *)
Inductive inevitable {S : Type} (R : S -> S -> Prop) (P : S -> Prop) (c : S) : Prop :=
  | in_now : P c -> inevitable R P c
  | in_later : (exists c', R c c') -> (forall c', R c c' -> inevitable R P c') -> inevitable R P c.

(** Where executions are finite, an invariant whose stuck states satisfy [P]
    makes [P] inevitable. *)
Lemma inevitable_stuck {S : Type} (R : S -> S -> Prop) (I P : S -> Prop) :
  (forall c, Acc (fun c' c => R c c') c) ->
  (forall c, (exists c', R c c') \/ (forall c', ~ R c c')) ->
  (forall c c', I c -> R c c' -> I c') ->
  (forall c, I c -> (forall c', ~ R c c') -> P c) ->
  forall c, I c -> inevitable R P c.
Proof.
  intros Hwf Hmove HI HP c. induction (Hwf c) as [c _ IH]. intros Hc.
  destruct (Hmove c) as [Hs|Hs]; [|by apply in_now, HP].
  apply in_later; [done|]. intros c' Hc'. apply IH; [done|by eapply HI].
Qed.

(** ** Programs get smaller *)

(** [q] is what remains of [p] after one operation, or a goroutine [p] starts. *)
Definition part (q p : prog unit) : Prop :=
  match p with
  | Do o k => exists x, q = k x
  | Go c k => q = c \/ q = k
  | _ => False
  end.

Lemma part_wf : forall p : prog unit, Acc part p.
Proof.
  fix IH 1. intros p. constructor. intros q Hq. destruct p as [a|r|X o k|c k]; cbn in Hq.
  - destruct Hq.
  - destruct Hq.
  - destruct Hq as [x ->]. apply IH.
  - destruct Hq as [->| ->]; apply IH.
Qed.

(** One goroutine of the pool is replaced by parts of it. *)
Definition smaller (l' l : list (prog unit)) : Prop :=
  exists p l0 ps, l ≡ₚ p :: l0 /\ l' ≡ₚ ps ++ l0 /\ Forall (fun q => part q p) ps.

Lemma smaller_perm l1 l2 : l1 ≡ₚ l2 -> Acc smaller l1 -> Acc smaller l2.
Proof.
  intros Hp [Ha]. constructor. intros l' (p & l0 & ps & H1 & H2 & H3).
  apply Ha. exists p, l0, ps. by rewrite Hp.
Qed.

Lemma smaller_app ps l :
  Forall (fun q => forall l, Acc smaller l -> Acc smaller (q :: l)) ps ->
  Acc smaller l -> Acc smaller (ps ++ l).
Proof. induction 1 as [|q ps Hq _ IH]; intros Hl; cbn; [done|]. by apply Hq, IH. Qed.

Lemma smaller_cons p : forall l, Acc smaller l -> Acc smaller (p :: l).
Proof.
  induction (part_wf p) as [p _ IHp]. intros l Hl. induction Hl as [l Hl IHl].
  constructor. intros l' (q & l0 & ps & H1 & H2 & H3).
  destruct (Permutation_vs_cons_inv H1) as (l1 & l2 & Heq).
  assert (l0 ≡ₚ l1 ++ l2) as Hl0.
  { rewrite Heq in H1. rewrite <-Permutation_middle in H1. by apply (inj (cons q)) in H1. }
  destruct l1 as [|p' l1]; cbn in Heq; injection Heq as -> ->.
  - apply (smaller_perm (ps ++ l2)); [by rewrite H2, Hl0|].
    apply smaller_app; [|by constructor].
    eapply Forall_impl; [exact H3|]. intros r Hr. by apply IHp.
  - apply (smaller_perm (p' :: ps ++ l1 ++ l2)).
    + rewrite H2, Hl0. cbn. by rewrite Permutation_middle.
    + apply IHl. exists q, (l1 ++ l2), ps. split_and!; [by rewrite Permutation_middle|done..].
Qed.

Lemma smaller_wf l : Acc smaller l.
Proof.
  induction l as [|p l IH]; [|by apply smaller_cons].
  constructor. intros l' (p & l0 & ps & H1 & _). by apply Permutation_nil_cons in H1.
Qed.

Section steps.
Context `{Env}.

Lemma thread_step_parts p w p' w' spawned :
  thread_step p w = TNext p' w' spawned -> Forall (fun q => part q p) (p' :: spawned).
Proof.
  destruct p as [a|r|X o k|c k]; cbn; [done..| |].
  - destruct (exec o w); [|done..]. intros [= <- <- <-]. constructor; [by eexists|constructor].
  - intros [= <- <- <-].
    apply Forall_cons_2; [by right|]. apply Forall_cons_2; [by left|done].
Qed.

Lemma step_smaller pool w pool' w' :
  step (Running pool w) (Running pool' w') -> smaller pool' pool.
Proof.
  intros Hs. inversion Hs as [? ? i p p' ? spawned Hi Hp|]; subst.
  apply thread_step_parts in Hp.
  exists p, (delete i pool), (p' :: spawned). split_and!; [by apply delete_Permutation| |done].
  apply list_elem_of_split_length in Hi as (l1 & l2 & -> & ->).
  rewrite insert_app_r_alt, Nat.sub_diag by lia. cbn.
  rewrite delete_middle, <-!app_assoc. cbn. rewrite <-Permutation_middle. f_equiv.
  rewrite app_assoc. by rewrite Permutation_app_comm.
Qed.

Lemma step_wf c : Acc (fun c' c => step c c') c.
Proof.
  destruct c as [pool w|r].
  - revert w. induction (smaller_wf pool) as [pool _ IH]. intros w. constructor. intros c Hs.
    destruct c as [pool' w'|r]; [by apply step_smaller in Hs; apply IH|].
    constructor. intros c' Hs'. inversion Hs'.
  - constructor. intros c' Hs'. inversion Hs'.
Qed.

Lemma thread_moves p w :
  (forall i pool, pool !! i = Some p -> exists c', step (Running pool w) c')
  \/ (forall p' w' sp, thread_step p w <> TNext p' w' sp) /\ (forall r, thread_step p w <> TCrash r).
Proof.
  destruct (thread_step p w) as [p' w' sp| | |r] eqn:Hp; [left|right; done|right; done|left];
    intros i pool Hi; eexists; by econstructor.
Qed.

Lemma can_step c : (exists c', step c c') \/ (forall c', ~ step c c').
Proof.
  destruct c as [pool w|r]; [|by right; intros c' Hs; inversion Hs].
  assert (forall l, (forall p, p ∈ l -> p ∈ pool) ->
    (exists c', step (Running pool w) c')
    \/ Forall (fun p => (forall p' w' sp, thread_step p w <> TNext p' w' sp)
                        /\ (forall r, thread_step p w <> TCrash r)) l) as Hl.
  { induction l as [|p l IH]; intros Hin; [by right|].
    destruct (thread_moves p w) as [Hm|Hm].
    - left. destruct (list_elem_of_lookup_1 pool p) as [i Hi]; [apply Hin, elem_of_cons; by left|].
      by apply (Hm i).
    - destruct IH as [?|IH]; [|by left|by right; constructor].
      intros q Hq. apply Hin, elem_of_cons. by right. }
  destruct (Hl pool) as [?|Hno]; [done|by left|right]. intros c' Hs.
  rewrite Forall_forall in Hno.
  inversion Hs as [? ? i p p' w' sp Hi Hp|? ? i p r Hi Hp]; subst;
    destruct (Hno p) as [H1 H2]; try (by eapply list_elem_of_lookup_2); [by eapply H1|by eapply H2].
Qed.

Definition eventually (P : Runtime.config -> Prop) (c : Runtime.config) : Prop := inevitable step P c.

Lemma eventually_stuck (I P : Runtime.config -> Prop) :
  (forall c c', I c -> step c c' -> I c') ->
  (forall c, I c -> (forall c', ~ step c c') -> P c) ->
  forall c, I c -> eventually P c.
Proof. apply inevitable_stuck; [apply step_wf|apply can_step]. Qed.

End steps.
