(* ===== verification/WaitGroups.v ===== *)
(** * WaitGroups: no goroutine waits for ever, none panics

    A logic for the goroutines of the program.  A judgement [wp p S D O Q] says
    that [p] runs without panic on every store its environment may leave, where
    - [S] bounds what exists: the number of WaitGroups, of ONU objects, and keys
      the ONU map holds;
    - [D], a multiset of WaitGroups, is what [p] owes: one [Done] on each;
    - [O] is the subscriber object [p] alone may use, with its contents.
    [inv] gives a judgement to every goroutine of a pool: each counter is the
    number of [Done]s the goroutines owe together.  A goroutine may only wait on
    a WaitGroup above every WaitGroup it owes, so that waits cannot form a
    cycle. *)
From stdpp Require Import gmultiset.
From S2P Require Import Prelude Utils Proto Config Runtime Play Samples TechProfile ResourceManager WorkflowUtils AttWorkflow DtWorkflow TtWorkflow WorkflowManager SubscriberManager OnuManager OltManager Termination.

(** ** Judgements *)

Record bounds := { b_wgs : nat; b_onus : nat; b_keys : gset OnuDeviceKey }.

Definition bounds_le (S S' : bounds) : Prop :=
  (b_wgs S <= b_wgs S')%nat /\ (b_onus S <= b_onus S')%nat /\ b_keys S ⊆ b_keys S'.
Infix "⊑b" := bounds_le (at level 70).

#[export] Instance bounds_le_preorder : PreOrder bounds_le.
Proof.
  split; [intros x; split_and!; [lia..|done]|]. intros x y z (? & ? & ?) (? & ? & ?).
  split_and!; [lia..|]. by etrans.
Qed.

Abbreviation debt := (gmultiset nat).
Abbreviation owned := (option (nat * Subscriber)).

(** A technology-profile instance with both schedulers. *)
Definition tp_ok (tp : TechProfileInstance) : Prop :=
  is_Some (UsScheduler tp) /\ is_Some (DsScheduler tp).

Section logic.
Context `{Env}.
Variables (cfg : OpenOltScaleTesterConfig) (mgrs : nat) (W : nat).

(** What every ONU object satisfies: it reports to the WaitGroup [W]. *)
Definition onu_ok (d : OnuDevice) : Prop :=
  onu_testConfig d = cfg /\ (onu_rsrMgr d < mgrs)%nat /\ onu_onuWg d = W.

Definition op_wp {X} (o : Op X) (S : bounds) (D : debt) (O : owned)
    (K : X -> bounds -> debt -> owned -> Prop) : Prop :=
  match o in Op X return (X -> bounds -> debt -> owned -> Prop) -> Prop with
  | OpRpc r => fun K => forall S' err, S ⊑b S' ->
      (forall onu, r = RpcActivateOnu onu -> err = None) -> K err S' D O
  | OpRandIntn _ => fun K => forall S' v, S ⊑b S' -> K v S' D O
  | OpNow => fun K => forall S' v, S ⊑b S' -> K v S' D O
  | OpGetFlowID m => fun K => (m < mgrs)%nat /\ forall S' v, S ⊑b S' -> K v S' D O
  | OpDeviceInfo m => fun K => (m < mgrs)%nat /\
      forall S' di, S ⊑b S' -> di_PonPorts di <> 0 -> K di S' D O
  | OpIndexRsrMgr i => fun K => 0 <= i < Z.of_nat mgrs /\
      forall S', S ⊑b S' -> K (Z.to_nat i) S' D O
  | OpGetResourceID m _ _ _ => fun K => (m < mgrs)%nat /\
      forall S' ids err, S ⊑b S' -> (err = None -> ids <> []) -> K (ids, err) S' D O
  | OpCreateTechProfileInstance m _ _ _ => fun K => (m < mgrs)%nat /\
      forall S' inst, S ⊑b S' -> tp_ok inst -> K (Some inst, None) S' D O
  | OpGenerateSerial => fun K => forall S' g, S ⊑b S' -> 1000 <= vendorSpecificId g ->
      K (GenerateNextONUSerialNumber g).1 S' D O
  | OpGetCtag _ _ => fun K => forall S' v, S ⊑b S' -> K v S' D O
  | OpGetStag _ _ _ _ => fun K => forall S' v, S ⊑b S' -> K v S' D O
  | OpLoadLastPonIntf => fun K => forall S' v, S ⊑b S' -> K v S' D O
  | OpAddLastPonIntf _ => fun K => forall S' v, S ⊑b S' -> K v S' D O
  | OpNewWg => fun K => forall S' g, S ⊑b S' -> (b_wgs S <= g < b_wgs S')%nat -> K g S' D O
  | OpWgAdd g d => fun K => (g < b_wgs S)%nat /\
      ((d = 1 /\ forall S', S ⊑b S' -> K tt S' ({[+ g +]} ⊎ D) O)
       \/ (d = -1 /\ exists D', D = {[+ g +]} ⊎ D' /\ forall S', S ⊑b S' -> K tt S' D' O))
  | OpWgWait g => fun K => (g < b_wgs S)%nat /\ (forall h, h ∈ D -> (h < g)%nat) /\
      forall S', S ⊑b S' -> K tt S' D O
  | OpNewOnu d => fun K => onu_ok d /\
      forall S' a, S ⊑b S' -> (a < b_onus S')%nat -> K a S' D O
  | OpLoadOnu a => fun K => (a < b_onus S)%nat /\
      forall S' d, S ⊑b S' -> onu_ok d -> K d S' D O
  | OpStoreOnu a d => fun K => onu_ok d /\ forall S', S ⊑b S' -> K tt S' D O
  | OpSetOnuMap k a => fun K => (a < b_onus S)%nat /\
      forall S', S ⊑b S' -> k ∈ b_keys S' -> K tt S' D O
  | OpGetOnuMap k => fun K => k ∈ b_keys S /\
      forall S' a, S ⊑b S' -> (a < b_onus S')%nat -> K a S' D O
  | OpNewSub s => fun K => O = None /\ forall S' a, S ⊑b S' -> K a S' D (Some (a, s))
  | OpLoadSub a => fun K => exists s, O = Some (a, s) /\ forall S', S ⊑b S' -> K s S' D O
  | OpStoreSub a s => fun K => exists s0, O = Some (a, s0) /\
      forall S', S ⊑b S' -> K tt S' D (Some (a, s))
  | OpKillSelf => fun K => forall S', S ⊑b S' -> K tt S' D O
  end K.

Definition paid {A : Type} : A -> bounds -> debt -> owned -> Prop := fun _ _ D _ => D = ∅.

Fixpoint wp {A : Type} (p : prog A) (S : bounds) (D : debt) (O : owned)
    (Q : A -> bounds -> debt -> owned -> Prop) : Prop :=
  (forall g, g ∈ D -> (g < b_wgs S)%nat) /\
  match p with
  | Ret a => Q a S D O
  | Panic _ => False
  | Do o k => op_wp o S D O (fun x S' D' O' => wp (k x) S' D' O' Q)
  | Go c k =>
      exists Dc Dk Oc Ok, D = Dc ⊎ Dk /\ ((Oc = O /\ Ok = None) \/ (Oc = None /\ Ok = O))
        /\ wp c S Dc Oc paid /\ wp k S Dk Ok Q
  end.

Lemma op_wp_mono {X} (o : Op X) S S' D O K K' :
  op_wp o S D O K -> S ⊑b S' -> (forall x S1 D1 O1, K x S1 D1 O1 -> K' x S1 D1 O1) ->
  op_wp o S' D O K'.
Proof.
  intros Ho HS HK. pose proof HS as (Hw & Hn & Hk).
  assert (forall S1, S' ⊑b S1 -> S ⊑b S1) as Htr by (intros S1 HS1; by etrans).
  destruct o; cbn in *.
  all: try (by eauto).
  all: try (destruct Ho as [H1 Ho]; split; [try done; try lia; try (by apply Hk)|by eauto]).
  - intros S1 g HS1 Hg. apply HK, Ho; [by apply Htr|lia].
  - destruct Ho as [H1 [[-> Ho]|(-> & D' & -> & Ho)]]; split; [lia| |lia|].
    + left. split; [done|]. intros S1 HS1. by apply HK, Ho, Htr.
    + right. split; [done|]. exists D'. split; [done|]. intros S1 HS1. by apply HK, Ho, Htr.
  - destruct Ho as (H1 & H2 & Ho). split_and!; [lia|done|by eauto].
  - destruct Ho as (s & -> & Ho). exists s. split; [done|by eauto].
  - destruct Ho as (s0 & -> & Ho). exists s0. split; [done|by eauto].
Qed.

Lemma wp_mono {A} (p : prog A) S S' D O Q Q' :
  wp p S D O Q -> S ⊑b S' ->
  (forall a S1 S2 D1 O1, Q a S1 D1 O1 -> S1 ⊑b S2 -> Q' a S2 D1 O1) ->
  wp p S' D O Q'.
Proof.
  revert S S' D O. induction p as [A a|A r|A X o k IH|A c IHc k IHk]; intros S S' D O [Hd Hp] HS HQ;
    (split; [intros g Hg; destruct HS; specialize (Hd g Hg); lia|]).
  - by eapply HQ.
  - done.
  - eapply op_wp_mono; [exact Hp|done|]. intros x S1 D1 O1 Hk.
    eapply IH; [exact Hk|reflexivity|done].
  - destruct Hp as (Dc & Dk & Oc & Ok & -> & HO & Hc & Hk).
    exists Dc, Dk, Oc, Ok. split_and!; [done..| |].
    + eapply IHc; [exact Hc|done|]. by intros [] S1 S2 D1 O1 H1 _.
    + by eapply IHk.
Qed.

Lemma wp_bind {A B} (p : prog A) (f : A -> prog B) S D O Q :
  wp p S D O (fun a S' D' O' => wp (f a) S' D' O' Q) -> wp (p ≫= f) S D O Q.
Proof.
  revert S D O. induction p as [A a|A r|A X o k IH|A c _ k IH]; intros S D O [Hd Hp].
  - exact Hp.
  - done.
  - split; [done|]. eapply op_wp_mono; [exact Hp|reflexivity|]. intros. by apply IH.
  - split; [done|]. destruct Hp as (Dc & Dk & Oc & Ok & -> & HO & Hc & Hk).
    exists Dc, Dk, Oc, Ok. split_and!; [done..|]. by apply IH.
Qed.

Lemma wp_debts {A} (p : prog A) S D O Q g : wp p S D O Q -> g ∈ D -> (g < b_wgs S)%nat.
Proof. destruct p; intros [Hd _]; apply Hd. Qed.

(** ** The store *)

Definition bounds_of (w : World) : bounds :=
  {| b_wgs := length (w_wgs w); b_onus := length (w_onus w); b_keys := dom (w_onuMap w) |}.

Record world_ok (w : World) : Prop := {
  wo_mgrs : length (w_rsrMgr w) = mgrs;
  wo_mgr : forall m r, w_rsrMgr w !! m = Some r ->
             exists r', r = Some r' /\ di_PonPorts (rm_deviceInfo r') <> 0;
  wo_onus : forall a d, w_onus w !! a = Some d -> onu_ok d;
  wo_serial : 1000 <= vendorSpecificId (w_globals w);
  wo_map : forall k a, w_onuMap w !! k = Some a -> (a < length (w_onus w))%nat;
}.

(** The agent and the technology-profile manager do not fail: every ONU is
    activated, an id request without error gives an id, and every profile
    instance is created, with its schedulers.  Flow, scheduler and queue
    requests may have any answer. *)
Record good_env : Prop := {
  ge_activate : forall tr onu, (device tr (RpcActivateOnu onu)).1 = OK;
  ge_ids : forall m intf t n st,
    (tp_GetResourceID m intf t n st).1.2 = None -> (tp_GetResourceID m intf t n st).1.1 <> [];
  ge_tp : forall m tpID name intf st, exists inst,
    (tp_CreateTechProfileInstance m tpID name intf st).1 = inr (Some inst, None) /\ tp_ok inst;
}.

Definition counter (w : World) (g : nat) : Z := default 0 (w_wgs w !! g).

(** The effect of an operation of a goroutine that owes [D] and owns [O]. *)
Record effect (w w' : World) (D D' : debt) (O O' : owned) : Prop := {
  ef_ok : world_ok w';
  ef_bounds : bounds_of w ⊑b bounds_of w';
  ef_debt : forall g, (counter w' g - Z.of_nat (multiplicity g D')
                       = counter w g - Z.of_nat (multiplicity g D));
  ef_own : forall a s, O' = Some (a, s) -> w_subs w' !! a = Some s;
  ef_frame : forall a s, w_subs w !! a = Some s ->
               (exists s0, O = Some (a, s0)) \/ w_subs w' !! a = Some s;
  ef_addr : forall a s, O' = Some (a, s) ->
              (exists s0, O = Some (a, s0)) \/ w_subs w !! a = None;
}.

(** Most operations touch neither WaitGroups nor subscribers. *)
Lemma effect_frame w w' D O :
  world_ok w' -> bounds_of w ⊑b bounds_of w' -> w_wgs w' = w_wgs w -> w_subs w' = w_subs w ->
  (forall a s, O = Some (a, s) -> w_subs w !! a = Some s) ->
  effect w w' D D O O.
Proof.
  intros Hok Hb Hg Hs HO. split; [done..| | | |].
  - intros g. unfold counter. by rewrite Hg.
  - intros a s. rewrite Hs. apply HO.
  - intros a s. rewrite Hs. by right.
  - intros a s Ha. left. by exists s.
Qed.

Lemma bounds_same w w' :
  length (w_wgs w') = length (w_wgs w) -> length (w_onus w') = length (w_onus w) ->
  w_onuMap w' = w_onuMap w -> bounds_of w ⊑b bounds_of w'.
Proof.
  intros H1 H2 H3. split_and!; cbn; [by rewrite H1|by rewrite H2|by rewrite H3].
Qed.

Lemma world_ok_mgr w m : world_ok w -> (m < mgrs)%nat ->
  exists r, w_rsrMgr w !! m = Some (Some r) /\ di_PonPorts (rm_deviceInfo r) <> 0.
Proof.
  intros Hok Hm. destruct (lookup_lt_is_Some_2 (w_rsrMgr w) m) as [r Hr].
  { by rewrite (wo_mgrs w Hok). }
  destruct (wo_mgr w Hok m r Hr) as (r' & -> & Hd). by exists r'.
Qed.

Lemma counter_insert w g c h :
  (g < length (w_wgs w))%nat ->
  counter (set_wgs (<[g := c]> (w_wgs w)) w) h = if decide (h = g) then c else counter w h.
Proof.
  intros Hg. unfold counter. cbn. case_decide as Hh.
  - subst. by rewrite list_lookup_insert_eq.
  - by rewrite list_lookup_insert_ne.
Qed.

Definition exec_ok {X} (o : Op X) (w : World) (D : debt) (O : owned)
    (K : X -> bounds -> debt -> owned -> Prop) : Prop :=
  (exists x w' D' O', exec o w = Done x w' /\ K x (bounds_of w') D' O' /\ effect w w' D D' O O')
  \/ (exec o w = Blocked /\ exists g, (forall h, h ∈ D -> (h < g)%nat) /\ counter w g <> 0).

Lemma exec_ok_frame {X} (o : Op X) w D O K x w' :
  world_ok w -> (forall a s, O = Some (a, s) -> w_subs w !! a = Some s) ->
  exec o w = Done x w' ->
  (1000 <= vendorSpecificId (w_globals w) -> 1000 <= vendorSpecificId (w_globals w')) ->
  w_rsrMgr w' = w_rsrMgr w -> w_onus w' = w_onus w -> w_onuMap w' = w_onuMap w ->
  w_wgs w' = w_wgs w -> w_subs w' = w_subs w ->
  (bounds_of w ⊑b bounds_of w' -> K x (bounds_of w') D O) -> exec_ok o w D O K.
Proof.
  intros Hok HO Ho Hv Hm Hn Hk Hg Hs HK.
  assert (bounds_of w ⊑b bounds_of w') as Hb by (apply bounds_same; congruence).
  left. exists x, w', D, O. split_and!; [done|by apply HK|]. apply effect_frame; try done.
  destruct Hok as [H1 H2 H3 H4 H5]. split; rewrite ?Hm, ?Hn, ?Hk; auto.
Qed.

(** What the invariant of the pool says of one goroutine. *)
Record thread_ok (w : World) (D : debt) (O : owned) : Prop := {
  to_world : world_ok w;
  to_own : forall a s, O = Some (a, s) -> w_subs w !! a = Some s;
  to_debt : forall g, Z.of_nat (multiplicity g D) <= counter w g;
}.

Lemma exec_ok_wg_add w D O g d K :
  thread_ok w D O -> op_wp (OpWgAdd g d) (bounds_of w) D O K -> exec_ok (OpWgAdd g d) w D O K.
Proof.
  intros [Hok HO HD] [Hg Hd]. cbn in Hg.
  destruct (lookup_lt_is_Some_2 _ _ Hg) as [c Hc].
  assert (counter w g = c) as Hcg by (unfold counter; by rewrite Hc).
  set (w' := set_wgs (<[g := c + d]> (w_wgs w)) w).
  assert (forall h, counter w' h = if decide (h = g) then c + d else counter w h) as Hcnt
    by (intros h; by apply counter_insert).
  assert (bounds_of w ⊑b bounds_of w') as Hb by (apply bounds_same; cbn; [by rewrite length_insert|done..]).
  assert (world_ok w') as Hok' by (destruct Hok; by split).
  assert (forall D', 0 <= c + d ->
    (forall h, Z.of_nat (multiplicity h D') = Z.of_nat (multiplicity h D) + (if decide (h = g) then d else 0)) ->
    exec (OpWgAdd g d) w = Done tt w' /\ effect w w' D D' O O) as Heff.
  { intros D' Hcd HD'. split.
    - unfold exec, wg_add. rewrite Hc. by assert ((c + d <? 0) = false) as -> by lia.
    - split; [done..| | | |].
      + intros h. rewrite Hcnt, HD'. case_decide; subst; lia.
      + intros a s0 Ha. cbn. by apply HO.
      + intros a s0 Ha. by right.
      + intros a s0 Ha. left. by exists s0. }
  pose proof (HD g) as HDg. left.
  destruct Hd as [[-> HK]|(-> & D' & -> & HK)].
  - destruct (Heff ({[+ g +]} ⊎ D)) as [H1 H2]; [lia| |].
    { intros h. rewrite multiplicity_disj_union, multiplicity_singleton. case_decide; lia. }
    exists tt, w', ({[+ g +]} ⊎ D), O. split_and!; [done|by apply HK|done].
  - rewrite multiplicity_disj_union, multiplicity_singleton, decide_True in HDg by done.
    destruct (Heff D') as [H1 H2]; [lia| |].
    { intros h. rewrite multiplicity_disj_union, multiplicity_singleton. case_decide; lia. }
    exists tt, w', D', O. split_and!; [done|by apply HK|done].
Qed.

Lemma exec_ok_new_wg w D O K :
  thread_ok w D O -> op_wp OpNewWg (bounds_of w) D O K -> exec_ok OpNewWg w D O K.
Proof.
  intros [Hok HO HD] HK. left.
  set (w' := set_wgs (w_wgs w ++ [0]) w).
  assert (bounds_of w ⊑b bounds_of w') as Hb.
  { split_and!; cbn; rewrite ?length_app; [lia..|done]. }
  exists (length (w_wgs w)), w', D, O. split_and!; [done| |].
  - apply HK; [done|]. cbn. rewrite length_app. cbn. lia.
  - split; [by destruct Hok; split|done| | | |].
    + intros g. f_equal. unfold counter. cbn.
      destruct (decide (g < length (w_wgs w))%nat) as [Hg|Hg].
      * by rewrite lookup_app_l.
      * rewrite (lookup_ge_None_2 (w_wgs w)) by lia.
        destruct (decide (g = length (w_wgs w))) as [->|Hne].
        -- by rewrite lookup_app_r, Nat.sub_diag.
        -- rewrite lookup_ge_None_2; [done|]. rewrite length_app. cbn. lia.
    + intros a s0 Ha. by apply HO.
    + intros a s0 Ha. by right.
    + intros a s0 Ha. left. by exists s0.
Qed.

Lemma exec_ok_onus {X} (o : Op X) w D O (K : X -> bounds -> debt -> owned -> Prop) x w' :
  thread_ok w D O -> exec o w = Done x w' ->
  w_globals w' = w_globals w ->
  w_rsrMgr w' = w_rsrMgr w -> w_wgs w' = w_wgs w -> w_subs w' = w_subs w ->
  (length (w_onus w) <= length (w_onus w'))%nat ->
  dom (w_onuMap w) ⊆ dom (w_onuMap w') ->
  (forall a d, w_onus w' !! a = Some d -> onu_ok d) ->
  (forall k a, w_onuMap w' !! k = Some a -> (a < length (w_onus w'))%nat) ->
  (bounds_of w ⊑b bounds_of w' -> K x (bounds_of w') D O) -> exec_ok o w D O K.
Proof.
  intros [Hok HO HD] Ho Hv Hm Hg Hs Hl Hdom Honu Hmap HK.
  assert (bounds_of w ⊑b bounds_of w') as Hb by (split_and!; cbn; [by rewrite Hg|done..]).
  left. exists x, w', D, O. split_and!; [done|by apply HK|].
  apply effect_frame; try done. destruct Hok as [H1 H2 H3 H4 H5]. split; rewrite ?Hm, ?Hv; done.
Qed.
Lemma exec_ok_new_sub w D O s K :
  thread_ok w D O -> op_wp (OpNewSub s) (bounds_of w) D O K -> exec_ok (OpNewSub s) w D O K.
Proof.
  intros [Hok HO HD] [-> HK]. left.
  set (w' := set_subs (w_subs w ++ [s]) w).
  exists (length (w_subs w)), w', D, (Some (length (w_subs w), s)).
  split_and!; [done|by apply HK|]. split; [by destruct Hok; split|done|done| | |].
  - intros a s0 [= <- <-]. cbn. by apply list_lookup_middle.
  - intros a s0 Ha. right. cbn. rewrite lookup_app_l; [done|by eapply lookup_lt_Some].
  - intros a s0 [= <- <-]. right. by apply lookup_ge_None_2.
Qed.

Lemma exec_ok_store_sub w D O a s K :
  thread_ok w D O -> op_wp (OpStoreSub a s) (bounds_of w) D O K -> exec_ok (OpStoreSub a s) w D O K.
Proof.
  intros [Hok HO HD] (s0 & -> & HK). left.
  assert (a < length (w_subs w))%nat as Ha by (eapply lookup_lt_Some; by apply HO).
  set (w' := set_subs (<[a := s]> (w_subs w)) w).
  exists tt, w', D, (Some (a, s)).
  split_and!; [done|by apply HK|]. split; [by destruct Hok; split|done|done| | |].
  - intros a' s' [= <- <-]. cbn. by apply list_lookup_insert_eq.
  - intros a' s' Ha'. destruct (decide (a = a')) as [<-|Hne]; [left; by exists s0|right].
    cbn. by rewrite list_lookup_insert_ne.
  - intros a' s' [= <- <-]. left. by exists s0.
Qed.

Lemma exec_ok_load_sub w D O a K :
  thread_ok w D O -> op_wp (OpLoadSub a) (bounds_of w) D O K -> exec_ok (OpLoadSub a) w D O K.
Proof.
  intros [Hok HO HD] (s & -> & HK).
  eapply (exec_ok_frame _ w); try done; [|by intros Hb; apply HK].
  unfold exec. by rewrite (HO a s eq_refl).
Qed.

Lemma exec_ok_flow_id w D O m K :
  thread_ok w D O -> op_wp (OpGetFlowID m) (bounds_of w) D O K -> exec_ok (OpGetFlowID m) w D O K.
Proof.
  intros [Hok HO HD] [Hm HK]. destruct (world_ok_mgr w m Hok Hm) as (r & Hr & Hp). left.
  exists (rm_flow_id (next_flow_id r)),
    (set_rsrMgr (<[m := Some (next_flow_id r)]> (w_rsrMgr w)) w), D, O.
  split_and!; [unfold exec, with_mgr; by rewrite Hr|by apply HK|].
  apply effect_frame; try done. destruct Hok as [H1 H2 H3 H4 H5]. split; cbn; [by rewrite length_insert| |done..].
  intros m' r'. rewrite list_lookup_insert. case_decide as Hd; [|apply H2].
  intros [= <-]. eexists. split; [done|exact Hp].
Qed.

Lemma GetCtag_serial wf p g : vendorSpecificId (GetCtag wf p g).2 = vendorSpecificId g.
Proof.
  unfold GetCtag, GetAttCtag, GetDtCtag, GetTtCtag.
  repeat case_decide; repeat case_match; done.
Qed.
Lemma GetStag_serial wf p o u g : vendorSpecificId (GetStag wf p o u g).2 = vendorSpecificId g.
Proof. unfold GetStag, GetDtStag. repeat case_decide; repeat case_match; done. Qed.

Ltac frame := eapply exec_ok_frame; try done; eauto.

Lemma exec_ok_resource_id w D O m intf t n K :
  good_env -> thread_ok w D O -> op_wp (OpGetResourceID m intf t n) (bounds_of w) D O K ->
  exec_ok (OpGetResourceID m intf t n) w D O K.
Proof.
  intros [_ Gids _] [Hok HO _] [Hm HK]. destruct (world_ok_mgr w _ Hok Hm) as (r & Hr & _).
  destruct (tp_GetResourceID m intf t n (w_tp w)) as [[ids err] st] eqn:E.
  apply (exec_ok_frame _ w _ _ _ (ids, err) (set_tp st w)); try done;
    [unfold exec, with_mgr; by rewrite Hr, E|].
  intros Hb. apply HK; [done|]. specialize (Gids m intf t n (w_tp w)). by rewrite E in Gids.
Qed.

Lemma exec_ok_tp_instance w D O m tpID name intf K :
  good_env -> thread_ok w D O ->
  op_wp (OpCreateTechProfileInstance m tpID name intf) (bounds_of w) D O K ->
  exec_ok (OpCreateTechProfileInstance m tpID name intf) w D O K.
Proof.
  intros [_ _ Gtp] [Hok HO _] [Hm HK]. destruct (world_ok_mgr w _ Hok Hm) as (r & Hr & _).
  destruct (Gtp m tpID name intf (w_tp w)) as (inst & E & Hi).
  destruct (tp_CreateTechProfileInstance m tpID name intf (w_tp w)) as [? st] eqn:E'.
  cbn in E. subst.
  apply (exec_ok_frame _ w _ _ _ (Some inst, None) (set_tp st w)); try done;
    [unfold exec, with_mgr; by rewrite Hr, E'|].
  intros Hb. by apply HK.
Qed.

Lemma exec_ok_globals {X} (o : Op X) w D O K x g :
  thread_ok w D O -> exec o w = Done x (set_globals g w) ->
  vendorSpecificId (w_globals w) <= vendorSpecificId g ->
  (bounds_of w ⊑b bounds_of (set_globals g w) -> K x (bounds_of (set_globals g w)) D O) ->
  exec_ok o w D O K.
Proof.
  intros [Hok HO _] He Hg HK. eapply (exec_ok_frame o w _ _ _ x (set_globals g w)); try done.
  cbn. lia.
Qed.

Lemma exec_ok_new_onu w D O d K :
  thread_ok w D O -> op_wp (OpNewOnu d) (bounds_of w) D O K -> exec_ok (OpNewOnu d) w D O K.
Proof.
  intros Ht [Hd HK]. pose proof Ht as [Hok _ _]. eapply (exec_ok_onus _ w); try done.
  - cbn. rewrite length_app. lia.
  - intros a d0. cbn. intros [Ha|[_ Ha]]%lookup_app_Some; [by eapply wo_onus|].
    by apply list_lookup_singleton_Some in Ha as [_ <-].
  - intros k a Hk. apply (wo_map w Hok) in Hk. cbn. rewrite length_app. lia.
  - intros Hb. apply HK; [done|]. cbn. rewrite length_app. cbn. lia.
Qed.

Lemma exec_ok_store_onu w D O a d K :
  thread_ok w D O -> op_wp (OpStoreOnu a d) (bounds_of w) D O K -> exec_ok (OpStoreOnu a d) w D O K.
Proof.
  intros Ht [Hd HK]. pose proof Ht as [Hok _ _]. eapply (exec_ok_onus _ w); try done.
  - cbn. by rewrite length_insert.
  - intros a' d0. cbn. rewrite list_lookup_insert. case_decide; [intros [= <-]; done|by eapply wo_onus].
  - intros k' a' Hk. cbn. rewrite length_insert. by eapply wo_map.
  - intros Hb. by apply HK.
Qed.

Lemma exec_ok_set_onu_map w D O k a K :
  thread_ok w D O -> op_wp (OpSetOnuMap k a) (bounds_of w) D O K -> exec_ok (OpSetOnuMap k a) w D O K.
Proof.
  intros Ht [Ha HK]. pose proof Ht as [Hok _ _]. eapply (exec_ok_onus _ w); try done.
  - cbn. rewrite dom_insert_L. set_solver.
  - exact (wo_onus w Hok).
  - intros k' a'. cbn. rewrite lookup_insert. case_decide; [intros [= <-]; done|by eapply wo_map].
  - intros Hb. apply HK; [done|]. cbn. rewrite dom_insert_L. set_solver.
Qed.

Lemma exec_sound {X} (o : Op X) w D O K :
  good_env -> thread_ok w D O -> op_wp o (bounds_of w) D O K -> exec_ok o w D O K.
Proof.
  intros Hgood Ht Ho. pose proof Ht as [Hok HO HD]. destruct o.
  - frame. intros Hb. apply Ho; [done|]. intros onu ->. by rewrite status_Err_None, (ge_activate Hgood).
  - frame; intros Hb; by apply Ho.
  - frame; intros Hb; by apply Ho.
  - by apply exec_ok_flow_id.
  - destruct Ho as [Hm HK]. destruct (world_ok_mgr w _ Hok Hm) as (r & Hr & Hp).
    eapply (exec_ok_frame _ w); try done; [unfold exec, with_mgr; by rewrite Hr|].
    intros Hb. by apply HK.
  - destruct Ho as [Hi HK]. eapply (exec_ok_frame _ w); try done; [|intros Hb; by apply HK].
    unfold exec. rewrite (wo_mgrs w Hok).
    by replace ((0 <=? i) && (i <? Z.of_nat mgrs)) with true by (symmetry; apply andb_true_intro; zbool; lia).
  - by apply exec_ok_resource_id.
  - by apply exec_ok_tp_instance.
  - eapply (exec_ok_globals _ w _ _ _ _ _ Ht); [done|cbn; lia|].
    intros Hb. apply Ho; [done|]. by apply wo_serial.
  - destruct (GetCtag wf pon (w_globals w)) as [v g] eqn:E.
    eapply (exec_ok_globals _ w _ _ _ v g Ht); [unfold exec; by rewrite E| |intros Hb; by apply Ho].
    pose proof (GetCtag_serial wf pon (w_globals w)) as Hv. rewrite E in Hv. cbn in Hv. lia.
  - destruct (GetStag wf pon onu uni (w_globals w)) as [v g] eqn:E.
    eapply (exec_ok_globals _ w _ _ _ v g Ht); [unfold exec; by rewrite E| |intros Hb; by apply Ho].
    pose proof (GetStag_serial wf pon onu uni (w_globals w)) as Hv. rewrite E in Hv. cbn in Hv. lia.
  - frame; intros Hb; by apply Ho.
  - frame; intros Hb; by apply Ho.
  - by apply exec_ok_new_wg.
  - by apply exec_ok_wg_add.
  - destruct Ho as (Hg & Hlt & HK). destruct (lookup_lt_is_Some_2 _ _ Hg) as [c Hc].
    destruct (decide (c = 0)) as [->|Hne].
    + eapply (exec_ok_frame _ w); try done; [unfold exec; by rewrite Hc|]. intros Hb. by apply HK.
    + right. split; [unfold exec; rewrite Hc; by apply Z.eqb_neq in Hne as ->|].
      exists g. split; [done|]. unfold counter. by rewrite Hc.
  - by apply exec_ok_new_onu.
  - destruct Ho as [Ha HK]. destruct (lookup_lt_is_Some_2 _ _ Ha) as [d Hd].
    eapply (exec_ok_frame _ w); try done; [unfold exec; by rewrite Hd|].
    intros Hb. apply HK; [done|]. by eapply wo_onus.
  - by apply exec_ok_store_onu.
  - by apply exec_ok_set_onu_map.
  - destruct Ho as [Hk HK]. cbn in Hk. apply elem_of_dom in Hk as [a Ha].
    eapply (exec_ok_frame _ w); try done; [unfold exec; by rewrite Ha|].
    intros Hb. apply HK; [done|]. by eapply wo_map.
  - by apply exec_ok_new_sub.
  - by apply exec_ok_load_sub.
  - by apply exec_ok_store_sub.
  - frame; intros Hb; by apply Ho.
Qed.

(** ** The invariant of a pool *)

Record thread := { th_prog : prog unit; th_debt : debt; th_own : owned }.

Definition own_addr (t : thread) : option nat := fst <$> th_own t.

Record threads_ok (w : World) (R : list thread) : Prop := {
  tk_wp : Forall (fun t => wp (th_prog t) (bounds_of w) (th_debt t) (th_own t) paid) R;
  tk_world : world_ok w;
  tk_debt : forall g, counter w g = Z.of_nat (multiplicity g (⋃+ (th_debt <$> R)));
  tk_owns : Forall (fun t => forall a s, th_own t = Some (a, s) -> w_subs w !! a = Some s) R;
  tk_excl : NoDup (omap own_addr R);
}.

Definition inv (pool : list (prog unit)) (w : World) : Prop :=
  exists R, pool = th_prog <$> R /\ threads_ok w R.

Lemma threads_ok_perm w R R' : R ≡ₚ R' -> threads_ok w R -> threads_ok w R'.
Proof. intros HR [H1 H2 H3 H4 H5]. split; rewrite <-?HR; try done. intros g. by rewrite <-HR. Qed.

Lemma threads_ok_thread w t R :
  threads_ok w (t :: R) -> thread_ok w (th_debt t) (th_own t).
Proof.
  intros [H1 H2 H3 H4 H5]. split; [done|by apply Forall_cons_1 in H4 as [? _]|].
  intros g. rewrite H3, fmap_cons, gmultiset_disj_union_list_cons, multiplicity_disj_union. lia.
Qed.

(** An operation of one goroutine keeps the invariant of the others. *)
Lemma threads_ok_effect w w' t t' R :
  threads_ok w (t :: R) ->
  effect w w' (th_debt t) (th_debt t') (th_own t) (th_own t') ->
  wp (th_prog t') (bounds_of w') (th_debt t') (th_own t') paid ->
  threads_ok w' (t' :: R).
Proof.
  intros [H1 H2 H3 H4 H5] [E1 E2 E3 E4 E5 E6] Hwp.
  apply Forall_cons_1 in H1 as [_ H1]. apply Forall_cons_1 in H4 as [H4t H4].
  assert (forall a s, th_own t' = Some (a, s) -> a ∉ omap own_addr R) as Hfresh.
  { intros a s Ha Hin. destruct (E6 a s Ha) as [[s0 Hs0]|Hnone].
    - cbn in H5. unfold own_addr in H5 at 1. rewrite Hs0 in H5. cbn in H5.
      apply NoDup_cons in H5 as [H5 _]. done.
    - apply list_elem_of_omap in Hin as (u & Hu & Hau). unfold own_addr in Hau.
      destruct (th_own u) as [[a' s']|] eqn:Eu; [|done]. cbn in Hau. simplify_eq.
      rewrite Forall_forall in H4. specialize (H4 u Hu a s' Eu). congruence. }
  assert (NoDup (omap own_addr R)) as HR.
  { cbn in H5. destruct (own_addr t); [by apply NoDup_cons in H5 as [_ ?]|done]. }
  split; [constructor; [done|]|done| |constructor; [done|]|].
  - eapply Forall_impl; [exact H1|]. intros u Hu. eapply wp_mono; [exact Hu|done|].
    by intros [] S1 S2 D1 O1 HD _.
  - intros g. specialize (E3 g). specialize (H3 g).
    rewrite fmap_cons, gmultiset_disj_union_list_cons, multiplicity_disj_union in H3 |- *. lia.
  - rewrite Forall_forall in H4 |- *. intros u Hu a s Hus.
    destruct (E5 a s (H4 u Hu a s Hus)) as [[s0 Hs0]|]; [|done].
    exfalso. cbn in H5. unfold own_addr in H5 at 1. rewrite Hs0 in H5. cbn in H5.
    apply NoDup_cons in H5 as [H5 _]. apply H5, list_elem_of_omap. exists u.
    split; [done|]. unfold own_addr. by rewrite Hus.
  - cbn. unfold own_addr at 1. destruct (th_own t') as [[a s]|] eqn:Et'; cbn; [|done].
    apply NoDup_cons. split; [by eapply Hfresh|done].
Qed.

(** A goroutine that starts another gives it a part of what it owes and owns. *)
Lemma threads_ok_go w c k D O R :
  threads_ok w ({| th_prog := Go c k; th_debt := D; th_own := O |} :: R) ->
  exists tc tk, th_prog tc = c /\ th_prog tk = k /\ threads_ok w (tk :: tc :: R).
Proof.
  intros [H1 H2 H3 H4 H5]. apply Forall_cons_1 in H1 as [[_ Hwp] H1].
  cbn [th_prog th_debt th_own] in Hwp. destruct Hwp as (Dc & Dk & Oc & Ok & -> & HO & Hc & Hk).
  apply Forall_cons_1 in H4 as [H4t H4]. cbn [th_own] in H4t.
  exists {| th_prog := c; th_debt := Dc; th_own := Oc |}, {| th_prog := k; th_debt := Dk; th_own := Ok |}.
  split_and!; [done..|]. split; [by repeat (constructor; [done|])|done| | |].
  - intros g. rewrite H3, !fmap_cons, !gmultiset_disj_union_list_cons. cbn [th_debt].
    rewrite !multiplicity_disj_union. lia.
  - constructor; [|constructor; [|done]]; cbn; intros a s Ha; apply H4t;
      destruct HO as [[-> ->]|[-> ->]]; done.
  - cbn in *. unfold own_addr in *. destruct HO as [[-> ->]|[-> ->]]; cbn in *; done.
Qed.

Lemma inv_step pool w c :
  good_env -> inv pool w -> step (Running pool w) c ->
  exists pool' w', c = Running pool' w' /\ inv pool' w'.
Proof.
  intros Hg (R & -> & HR) Hs.
  inversion Hs as [? ? i p p' w' sp Hi Hp|? ? i p r Hi Hp]; subst;
    apply list_lookup_fmap_Some in Hi as (t & -> & Hi);
    destruct (insert_app_perm R i t t [] Hi) as (R0 & HR0 & _);
    apply (threads_ok_perm _ _ _ HR0) in HR as HR1;
    destruct t as [p D O]; cbn in *.
  - exists (<[i := p']> (th_prog <$> R) ++ sp), w'. split; [done|].
    assert (forall t' ts, p' = th_prog t' -> sp = th_prog <$> ts ->
      threads_ok w' (t' :: ts ++ R0) -> inv (<[i := p']> (th_prog <$> R) ++ sp) w') as Hinv.
    { intros t' ts -> -> Hok. exists (<[i := t']> R ++ ts).
      split; [by rewrite fmap_app, list_fmap_insert|].
      destruct (insert_app_perm R i _ t' ts Hi) as (R1 & HR2 & HR3).
      eapply threads_ok_perm; [symmetry; exact HR3|].
      rewrite HR0 in HR2. apply (inj (cons _)) in HR2.
      eapply threads_ok_perm; [|exact Hok]. by rewrite HR2. }
    destruct p as [a|r|X o k|c k]; cbn in Hp; [done..| |].
    + pose proof (threads_ok_thread _ _ _ HR1) as Ht. cbn in Ht.
      pose proof (tk_wp _ _ HR1) as Hwp. apply Forall_cons_1 in Hwp as [[_ Hwp] _]. cbn in Hwp.
      destruct (exec_sound o w D O _ Hg Ht Hwp) as [(x & w1 & D1 & O1 & He & HK & Heff)|[He _]];
        rewrite He in Hp; [|done]. injection Hp as <- <- <-.
      apply (Hinv {| th_prog := k x; th_debt := D1; th_own := O1 |} []); [done..|].
      by eapply (threads_ok_effect _ _ _ _ _ HR1).
    + injection Hp as <- <- <-. apply threads_ok_go in HR1 as (tc & tk & <- & <- & Hok).
      by apply (Hinv tk [tc]).
  - exfalso. destruct p as [a|r'|X o k|c k]; cbn in Hp; [done| | |done].
    + pose proof (tk_wp _ _ HR1) as Hwp. by apply Forall_cons_1 in Hwp as [[_ []] _].
    + pose proof (threads_ok_thread _ _ _ HR1) as Ht. cbn in Ht.
      pose proof (tk_wp _ _ HR1) as Hwp. apply Forall_cons_1 in Hwp as [[_ Hwp] _]. cbn in Hwp.
      destruct (exec_sound o w D O _ Hg Ht Hwp) as [(x & w1 & D1 & O1 & He & _)|[He _]];
        by rewrite He in Hp.
Qed.

(** ** When nothing can move *)

Lemma threads_idle w R t :
  good_env -> threads_ok w R -> t ∈ R ->
  (forall p' w' sp, thread_step (th_prog t) w <> TNext p' w' sp) ->
  (th_prog t = Ret tt /\ th_debt t = ∅)
  \/ exists g, (forall h, h ∈ th_debt t -> (h < g)%nat) /\ counter w g <> 0.
Proof.
  intros Hg HR (R0 & HR0)%elem_of_Permutation Hidle.
  apply (threads_ok_perm _ _ _ HR0) in HR.
  pose proof (threads_ok_thread _ _ _ HR) as Ht.
  pose proof (tk_wp _ _ HR) as Hwp. apply Forall_cons_1 in Hwp as [Hwp _].
  destruct t as [p D O]; cbn [th_prog th_debt th_own] in *.
  destruct p as [[]|r|X o k|c k]; destruct Hwp as [_ Hwp].
  - by left.
  - done.
  - right. destruct (exec_sound o w D O _ Hg Ht Hwp) as [(x & w1 & D1 & O1 & He & _)|[_ Hb]]; [|done].
    exfalso. apply (Hidle (k x) w1 []). cbn. by rewrite He.
  - exfalso. by apply (Hidle k w [c]).
Qed.

Lemma inv_stuck pool w :
  good_env -> inv pool w -> (forall c, ~ step (Running pool w) c) ->
  Forall (fun p => p = Ret tt) pool.
Proof.
  intros Hg (R & -> & HR) Hstuck.
  assert (forall t, t ∈ R -> forall p' w' sp, thread_step (th_prog t) w <> TNext p' w' sp) as Hidle.
  { intros t (i & Hi)%list_elem_of_lookup p' w' sp Hs.
    eapply Hstuck, step_thread; [|exact Hs]. by rewrite list_lookup_fmap, Hi. }
  assert (forall m g, (length (w_wgs w) - g <= m)%nat -> counter w g <> 0 -> False) as Hno.
  { induction m as [|m IH]; intros g Hm Hc.
    all: assert (g < length (w_wgs w))%nat as Hlt by
      (destruct (decide (g < length (w_wgs w))%nat); [done|];
       exfalso; apply Hc; unfold counter; by rewrite lookup_ge_None_2 by lia).
    { lia. }
    assert (g ∈ ⋃+ (th_debt <$> R)) as (D & (t & -> & Ht)%list_elem_of_fmap & HgD)%elem_of_gmultiset_disj_union_list.
    { apply elem_of_multiplicity. pose proof (tk_debt _ _ HR g). lia. }
    destruct (threads_idle w R t Hg HR Ht (Hidle t Ht)) as [[_ HD]|(h & Hh & Hch)].
    - rewrite HD in HgD. by apply gmultiset_not_elem_of_empty in HgD.
    - specialize (Hh g HgD). apply (IH h); [lia|done]. }
  apply Forall_fmap, Forall_forall. intros t Ht.
  destruct (threads_idle w R t Hg HR Ht (Hidle t Ht)) as [[? _]|(h & _ & Hch)]; [done|].
  exfalso. by eapply (Hno _ h).
Qed.

End logic.
