(* ===== verification/Completion.v ===== *)
(** * The goroutines of the program satisfy their judgements

    Each function is given a judgement of WaitGroups.v, from the workflow stages
    up to [provisionONUs]; [provisioning] is the invariant the completion theorem of
    Supply rests on. *)
From stdpp Require Import gmultiset.
From S2P Require Import Prelude Utils Proto Config Runtime Play Samples TechProfile ResourceManager WorkflowUtils AttWorkflow DtWorkflow TtWorkflow WorkflowManager SubscriberManager OnuManager OltManager Termination WaitGroups.

Section completion.
Context `{Env}.
Variables (cfg : OpenOltScaleTesterConfig) (mgrs W : nat).
Abbreviation wp := (wp cfg mgrs W).

Definition debts_ok (D : debt) (S : bounds) : Prop := forall g, g ∈ D -> (g < b_wgs S)%nat.

Lemma debts_ok_mono D S S' : debts_ok D S -> S ⊑b S' -> debts_ok D S'.
Proof. intros HD (H1 & _) g Hg. specialize (HD g Hg). lia. Qed.

(** ** Programs that owe and own nothing of their own *)

Definition calm {A} (p : prog A) : Prop :=
  forall S D O Q, debts_ok D S -> (forall a S', S ⊑b S' -> Q a S' D O) -> wp p S D O Q.

Lemma calm_ret {A} (a : A) : calm (Ret a).
Proof. intros S D O Q HD HQ. split; [done|by apply HQ]. Qed.

Lemma calm_bind {A B} (p : prog A) (f : A -> prog B) :
  calm p -> (forall a, calm (f a)) -> calm (p ≫= f).
Proof.
  intros Hp Hf S D O Q HD HQ. apply wp_bind, Hp; [done|]. intros a S' HS.
  apply Hf; [by eapply debts_ok_mono|]. intros b S2 HS2. apply HQ. by etrans.
Qed.

Lemma calm_op {X} (o : Op X) :
  (forall S D O K, (forall x S', S ⊑b S' -> K x S' D O) -> op_wp cfg mgrs W o S D O K) ->
  calm (op o).
Proof.
  intros Ho S D O Q HD HQ. split; [done|]. apply Ho. intros x S' HS.
  split; [by eapply debts_ok_mono|by apply HQ].
Qed.

Lemma calm_rpc r : (forall onu, r <> RpcActivateOnu onu) -> calm (op (OpRpc r)).
Proof. intros Hr. apply calm_op. intros S D O K HK S' err HS _. by apply HK. Qed.
Lemma calm_rand n : calm (op (OpRandIntn n)).
Proof. apply calm_op. intros S D O K HK S' v HS. by apply HK. Qed.
Lemma calm_now : calm (op OpNow).
Proof. apply calm_op. intros S D O K HK S' v HS. by apply HK. Qed.
Lemma calm_flow_id m : (m < mgrs)%nat -> calm (op (OpGetFlowID m)).
Proof. intros Hm. apply calm_op. intros S D O K HK. split; [done|]. intros S' v HS. by apply HK. Qed.
Lemma calm_load_last : calm (op OpLoadLastPonIntf).
Proof. apply calm_op. intros S D O K HK S' v HS. by apply HK. Qed.
Lemma calm_add_last d : calm (op (OpAddLastPonIntf d)).
Proof. apply calm_op. intros S D O K HK S' v HS. by apply HK. Qed.

Lemma calm_device_info {A} m (f : DeviceInfo -> prog A) :
  (m < mgrs)%nat -> (forall di, di_PonPorts di <> 0 -> calm (f di)) -> calm (op (OpDeviceInfo m) ≫= f).
Proof.
  intros Hm Hf S D O Q HD HQ. split; [done|]. split; [done|]. intros S' di HS Hdi.
  apply (Hf di Hdi); [by eapply debts_ok_mono|]. intros a S2 HS2. apply HQ. by etrans.
Qed.

Lemma calm_when_nil err k : calm k -> calm (when_nil err k).
Proof. intros Hk. destruct err; [apply calm_ret|done]. Qed.

Lemma calm_for_err {A} (l : list A) body :
  (forall x, calm (body x)) -> calm (for_err l body).
Proof.
  intros Hb. induction l as [|x l IH]; [apply calm_ret|].
  apply calm_bind; [apply Hb|]. intros [e|]; [apply calm_ret|exact IH].
Qed.

Lemma ret_bind {A B} (a : A) (f : A -> prog B) : (Ret a ≫= f) = f a.
Proof. done. Qed.

Lemma wp_op_bind {X A} (o : Op X) (f : X -> prog A) S D O Q :
  debts_ok D S ->
  op_wp cfg mgrs W o S D O (fun x S' D' O' => wp (f x) S' D' O' Q) ->
  wp (op o ≫= f) S D O Q.
Proof. intros HD Ho. by split. Qed.

(** ** The workflows *)

Section subscriber.
Variables (subs : Subscriber) (tpID : Z) (tp : TechProfileInstance).
Hypothesis Hid : TpIDList (TestConfig subs) !! 0%nat = Some tpID.
Hypothesis Htp : TpInstance subs !! tpID = Some tp.
Hypothesis Hok : tp_ok tp.
Hypothesis Hm : (RsrMgr subs < mgrs)%nat.

Lemma first_TpInstance_eq : first_TpInstance subs = Ret (Some tp).
Proof. unfold first_TpInstance, index. rewrite Hid. cbn. by rewrite Htp. Qed.

Lemma us_gems_eq : exists us, us_gems subs = Ret (sa_AllocId us, UpstreamGemPortAttributeList tp).
Proof.
  destruct Hok as [[us Hus] _]. exists us. unfold us_gems. rewrite first_TpInstance_eq. cbn.
  by rewrite Hus.
Qed.

Lemma calm_with_flow_id k : (forall id, calm (k id)) -> calm (with_flow_id subs k).
Proof.
  intros Hk. apply calm_bind; [|by intros [id [e|]]; [apply calm_ret|apply Hk]].
  apply calm_bind; [by apply calm_flow_id|]. intros id. apply calm_ret.
Qed.

Lemma calm_send_scheds d : calm (send_scheds subs d).
Proof.
  destruct Hok as [[us Hus] [ds Hds]].
  assert (exists ts, getTrafficSched subs d = Ret (Some ts)) as [ts Hts].
  { unfold getTrafficSched, GetDsScheduler, GetUsScheduler. rewrite first_TpInstance_eq. cbn.
    rewrite Hus, Hds. case_decide; cbn; rewrite Hus; cbn; by eexists. }
  unfold send_scheds. rewrite Hts, ret_bind. apply calm_bind; [by apply calm_rpc|].
  intros [e|]; apply calm_ret.
Qed.

Lemma calm_send_queues d : calm (send_queues subs d).
Proof.
  assert (exists qs, getTrafficQueues subs d = Ret qs) as [qs Hqs].
  { unfold getTrafficQueues, GetTrafficQueues. rewrite first_TpInstance_eq. cbn.
    repeat case_decide; cbn; by eexists. }
  unfold send_queues. rewrite Hqs, ret_bind. destruct qs as [qs|]; [|apply calm_ret].
  apply calm_bind; [by apply calm_rpc|]. intros [e|]; apply calm_ret.
Qed.

Lemma calm_AddFlow ty dir id alloc gem pcp rep sym pb :
  calm (AddFlow subs ty dir id alloc gem pcp rep sym pb).
Proof.
  unfold AddFlow. destruct (FormatClassfierAction ty dir subs).
  apply calm_bind; [by apply calm_rpc|]. intros err. apply calm_ret.
Qed.

Lemma calm_random_mac n mac : calm (random_mac n mac).
Proof.
  revert mac. induction n as [|n IH]; intros mac; [apply calm_ret|].
  apply calm_bind; [|intros b; apply IH].
  apply calm_bind; [apply calm_rand|]. intros r. apply calm_ret.
Qed.

Lemma calm_FormatTt ty dir : calm (FormatTtClassfierAction ty dir subs).
Proof.
  unfold FormatTtClassfierAction.
  repeat match goal with |- calm (if ?b then _ else _) => destruct b end;
    first [ apply calm_ret
          | apply calm_bind; [apply (calm_random_mac MacSize)|intros mac; apply calm_ret] ].
Qed.

Lemma calm_AddTtFlow ty dir id alloc gem pcp rep sym pb :
  calm (AddTtFlow subs ty dir id alloc gem pcp rep sym pb).
Proof.
  apply calm_bind; [apply calm_FormatTt|]. intros [c a].
  apply calm_bind; [by apply calm_rpc|]. intros err. apply calm_ret.
Qed.

Ltac calm_flows :=
  repeat first
    [ apply calm_ret | apply calm_AddFlow | apply calm_AddTtFlow
    | apply calm_with_flow_id; intros ? | apply calm_when_nil
    | apply calm_for_err; intros ? | apply calm_bind; [|intros ?] ].

Lemma calm_us_gems (f : Z * list GemPortAttributes -> prog (option GoError)) :
  (forall x, calm (f x)) -> calm (us_gems subs ≫= f).
Proof. intros Hf. destruct us_gems_eq as [us ->]. rewrite ret_bind. apply Hf. Qed.

Lemma calm_stage wf stage :
  getWorkFlow subs = Some wf -> stage ∈ unicast_stages wf -> calm (stage subs).
Proof.
  intros Hwf Hin. assert (wf ∈ [AttWorkFlow; DtWorkFlow; TtWorkFlow]) as Hw.
  { unfold getWorkFlow in Hwf. rewrite !elem_of_cons.
    repeat case_decide; try done; injection Hwf as <-; tauto. }
  repeat (apply elem_of_cons in Hw as [->|Hw]; [|]); [..|by apply not_elem_of_nil in Hw];
    repeat (apply elem_of_cons in Hin as [->|Hin]; [|]);
    try (by apply not_elem_of_nil in Hin); cbn [unicast_stages];
    first [ apply calm_ret
          | apply calm_bind; [apply calm_send_scheds|intros ?]; apply calm_when_nil, calm_send_scheds
          | apply calm_bind; [apply calm_send_queues|intros ?]; apply calm_when_nil, calm_send_queues
          | apply calm_us_gems; intros [? ?]; calm_flows ].
Qed.

Lemma calm_multicast grp : gd_Subs grp = subs -> calm (AddMulticastQueueFlow grp).
Proof.
  intros Hs.
  assert (calm (CreateGroup grp)) by by apply calm_rpc.
  assert (calm (OpMulticastTrafficQueue grp true)) by by apply calm_rpc.
  assert (calm (OpMemberToGroup grp true)) by by apply calm_rpc.
  assert (calm (AddMulticastFlow grp)).
  { apply calm_bind.
    - apply calm_bind; [apply calm_flow_id; by rewrite Hs|]. intros id. apply calm_ret.
    - intros [id [e|]]; [apply calm_ret|]. apply calm_bind.
      + apply calm_bind; [|intros b; apply calm_ret].
        apply calm_bind; [apply calm_rand|]. intros r. apply calm_ret.
      + intros mac. apply calm_bind; [by apply calm_rpc|]. intros err. apply calm_ret. }
  assert (calm (AddMulticastSched grp)).
  { destruct Hok as [[us Hus] _]. unfold AddMulticastSched. rewrite Hs, first_TpInstance_eq, ret_bind.
    assert (forall c sh, exists t, GetTrafficScheduler (Some tp) (Some c) sh = Ret t) as Hts.
    { intros c sh. unfold GetTrafficScheduler. cbn. rewrite Hus. by eexists. }
    edestruct Hts as [t ->]. rewrite ret_bind.
    apply calm_bind; [by apply calm_rpc|]. intros [e|]; apply calm_ret. }
  unfold AddMulticastQueueFlow.
  repeat (apply calm_bind; [match goal with |- calm (if ?b then _ else _) => destruct b end;
                            first [apply calm_ret|assumption]|intros ?]; apply calm_when_nil).
  apply calm_ret.
Qed.

Lemma calm_deploy_reason wf isGroup :
  getWorkFlow subs = Some wf -> calm (deploy_reason wf subs isGroup).
Proof.
  intros Hwf. apply calm_bind; [|intros [e|]; apply calm_ret].
  destruct isGroup.
  - unfold getWorkFlow in Hwf. repeat case_decide; try done; injection Hwf as <-;
      [apply calm_ret|apply calm_ret|].
    apply calm_device_info; [done|]. intros di Hdi. unfold GetPonPorts.
    destruct (Z.eqb_spec (di_PonPorts di) 0) as [|_]; [done|].
    + apply calm_bind; [apply calm_load_last|]. intros last.
      apply calm_bind.
      * case_match; [|apply calm_ret]. apply calm_bind; [apply calm_add_last|]. intros v. apply calm_ret.
      * intros b. by apply calm_multicast.
  - assert (forall l, (forall stage, stage ∈ l -> calm (stage subs)) ->
      calm (for_err l (fun stage => stage subs))) as Hl.
    { intros l. induction l as [|stage l IH]; intros Hl; [apply calm_ret|].
      apply calm_bind; [apply Hl, elem_of_cons; by left|].
      intros [e|]; [apply calm_ret|]. apply IH. intros st Hst. apply Hl, elem_of_cons. by right. }
    apply Hl. intros stage Hst. by eapply calm_stage.
Qed.

End subscriber.
(** ** Subscribers *)

Lemma debts_ok_empty S : debts_ok ∅ S.
Proof. intros g Hg. by apply gmultiset_not_elem_of_empty in Hg. Qed.

Lemma debts_ok_one g S : (g < b_wgs S)%nat -> debts_ok {[+ g +]} S.
Proof. intros Hg h ->%gmultiset_elem_of_singleton. done. Qed.

(** The workflow is supported and a technology profile is named. *)
Record cfg_ok : Prop := {
  co_tps : TpIDList cfg <> [];
  co_wf : WorkflowName cfg ∈ ["ATT"; "DT"; "TT"];
}.

Definition sub_ok (s : Subscriber) : Prop := TestConfig s = cfg /\ (RsrMgr s < mgrs)%nat.

Definition instances_ok (ids : list Z) (m : gmap Z TechProfileInstance) : Prop :=
  forall id, id ∈ ids -> exists tp, m !! id = Some tp /\ tp_ok tp.

Hypothesis Hcfg : cfg_ok.

Lemma getWorkFlow_supported s : TestConfig s = cfg -> exists wf, getWorkFlow s = Some wf.
Proof.
  intros Hs. destruct Hcfg as [_ Hwf]. unfold getWorkFlow. rewrite Hs.
  rewrite !elem_of_cons, elem_of_nil in Hwf.
  destruct Hwf as [->|[->|[->|[]]]]; repeat case_decide; eauto; done.
Qed.

(** The [Done] of the subscriber, the last action of its goroutine. *)
Lemma wp_done g S O : (g < b_wgs S)%nat -> wp (op (OpWgAdd g (-1))) S {[+ g +]} O paid.
Proof.
  intros Hg. split; [by apply debts_ok_one|]. split; [done|]. right. split; [done|].
  exists ∅. split; [by rewrite gmultiset_disj_union_right_id|].
  intros S' HS. split; [by apply debts_ok_empty|done].
Qed.

Lemma sub_wg_mono (s : Subscriber) S S' :
  (subWg s < b_wgs S)%nat -> S ⊑b S' -> (subWg s < b_wgs S')%nat.
Proof. intros Hg (? & _). lia. Qed.

Lemma wp_DeployWorkflow a isGroup s S :
  sub_ok s -> instances_ok (TpIDList cfg) (TpInstance s) -> (subWg s < b_wgs S)%nat ->
  wp (DeployWorkflow a isGroup) S {[+ subWg s +]} (Some (a, s)) paid.
Proof.
  intros [Hs Hm] Hi Hg. unfold DeployWorkflow. apply wp_op_bind; [by apply debts_ok_one|].
  exists s. split; [done|]. intros S1 HS1. apply (sub_wg_mono _ _ _ Hg) in HS1 as Hg1.
  destruct (getWorkFlow_supported s Hs) as [wf Hwf]. rewrite Hwf. cbn [deref]. rewrite ret_bind.
  pose proof (co_tps Hcfg) as Hne. destruct (TpIDList cfg) as [|id ids] eqn:Eids; [done|].
  destruct (Hi id) as (tp & Htp & Hok); [apply elem_of_cons; by left|].
  apply wp_bind, (calm_deploy_reason s id tp); [by rewrite Hs, Eids|done..|by apply debts_ok_one|].
  intros reason S2 HS2. apply (sub_wg_mono _ _ _ Hg1) in HS2 as Hg2.
  apply wp_op_bind; [by apply debts_ok_one|]. exists s. split; [done|]. intros S3 HS3.
  apply wp_done. by eapply sub_wg_mono.
Qed.

Lemma wp_create_tp_instances a ids done_ids m s S D Q :
  sub_ok s -> debts_ok D S -> instances_ok done_ids m ->
  (forall m' S', S ⊑b S' -> instances_ok (done_ids ++ ids) m' ->
     Q true S' D (Some (a, set_TpInstance m' s))) ->
  wp (create_tp_instances a ids) S D (Some (a, set_TpInstance m s)) Q.
Proof.
  intros Hs. revert done_ids m S. induction ids as [|id ids IH]; intros done_ids m S HD Hm HQ.
  { split; [done|]. apply HQ; [done|]. by rewrite app_nil_r. }
  cbn [create_tp_instances]. apply wp_op_bind; [done|]. eexists. split; [done|]. intros S1 HS1.
  apply wp_op_bind; [by eapply debts_ok_mono|]. destruct Hs as [Hs1 Hs2]. split; [done|].
  intros S2 inst HS2 Hok. cbv beta iota.
  assert (S ⊑b S2) as HS02 by (by etrans).
  apply wp_op_bind; [by eapply debts_ok_mono|]. eexists. split; [done|]. intros S3 HS3.
  assert (S ⊑b S3) as HS03 by (by etrans).
  change (wp (create_tp_instances a ids) S3 D (Some (a, set_TpInstance (<[id := inst]> m) s)) Q).
  apply (IH (done_ids ++ [id])).
  - by eapply debts_ok_mono.
  - intros id' Hin. destruct (decide (id' = id)) as [->|Hne].
    + exists inst. by rewrite lookup_insert_eq.
    + rewrite lookup_insert_ne by done. apply Hm.
      apply elem_of_app in Hin as [?|Hin]; [done|]. by apply list_elem_of_singleton in Hin.
  - intros m' S' HS' Hm'. apply HQ; [by etrans|]. by rewrite <-app_assoc in Hm'.
Qed.

Lemma wp_Subscriber_Start a isGroup s S :
  sub_ok s -> (subWg s < b_wgs S)%nat ->
  wp (Subscriber_Start a isGroup) S {[+ subWg s +]} (Some (a, s)) paid.
Proof.
  intros Hs Hg. unfold Subscriber_Start. apply wp_op_bind; [by apply debts_ok_one|].
  exists s. split; [done|]. intros S1 HS1. apply (sub_wg_mono _ _ _ Hg) in HS1 as Hg1.
  apply wp_op_bind; [by apply debts_ok_one|]. eexists. split; [done|]. intros S2 HS2.
  apply (sub_wg_mono _ _ _ Hg1) in HS2 as Hg2.
  apply wp_bind. destruct Hs as [Hs1 Hs2]. rewrite Hs1.
  apply (wp_create_tp_instances _ _ []); [done|by apply debts_ok_one|by intros ? ?%not_elem_of_nil|].
  intros m' S3 HS3 Hm'. apply (sub_wg_mono _ _ _ Hg2) in HS3 as Hg3.
  split; [by apply debts_ok_one|].
  exists {[+ subWg s +]}, ∅, (Some (a, set_TpInstance m' s)), None.
  split_and!; [by rewrite gmultiset_disj_union_right_id|by left| |].
  - by apply (wp_DeployWorkflow a isGroup (set_TpInstance m' s)).
  - split; [by apply debts_ok_empty|done].
Qed.

(** ** ONUs *)

Lemma wp_for_each {A} (l : list A) body S D :
  debts_ok D S ->
  (forall x S' Q, x ∈ l -> S ⊑b S' -> debts_ok D S' ->
     (forall S2, S' ⊑b S2 -> Q tt S2 D None) -> wp (body x) S' D None Q) ->
  forall Q, (forall S', S ⊑b S' -> Q tt S' D None) -> wp (for_each l body) S D None Q.
Proof.
  revert S. induction l as [|x l IH]; intros S HD Hb Q HQ; [split; [done|by apply HQ]|].
  apply wp_bind, Hb; [apply elem_of_cons; by left|done..|]. intros S1 HS1.
  apply IH; [by eapply debts_ok_mono| |].
  - intros y S' Q' Hy HS'. apply Hb; [apply elem_of_cons; by right|by etrans].
  - intros S' HS'. apply HQ. by etrans.
Qed.

Lemma wp_start_subscriber a g i S D Q :
  (a < b_onus S)%nat -> (g < b_wgs S)%nat -> debts_ok D S ->
  (forall S', S ⊑b S' -> Q tt S' D None) -> wp (start_subscriber a g i) S D None Q.
Proof.
  intros Ha Hg HD HQ. unfold start_subscriber.
  apply wp_op_bind; [done|]. split; [done|]. intros S1 d HS1 (Hd1 & Hd2 & Hd3).
  rewrite Hd1. apply wp_bind. unfold new_subscriber.
  assert (forall S', S1 ⊑b S' -> debts_ok D S') as HDm.
  { intros S' HS'. eapply debts_ok_mono; [exact HD|]. by etrans. }
  apply wp_op_bind; [by apply HDm|]. intros S2 ctag HS2.
  apply wp_op_bind; [by apply HDm|]. intros S3 stag HS3. assert (S1 ⊑b S3) as HS13 by by etrans.
  split; [by apply HDm|]. rewrite Hd1.
  apply wp_op_bind; [by apply HDm|]. split; [done|]. intros S4 sa HS4.
  assert (S1 ⊑b S4) as HS14 by by etrans.
  apply wp_op_bind; [by apply HDm|]. split; [by split_and!|]. intros S5 HS5.
  assert (S1 ⊑b S5) as HS15 by by etrans. assert (S ⊑b S5) as HS05 by by etrans.
  apply wp_op_bind; [by apply HDm|].
  assert (forall S', S ⊑b S' -> (g < b_wgs S')%nat) as Hgm by (intros S' (? & _); lia).
  split; [by apply Hgm|]. left. split; [done|]. intros S6 HS6.
  assert (S1 ⊑b S6) as HS16 by by etrans. assert (S ⊑b S6) as HS06 by by etrans.
  split.
  { intros h [->%gmultiset_elem_of_singleton|Hh]%gmultiset_elem_of_disj_union; [by apply Hgm|].
    by apply HDm. }
  eexists {[+ g +]}, D, (Some (sa, _)), None. split_and!; [done|by left| |].
  - match goal with |- wp _ _ _ (Some (_, ?s)) _ => apply (wp_Subscriber_Start sa _ s) end;
      [done|]. by apply Hgm.
  - split; [by apply HDm|]. by apply HQ.
Qed.

Lemma wp_OnuDevice_Start a S :
  (a < b_onus S)%nat -> (W < b_wgs S)%nat -> wp (OnuDevice_Start a) S {[+ W +]} None paid.
Proof.
  intros Ha HW. unfold OnuDevice_Start.
  assert (forall S', S ⊑b S' -> debts_ok {[+ W +]} S') as HDm.
  { intros S' HS'. eapply debts_ok_mono; [|exact HS']. by apply debts_ok_one. }
  apply wp_op_bind; [by apply HDm|]. split; [done|]. intros S1 d HS1 (Hd1 & Hd2 & Hd3).
  apply wp_op_bind; [by apply HDm|]. split; [by split_and!|]. intros S2 HS2.
  assert (S ⊑b S2) as HS02 by by etrans.
  apply wp_op_bind; [by apply HDm|]. intros S3 g HS3 Hg.
  assert (S ⊑b S3) as HS03 by by etrans.
  apply wp_bind, wp_for_each; [by apply HDm| |].
  - intros i S4 Q Hi HS4 HD4 HQ. assert (S ⊑b S4) as HS04 by by etrans.
    apply wp_start_subscriber; [destruct HS04; lia|destruct HS4; lia|done|done].
  - intros S4 HS4. assert (S ⊑b S4) as HS04 by by etrans.
    apply wp_op_bind; [by apply HDm|]. split_and!; [destruct HS4; lia| |].
    + intros h ->%gmultiset_elem_of_singleton. destruct HS02; lia.
    + intros S5 HS5. rewrite Hd3. apply wp_done. assert (S ⊑b S5) as (? & _) by by etrans. lia.
Qed.

(** ** Batches *)

Lemma wp_activateONU intf onuID sn name S :
  0 <= intf < Z.of_nat mgrs -> (W < b_wgs S)%nat ->
  wp (activateONU cfg intf onuID sn name W) S {[+ W +]} None paid.
Proof.
  intros Hi HW. unfold activateONU.
  assert (forall S', S ⊑b S' -> debts_ok {[+ W +]} S') as HDm.
  { intros S' HS'. eapply debts_ok_mono; [|exact HS']. by apply debts_ok_one. }
  apply wp_op_bind; [by apply HDm|]. split; [done|]. intros S1 HS1.
  apply wp_op_bind; [by apply HDm|]. intros S2 now HS2. assert (S ⊑b S2) by by etrans.
  apply wp_op_bind; [by apply HDm|]. intros S3 err HS3 Hact. assert (S ⊑b S3) by by etrans.
  rewrite (Hact _ eq_refl).
  apply wp_op_bind; [by apply HDm|]. split; [split_and!; [done| |done]; cbn; lia|].
  intros S4 a HS4 Ha. assert (S ⊑b S4) by by etrans.
  apply wp_op_bind; [by apply HDm|]. split; [done|]. intros S5 HS5 Hk. assert (S ⊑b S5) by by etrans.
  apply wp_op_bind; [by apply HDm|]. split; [done|]. intros S6 a' HS6 Ha'.
  assert (S ⊑b S6) as HS06 by by etrans.
  split; [by apply HDm|]. exists {[+ W +]}, ∅, None, None.
  split_and!; [by rewrite gmultiset_disj_union_right_id|by left| |].
  - apply wp_OnuDevice_Start; [done|]. destruct HS06; lia.
  - split; [by apply debts_ok_empty|done].
Qed.

Lemma serial_renders g :
  1000 <= vendorSpecificId g ->
  exists s, stringifySerialNumber (Some (GenerateNextONUSerialNumber g).1) = Some s.
Proof.
  intros Hg. destruct (Itoa_four (vendorSpecificId g + 1)) as (a & b & c & d & rest & Hr); [lia|].
  unfold stringifySerialNumber, stringifyVendorSpecific. cbn. rewrite Hr. by eexists.
Qed.

Lemma wp_provision_one i j k S Q :
  0 <= i < Z.of_nat mgrs -> 0 <= j < Z.of_nat mgrs -> (W < b_wgs S)%nat ->
  (forall S', S ⊑b S' -> Q tt S' ∅ None) -> wp (provision_one cfg W i j k) S ∅ None Q.
Proof.
  intros Hi Hj HW HQ. unfold provision_one.
  apply wp_op_bind; [by apply debts_ok_empty|]. intros S1 g HS1 Hg.
  apply wp_op_bind; [by apply debts_ok_empty|]. split; [done|]. intros S2 HS2.
  apply wp_op_bind; [by apply debts_ok_empty|]. split; [lia|]. intros S3 ids err HS3 Hids.
  assert (S ⊑b S3) as HS03 by (etrans; [exact HS1|by etrans]). cbv beta iota.
  destruct err as [e|]; [split; [by apply debts_ok_empty|by apply HQ]|].
  destruct ids as [|id ids]; [by destruct (Hids eq_refl)|].
  unfold index. cbn [lookup list_lookup]. rewrite ret_bind.
  apply wp_op_bind; [by apply debts_ok_empty|]. split; [destruct HS03; lia|]. left.
  split; [done|]. intros S4 HS4. assert (S ⊑b S4) as HS04 by by etrans.
  destruct (serial_renders g Hg) as [name Hname]. rewrite Hname, ret_bind.
  rewrite gmultiset_disj_union_right_id.
  assert (W < b_wgs S4)%nat as HW4 by (destruct HS04; lia).
  split; [by apply debts_ok_one|]. exists {[+ W +]}, ∅, None, None.
  split_and!; [by rewrite gmultiset_disj_union_right_id|by left|by apply wp_activateONU|].
  split; [by apply debts_ok_empty|by apply HQ].
Qed.

Lemma wp_provision_batch ponPorts per i S Q :
  ponPorts = Z.of_nat mgrs -> 0 <= i < Z.of_nat mgrs -> (W < b_wgs S)%nat ->
  (forall S', S ⊑b S' -> Q tt S' ∅ None) ->
  wp (provision_batch cfg ponPorts per W i) S ∅ None Q.
Proof.
  intros -> Hi HW HQ. unfold provision_batch.
  apply wp_bind, wp_for_each; [by apply debts_ok_empty| |].
  - intros j S1 Q1 Hj%elem_of_seqZ HS1 _ HQ1.
    assert (W < b_wgs S1)%nat as HW1 by (destruct HS1; lia).
    apply wp_for_each; [by apply debts_ok_empty| |done].
    intros k S2 Q2 _ HS2 _ HQ2. apply wp_provision_one; [done|lia|destruct HS2; lia|done].
  - intros S1 HS1. split; [by apply debts_ok_empty|]. split_and!; [destruct HS1; lia| |].
    + by intros h ?%gmultiset_not_elem_of_empty.
    + intros S2 HS2. split; [by apply debts_ok_empty|]. apply HQ. by etrans.
Qed.

(** [provisionONUs] after the creation of its WaitGroup. *)
Definition after_new_wg (di : DeviceInfo) (g : nat) : prog unit :=
  _ ← (if negb (isPowerOfTwo (NumOfOnu cfg)) then Ret tt
       else if NumOfOnu cfg <? di_PonPorts di then Ret tt
       else if di_PonPorts di =? 0 then Panic DivideByZero
       else
         match onusPerIterationPerPonPort (NumOfOnu cfg / di_PonPorts di) with
         | None => Ret tt
         | Some per =>
             _ ← op OpNow;
             if per =? 0 then Panic DivideByZero else
             _ ← for_each (seqZ 0 (u32 (NumOfOnu cfg / di_PonPorts di) / per))
                   (provision_batch cfg (di_PonPorts di) per g);
             _ ← op OpNow;
             Ret tt
         end);
  op OpKillSelf.

Lemma provisionONUs_eq di : provisionONUs cfg di = Do OpNewWg (after_new_wg di).
Proof. done. Qed.

(** The number of batches is at most the number of PON ports. *)
Definition batches_ok (di : DeviceInfo) : Prop :=
  forall per, onusPerIterationPerPonPort (NumOfOnu cfg / di_PonPorts di) = Some per ->
    u32 (NumOfOnu cfg / di_PonPorts di) / per <= di_PonPorts di.

Lemma wp_after_new_wg di S :
  0 < di_PonPorts di -> di_PonPorts di = Z.of_nat mgrs -> 0 <= NumOfOnu cfg < 2 ^ 32 ->
  batches_ok di -> (W < b_wgs S)%nat -> wp (after_new_wg di W) S ∅ None paid.
Proof.
  intros Hp Hm Hn Hb HW. unfold after_new_wg. apply wp_bind.
  assert (forall S', S ⊑b S' -> wp (op OpKillSelf) S' ∅ None paid) as Hkill.
  { intros S' HS'. split; [by apply debts_ok_empty|]. intros S2 HS2.
    split; [by apply debts_ok_empty|done]. }
  assert (wp (Ret tt) S ∅ None (fun a S' D' O' => wp (op OpKillSelf) S' D' O' paid)) as Hret
    by (split; [by apply debts_ok_empty|by apply Hkill]).
  destruct (isPowerOfTwo (NumOfOnu cfg)); cbn [negb]; [|exact Hret].
  destruct (Z.ltb_spec (NumOfOnu cfg) (di_PonPorts di)) as [|Hge]; [exact Hret|].
  destruct (Z.eqb_spec (di_PonPorts di) 0) as [|_]; [lia|].
  destruct (onusPerIterationPerPonPort (NumOfOnu cfg / di_PonPorts di)) as [per|] eqn:Hper; [|exact Hret].
  specialize (Hb per Hper).
  assert (per <> 0) as Hper0.
  { rewrite onusPerIteration_cases in Hper. injection Hper as <-.
    assert (1 <= NumOfOnu cfg / di_PonPorts di) by (apply Z.div_le_lower_bound; lia).
    assert (NumOfOnu cfg / di_PonPorts di <= NumOfOnu cfg) by (apply Z.div_le_upper_bound; nia).
    rewrite u32_small by lia. zbool; lia. }
  apply wp_op_bind; [by apply debts_ok_empty|]. intros S1 start HS1.
  destruct (Z.eqb_spec per 0) as [|_]; [done|].
  apply wp_bind, wp_for_each; [by apply debts_ok_empty| |].
  - intros i S2 Q Hi%elem_of_seqZ HS2 _ HQ. assert (S ⊑b S2) as (? & _) by by etrans.
    apply wp_provision_batch; [done|lia|lia|done].
  - intros S2 HS2. apply wp_op_bind; [by apply debts_ok_empty|]. intros S3 e HS3.
    split; [by apply debts_ok_empty|]. apply Hkill. by do 2 etrans.
Qed.

End completion.

(** ** The whole program *)

(** The store when provisioning starts: no ONU, subscriber or WaitGroup yet, a
    resource manager for every PON, each knowing of at least one PON port. *)
Record start_ok `{Env} (di : DeviceInfo) (w : World) : Prop := {
  so_wgs : w_wgs w = [];
  so_onus : w_onus w = [];
  so_map : w_onuMap w = ∅;
  so_serial : 1000 <= vendorSpecificId (w_globals w);
  so_mgrs : di_PonPorts di = Z.of_nat (length (w_rsrMgr w));
  so_mgr : forall m r, w_rsrMgr w !! m = Some r ->
             exists r', r = Some r' /\ di_PonPorts (rm_deviceInfo r') <> 0;
  so_subs : w_subs w = [];
}.

(** What the run needs of its configuration. *)
Record run_ok (cfg : OpenOltScaleTesterConfig) (di : DeviceInfo) : Prop := {
  ro_cfg : cfg_ok cfg;
  ro_pons : 0 < di_PonPorts di;
  ro_onus : 0 <= NumOfOnu cfg < 2 ^ 32;
  ro_batches : batches_ok cfg di;
}.

(** *** The last action of provisioning *)

Section kill.
Context `{Env}.

Lemma exec_killed {X} (o : Op X) w x w' :
  exec o w = Done x w' -> w_killed w = true -> w_killed w' = true.
Proof.
  destruct o; cbv [exec with_mgr wg_add]; intros Ho Hk;
    repeat match type of Ho with
    | context [match ?e with _ => _ end] => destruct e
    end; try discriminate; by injection Ho as <- <-.
Qed.

Lemma step_killed pool w pool' w' :
  step (Running pool w) (Running pool' w') -> w_killed w = true -> w_killed w' = true.
Proof.
  intros Hs Hk. inversion Hs as [? ? j p p' ? sp Hj Hp|]; subst.
  destruct p as [a|r|X o k|c k]; cbn in Hp; [done..| |by injection Hp as <- <- <-].
  destruct (exec o w) eqn:Ho; [|done..]. injection Hp as <- <- <-. by eapply exec_killed.
Qed.

(** Goroutine [i] has yet to end the process, or it has. *)
Definition kill_inv (i : nat) (pool : list (prog unit)) (w : World) : Prop :=
  w_killed w = true \/ exists q : prog unit, pool !! i = Some (q ≫= fun _ => op OpKillSelf).

Lemma kill_step i pool w pool' w' :
  kill_inv i pool w -> step (Running pool w) (Running pool' w') -> kill_inv i pool' w'.
Proof.
  intros Hk Hs. pose proof (step_killed _ _ _ _ Hs) as Hmono.
  inversion Hs as [? ? j p p' ? sp Hj Hp|]; subst.
  destruct Hk as [Hk|[q Hq]]; [left; auto|]. destruct (decide (i = j)) as [->|Hij].
  - rewrite Hq in Hj. injection Hj as <-. apply lookup_lt_Some in Hq as Hlt.
    assert (forall p0, (<[j := p0]> pool ++ sp) !! j = Some p0) as Hj'.
    { intros p0. rewrite lookup_app_l by (by rewrite length_insert). by apply list_lookup_insert_eq. }
    destruct q as [[]|r|X o k|c k]; cbn in Hp.
    + injection Hp as <- <- <-. by left.
    + done.
    + destruct (exec o w) as [x w1| |]; [|done..]. injection Hp as <- <- <-. right. by exists (k x).
    + injection Hp as <- <- <-. right. by exists k.
  - right. exists q. apply lookup_lt_Some in Hq as Hlt.
    rewrite lookup_app_l by (by rewrite length_insert). by rewrite list_lookup_insert_ne.
Qed.

Lemma kill_done i pool w : kill_inv i pool w -> Forall (fun p => p = Ret tt) pool -> w_killed w = true.
Proof.
  intros [Hk|[q Hq]] Hret; [done|]. rewrite Forall_lookup in Hret.
  specialize (Hret i _ Hq). by destruct q as [[]| | |].
Qed.

End kill.

(** The end every execution should come to: every goroutine has returned, no
    WaitGroup has anything outstanding, and the process has been signalled. *)
Definition completed `{Env} (c : Runtime.config) : Prop :=
  exists pool w, c = Running pool w /\ Forall (fun p => p = Ret tt) pool
    /\ (forall g, counter w g = 0) /\ w_killed w = true.

Section whole.
Context `{Env}.
Variables (cfg : OpenOltScaleTesterConfig) (di : DeviceInfo) (extra : list (prog unit)).
Hypothesis Hgood : good_env.
Hypothesis Hrun : run_ok cfg di.
Hypothesis Hextra : Forall (fun p => p = Ret tt) extra.

Let mgrs : nat := Z.to_nat (di_PonPorts di).

(** Provisioning, with goroutines that have returned: not begun, or begun. *)
Inductive provisioning : Runtime.config -> Prop :=
  | prov_start w : start_ok di w -> provisioning (Running (extra ++ [provisionONUs cfg di]) w)
  | prov_run pool w :
      inv cfg mgrs 0 pool w -> kill_inv (length extra) pool w -> provisioning (Running pool w).

Lemma inv_returned pool w :
  inv cfg mgrs 0 pool w -> Forall (fun p => p = Ret tt) pool -> forall g, counter w g = 0.
Proof.
  intros (R & -> & HR) Hret g. rewrite (tk_debt _ _ _ _ _ HR).
  assert (forall D, D ∈ th_debt <$> R -> D = ∅) as HD.
  { intros D (t & -> & Ht)%list_elem_of_fmap. pose proof (tk_wp _ _ _ _ _ HR) as Hwp.
    rewrite Forall_forall in Hwp. rewrite Forall_forall in Hret. specialize (Hwp t Ht).
    rewrite (Hret (th_prog t)) in Hwp by by apply list_elem_of_fmap_2. by destruct Hwp as [_ ?]. }
  assert (g ∉ ⋃+ (th_debt <$> R)) as Hg0.
  { intros (D & HD' & Hin)%elem_of_gmultiset_disj_union_list. rewrite (HD D HD') in Hin.
    by apply gmultiset_not_elem_of_empty in Hin. }
  apply not_elem_of_multiplicity in Hg0. by rewrite Hg0.
Qed.

Lemma inv_first w :
  start_ok di w -> inv cfg mgrs 0 (extra ++ [after_new_wg cfg di 0]) (set_wgs [0] w).
Proof.
  intros Hs. destruct Hrun as [H1 H2 H3 H4]. pose proof (so_mgrs _ _ Hs) as Hm.
  assert (length (w_rsrMgr w) = mgrs) as Hlen by (subst mgrs; lia).
  set (idle p := {| th_prog := p; th_debt := ∅; th_own := None |}).
  exists (idle <$> (extra ++ [after_new_wg cfg di 0])).
  split; [by rewrite <-list_fmap_compose, list_fmap_id|]. split.
  - apply Forall_fmap, Forall_app. split.
    + eapply Forall_impl; [exact Hextra|]. intros p ->. split; [by apply debts_ok_empty|done].
    + constructor; [|done]. apply wp_after_new_wg; try done; [lia|cbn; lia].
  - split; cbn; [done|apply (so_mgr _ _ Hs)| |apply (so_serial _ _ Hs)|].
    + rewrite (so_onus _ _ Hs). by intros a d.
    + rewrite (so_map _ _ Hs). by intros k a.
  - intros g. rewrite <-list_fmap_compose.
    assert (⋃+ ((th_debt ∘ idle) <$> (extra ++ [after_new_wg cfg di 0])) = ∅) as ->.
    { induction (extra ++ _) as [|p l IH]; [done|]. rewrite fmap_cons, gmultiset_disj_union_list_cons.
      rewrite IH. apply gmultiset_disj_union_left_id. }
    unfold counter. cbn. by destruct g.
  - apply Forall_fmap, Forall_forall. by intros p _ a s.
  - assert (omap own_addr (idle <$> (extra ++ [after_new_wg cfg di 0])) = []) as ->; [|constructor].
    by induction (extra ++ _) as [|p l IH].
Qed.

Lemma provisioning_step c c' : provisioning c -> step c c' -> provisioning c'.
Proof.
  intros [w Hs|pool w Hi Hk] Hc.
  - rewrite provisionONUs_eq in Hc.
    assert (forall i p, (extra ++ [Do OpNewWg (after_new_wg cfg di)]) !! i = Some p ->
      p = Ret tt \/ i = length extra /\ p = Do OpNewWg (after_new_wg cfg di)) as Hpool.
    { intros i p [Hp|[Hi Hp]]%lookup_app_Some.
      - left. rewrite Forall_lookup in Hextra. by eapply Hextra.
      - right. apply list_lookup_singleton_Some in Hp as [Hp <-]. split; [lia|done]. }
    inversion Hc as [? ? i p p' w' sp Hi Hp|? ? i p r Hi Hp]; subst;
      destruct (Hpool i p Hi) as [->|[-> ->]]; try done.
    cbn in Hp. injection Hp as <- <- <-. rewrite (so_wgs _ _ Hs). cbn [length app].
    rewrite app_nil_r, insert_app_r_alt, Nat.sub_diag by lia. cbn [list_insert insert].
    apply prov_run; [by apply inv_first|]. right. eexists.
    by rewrite lookup_app_r, Nat.sub_diag by lia.
  - destruct (inv_step cfg mgrs 0 pool w c' Hgood Hi Hc) as (pool' & w' & -> & Hi').
    apply prov_run; [done|]. by eapply kill_step.
Qed.

Lemma provisioning_stuck c : provisioning c -> (forall c', ~ step c c') -> completed c.
Proof.
  intros [w Hs|pool w Hi Hk] Hno.
  - exfalso. rewrite provisionONUs_eq in Hno. eapply Hno.
    eapply (step_thread _ _ (length extra)); [by rewrite lookup_app_r, Nat.sub_diag by lia|done].
  - exists pool, w. pose proof (inv_stuck cfg mgrs 0 pool w Hgood Hi Hno) as Hret.
    split_and!; [done..|by eapply inv_returned|by eapply kill_done].
Qed.

End whole.
