(* ===== verification/Supply.v ===== *)
(** * Managers that can supply what a run needs

    The pools behind the profile managers are finite, so that no manager can make
    an instance in every state.  What the program needs of it is an interface,
    [Supplier]: in a state that [supplies] a list of PONs, an instance can be made
    for each of them.  A goroutine has a stake in that supply: the instances still
    to be made by it and the goroutines it starts.  As long as every goroutine keeps
    to its stake the managers answer as ones that never fail ([repaired]) would, and
    the steps of the two environments are the same; so the completion of Completion
    carries over.  TechInstance shows when voltha-lib-go has such a supply. *)
From stdpp Require Import gmultiset.
From S2P Require Import Prelude Utils Proto Config Runtime Play Judgement Samples TechProfile ResourceManager WorkflowUtils AttWorkflow DtWorkflow TtWorkflow WorkflowManager SubscriberManager OnuManager OltManager Typing Termination WaitGroups Completion.

(** ** The interface *)

Class Supplier `{Env} := {
  supplies : tp_state -> list Z -> Prop;
  good_id : Z -> Prop;  (* of an ONU *)
  supplies_sub st D D' : D' ⊆+ D -> supplies st D -> supplies st D';
  supplies_get m j st ids err st' D :
    supplies st D -> tp_GetResourceID m j ONU_ID 1 st = ((ids, err), st') ->
    supplies st' D /\ (err = None -> ids <> [] /\ Forall good_id ids);
  supplies_create m tpID j onu uni st D :
    supplies st (j :: D) -> 0 <= j -> good_id onu -> 0 <= uni ->
    exists inst st', tp_CreateTechProfileInstance m tpID (uniPortName j onu uni) j st = (inr (Some inst, None), st')
      /\ tp_ok inst /\ supplies st' D;
}.

(** The agent activates every ONU. *)
Definition activates_all `{Env} : Prop := forall tr onu, (device tr (RpcActivateOnu onu)).1 = OK.

(** Managers that never fail supply anything. *)
Definition good_supplier `{Env} (Hgood : good_env) : Supplier.
Proof.
  refine (Build_Supplier _ (fun _ _ => True) (fun _ => True) _ _ _); [done|..].
  - intros m j st ids err st' D _ Hg. split; [done|]. intros ->. split; [|by apply Forall_true].
    pose proof (ge_ids Hgood m j ONU_ID 1 st) as Hids. rewrite Hg in Hids. by apply Hids.
  - intros m tpID j onu uni st D _ _ _ _. destruct (ge_tp Hgood m tpID (uniPortName j onu uni) j st) as (inst & He & Hok).
    destruct (tp_CreateTechProfileInstance m tpID (uniPortName j onu uni) j st) as [r st']. cbn in He. subst r.
    by exists inst, st'.
Defined.

(** ** Managers that never fail *)

Definition plain_scheduler : SchedulerAttributes :=
  {| sa_Direction := Direction_UPSTREAM; sa_AllocId := 0; sa_AdditionalBw := AdditionalBW_BestEffort;
     sa_Priority := 0; sa_Weight := 0; sa_QSchedPolicy := SchedulingPolicy_Hybrid |}.

Definition plain_instance : TechProfileInstance :=
  {| UsScheduler := Some plain_scheduler; DsScheduler := Some plain_scheduler;
     UpstreamGemPortAttributeList := []; DownstreamGemPortAttributeList := [] |}.

#[local] Instance tp_ok_dec inst : Decision (tp_ok inst).
Proof. unfold tp_ok. apply _. Defined.

Definition repaired_ids (r : list Z * option GoError) : list Z * option GoError :=
  match r with ([], None) => ([0], None) | _ => r end.

Definition repaired_instance (r : PanicReason + (option TechProfileInstance * option GoError))
    : PanicReason + (option TechProfileInstance * option GoError) :=
  match r with
  | inr (Some inst, None) => if decide (tp_ok inst) then r else inr (Some plain_instance, None)
  | _ => inr (Some plain_instance, None)
  end.

Definition repaired (E : Env) : Env := {|
  device := device; rand_src := rand_src; clock := clock;
  tp_state := @tp_state E;
  tp_GetResourceID := fun m j t n st => let '(r, st') := tp_GetResourceID m j t n st in (repaired_ids r, st');
  tp_CreateTechProfileInstance := fun m tpID name j st =>
    let '(r, st') := tp_CreateTechProfileInstance m tpID name j st in (repaired_instance r, st');
|}.

Section repair.
Context {E : Env}.

Definition rworld (w : @World E) : @World (repaired E) :=
  @Build_World (repaired E) (w_trace w) (w_rsrMgr w) (w_globals w) (w_lastPonIntf w) (w_onus w) (w_onuMap w)
    (w_subs w) (w_wgs w) (w_rand w) (w_clock w) (w_tp w : @tp_state (repaired E)) (w_killed w).

Definition rconfig (c : @Runtime.config E) : @Runtime.config (repaired E) :=
  match c with
  | Running pool w => @Running (repaired E) pool (rworld w)
  | Crashed r => @Crashed (repaired E) r
  end.

Lemma repaired_good : activates_all (H := E) -> good_env (H := repaired E).
Proof.
  intros Ha. split; [exact Ha|..].
  - intros m j t n st. cbn in *. destruct (tp_GetResourceID m j t n st) as [[[|id ids] [e|]] st']; by intros.
  - intros m tpID name j st. cbn in *. destruct (tp_CreateTechProfileInstance m tpID name j st) as [r st']. cbn.
    assert (exists inst : TechProfileInstance, inr (A := PanicReason) (Some plain_instance, @None GoError)
      = inr (Some inst, None) /\ tp_ok inst) as Hp by (exists plain_instance; split; [done|split; by eexists]).
    destruct r as [e|[[inst|] [e|]]]; try done. cbn. destruct (decide (tp_ok inst)); [by exists inst|done].
Qed.

(** The operations whose answer is left alone. *)
Definition sound_op {X : Type} (o : Op X) (w : @World E) : Prop :=
  match o with
  | OpGetResourceID m j t n =>
      forall ids st', tp_GetResourceID m j t n (w_tp w) = ((ids, None), st') -> ids <> []
  | OpCreateTechProfileInstance m tpID name j =>
      exists inst st', tp_CreateTechProfileInstance m tpID name j (w_tp w) = (inr (Some inst, None), st')
        /\ tp_ok inst
  | _ => True
  end.

Definition rresult {X} (r : @result E X) : @result (repaired E) X :=
  match r with
  | Done x w => @Done (repaired E) X x (rworld w)
  | Blocked => @Blocked (repaired E) X
  | Crash e => @Crash (repaired E) X e
  end.

Lemma exec_repaired {X} (o : Op X) (w : @World E) :
  sound_op o w -> @exec (repaired E) X o (rworld w) = rresult (@exec E X o w).
Proof.
  intros Ho. destruct o; cbv [exec with_mgr wg_add]; cbn -[GetCtag GetStag GenerateNextONUSerialNumber];
    try (by repeat case_match).
  - destruct (w_rsrMgr w !! mgr) as [[m|]|]; [|done..]. cbn in Ho.
    destruct (tp_GetResourceID mgr intf t n (w_tp w)) as [[ids [e|]] st'].
    + by destruct ids.
    + destruct ids; [|done]. by destruct (Ho [] st').
  - destruct (w_rsrMgr w !! mgr) as [[m|]|]; [|done..]. destruct Ho as (inst & st' & -> & Hok). cbn.
    by rewrite decide_True.
Qed.

(** The first operation of a goroutine is sound. *)
Definition sound_prog (w : @World E) (p : prog unit) : Prop :=
  match p with Do o _ => sound_op o w | _ => True end.

Definition rthread (r : @thread_result E) : @thread_result (repaired E) :=
  match r with
  | TNext p w sp => @TNext (repaired E) p (rworld w) sp
  | TFinished => @TFinished (repaired E)
  | TBlocked => @TBlocked (repaired E)
  | TCrash e => @TCrash (repaired E) e
  end.

Lemma thread_repaired p w :
  sound_prog w p -> @thread_step (repaired E) p (rworld w) = rthread (@thread_step E p w).
Proof.
  destruct p as [a|e|X o k|c k]; cbn; [done..| |done]. intros Ho. rewrite exec_repaired by done.
  by destruct (exec o w).
Qed.

Lemma step_repaired pool w c :
  Forall (sound_prog w) pool -> @step E (Running pool w) c -> @step (repaired E) (rconfig (Running pool w)) (rconfig c).
Proof.
  intros Hp Hs. rewrite Forall_lookup in Hp.
  inversion Hs as [? ? i p p' w' sp Hi Ht|? ? i p r Hi Ht]; subst.
  - eapply (step_thread (H := repaired E)); [exact Hi|]. rewrite thread_repaired by by eapply Hp. by rewrite Ht.
  - eapply (step_crash (H := repaired E)); [exact Hi|]. rewrite thread_repaired by by eapply Hp. by rewrite Ht.
Qed.

Lemma stuck_repaired pool w :
  Forall (sound_prog w) pool -> (forall c, ~ @step E (Running pool w) c) ->
  forall c, ~ @step (repaired E) (rconfig (Running pool w)) c.
Proof.
  intros Hp Hno c Hs. rewrite Forall_lookup in Hp.
  inversion Hs as [? ? i p p' w' sp Hi Ht|? ? i p r Hi Ht]; subst;
    rewrite thread_repaired in Ht by by eapply Hp.
  - destruct (thread_step p w) as [p1 w1 sp1| | |r1] eqn:E1; try done. by eapply Hno, step_thread.
  - destruct (thread_step p w) as [p1 w1 sp1| | |r1] eqn:E1; try done. by eapply Hno, step_crash.
Qed.

End repair.

(** ** Stakes *)

(** The PONs of the instances still to be made, and what the goroutine knows: the
    PON of the ONU object, and of the subscriber, at an address. *)
Record stake := {
  due : list Z;
  at_onu : option (nat * Z);
  at_sub : option (nat * Z);
}.

Definition knows_onu (a : nat) (pon : Z) (r : stake) : stake := {| due := due r; at_onu := Some (a, pon); at_sub := at_sub r |}.
Definition knows_sub (a : nat) (pon : Z) (r : stake) : stake := {| due := due r; at_onu := at_onu r; at_sub := Some (a, pon) |}.
Definition set_due (D : list Z) (r : stake) : stake := {| due := D; at_onu := at_onu r; at_sub := at_sub r |}.

Section stakes.
Context `{Supplier}.
Variable cfg : OpenOltScaleTesterConfig.

Definition onu_wf (d : OnuDevice) : Prop := onu_testConfig d = cfg /\ good_id (onu_OnuID d) /\ 0 <= onu_PonIntf d.
Definition sub_wf (s : Subscriber) : Prop := TestConfig s = cfg /\ good_id (OnuID s) /\ 0 <= UniID s /\ 0 <= PonIntf s.

Definition op_stakes {X : Type} (o : Op X) (r : stake) (K : X -> stake -> Prop) : Prop :=
  match o in Op X return (X -> stake -> Prop) -> Prop with
  | OpRpc _ => fun K => forall e, told e -> K e r
  | OpRandIntn k => fun K => forall v, (0 < k -> 0 <= v < k) -> K v r
  | OpGetFlowID _ => fun K => forall v, is_u64 v -> K v r
  | OpGetResourceID _ _ t n => fun K => t = ONU_ID /\ n = 1 /\
      forall ids err, (err = None -> ids <> [] /\ Forall good_id ids) -> K (ids, err) r
  | OpCreateTechProfileInstance _ _ name j => fun K => exists D onu uni,
      due r ≡ₚ j :: D /\ name = uniPortName j onu uni /\ 0 <= j /\ good_id onu /\ 0 <= uni
      /\ forall inst, K (Some inst, None) (set_due D r)
  | OpNewOnu d => fun K => onu_wf d /\ forall a, K a (knows_onu a (onu_PonIntf d) r)
  | OpLoadOnu a => fun K => forall d, onu_wf d -> (forall pon, at_onu r = Some (a, pon) -> onu_PonIntf d = pon) -> K d r
  | OpStoreOnu a d => fun K => onu_wf d /\ at_onu r = Some (a, onu_PonIntf d) /\ K tt r
  | OpSetOnuMap k a => fun K => at_onu r = Some (a, key_ponInfID k) /\ K tt r
  | OpGetOnuMap k => fun K => forall a, K a (knows_onu a (key_ponInfID k) r)
  | OpNewSub s => fun K => sub_wf s /\ forall a, K a (knows_sub a (PonIntf s) r)
  | OpLoadSub a => fun K => forall s, sub_wf s -> (forall pon, at_sub r = Some (a, pon) -> PonIntf s = pon) -> K s r
  | OpStoreSub a s => fun K => sub_wf s /\ at_sub r = Some (a, PonIntf s) /\ K tt r
  | _ => fun K => forall x, K x r
  end K.

Lemma op_stakes_mono {X} (o : Op X) r (K K' : X -> stake -> Prop) :
  op_stakes o r K -> (forall x r', K x r' -> K' x r') -> op_stakes o r K'.
Proof.
  intros Ho HK. destruct o; cbn in *; auto; try (destruct_and! Ho; split_and!; by auto).
  destruct Ho as (D & onu & uni & Ho). exists D, onu, uni. destruct_and! Ho. split_and!; auto.
Qed.

(** Knowledge is shared; the supply is divided. *)
#[local] Instance stake_logic : Logic stake := {
  allows := @op_stakes;
  splits r rc rk := due r ≡ₚ due rc ++ due rk /\ (at_onu rc = at_onu r /\ at_sub rc = at_sub r)
                    /\ (at_onu rk = at_onu r /\ at_sub rk = at_sub r);
  allows_mono := @op_stakes_mono;
}.

#[local] Instance stake_neutral : Neutral stake (fun _ => True).
Proof. split; intros; cbn; auto. Qed.

(** ** The program and its stakes *)

(** A goroutine is given a part of what is due. *)
Lemma stake_go {A} c (k : prog A) r D D' (Q : A -> stake -> Prop) :
  due r ≡ₚ D ++ D' -> judge c (set_due D r) anything -> judge k (set_due D' r) Q -> judge (Go c k) r Q.
Proof. intros Hr Hc Hk. exists (set_due D r), (set_due D' r). by split_and!. Qed.

(** A loop whose body makes the instances of [f x]. *)
Lemma stake_for_each {A} (l : list A) body (f : A -> list Z) (J : stake -> Prop) D r Q :
  (forall x D r Q, x ∈ l -> J r -> f x ++ D ⊆+ due r -> (forall r', J r' -> D ⊆+ due r' -> Q tt r') ->
     judge (body x) r Q) ->
  J r -> (l ≫= f) ++ D ⊆+ due r -> (forall r', J r' -> D ⊆+ due r' -> Q tt r') -> judge (for_each l body) r Q.
Proof.
  intros Hb. revert r. induction l as [|x l IH]; intros r HJ Hr HQ; [by apply HQ|].
  rewrite for_each_cons. apply judge_bind, (Hb x ((l ≫= f) ++ D)); [by left|done|by rewrite app_assoc|].
  intros r' HJ' Hr'. apply IH; try done. intros y D' r2 Q' Hy. apply Hb. by right.
Qed.

Lemma stake_DeployWorkflow a isGroup pon r : at_sub r = Some (a, pon) -> judge (DeployWorkflow a isGroup) r anything.
Proof.
  intros Ha. apply judge_op_bind. intros s Hs Hpon. apply judge_deref_bind. intros wf Hwf.
  apply judge_bind. eapply sends_judge.
  - eapply sends_mono; [by apply (sends_deploy_reason s wf)|done..].
  - intros reason _. apply judge_op_bind. split_and!; [done|by rewrite Ha; cbn; rewrite (Hpon pon Ha)|].
    by apply judge_op.
Qed.

Lemma stake_create_tp_instances a ids pon D r Q :
  at_sub r = Some (a, pon) -> due r ≡ₚ replicate (length ids) pon ++ D ->
  (forall b r', at_sub r' = Some (a, pon) -> due r' ≡ₚ D -> Q b r') -> judge (create_tp_instances a ids) r Q.
Proof.
  intros Ha Hr HQ. revert r Ha Hr. induction ids as [|id ids IH]; intros r Ha Hr; [by apply HQ|].
  cbn [create_tp_instances]. apply judge_op_bind. intros s (Hs1 & Hs2 & Hs3 & Hs4) Hpon. specialize (Hpon pon Ha).
  apply judge_op_bind. eexists _, (OnuID s), (UniID s). rewrite Hpon. split_and!; [exact Hr|done|lia|done..|].
  intros inst. apply judge_op_bind. rewrite <-Hpon in Ha. split_and!; [done|done|]. rewrite Hpon in Ha. by apply IH.
Qed.

(** The instances of one subscriber, and of one ONU. *)
Definition sub_due (pon : Z) : list Z := replicate (length (TpIDList cfg)) pon.
Definition onu_due (pon : Z) : list Z := seqZ 0 (SubscribersPerOnu cfg) ≫= fun _ => sub_due pon.

Lemma stake_Subscriber_Start a isGroup pon r :
  at_sub r = Some (a, pon) -> due r = sub_due pon -> judge (Subscriber_Start a isGroup) r anything.
Proof.
  intros Ha Hr. apply judge_op_bind. intros s Hs Hpon. specialize (Hpon pon Ha).
  apply judge_op_bind. split_and!; [done|by cbn; rewrite Hpon|]. apply judge_bind.
  apply (stake_create_tp_instances _ _ pon []); [done| |].
  - destruct Hs as [-> _]. by rewrite app_nil_r, Hr.
  - intros [|] r' Ha' Hr'; [|done]. apply (stake_go _ _ _ [] (due r')); [done|by eapply stake_DeployWorkflow|done].
Qed.

Lemma stake_start_subscriber a g i pon D r Q :
  at_onu r = Some (a, pon) -> sub_due pon ++ D ⊆+ due r ->
  (forall r', at_onu r' = Some (a, pon) -> D ⊆+ due r' -> Q tt r') -> judge (start_subscriber a g i) r Q.
Proof.
  intros Ha Hr HQ. apply judge_op_bind. intros onu (Ho1 & Ho2 & Ho3) Hpon. specialize (Hpon pon Ha).
  apply judge_bind. apply judge_op_bind. intros ctag. apply judge_op_bind. intros stag. cbn [judge].
  apply judge_op_bind. split; [split_and!; try done; apply u32_range|]. intros sa.
  apply judge_op_bind. split_and!; [done|by cbn; rewrite Hpon|]. apply judge_op_bind. intros [].
  apply submseteq_Permutation in Hr as [l Hr]. rewrite <-app_assoc in Hr.
  eapply stake_go; [exact Hr| |].
  - apply (stake_Subscriber_Start _ _ pon); [by cbn; rewrite Hpon|done].
  - apply HQ; [done|]. cbn. by apply submseteq_inserts_r.
Qed.

Lemma stake_OnuDevice_Start a pon r :
  at_onu r = Some (a, pon) -> onu_due pon ⊆+ due r -> judge (OnuDevice_Start a) r anything.
Proof.
  intros Ha Hr. apply judge_op_bind. intros onu Hwf Hpon. specialize (Hpon pon Ha).
  apply judge_op_bind. split_and!; [done|by cbn; rewrite Hpon|]. apply judge_op_bind. intros g. apply judge_bind.
  apply (stake_for_each _ _ (fun _ => sub_due pon) (fun r => at_onu r = Some (a, pon)) []); [|done| |].
  - intros i D r' Q _ Ha' Hr' HQ. by apply (stake_start_subscriber _ _ _ pon D).
  - destruct Hwf as [-> _]. by rewrite app_nil_r.
  - intros r' _ _. apply judge_op_bind. by intros [] [].
Qed.

Lemma stake_activateONU intf onuID sn name g r :
  0 <= intf -> good_id onuID -> onu_due intf ⊆+ due r -> judge (activateONU cfg intf onuID sn name g) r anything.
Proof.
  intros Hi Hid Hr. apply judge_op_bind. intros mgr. apply judge_op_bind. intros now.
  apply judge_op_bind. intros err _. apply judge_op_bind. split.
  { destruct err as [e|]; [case_decide|]; by split_and!. }
  intros a. apply judge_op_bind. split; [destruct err as [e|]; [case_decide|]; done|].
  destruct err as [e|]; [done|]. apply judge_op_bind. intros a'.
  apply (stake_go _ _ _ (due r) []); [by cbn; rewrite app_nil_r| |done].
  by apply (stake_OnuDevice_Start _ intf).
Qed.

Lemma stake_provision_one g i j k D r Q :
  0 <= j -> onu_due j ++ D ⊆+ due r -> (forall r', D ⊆+ due r' -> Q tt r') -> judge (provision_one cfg g i j k) r Q.
Proof.
  intros Hj Hr HQ. apply judge_op_bind. intros sn. apply judge_op_bind. intros mgr.
  apply judge_op_bind. split_and!; [done..|]. intros ids [e|] Hids.
  { apply HQ. etrans; [|exact Hr]. by apply submseteq_inserts_l. }
  destruct (Hids eq_refl) as [Hne Hok]. destruct ids as [|id ids]; [done|]. apply Forall_cons in Hok as [Hid _].
  apply judge_bind. cbn [index lookup judge]. apply judge_op_bind. intros []. apply judge_bind.
  destruct (stringifySerialNumber (Some sn)) as [name|]; [|done].
  apply submseteq_Permutation in Hr as [l Hr]. rewrite <-app_assoc in Hr.
  eapply stake_go; [exact Hr|by apply stake_activateONU|]. apply HQ. cbn. by apply submseteq_inserts_r.
Qed.

(** The instances of a run. *)
Definition instances_due (di : DeviceInfo) : list Z :=
  match onusPerIterationPerPonPort (NumOfOnu cfg / di_PonPorts di) with
  | Some per =>
      seqZ 0 (u32 (NumOfOnu cfg / di_PonPorts di) / per) ≫= fun _ =>
      seqZ 0 (di_PonPorts di) ≫= fun j => seqZ 0 per ≫= fun _ => onu_due j
  | None => []
  end.

Lemma stake_provisionONUs di r : instances_due di ⊆+ due r -> judge (provisionONUs cfg di) r anything.
Proof.
  intros Hr. apply judge_bind, judge_op_bind. intros g. cbv zeta.
  destruct (negb _); [done|]. destruct (_ <? _); [done|]. destruct (_ =? 0); [done|]. unfold instances_due in Hr.
  destruct (onusPerIterationPerPonPort _) as [per|]; [|done].
  apply judge_op_bind. intros start. destruct (per =? 0); [done|]. apply judge_bind.
  eapply (stake_for_each _ _ _ (fun _ => True) []); [|done|by rewrite app_nil_r|].
  - intros i D r1 Q _ _ Hr1 HQ. apply judge_bind.
    eapply (stake_for_each _ _ _ (fun _ => True) D); [|done|exact Hr1|].
    + intros j D' r2 Q' Hj%elem_of_seqZ _ Hr2 HQ'.
      eapply (stake_for_each _ _ _ (fun _ => True) D'); [|done|exact Hr2|done].
      intros k D2 r3 Q2 _ _ Hr3 HQ2. apply (stake_provision_one _ _ _ _ D2); [lia|done|]. intros r'. by apply HQ2.
    + intros r' _ Hr' []. by apply HQ.
  - intros r' _ _. apply judge_op_bind. by intros e.
Qed.

(** ** The supply of an execution *)

Definition onu_at (w : World) (a : nat) (pon : Z) : Prop :=
  exists d, w_onus w !! a = Some d /\ onu_PonIntf d = pon.
Definition sub_at (w : World) (a : nat) (pon : Z) : Prop :=
  exists s, w_subs w !! a = Some s /\ PonIntf s = pon.

Record knows (w : World) (r : stake) : Prop := {
  kn_onu : forall a pon, at_onu r = Some (a, pon) -> onu_at w a pon;
  kn_sub : forall a pon, at_sub r = Some (a, pon) -> sub_at w a pon;
}.

Record backed (w : World) (rs : list stake) : Prop := {
  bk_supply : supplies (w_tp w) (rs ≫= due);
  bk_onus : Forall onu_wf (w_onus w);
  bk_subs : Forall sub_wf (w_subs w);
  bk_map : forall k a, w_onuMap w !! k = Some a -> onu_at w a (key_ponInfID k);
  bk_knows : Forall (knows w) rs;
}.

Lemma backed_perm w rs rs' : rs ≡ₚ rs' -> backed w rs -> backed w rs'.
Proof.
  intros HR [H1 H2 H3 H4 H5]. split; [|done..|by rewrite <-HR].
  eapply supplies_sub; [|exact H1]. by rewrite HR.
Qed.

(** The objects stay where they are, with their PONs. *)
Record grows (w w' : World) : Prop := {
  gr_onu : forall a pon, onu_at w a pon -> onu_at w' a pon;
  gr_sub : forall a pon, sub_at w a pon -> sub_at w' a pon;
}.

Lemma grows_same w w' : w_onus w' = w_onus w -> w_subs w' = w_subs w -> grows w w'.
Proof. intros Ho Hs. split; unfold onu_at, sub_at; by rewrite ?Ho, ?Hs. Qed.

Lemma knows_grows w w' r : grows w w' -> knows w r -> knows w' r.
Proof. intros [G1 G2] [K1 K2]. split; auto. Qed.

(** A step of the first goroutine. *)
Lemma backed_step w w' r r' rs :
  backed w (r :: rs) -> grows w w' -> supplies (w_tp w') (due r' ++ (rs ≫= due)) ->
  Forall onu_wf (w_onus w') -> Forall sub_wf (w_subs w') ->
  (forall k a, w_onuMap w' !! k = Some a -> onu_at w' a (key_ponInfID k)) -> knows w' r' -> backed w' (r' :: rs).
Proof.
  intros [H1 H2 H3 H4 H5] Hg Hs Ho Hsub Hm Hk. split; try done. apply Forall_cons in H5 as [_ H5].
  constructor; [done|]. eapply Forall_impl; [exact H5|]. intros x. by apply knows_grows.
Qed.

(** Operations on other parts of the store. *)
Lemma backed_same w w' r rs :
  backed w (r :: rs) -> w_tp w' = w_tp w -> w_onus w' = w_onus w -> w_subs w' = w_subs w ->
  w_onuMap w' = w_onuMap w -> backed w' (r :: rs).
Proof.
  intros Hb Ht Ho Hs Hm. pose proof (grows_same w w' Ho Hs) as Hg. pose proof Hb as [H1 H2 H3 H4 H5].
  apply (backed_step w w' r r rs); rewrite ?Ht, ?Ho, ?Hs, ?Hm; try done.
  - intros k a Hk. by apply (gr_onu _ _ Hg), H4.
  - apply Forall_cons in H5 as [H5 _]. by eapply knows_grows.
Qed.

Lemma backed_tp w r rs D st :
  backed w (r :: rs) -> supplies st (D ++ (rs ≫= due)) -> backed (set_tp st w) (set_due D r :: rs).
Proof.
  intros Hb Hs. assert (grows w (set_tp st w)) as Hg by by apply grows_same. pose proof Hb as [H1 H2 H3 H4 H5].
  apply (backed_step w _ r); try done. apply Forall_cons in H5 as [H5 _].
  destruct (knows_grows _ _ _ Hg H5). by split.
Qed.

Lemma insert_keeps {A} (l : list A) a x b (P : A -> Prop) :
  (exists y, l !! b = Some y /\ P y) -> (a = b -> P x) -> exists y, <[a := x]> l !! b = Some y /\ P y.
Proof.
  intros (y & Hy & HP) Hx. destruct (decide (a = b)) as [->|Hne].
  - exists x. split; [|by apply Hx]. apply list_lookup_insert_eq. by eapply lookup_lt_Some.
  - exists y. by rewrite list_lookup_insert_ne.
Qed.

Lemma app_keeps {A} (l l' : list A) b (P : A -> Prop) :
  (exists y, l !! b = Some y /\ P y) -> exists y, (l ++ l') !! b = Some y /\ P y.
Proof. intros (y & Hy & HP). exists y. split; [by apply lookup_app_l_Some|done]. Qed.

Lemma backed_store_onu w r rs a d :
  backed w (r :: rs) -> onu_wf d -> at_onu r = Some (a, onu_PonIntf d) ->
  backed (set_onus (<[a := d]> (w_onus w)) w) (r :: rs).
Proof.
  intros Hb Hd Ha. pose proof Hb as [H1 H2 H3 H4 H5]. apply Forall_cons in H5 as [H5 _].
  destruct (kn_onu _ _ H5 _ _ Ha) as (d0 & Hd0 & Hp).
  assert (grows w (set_onus (<[a := d]> (w_onus w)) w)) as Hg.
  { split; [|done]. intros b pon Hb'. apply insert_keeps; [done|]. intros <-.
    destruct Hb' as (d1 & Hd1 & <-). congruence. }
  apply (backed_step w _ r); try done; [by apply Forall_insert| |by apply (knows_grows w)].
  intros k b Hk. by apply (gr_onu _ _ Hg), H4.
Qed.

Lemma backed_new_onu w r rs d :
  backed w (r :: rs) -> onu_wf d ->
  backed (set_onus (w_onus w ++ [d]) w) (knows_onu (length (w_onus w)) (onu_PonIntf d) r :: rs).
Proof.
  intros Hb Hd. pose proof Hb as [H1 H2 H3 H4 H5]. apply Forall_cons in H5 as [H5 _].
  assert (grows w (set_onus (w_onus w ++ [d]) w)) as Hg by (split; [intros b pon; apply app_keeps|done]).
  apply (backed_step w _ r); try done; [apply Forall_app; by split; [|constructor]| |].
  - intros k b Hk. by apply (gr_onu _ _ Hg), H4.
  - split; [|by apply (kn_sub _ _ H5)]. intros b pon [= <- <-]. exists d. cbn.
    by rewrite lookup_app_r, Nat.sub_diag by lia.
Qed.

Lemma backed_store_sub w r rs a s :
  backed w (r :: rs) -> sub_wf s -> at_sub r = Some (a, PonIntf s) ->
  backed (set_subs (<[a := s]> (w_subs w)) w) (r :: rs).
Proof.
  intros Hb Hs Ha. pose proof Hb as [H1 H2 H3 H4 H5]. apply Forall_cons in H5 as [H5 _].
  destruct (kn_sub _ _ H5 _ _ Ha) as (s0 & Hs0 & Hp).
  assert (grows w (set_subs (<[a := s]> (w_subs w)) w)) as Hg.
  { split; [done|]. intros b pon Hb'. apply insert_keeps; [done|]. intros <-.
    destruct Hb' as (s1 & Hs1 & <-). congruence. }
  apply (backed_step w _ r); try done; [by apply Forall_insert|by apply (knows_grows w)].
Qed.

Lemma backed_new_sub w r rs s :
  backed w (r :: rs) -> sub_wf s ->
  backed (set_subs (w_subs w ++ [s]) w) (knows_sub (length (w_subs w)) (PonIntf s) r :: rs).
Proof.
  intros Hb Hs. pose proof Hb as [H1 H2 H3 H4 H5]. apply Forall_cons in H5 as [H5 _].
  assert (grows w (set_subs (w_subs w ++ [s]) w)) as Hg by (split; [done|intros b pon; apply app_keeps]).
  apply (backed_step w _ r); try done; [apply Forall_app; by split; [|constructor]|].
  split; [by apply (kn_onu _ _ H5)|]. intros b pon [= <- <-]. exists s. cbn.
  by rewrite lookup_app_r, Nat.sub_diag by lia.
Qed.

Lemma backed_map w r rs k a :
  backed w (r :: rs) -> at_onu r = Some (a, key_ponInfID k) ->
  backed (set_onuMap (<[k := a]> (w_onuMap w)) w) (r :: rs).
Proof.
  intros Hb Ha. pose proof Hb as [H1 H2 H3 H4 H5]. apply Forall_cons in H5 as [H5 _].
  apply (backed_step w _ r); try done; [|by apply (knows_grows w); [apply grows_same|]].
  intros k' b. cbn. rewrite lookup_insert. case_decide as Hk; [|apply H4]. intros [= <-]. subst k'.
  by apply (kn_onu _ _ H5).
Qed.

(** What the managers answer to a goroutine that keeps to its stake. *)
Lemma backed_get w r rs m j :
  backed w (r :: rs) ->
  let '((ids, err), st) := tp_GetResourceID m j ONU_ID 1 (w_tp w) in
  supplies st (due r ++ (rs ≫= due)) /\ (err = None -> ids <> [] /\ Forall good_id ids).
Proof.
  intros Hb. destruct (tp_GetResourceID m j ONU_ID 1 (w_tp w)) as [[ids err] st] eqn:E.
  eapply supplies_get; [exact (bk_supply _ _ Hb)|exact E].
Qed.

Lemma backed_create w r rs m tpID j D onu uni :
  backed w (r :: rs) -> due r ≡ₚ j :: D -> 0 <= j -> good_id onu -> 0 <= uni ->
  exists inst st, tp_CreateTechProfileInstance m tpID (uniPortName j onu uni) j (w_tp w) = (inr (Some inst, None), st)
    /\ tp_ok inst /\ supplies st (D ++ (rs ≫= due)).
Proof.
  intros Hb Hr Hj Ho Hu. apply supplies_create; [|done..].
  eapply supplies_sub; [|exact (bk_supply _ _ Hb)]. cbn. by rewrite Hr.
Qed.

Lemma backed_exec {X} (o : Op X) w x w' r K rs :
  backed w (r :: rs) -> op_stakes o r K -> exec o w = Done x w' -> exists r', K x r' /\ backed w' (r' :: rs).
Proof.
  intros Hb Ho He. destruct o;
    try (exists r; cbv [exec with_mgr wg_add] in He;
         repeat match type of He with
         | context [match ?e with _ => _ end] => destruct e
         end; try discriminate; injection He as <- <-;
         split; [by apply Ho|by eapply backed_same]).
  - cbv [exec] in He. injection He as <- <-. exists r. split; [apply Ho, told_status|by eapply backed_same].
  - cbv [exec] in He. injection He as <- <-. exists r. split; [|by eapply backed_same].
    apply Ho. intros Hn. by apply Z.mod_pos_bound.
  - unfold exec, with_mgr in He. repeat case_match; try done. injection He as <- <-.
    exists r. split; [apply Ho, u64_range|by eapply backed_same].
  - destruct Ho as (-> & -> & HK). unfold exec, with_mgr in He. destruct (w_rsrMgr w !! mgr) as [[m|]|]; try done.
    pose proof (backed_get w r rs mgr intf Hb) as Hg.
    destruct (tp_GetResourceID mgr intf ONU_ID 1 (w_tp w)) as [[ids err] st]. injection He as <- <-.
    exists r. split; [by apply HK, Hg|]. pose proof (backed_tp _ _ _ (due r) _ Hb (proj1 Hg)) as Hb2. by destruct r.
  - destruct Ho as (D & onu & uni & Hr & -> & Hj & Hi & Hu & HK). unfold exec, with_mgr in He.
    destruct (w_rsrMgr w !! mgr) as [[m|]|]; try done.
    destruct (backed_create w r rs mgr tpID intf D onu uni Hb Hr Hj Hi Hu) as (inst & st & Hc & _ & Hs).
    rewrite Hc in He. injection He as <- <-. eexists. split; [apply HK|by apply backed_tp].
  - cbv [exec] in He. injection He as <- <-. destruct Ho as [Hd HK]. eexists. split; [apply HK|by apply backed_new_onu].
  - unfold exec in He. destruct (w_onus w !! a) as [d|] eqn:Hd; [|done]. injection He as <- <-. exists r. split; [|done].
    apply Ho; [by eapply Forall_lookup_1; [apply Hb|]|]. intros pon Ha. pose proof (bk_knows _ _ Hb) as Hk.
    apply Forall_cons in Hk as [Hk _]. destruct (kn_onu _ _ Hk _ _ Ha) as (d' & Hd' & <-). congruence.
  - cbv [exec] in He. injection He as <- <-. destruct Ho as (Hd & Ha & HK). exists r. split; [exact HK|by apply backed_store_onu].
  - cbv [exec] in He. injection He as <- <-. destruct Ho as (Ha & HK). exists r. split; [exact HK|by apply backed_map].
  - unfold exec in He. destruct (w_onuMap w !! k) as [a|] eqn:Ha; [|done]. injection He as <- <-.
    eexists. split; [apply Ho|]. pose proof Hb as [H1 H2 H3 H4 H5]. apply Forall_cons in H5 as [H5 _].
    apply (backed_step w _ r); try done. split; [|by apply (kn_sub _ _ H5)]. intros b pon [= <- <-]. by apply H4.
  - cbv [exec] in He. injection He as <- <-. destruct Ho as [Hs HK]. eexists. split; [apply HK|by apply backed_new_sub].
  - unfold exec in He. destruct (w_subs w !! a) as [s|] eqn:Hs; [|done]. injection He as <- <-. exists r. split; [|done].
    apply Ho; [by eapply Forall_lookup_1; [apply Hb|]|]. intros pon Ha. pose proof (bk_knows _ _ Hb) as Hk.
    apply Forall_cons in Hk as [Hk _]. destruct (kn_sub _ _ Hk _ _ Ha) as (s' & Hs' & <-). congruence.
  - cbv [exec] in He. injection He as <- <-. destruct Ho as (Hs & Ha & HK). exists r. split; [exact HK|by apply backed_store_sub].
Qed.

#[local] Instance stake_sound : Sound stake (fun _ => True) backed.
Proof.
  split.
  - apply backed_perm.
  - intros w r rs X o K x w' Hb Ho He _. by eapply backed_exec.
  - intros w r rc rk rs [H1 H2 H3 H4 H5] (Hd & [Hc1 Hc2] & [Hk1 Hk2]). apply Forall_cons in H5 as [[K1 K2] H5].
    split; try done.
    + eapply supplies_sub; [|exact H1]. cbn. by rewrite Hd, app_assoc, (Permutation_app_comm (due rc)).
    + constructor; [|constructor; [|done]]; split; intros a pon; rewrite ?Hc1, ?Hc2, ?Hk1, ?Hk2; auto.
  - done.
Qed.

(** The operations such a goroutine can do next are answered as if nothing could fail. *)
Lemma backed_sound {X} (o : Op X) w r rs K : backed w (r :: rs) -> op_stakes o r K -> sound_op o w.
Proof.
  intros Hb Ho. destruct o; try done; cbn in Ho |- *.
  - destruct Ho as (-> & -> & _). intros ids st Hg. pose proof (backed_get w r rs mgr intf Hb) as Hx.
    rewrite Hg in Hx. by apply Hx.
  - destruct Ho as (D & onu & uni & Hr & -> & Hj & Hi & Hu & _).
    destruct (backed_create w r rs mgr tpID intf D onu uni Hb Hr Hj Hi Hu) as (inst & st & Hc & Hok & _).
    by exists inst, st.
Qed.

Lemma judged_sound pool w : judged (inv := backed) (Running pool w) -> Forall (sound_prog w) pool.
Proof.
  intros (rs & Hj & Hb). apply Forall_lookup. intros i p Hi.
  destruct (judged_focus pool w rs i p Hj Hb Hi) as (r & rs0 & Hp & Hb0 & _).
  destruct p as [a|e|X o k|c k]; try done. by eapply backed_sound.
Qed.

End stakes.

(** ** Provisioning on a supply *)

Section supplied.
Context {E : Env} `{Hsup : !Supplier (H := E)}.
Variables (cfg : OpenOltScaleTesterConfig) (di : DeviceInfo) (extra : list (prog unit)).
Hypothesis Hacts : activates_all (H := E).
Hypothesis Hrun : run_ok cfg di.
Hypothesis Hextra : Forall (fun p => p = Ret tt) extra.

#[local] Instance run_logic : Logic stake := stake_logic cfg.
#[local] Instance run_sound : Sound stake (fun _ => True) (backed cfg) := stake_sound cfg.

(** The goroutines keep to their stakes, and would complete if nothing could fail. *)
Definition supplied (c : @Runtime.config E) : Prop :=
  provisioning (H := repaired E) cfg di extra (rconfig c) /\ judged (inv := backed cfg) c.

Lemma supplied_start w :
  start_ok (H := E) di w -> supplies (w_tp w) (instances_due cfg di) ->
  supplied (Running (extra ++ [provisionONUs cfg di]) w).
Proof.
  intros Hs Hd. split.
  - apply (prov_start (H := repaired E) cfg di extra (rworld w)). by destruct Hs; split.
  - set (idle := {| due := []; at_onu := None; at_sub := None |}).
    exists (((fun _ => idle) <$> extra) ++ [set_due (instances_due cfg di) idle]). split.
    + apply Forall2_app; [|constructor; [by apply stake_provisionONUs|constructor]].
      apply Forall2_fmap_r, Forall_Forall2_diag. eapply Forall_impl; [exact Hextra|]. by intros p ->.
    + destruct Hs as [_ H2 H3 _ _ _ H7]. split.
      * eapply supplies_sub; [|exact Hd]. rewrite bind_app. cbn. rewrite app_nil_r.
        clear. by induction extra as [|p l IH].
      * rewrite H2. constructor.
      * rewrite H7. constructor.
      * rewrite H3. by intros k a ?%lookup_empty_Some.
      * apply Forall_app. split; [apply Forall_fmap, Forall_true; by split|by repeat constructor].
Qed.

Lemma supplied_step c c' : supplied c -> step c c' -> supplied c'.
Proof.
  intros [Hp Hj] Hs. destruct c as [pool w|r]; [|inversion Hs].
  pose proof (judged_sound cfg pool w Hj) as Hok. split.
  - eapply (provisioning_step (H := repaired E)); [by apply repaired_good|done..|by apply step_repaired].
  - destruct c' as [pool' w'|r]; [|done]. by eapply judged_step.
Qed.

Lemma supplied_stuck c : supplied c -> (forall c', ~ step c c') -> completed c.
Proof.
  intros [Hp Hj] Hno. destruct c as [pool w|r]; [|inversion Hp].
  pose proof (judged_sound cfg pool w Hj) as Hok.
  destruct (provisioning_stuck (H := repaired E) cfg di extra (repaired_good Hacts) _ Hp
    (stuck_repaired pool w Hok Hno)) as (pool' & w' & [= <- <-] & Hret & Hcnt & Hk).
  by exists pool, w.
Qed.

End supplied.

(** ** Properties *)

(** C8. When the agent activates every ONU and the profile managers can supply the
    instances of the run, provisioning with a supported workflow and no more
    batches than PON ports completes under every scheduler, whatever the answers to
    the flow, scheduler and queue requests: no goroutine panics, none waits for
    ever, and every execution ends with all of them returned, every WaitGroup at 0
    and the process told to stop. *)
Theorem provisioning_completes `{Supplier} (cfg : OpenOltScaleTesterConfig) (di : DeviceInfo) (w : World) :
  activates_all -> run_ok cfg di -> start_ok di w -> supplies (w_tp w) (instances_due cfg di) ->
  eventually completed (Running [provisionONUs cfg di] w).
Proof.
  intros Ha Hr Hs Hd. apply (eventually_stuck (supplied cfg di [])).
  - intros c c'. by apply supplied_step.
  - intros c. by apply supplied_stuck.
  - by apply supplied_start.
Qed.

Lemma sample_good_env : good_env (H := sample_env accepting).
Proof.
  split; [done..|]. intros m tpID name intf st. exists sample_tp. split; [done|].
  by split; eexists.
Qed.

Definition sample_supplier : Supplier (H := sample_env accepting) := good_supplier sample_good_env.

Lemma provisioning_completes_witness :
  eventually (H := sample_env accepting) completed
    (Running [provisionONUs (sample_config "TT" 8 3) (sample_deviceInfo 4)]
       (sample_world accepting 4 [] [])).
Proof.
  apply (provisioning_completes (H0 := sample_supplier) (sample_config "TT" 8 3)
    (sample_deviceInfo 4) (sample_world accepting 4 [] [])); [done| | |done].
  - split; [split; [done|]|done|done|].
    + apply elem_of_cons; right. apply elem_of_cons; right. apply elem_of_cons; by left.
    + intros per [= <-]. by vm_compute.
  - split; [done..| |done]. intros m r Hr. do 4 (destruct m as [|m]; [by injection Hr as <-; eexists|]). done.
Defined.
