(* ===== verification/FlowIds.v ===== *)
(** * Flow ids under concurrency

    The flow ids a resource manager gives out along an execution, in the order
    of the steps, whichever goroutines take them. *)
From S2P Require Import Prelude Utils Proto Config Runtime Play Samples TechProfile ResourceManager WorkflowUtils AttWorkflow DtWorkflow TtWorkflow WorkflowManager.

Section flow_ids.
Context `{Env}.

(** The id an operation takes from manager [mgr], if it takes one. *)
Definition taken {X} (mgr : nat) (o : Op X) (w : World) : list Z :=
  match o with
  | OpGetFlowID m =>
      if decide (m = mgr)
      then match exec (OpGetFlowID m) w with Done id _ => [id] | _ => [] end
      else []
  | _ => []
  end.

Definition taken_by (mgr : nat) (p : prog unit) (w : World) : list Z :=
  match p with Do o _ => taken mgr o w | _ => [] end.

(** An execution with the ids taken from [mgr] along it. *)
Inductive flow_steps (mgr : nat) : Runtime.config -> list Z -> Runtime.config -> Prop :=
  | fs_nil c : flow_steps mgr c [] c
  | fs_step pool w i p p' w' spawned ids c :
      pool !! i = Some p -> thread_step p w = TNext p' w' spawned ->
      flow_steps mgr (Running (<[i := p']> pool ++ spawned) w') ids c ->
      flow_steps mgr (Running pool w) (taken_by mgr p w ++ ids) c.

(** Every execution that does not crash is one of these. *)
Lemma steps_flow_steps mgr pool w pool' w' :
  steps (Running pool w) (Running pool' w') ->
  exists ids, flow_steps mgr (Running pool w) ids (Running pool' w').
Proof.
  intros Hs. remember (Running pool w) as c eqn:Hc. remember (Running pool' w') as c' eqn:Hc'.
  revert pool w Hc. induction Hs as [c|c c1 c2 Hs1 Hs IH]; intros pool w ->.
  - exists []. constructor.
  - inversion Hs1; subst.
    + edestruct IH as [ids Hids]; [done..|]. eexists. by econstructor.
    + inversion Hs as [|? ? ? Hbad]; simplify_eq. inversion Hbad.
Qed.

Definition flow_counter (w : World) (mgr : nat) : option Z :=
  match w_rsrMgr w !! mgr with Some (Some r) => Some (rm_flow_id r) | _ => None end.

(** Only taking an id moves the counter, by one. *)
Lemma exec_flow_counter {X} (o : Op X) w x w' mgr f :
  exec o w = Done x w' -> flow_counter w mgr = Some f ->
  (taken mgr o w = [] /\ flow_counter w' mgr = Some f)
  \/ (taken mgr o w = [u64 (f + 1)] /\ flow_counter w' mgr = Some (u64 (f + 1))).
Proof.
  intros Ho Hf. destruct o; cbn [taken].
  4: { destruct (decide (mgr0 = mgr)) as [->|Hne].
       - unfold flow_counter in Hf. destruct (w_rsrMgr w !! mgr) as [[r|]|] eqn:Hr; [|done..].
         injection Hf as <-. right. unfold exec, with_mgr in Ho |- *. rewrite Hr in Ho |- *.
         injection Ho as <- <-. split; [done|]. unfold flow_counter. cbn.
         rewrite list_lookup_insert_eq; [done|]. by eapply lookup_lt_Some.
       - left. split; [done|]. unfold exec, with_mgr in Ho.
         destruct (w_rsrMgr w !! mgr0) as [[r|]|]; [|done..]. injection Ho as <- <-.
         unfold flow_counter in *. cbn. by rewrite list_lookup_insert_ne. }
  all: left; split; [done|]; unfold flow_counter in *; rewrite <-Hf; clear Hf;
    cbv [exec with_mgr wg_add] in Ho;
    repeat match type of Ho with
    | context [match ?e with _ => _ end] => destruct e
    end; try discriminate; by injection Ho as <- <-.
Qed.

(** [n] ids after [f]. *)
Definition ids_after (f : Z) (n : nat) : list Z :=
  (fun k => u64 (f + 1 + Z.of_nat k)) <$> seq 0 n.

Lemma ids_after_cons f n : ids_after f (S n) = u64 (f + 1) :: ids_after (u64 (f + 1)) n.
Proof.
  unfold ids_after. cbn [seq]. rewrite fmap_cons, Z.add_0_r. f_equal.
  rewrite <-fmap_S_seq, <-list_fmap_compose. apply list_fmap_ext. intros _ k _. cbn.
  symmetry. rewrite <-Z.add_assoc, u64_add_l. f_equal. lia.
Qed.

Lemma flow_steps_ids mgr c ids c' :
  flow_steps mgr c ids c' -> forall pool w f, c = Running pool w ->
  flow_counter w mgr = Some f -> ids = ids_after f (length ids).
Proof.
  induction 1 as [c|pool w i p p' w' spawned ids c Hi Hp Hs IH]; intros pool0 w0 f Hc Hf;
    [done|]. injection Hc as <- <-.
  destruct p as [a|r|X o k|ch k]; cbn [taken_by thread_step] in Hp |- *; [done..| |].
  - destruct (exec o w) as [x w1| |] eqn:Ho; [|done..]. injection Hp as <- <- <-.
    destruct (exec_flow_counter o w x w1 mgr f Ho Hf) as [[-> Hf']|[-> Hf']]; cbn [app length].
    + by eapply IH.
    + rewrite ids_after_cons. f_equal. by eapply IH.
  - injection Hp as <- <- <-. by eapply IH.
Qed.

Lemma ids_after_NoDup f n : Z.of_nat n <= 2 ^ 64 -> NoDup (ids_after f n).
Proof.
  intros Hn. apply NoDup_fmap_2_strong; [|apply NoDup_seq].
  intros j k Hj%elem_of_seq Hk%elem_of_seq Heq. unfold u64 in Heq.
  pose proof (Z.div_mod (f + 1 + Z.of_nat j) (2 ^ 64) ltac:(lia)).
  pose proof (Z.div_mod (f + 1 + Z.of_nat k) (2 ^ 64) ltac:(lia)).
  rewrite Heq in *. nia.
Qed.

End flow_ids.

(** ** Properties *)

(** C22. Along any execution, the flow ids the resource manager of a PON gives
    to the goroutines are consecutive, so no two are equal: the goroutines of a
    PON never send two flows with one id. *)
Theorem flow_ids_unique `{Env} (mgr : nat) (pool : list (prog unit)) (w : World)
    (r : OpenOltResourceMgr) (ids : list Z) (c : Runtime.config) :
  w_rsrMgr w !! mgr = Some (Some r) -> flow_steps mgr (Running pool w) ids c ->
  Z.of_nat (length ids) <= 2 ^ 64 ->
  ids = (fun k => u64 (rm_flow_id r + 1 + Z.of_nat k)) <$> seq 0 (length ids) /\ NoDup ids.
Proof.
  intros Hr Hs Hl.
  assert (ids = ids_after (rm_flow_id r) (length ids)) as Hids.
  { eapply flow_steps_ids; [exact Hs|done|]. unfold flow_counter. by rewrite Hr. }
  split; [exact Hids|]. rewrite Hids. by apply ids_after_NoDup.
Qed.

(** Two goroutines that take one id each. *)
Lemma flow_ids_unique_witness :
  let p : prog unit := _ ← op (OpGetFlowID 0); Ret tt in
  [1; 2] = (fun k => u64 (0 + 1 + Z.of_nat k)) <$> seq 0 (length [1; 2]) /\ NoDup [1; 2].
Proof.
  intros p. pose (w := sample_world accepting 1 [] []).
  apply (flow_ids_unique (H := sample_env accepting) 0 [p; p] w
    {| rm_deviceInfo := sample_deviceInfo 1; rm_intfID := 0; rm_flow_id := 0 |} [1; 2]
    (schedule (H := sample_env accepting) (Running [p; p] w) [1; 0]%nat)); [reflexivity| |done].
  refine (fs_step (H := sample_env accepting) 0 [p; p] w 1 p _ _ _ [2] _ eq_refl eq_refl _).
  refine (fs_step (H := sample_env accepting) 0 [p; Ret tt]
    (world_of w (schedule (Running [p; p] w) [1%nat])) 0 p _ _ _ [] _ eq_refl eq_refl _).
  apply fs_nil.
Defined.
