(* ===== verification/Boot.v ===== *)
(** * Start-up services

    Before any ONU is provisioned the program dials the agent, asks it for its
    device information, loads technology profiles into etcd and builds a
    resource manager per PON.  All of this happens in one goroutine, before any
    other starts, and only talks to services: [BootEnv] is those services, as
    functions of a state of their own.  [boot] is the monad of this phase: the
    state of the services, the calls made in order, and the ways the process
    ends early (a panic, or [logger.Fatal]). *)
From S2P Require Import Prelude Utils Proto Config Runtime.

(** What [InitDefaultPONResourceRanges] is given: start, end and sharing of
    each kind of resource, and the PONs. *)
Record IdRange := { r_start : Z; r_end : Z; r_shared : Z }.
Record ResourceRanges := {
  rng_ONU : IdRange;
  rng_Alloc : IdRange;
  rng_GEMPort : IdRange;
  rng_Flow : IdRange;
  rng_UNI_start : Z;
  rng_UNI_end : Z;
  rng_PonPorts : Z;
  rng_IntfIds : list Z;
}.

(** A call of the start-up phase, with the arguments that tell it apart. *)
Inductive BootCall :=
  | CallDial (ipPort : string)
  | CallGetDeviceInfo
  | CallNewEtcdClient (address : string)
  | CallOpen (path : string)
  | CallPut (key : string)
  | CallGet (key : string)
  | CallNewPONResourceManager (pon : Z) (technology deviceType deviceID kvType address base : string)
  | CallInitRanges (ranges : ResourceRanges)
  | CallInitPool (intf : Z)
  | CallNewTechProfile (pon : Z)
  | CallClearPool.

(** The services: third-party code and what is behind it.  A pointer result is
    an option; an error result an [option GoError]. *)
Class BootEnv := {
  ext : Type;
  PONResourceManager : Type;
  TechProfileIf : Type;
  EtcdClient : Type;
  File : Type;
  TechProfile : Type;
  Bytes : Type;
  KVValue : Type;
  grpc_Dial : string -> ext -> option GoError * ext;
  GetDeviceInfo : ext -> (option DeviceInfo * option GoError) * ext;
  NewEtcdClient : string -> ext -> (option EtcdClient * option GoError) * ext;
  os_Open : string -> ext -> (File * option GoError) * ext;
  jsonpb_Unmarshal : File -> ext -> (TechProfile * option GoError) * ext;
  json_Marshal : TechProfile -> Bytes;
  etcd_Put : EtcdClient -> string -> Bytes -> ext -> option GoError * ext;
  etcd_Get : EtcdClient -> string -> ext -> option KVValue * ext;
  kvstore_ToByte : KVValue -> option Bytes;
  json_Unmarshal : Bytes -> option GoError;
  NewPONResourceManager :
    Z -> string -> ext -> (option PONResourceManager * option GoError) * ext;
  InitDefaultPONResourceRanges : PONResourceManager -> ResourceRanges -> ext -> ext;
  InitDeviceResourcePoolForIntf : PONResourceManager -> Z -> ext -> option GoError * ext;
  NewTechProfile : Z -> PONResourceManager -> ext -> (option TechProfileIf * option GoError) * ext;
  ClearDeviceResourcePool : PONResourceManager -> ext -> option GoError * ext;
}.

(** [Stops]: the process has ended. *)
Inductive boot_result (A : Type) := Continues (a : A) | Stops (r : PanicReason).
Arguments Continues {A} a.
Arguments Stops {A} r.

Section boot.
Context `{BootEnv}.

Definition boot (A : Type) : Type := ext -> boot_result A * list BootCall * ext.

#[export] Instance boot_ret : MRet boot := fun A a e => (Continues a, [], e).

#[export] Instance boot_bind : MBind boot := fun A B f m e =>
  let '(r, cs, e') := m e in
  match r with
  | Continues a => let '(r', cs', e'') := f a e' in (r', cs ++ cs', e'')
  | Stops p => (Stops p, cs, e')
  end.

Definition stop {A} (p : PanicReason) : boot A := fun e => (Stops p, [], e).

Definition call {A} (c : BootCall) (f : ext -> A * ext) : boot A :=
  fun e => let '(a, e') := f e in (Continues a, [c], e').

(** A step of a service that is no call worth recording. *)
Definition silently {A} (f : ext -> A * ext) : boot A :=
  fun e => let '(a, e') := f e in (Continues a, [], e').

(** [for _, x := range l { body }]. *)
Fixpoint boot_each {A} (l : list A) (body : A -> boot unit) : boot unit :=
  match l with
  | [] => mret tt
  | x :: l' => _ ← body x; boot_each l' body
  end.

(** ** Lemmas *)

(** What a computation does when it does not end the process: its value, its
    calls, the state it leaves. *)
Definition boots {A} (m : boot A) (e : ext) (a : A) (cs : list BootCall) (e' : ext) : Prop :=
  m e = (Continues a, cs, e').

Lemma boots_ret {A} (a : A) e : boots (mret a) e a [] e.
Proof. done. Qed.

Lemma boots_call {A} c (f : ext -> A * ext) e : boots (call c f) e (f e).1 [c] (f e).2.
Proof. unfold boots, call. by destruct (f e). Qed.

Lemma boots_bind {A B} (m : boot A) (f : A -> boot B) e a cs e1 b cs' e2 :
  boots m e a cs e1 -> boots (f a) e1 b cs' e2 -> boots (m ≫= f) e b (cs ++ cs') e2.
Proof. unfold boots, mbind, boot_bind. intros -> Hf. by rewrite Hf. Qed.

Lemma boots_bind_inv {A B} (m : boot A) (f : A -> boot B) e b cs e2 :
  boots (m ≫= f) e b cs e2 ->
  exists a cs1 e1 cs2, boots m e a cs1 e1 /\ boots (f a) e1 b cs2 e2 /\ cs = cs1 ++ cs2.
Proof.
  unfold boots, mbind, boot_bind. destruct (m e) as [[[a|p] cs1] e1] eqn:Hm; [|done].
  destruct (f a e1) as [[r cs2] e3] eqn:Hf. intros [= -> <- <-].
  by exists a, cs1, e1, cs2.
Qed.

Lemma boots_call_inv {A} c (f : ext -> A * ext) e a cs e' :
  boots (call c f) e a cs e' -> f e = (a, e') /\ cs = [c].
Proof. unfold boots, call. destruct (f e). by intros [= -> <- ->]. Qed.

Lemma boots_silently_inv {A} (f : ext -> A * ext) e a cs e' :
  boots (silently f) e a cs e' -> f e = (a, e') /\ cs = [].
Proof. unfold boots, silently. destruct (f e). by intros [= -> <- ->]. Qed.

Lemma boots_ret_inv {A} (a b : A) e cs e' :
  boots (mret a) e b cs e' -> b = a /\ cs = [] /\ e' = e.
Proof. by intros [= -> <- <-]. Qed.

(** The calls of a computation and how it ends. *)
Definition stops {A} (m : boot A) (e : ext) (p : PanicReason) (cs : list BootCall) : Prop :=
  exists e', m e = (Stops p, cs, e').

Lemma stops_bind {A B} (m : boot A) (f : A -> boot B) e p cs :
  stops m e p cs -> stops (m ≫= f) e p cs.
Proof. intros [e' Hm]. exists e'. unfold mbind, boot_bind. by rewrite Hm. Qed.

Lemma stops_bind_r {A B} (m : boot A) (f : A -> boot B) e a cs e1 p cs' :
  boots m e a cs e1 -> stops (f a) e1 p cs' -> stops (m ≫= f) e p (cs ++ cs').
Proof.
  intros Hm [e2 Hf]. exists e2. unfold boots in Hm. unfold mbind, boot_bind. by rewrite Hm, Hf.
Qed.

End boot.

(** Opens a [boots] of a bind into its two parts. *)
Tactic Notation "boots_inv" hyp(H) "as" simple_intropattern(H1) simple_intropattern(H2) :=
  let a := fresh "a" in let cs := fresh "cs" in let e := fresh "e" in let cs' := fresh "cs" in
  apply boots_bind_inv in H as (a & cs & e & cs' & H1 & H2 & ->).
