(* ===== verification/ResourceInit.v ===== *)
(** * Construction of a resource manager (src/core/resource_manager.go)

    [NewResourceMgr], [InitializeDeviceResourceRangeAndPool] and [Delete], in
    the start-up phase of Boot. *)
From S2P Require Import Prelude Utils Proto Config Runtime Boot.

Definition basePathKvStore : string := "service/voltha".

(** [uint32(RangePool.Sharing)]. *)
Definition sharing_number (s : SharingType) : Z :=
  match s with
  | DEDICATED_PER_INTF => 0
  | SHARED_BY_ALL_INTF_ALL_TECH => 1
  | SHARED_BY_ALL_INTF_SAME_TECH => 2
  end.

Definition pool_range (p : Pool) : IdRange :=
  {| r_start := pool_Start p; r_end := pool_End p; r_shared := sharing_number (pool_Sharing p) |}.

Definition zero_range : IdRange := {| r_start := 0; r_end := 0; r_shared := 0 |}.

(** The local variables the loop over the pools assigns. *)
Record PoolVars := { v_ONU : IdRange; v_Alloc : IdRange; v_GEMPort : IdRange }.

Definition assign_pool (v : PoolVars) (p : Pool) : PoolVars :=
  if decide (pool_Type p = Pool_ONU_ID) then
    {| v_ONU := pool_range p; v_Alloc := v_Alloc v; v_GEMPort := v_GEMPort v |}
  else if decide (pool_Type p = Pool_ALLOC_ID) then
    {| v_ONU := v_ONU v; v_Alloc := pool_range p; v_GEMPort := v_GEMPort v |}
  else if decide (pool_Type p = Pool_GEMPORT_ID) then
    {| v_ONU := v_ONU v; v_Alloc := v_Alloc v; v_GEMPort := pool_range p |}
  else v.

(** The arguments of the call of [InitDefaultPONResourceRanges]. *)
Definition resource_ranges (techRange : DeviceResourceRanges) (devInfo : DeviceInfo)
    : ResourceRanges :=
  let v := foldl assign_pool {| v_ONU := zero_range; v_Alloc := zero_range; v_GEMPort := zero_range |}
             (rr_Pools techRange) in
  {| rng_ONU := v_ONU v; rng_Alloc := v_Alloc v; rng_GEMPort := v_GEMPort v;
     rng_Flow := {| r_start := 1; r_end := 2; r_shared := 0 |};
     rng_UNI_start := 0; rng_UNI_end := 1;
     rng_PonPorts := di_PonPorts devInfo; rng_IntfIds := rr_IntfIds techRange |}.

Section resource_init.
Context `{BootEnv}.

(** [OpenOltResourceMgr] as [NewResourceMgr] fills it. *)
Record ResourceMgr := {
  mgr_deviceInfo : DeviceInfo;
  mgr_intfID : Z;
  mgr_PonRsrMgr : option PONResourceManager;
  mgr_TechprofileRef : option TechProfileIf;
  mgr_flow_id : Z;
}.

Definition InitializeDeviceResourceRangeAndPool (ponRMgr : PONResourceManager)
    (techRange : DeviceResourceRanges) (devInfo : DeviceInfo) : boot unit :=
  let ranges := resource_ranges techRange devInfo in
  call (CallInitRanges ranges) (fun e => (tt, InitDefaultPONResourceRanges ponRMgr ranges e)).

(** The body of the inner loop for an interface equal to [ponID]; [None] is the
    return of nil from the function. *)
Definition init_technology (KVStoreHostPort kvStoreType deviceType deviceID : string) (ponID : Z)
    (devInfo : DeviceInfo) (TechRange : DeviceResourceRanges) : boot (option PONResourceManager) :=
  let technology := rr_Technology TechRange in
  '(rsrMgr, err) ← call
    (CallNewPONResourceManager ponID technology deviceType deviceID kvStoreType KVStoreHostPort
       basePathKvStore)
    (NewPONResourceManager ponID technology);
  match err with
  | Some _ => mret None
  | None =>
      match rsrMgr with
      | None => stop NilDereference
      | Some rsrMgr =>
          _ ← InitializeDeviceResourceRangeAndPool rsrMgr TechRange devInfo;
          err ← call (CallInitPool ponID) (InitDeviceResourcePoolForIntf rsrMgr ponID);
          match err with
          | Some _ => stop LogFatal
          | None => mret (Some rsrMgr)
          end
      end
  end.

(** The two loops, over the ranges and their interfaces; [acc] is
    [ResourceMgr.PonRsrMgr].  The outer [None] is the return of nil. *)
Fixpoint init_intfs (init : DeviceResourceRanges -> boot (option PONResourceManager)) (ponID : Z)
    (TechRange : DeviceResourceRanges) (intfIds : list Z) (acc : option PONResourceManager)
    : boot (option (option PONResourceManager)) :=
  match intfIds with
  | [] => mret (Some acc)
  | intfID :: intfIds' =>
      if decide (intfID = ponID) then
        rsrMgr ← init TechRange;
        match rsrMgr with
        | None => mret None
        | Some rsrMgr => init_intfs init ponID TechRange intfIds' (Some rsrMgr)
        end
      else init_intfs init ponID TechRange intfIds' acc
  end.

Fixpoint init_ranges (init : DeviceResourceRanges -> boot (option PONResourceManager)) (ponID : Z)
    (Ranges : list DeviceResourceRanges) (acc : option PONResourceManager)
    : boot (option (option PONResourceManager)) :=
  match Ranges with
  | [] => mret (Some acc)
  | TechRange :: Ranges' =>
      r ← init_intfs init ponID TechRange (rr_IntfIds TechRange) acc;
      match r with
      | None => mret None
      | Some acc => init_ranges init ponID Ranges' acc
      end
  end.

(** [None] is a nil pointer.  Reading [ResourceMgr.PonRsrMgr.Backend] panics
    when no range lists the PON. *)
Definition NewResourceMgr (deviceID KVStoreHostPort kvStoreType deviceType : string) (ponID : Z)
    (devInfo : DeviceInfo) : boot (option ResourceMgr) :=
  r ← init_ranges (init_technology KVStoreHostPort kvStoreType deviceType deviceID ponID devInfo)
        ponID (di_Ranges devInfo) None;
  match r with
  | None => mret None
  | Some PonRsrMgr =>
      match PonRsrMgr with
      | None => stop NilDereference
      | Some rsrMgr =>
          '(TechprofileRef, err) ← call (CallNewTechProfile ponID) (NewTechProfile ponID rsrMgr);
          match err, TechprofileRef with
          | None, Some ref =>
              mret (Some {| mgr_deviceInfo := devInfo; mgr_intfID := ponID;
                            mgr_PonRsrMgr := Some rsrMgr; mgr_TechprofileRef := Some ref;
                            mgr_flow_id := 0 |})
          | _, _ => mret None
          end
      end
  end.

Definition Delete (RsrcMgr : ResourceMgr) : boot (option GoError) :=
  match mgr_PonRsrMgr RsrcMgr with
  | None => stop NilDereference
  | Some p =>
      err ← call CallClearPool (ClearDeviceResourcePool p);
      mret err
  end.

(** The part of the manager the workflows use. *)
Definition runtime_mgr (m : ResourceMgr) : OpenOltResourceMgr :=
  {| rm_deviceInfo := mgr_deviceInfo m; rm_intfID := mgr_intfID m; rm_flow_id := mgr_flow_id m |}.

End resource_init.

(** ** Lemmas *)

(** The range of the last pool of a type, or the zero value. *)
Definition last_range (t : PoolType) (l : list Pool) : IdRange :=
  default zero_range (pool_range <$> last (filter (fun p => pool_Type p = t) l)).

Lemma last_range_snoc t l p :
  last_range t (l ++ [p]) = if decide (pool_Type p = t) then pool_range p else last_range t l.
Proof.
  unfold last_range. rewrite filter_app, filter_cons, filter_nil. case_decide.
  - by rewrite last_snoc.
  - by rewrite app_nil_r.
Qed.

Lemma assign_pools l :
  foldl assign_pool {| v_ONU := zero_range; v_Alloc := zero_range; v_GEMPort := zero_range |} l =
  {| v_ONU := last_range Pool_ONU_ID l; v_Alloc := last_range Pool_ALLOC_ID l;
     v_GEMPort := last_range Pool_GEMPORT_ID l |}.
Proof.
  induction l as [|p l IH] using rev_ind; [done|].
  rewrite foldl_app, IH, !last_range_snoc. cbn. unfold assign_pool.
  destruct (pool_Type p); done.
Qed.

Section resource_init_lemmas.
Context `{BootEnv}.
Context (addr kvType devType devID : string) (ponID : Z) (devInfo : DeviceInfo).

(** The calls made for one matching interface. *)
Definition tech_calls (t : DeviceResourceRanges) : list BootCall :=
  [ CallNewPONResourceManager ponID (rr_Technology t) devType devID kvType addr basePathKvStore;
    CallInitRanges (resource_ranges t devInfo); CallInitPool ponID ].

(** The ranges that list the PON, once per occurrence. *)
Definition intf_matches (t : DeviceResourceRanges) (ids : list Z) : list DeviceResourceRanges :=
  (fun _ => t) <$> filter (fun i => i = ponID) ids.
Definition range_matches (l : list DeviceResourceRanges) : list DeviceResourceRanges :=
  mjoin ((fun t => intf_matches t (rr_IntfIds t)) <$> l).

(** What the loops do for a list of matches. *)
Definition init_outcome (ms : list DeviceResourceRanges) (acc : option PONResourceManager)
    (x : boot_result (option (option PONResourceManager)) * list BootCall * ext) : Prop :=
  match x.1.1 with
  | Continues (Some acc') =>
      x.1.2 = mjoin (tech_calls <$> ms) /\ (if ms is [] then acc' = acc else is_Some acc')
  | _ => ms <> [] /\ x.1.2 `prefix_of` mjoin (tech_calls <$> ms)
  end.

Lemma init_outcome_bind (m : boot (option (option PONResourceManager))) f ms1 ms2 acc e :
  init_outcome ms1 acc (m e) ->
  (forall acc' e', init_outcome ms2 acc' (f acc' e')) ->
  init_outcome (ms1 ++ ms2) acc
    (mbind (M := boot) (fun r => match r with None => mret None | Some a => f a end) m e).
Proof.
  unfold init_outcome, mbind, boot_bind. rewrite fmap_app, join_app.
  destruct (m e) as [[[[a|]|p] cs1] e1]; cbn; intros H1 Hf.
  - specialize (Hf a e1). destruct (f a e1) as [[[[b|]|q] cs2] e2]; cbn in *.
    + destruct Hf as [-> Hb], H1 as [-> Ha]. split; [done|].
      destruct ms1; [by destruct ms2; subst|]. cbn. destruct ms2; [by subst|done].
    + destruct Hf as [Hn Hp], H1 as [-> _]. split; [by destruct ms1|]. by apply prefix_app.
    + destruct Hf as [Hn Hp], H1 as [-> _]. split; [by destruct ms1|]. by apply prefix_app.
  - destruct H1 as [Hn Hp]. split; [by destruct ms1|]. rewrite app_nil_r. by apply prefix_app_r.
  - destruct H1 as [Hn Hp]. split; [by destruct ms1|]. by apply prefix_app_r.
Qed.

Lemma init_technology_outcome t e :
  let '(r, cs, _) := init_technology addr kvType devType devID ponID devInfo t e in
  match r with
  | Continues (Some _) => cs = tech_calls t
  | _ => cs `prefix_of` tech_calls t
  end.
Proof.
  unfold init_technology, InitializeDeviceResourceRangeAndPool, mbind, boot_bind, call. cbn.
  destruct (NewPONResourceManager ponID (rr_Technology t) e) as [[[m|] [er|]] e1]; cbn.
  - by exists (skipn 1 (tech_calls t)).
  - destruct (InitDeviceResourcePoolForIntf m ponID _) as [[er|] e2]; cbn; [|done].
    by exists [].
  - by exists (skipn 1 (tech_calls t)).
  - by exists (skipn 1 (tech_calls t)).
Qed.

Lemma init_intfs_outcome t ids acc e :
  init_outcome (intf_matches t ids) acc
    (init_intfs (init_technology addr kvType devType devID ponID devInfo) ponID t ids acc e).
Proof.
  revert acc e. induction ids as [|i ids IH]; intros acc e; [by split|].
  unfold intf_matches. rewrite filter_cons. cbn [init_intfs]. case_decide as Hi; [|apply IH].
  rewrite fmap_cons. pose proof (init_technology_outcome t e) as Ht.
  unfold mbind, boot_bind.
  destruct (init_technology addr kvType devType devID ponID devInfo t e) as [[[[m|]|p] cs] e1].
  - specialize (IH (Some m) e1). unfold init_outcome in *.
    destruct (init_intfs _ _ _ _ _ e1) as [[[[a|]|p] cs2] e2]; cbn in *.
    + destruct IH as [-> Ha]. subst cs. split; [done|].
      fold (intf_matches t ids) in Ha. destruct (intf_matches t ids); [by subst|done].
    + destruct IH as [_ Hp]. subst cs. split; [done|]. exact (prefix_app (tech_calls t) _ _ Hp).
    + destruct IH as [_ Hp]. subst cs. split; [done|]. exact (prefix_app (tech_calls t) _ _ Hp).
  - split; [done|]. cbn. rewrite app_nil_r. exact (prefix_app_r _ _ _ Ht).
  - split; [done|]. cbn. exact (prefix_app_r _ _ _ Ht).
Qed.

Lemma init_ranges_outcome l acc e :
  init_outcome (range_matches l) acc
    (init_ranges (init_technology addr kvType devType devID ponID devInfo) ponID l acc e).
Proof.
  revert acc e. induction l as [|t l IH]; intros acc e; [by split|].
  unfold range_matches. rewrite fmap_cons. cbn [mjoin list_join init_ranges].
  apply (init_outcome_bind _ (fun acc => init_ranges _ ponID l acc)); [apply init_intfs_outcome|done].
Qed.

End resource_init_lemmas.

Lemma NewResourceMgr_outcome `{BootEnv} (deviceID addr kvType deviceType : string) (ponID : Z)
    (devInfo : DeviceInfo) (e : ext) :
  let ms := range_matches ponID (di_Ranges devInfo) in
  let full := mjoin (tech_calls addr kvType deviceType deviceID ponID devInfo <$> ms)
                ++ [CallNewTechProfile ponID] in
  let '(r, cs, _) := NewResourceMgr deviceID addr kvType deviceType ponID devInfo e in
  cs `prefix_of` full
  /\ (ms = [] -> r = Stops NilDereference /\ cs = [])
  /\ forall m, r = Continues (Some m) ->
       cs = full /\ mgr_deviceInfo m = devInfo /\ mgr_intfID m = ponID /\ mgr_flow_id m = 0
       /\ is_Some (mgr_PonRsrMgr m) /\ is_Some (mgr_TechprofileRef m).
Proof.
  intros ms full. unfold NewResourceMgr.
  pose proof (init_ranges_outcome addr kvType deviceType deviceID ponID devInfo
    (di_Ranges devInfo) None e) as Ho. fold ms in Ho. unfold init_outcome in Ho.
  unfold mbind, boot_bind, call. fold ms.
  destruct (init_ranges _ _ _ _ e) as [[[[acc|]|p] cs] e1]; cbn in *.
  - destruct Ho as [-> Ha]. destruct acc as [rm|].
    + destruct ms as [|t ms]; [done|]. cbn.
      destruct (NewTechProfile ponID rm e1) as [[[ref|] [er|]] e2]; cbn;
        (split; [done|split; [done|by intros m [= <-]]]).
    + destruct ms as [|t ms]; [|by destruct Ha].
      split; [by eexists|]. split; [done|by intros m [=]].
  - destruct Ho as [Hn Hp]. split; [rewrite app_nil_r; by apply prefix_app_r|].
    by split; [|intros m [=]].
  - destruct Ho as [Hn Hp]. split; [by apply prefix_app_r|]. by split; [|intros m [=]].
Qed.

(** ** Properties *)

(** The id ranges the PON resource manager is initialised with: for ONU
    ids, alloc ids and GEM port ids, those of the last pool of the type in the
    device's list, and zeros when there is none. *)
Theorem resource_ranges_spec (techRange : DeviceResourceRanges) (devInfo : DeviceInfo) :
  let r := resource_ranges techRange devInfo in
  rng_ONU r = last_range Pool_ONU_ID (rr_Pools techRange)
  /\ rng_Alloc r = last_range Pool_ALLOC_ID (rr_Pools techRange)
  /\ rng_GEMPort r = last_range Pool_GEMPORT_ID (rr_Pools techRange).
Proof. intros r. subst r. unfold resource_ranges. by rewrite assign_pools. Qed.

