(* ===== verification/Startup.v ===== *)
(** * OLT manager, start-up (src/core/olt_manager.go)

    [Start]: the connection to the agent, the device information, the
    technology profiles put into etcd, a resource manager per PON; then the
    trap flows of the NNI and the provisioning goroutine.  The first half is a
    [boot] computation; the second half is the first goroutine of a store. *)
From S2P Require Import Prelude Utils Proto Config Runtime Samples TechProfile ResourceManager WorkflowUtils WorkflowManager OltManager Boot ResourceInit.

Section startup.
Context `{BootEnv}.

(** [fmt.Sprintf(TechProfileKVPath, technology, tpID)]. *)
Definition TechProfileKVPath (technology : string) (tpID : Z) : string :=
  "service/voltha/technology_profiles/" +:+ technology +:+ "/" +:+ Itoa tpID.

Definition etcdIpPort (config : OpenOltScaleTesterConfig) : string :=
  "http://" +:+ KVStoreHost config +:+ ":" +:+ Itoa (KVStorePort config).

Definition tpFilePath (config : OpenOltScaleTesterConfig) (tpID : Z) : string :=
  "/app/" +:+ WorkflowName config +:+ "-" +:+ Itoa tpID +:+ ".json".

(** The body of the loop over [TpIDList].  The error of [json.Marshal] is
    overwritten; a value [ToByte] refuses is let through. *)
Definition load_tp (config : OpenOltScaleTesterConfig) (deviceInfo : DeviceInfo)
    (client : EtcdClient) (tpID : Z) : boot unit :=
  '(jsonFile, err) ← call (CallOpen (tpFilePath config tpID)) (os_Open (tpFilePath config tpID));
  match err with
  | Some _ => stop LogFatal
  | None =>
      '(tp, err) ← silently (jsonpb_Unmarshal jsonFile);
      match err with
      | Some _ => stop LogFatal
      | None =>
          let kvPath := TechProfileKVPath (di_Technology deviceInfo) tpID in
          let tpJson := json_Marshal tp in
          err ← call (CallPut kvPath) (etcd_Put client kvPath tpJson);
          match err with
          | Some _ => stop LogFatal
          | None =>
              kvResult ← call (CallGet kvPath) (etcd_Get client kvPath);
              match kvResult with
              | None => stop LogFatal
              | Some value =>
                  match kvstore_ToByte value with
                  | None => mret tt
                  | Some value =>
                      match json_Unmarshal value with
                      | Some _ => stop LogFatal
                      | None => mret tt
                      end
                  end
              end
          end
      end
  end.

Definition readAndLoadTPsToEtcd (config : OpenOltScaleTesterConfig) (deviceInfo : DeviceInfo)
    : boot unit :=
  '(client, err) ← call (CallNewEtcdClient (etcdIpPort config)) (NewEtcdClient (etcdIpPort config));
  match err, client with
  | None, Some client => boot_each (TpIDList config) (load_tp config deviceInfo client)
  | _, _ => stop LogFatal
  end.

Definition populateDeviceInfo : boot (option DeviceInfo * option GoError) :=
  '(deviceInfo, err) ← call CallGetDeviceInfo GetDeviceInfo;
  match err with
  | Some e => mret (None, Some e)
  | None =>
      match deviceInfo with
      | None => mret (None, Some (ErrorsNew "failed to get device info from OLT"))
      | Some d => mret (Some d, None)
      end
  end.

(** The loop over the PON ports; a nil manager is stored like any other, since
    the test after the call is of the slice. *)
Fixpoint new_managers (config : OpenOltScaleTesterConfig) (deviceInfo : DeviceInfo)
    (ponIdxs : list Z) : boot (list (option ResourceMgr)) :=
  match ponIdxs with
  | [] => mret []
  | ponIdx :: ponIdxs' =>
      m ← NewResourceMgr "ABCD" (KVStoreHost config +:+ ":" +:+ Itoa (KVStorePort config)) "etcd"
            "openolt" (u32 ponIdx) deviceInfo;
      ms ← new_managers config deviceInfo ponIdxs';
      mret (m :: ms)
  end.

(** What [Start] has set up when it begins to use the agent. *)
Record Started := {
  st_deviceInfo : DeviceInfo;
  st_rsrMgr : list (option ResourceMgr);
}.

Definition start_services (ipPort : string) (config : OpenOltScaleTesterConfig)
    : boot (GoError + Started) :=
  err ← call (CallDial ipPort) (grpc_Dial ipPort);
  match err with
  | Some e => mret (inl e)
  | None =>
      '(deviceInfo, err) ← populateDeviceInfo;
      match err, deviceInfo with
      | Some e, _ => mret (inl e)
      | None, None => stop NilDereference
      | None, Some d =>
          _ ← readAndLoadTPsToEtcd config d;
          ms ← new_managers config d (seqZ 0 (di_PonPorts d));
          mret (inr {| st_deviceInfo := d; st_rsrMgr := ms |})
      end
  end.

(** The rest of [Start]; the error of the trap flows is only logged.  The
    goroutine that reads indications, started in between, shares nothing with
    it: it is in Indications. *)
Definition start_process (config : OpenOltScaleTesterConfig) (deviceInfo : DeviceInfo)
    : prog unit :=
  mgr ← op (OpIndexRsrMgr 0);
  err ← ProvisionNniTrapFlow config mgr;
  Go (provisionONUs config deviceInfo) (Ret tt).

(** The store once the services are set up, with the state [tp] of the
    technology-profile managers. *)
Definition started_world `{Env} (s : Started) (tp : tp_state) : World :=
  {| w_trace := []; w_rsrMgr := fmap (M := option) runtime_mgr <$> st_rsrMgr s;
     w_globals := init_globals; w_lastPonIntf := 0; w_onus := []; w_onuMap := ∅; w_subs := [];
     w_wgs := []; w_rand := 0%nat; w_clock := 0%nat; w_tp := tp; w_killed := false |}.

End startup.

(** A device whose PONs are in one range, and services that do what they are
    asked for. *)
Definition sample_olt (ponPorts : Z) : DeviceInfo :=
  {| di_Technology := "XGS-PON"; di_PonPorts := ponPorts;
     di_Ranges := [ {| rr_IntfIds := seqZ 0 ponPorts; rr_Technology := "XGS-PON";
       rr_Pools := [ {| pool_Type := Pool_ONU_ID; pool_Sharing := DEDICATED_PER_INTF;
                        pool_Start := 1; pool_End := 128 |};
                     {| pool_Type := Pool_ALLOC_ID; pool_Sharing := DEDICATED_PER_INTF;
                        pool_Start := 1024; pool_End := 2047 |} ] |} ] |}.

Definition sample_services (d : DeviceInfo) : BootEnv :=
  {| ext := unit; PONResourceManager := unit; TechProfileIf := unit; EtcdClient := unit;
     File := unit; TechProfile := unit; Bytes := unit; KVValue := unit;
     grpc_Dial := fun _ e => (None, e);
     GetDeviceInfo := fun e => ((Some d, None), e);
     NewEtcdClient := fun _ e => ((Some tt, None), e);
     os_Open := fun _ e => ((tt, None), e);
     jsonpb_Unmarshal := fun _ e => ((tt, None), e);
     json_Marshal := fun _ => tt;
     etcd_Put := fun _ _ _ e => (None, e);
     etcd_Get := fun _ _ e => (Some tt, e);
     kvstore_ToByte := fun _ => Some tt;
     json_Unmarshal := fun _ => None;
     NewPONResourceManager := fun _ _ e => ((Some tt, None), e);
     InitDefaultPONResourceRanges := fun _ _ e => e;
     InitDeviceResourcePoolForIntf := fun _ _ e => (None, e);
     NewTechProfile := fun _ _ e => ((Some tt, None), e);
     ClearDeviceResourcePool := fun _ e => (None, e) |}.

(** ** Lemmas *)

Section startup_lemmas.
Context `{BootEnv}.

(** The calls made to load one profile. *)
Definition load_calls (config : OpenOltScaleTesterConfig) (d : DeviceInfo) (tpID : Z)
    : list BootCall :=
  let key := TechProfileKVPath (di_Technology d) tpID in
  [CallOpen (tpFilePath config tpID); CallPut key; CallGet key].

Lemma load_tp_outcome config d client tpID e :
  let '(r, cs, _) := load_tp config d client tpID e in
  match r with
  | Continues _ => cs = load_calls config d tpID
  | Stops p => p = LogFatal /\ cs `prefix_of` load_calls config d tpID
  end.
Proof.
  unfold load_tp, mbind, boot_bind, call, silently.
  destruct (os_Open _ e) as [[f [er|]] e1]; cbn; [by split; [|eexists]|].
  destruct (jsonpb_Unmarshal f e1) as [[tp [er|]] e2]; cbn; [by split; [|eexists]|].
  destruct (etcd_Put _ _ _ e2) as [[er|] e3]; cbn; [by split; [|eexists]|].
  destruct (etcd_Get _ _ e3) as [[v|] e4]; cbn; [|by split; [|eexists]].
  destruct (kvstore_ToByte v) as [b|]; cbn; [|done].
  destruct (json_Unmarshal b); cbn; [by split; [|eexists]|done].
Qed.

Lemma load_each_outcome config d client tpIDs e :
  let '(r, cs, _) := boot_each tpIDs (load_tp config d client) e in
  match r with
  | Continues _ => cs = mjoin (load_calls config d <$> tpIDs)
  | Stops p => p = LogFatal /\ cs `prefix_of` mjoin (load_calls config d <$> tpIDs)
  end.
Proof.
  revert e. induction tpIDs as [|t tpIDs IH]; intros e; [done|]. cbn [boot_each].
  pose proof (load_tp_outcome config d client t e) as Ht. unfold mbind, boot_bind.
  destruct (load_tp config d client t e) as [[[[]|p] cs] e1].
  - specialize (IH e1). destruct (boot_each tpIDs _ e1) as [[[[]|p] cs2] e2]; subst cs.
    + by rewrite IH.
    + destruct IH as [-> Hp]. split; [done|]. exact (prefix_app (load_calls config d t) _ _ Hp).
  - destruct Ht as [-> Hp]. split; [done|]. exact (prefix_app_r _ _ _ Hp).
Qed.

(** What the managers of a start-up satisfy. *)
Definition manager_of (d : DeviceInfo) (pon : Z) (m : option ResourceMgr) : Prop :=
  range_matches pon (di_Ranges d) <> [] /\
  forall r, m = Some r -> mgr_deviceInfo r = d /\ mgr_intfID r = pon /\ mgr_flow_id r = 0.

Lemma new_managers_spec config d pons e ms cs e' :
  boots (new_managers config d pons) e ms cs e' -> Forall2 (manager_of d) (u32 <$> pons) ms.
Proof.
  revert e ms cs e'. induction pons as [|p pons IH]; intros e ms cs e' Hb; cbn [new_managers] in Hb.
  { apply boots_ret_inv in Hb as (-> & _). constructor. }
  boots_inv Hb as Hm Hb. boots_inv Hb as Hms Hb. apply boots_ret_inv in Hb as (-> & _).
  constructor; [|by eapply IH].
  pose proof (NewResourceMgr_outcome "ABCD"
    (KVStoreHost config +:+ ":" +:+ Itoa (KVStorePort config)) "etcd" "openolt" (u32 p) d e) as Hs.
  unfold boots in Hm. rewrite Hm in Hs. destruct Hs as (_ & Hn & Hr). split.
  - intros H0. by destruct (Hn H0).
  - intros r ->. by destruct (Hr r eq_refl) as (_ & ? & ? & ? & _).
Qed.

End startup_lemmas.

Lemma readAndLoad_outcome `{BootEnv} (config : OpenOltScaleTesterConfig) (d : DeviceInfo) (e : ext) :
  let full := CallNewEtcdClient (etcdIpPort config) :: mjoin (load_calls config d <$> TpIDList config) in
  let '(r, cs, _) := readAndLoadTPsToEtcd config d e in
  match r with
  | Continues _ => cs = full
  | Stops p => p = LogFatal /\ cs `prefix_of` full
  end.
Proof.
  intros full. unfold readAndLoadTPsToEtcd, mbind, boot_bind, call.
  destruct (NewEtcdClient (etcdIpPort config) e) as [[[c|] [er|]] e1]; cbn;
    try (split; [done|by eexists]).
  pose proof (load_each_outcome config d c (TpIDList config) e1) as Hl.
  destruct (boot_each (TpIDList config) _ e1) as [[[[]|p] cs] e2]; cbn.
  - by rewrite Hl.
  - destruct Hl as [-> Hp]. split; [done|]. by apply prefix_cons.
Qed.

Lemma start_services_outcome `{BootEnv} (ipPort : string) (config : OpenOltScaleTesterConfig)
    (e : ext) (s : Started) (cs : list BootCall) (e' : ext) :
  start_services ipPort config e = (Continues (inr s), cs, e') ->
  let d := st_deviceInfo s in
  Forall2 (manager_of d) (u32 <$> seqZ 0 (di_PonPorts d)) (st_rsrMgr s)
  /\ [CallDial ipPort; CallGetDeviceInfo; CallNewEtcdClient (etcdIpPort config)]
       ++ mjoin (load_calls config d <$> TpIDList config) `prefix_of` cs.
Proof.
  intros Hb. change (boots (start_services ipPort config) e (inr s) cs e') in Hb.
  unfold start_services in Hb. boots_inv Hb as Hd Hb. apply boots_call_inv in Hd as [_ ->].
  destruct a as [er|]; [by apply boots_ret_inv in Hb as [? _]|].
  unfold populateDeviceInfo in Hb. boots_inv Hb as Hd Hb. boots_inv Hd as Hg Hd.
  apply boots_call_inv in Hg as [_ ->].
  assert (exists d, a = (Some d, None) /\ cs2 = []) as (d & -> & ->).
  { destruct a0 as [[d|] [er|]]; apply boots_ret_inv in Hd as (-> & -> & _); cbv beta iota in Hb;
      try by apply boots_ret_inv in Hb as [? _]. by exists d. }
  cbv beta iota in Hb. boots_inv Hb as Hl Hb. boots_inv Hb as Hm Hb.
  apply boots_ret_inv in Hb as ([= ->] & -> & _). cbn [st_deviceInfo st_rsrMgr].
  split; [by eapply new_managers_spec|]. rewrite app_nil_r. cbn [app].
  do 2 apply prefix_cons. unfold boots in Hl.
  match type of Hl with readAndLoadTPsToEtcd _ _ ?e0 = (_, ?cs0, _) =>
    pose proof (readAndLoad_outcome config d e0) as Ho; rewrite Hl in Ho; cbn in Ho; rewrite Ho end.
  by eexists.
Qed.

(** ** Properties *)



