(* ===== verification/EndToEnd.v ===== *)
(** * From start-up to completion

    The goroutine [Start] runs in, after the services are set up: the trap flows
    of the NNI, then provisioning.  Together with Completion this follows the
    program from the dialling of the agent to the signal that ends it. *)
From stdpp Require Import gmultiset.
From S2P Require Import Prelude Utils Proto Config Runtime Play Samples TechProfile ResourceManager WorkflowUtils AttWorkflow DtWorkflow TtWorkflow WorkflowManager OltManager Termination WaitGroups Completion Supply Boot ResourceInit Startup.

(** A program that only sends requests and takes flow ids of the first PON. *)
Fixpoint nni_like {A} (p : prog A) : Prop :=
  match p with
  | Ret _ => True
  | Do o k => match o with OpRpc _ | OpGetFlowID O => True | _ => False end
              /\ forall x, nni_like (k x)
  | _ => False
  end.

Lemma nni_like_bind {A B} (p : prog A) (f : A -> prog B) :
  nni_like p -> (forall a, nni_like (f a)) -> nni_like (p ≫= f).
Proof.
  unfold mbind, prog_mbind. induction p as [A a|A r|A X o k IH|A c _ k _]; cbn; intros Hp Hf; [auto|done| |done].
  destruct Hp as [Ho Hk]. split; [done|]. intros x. by apply IH.
Qed.

Lemma nni_like_GetFlowID pon : nni_like (GetFlowID 0 pon).
Proof. by repeat split. Qed.

Lemma nni_like_rpc r : nni_like (op (OpRpc r)).
Proof. by repeat split. Qed.

Lemma nni_like_flow config pon cl :
  nni_like ('(flowID, err) ← GetFlowID 0 pon;
            match err with
            | Some e => Ret (Some e)
            | None => err ← op (OpRpc (RpcFlowAdd (nni_flow flowID config cl)));
                      Ret (already_exists_ok err)
            end).
Proof.
  apply nni_like_bind; [apply nni_like_GetFlowID|]. intros [id [e|]]; [done|].
  by apply nni_like_bind; [apply nni_like_rpc|].
Qed.

Lemma nni_like_trap config : nni_like (ProvisionNniTrapFlow config 0).
Proof.
  unfold ProvisionNniTrapFlow. repeat case_decide; [..|done].
  - apply nni_like_bind; [apply nni_like_flow|]. intros _.
    apply nni_like_bind; [done|]. intros _. by apply nni_like_bind; [apply nni_like_flow|].
  - by apply nni_like_bind; [apply nni_like_flow|].
  - by apply nni_like_bind; [apply nni_like_flow|].
Qed.

Section end_to_end.
Context `{Supplier}.
Variables (cfg : OpenOltScaleTesterConfig) (di : DeviceInfo).
Hypothesis Hacts : activates_all.
Hypothesis Hrun : run_ok cfg di.

(** The store is ready for provisioning, and so are the profile managers. *)
Definition ready (w : World) : Prop := start_ok di w /\ supplies (w_tp w) (instances_due cfg di).

Lemma start_ok_step {A} (p : prog A) w :
  nni_like p -> ready w ->
  (exists a, p = Ret a)
  \/ exists X (o : Op X) k x w', p = Do o k /\ exec o w = Done x w' /\ nni_like (k x) /\ ready w'.
Proof.
  intros Hp [Hs Hd]. destruct p as [a|r|X o k|c k]; [by left; eexists|done|right|done].
  destruct Hp as [Ho Hk]. exists X, o, k. destruct o; try done.
  - eexists _, _. split_and!; [done..|]. split; [|done]. by destruct Hs; split.
  - destruct mgr as [|]; [|done]. destruct Hs as [H1 H2 H3 H4 H5 H6 H7].
    destruct Hrun as [_ Hpos _ _].
    destruct (lookup_lt_is_Some_2 (w_rsrMgr w) 0) as [r Hr]; [lia|].
    destruct (H6 0%nat r Hr) as (r' & -> & Hr').
    eexists _, _. split_and!; [done|unfold exec, with_mgr; by rewrite Hr|done|].
    split; [|done]. split; cbn; [done..|by rewrite length_insert| |done].
    intros m r. rewrite list_lookup_insert. case_decide; [|apply H6].
    intros [= <-]. by exists (next_flow_id r').
Qed.

(** [Start] after the services are set up. *)
Inductive started : Runtime.config -> Prop :=
  | sta_begin w : ready w -> started (Running [start_process cfg di] w)
  | sta_trap (x : prog (option GoError)) w :
      nni_like x -> ready w ->
      started (Running [x ≫= fun _ => Go (provisionONUs cfg di) (Ret tt)] w)
  | sta_prov c : supplied cfg di [Ret tt] c -> started c.

Lemma single_step (p : prog unit) w c :
  step (Running [p] w) c ->
  match thread_step p w with
  | TNext p' w' sp => c = Running (p' :: sp) w'
  | TCrash r => c = Crashed r
  | _ => False
  end.
Proof.
  intros Hs. inversion Hs as [? ? i q p' w' sp Hi Hp|? ? i q r Hi Hp]; subst;
    apply list_lookup_singleton_Some in Hi as [-> <-]; by rewrite Hp.
Qed.

Lemma started_step c c' : started c -> step c c' -> started c'.
Proof.
  intros [w Hs|x w Hx Hs|c0 Hp] Hc.
  - apply single_step in Hc. unfold start_process in Hc. cbn in Hc.
    assert (exec (OpIndexRsrMgr 0) w = Done 0%nat w) as Hi.
    { unfold exec. pose proof (so_mgrs _ _ (proj1 Hs)). destruct Hrun as [_ Hpos _ _].
      by assert ((0 <? Z.of_nat (length (w_rsrMgr w))) = true) as -> by lia. }
    rewrite Hi in Hc. subst c'. apply sta_trap; [apply nni_like_trap|done].
  - apply single_step in Hc.
    destruct (start_ok_step x w Hx Hs) as [[a ->]|(X & o & k & y & w' & -> & Ho & Hk & Hs')]; cbn in Hc.
    + subst c'. destruct Hs. by apply sta_prov, supplied_start; [repeat constructor|..].
    + rewrite Ho in Hc. subst c'. by apply sta_trap.
  - apply sta_prov. eapply supplied_step; [done..| |done|done]. by repeat constructor.
Qed.

Lemma started_stuck c : started c -> (forall c', ~ step c c') -> completed c.
Proof.
  intros [w Hs|x w Hx Hs|c0 Hp] Hno.
  - exfalso. unfold start_process in Hno.
    eapply Hno, (step_thread _ _ 0); [done|]. cbn. unfold exec.
    pose proof (so_mgrs _ _ (proj1 Hs)). destruct Hrun as [_ Hpos _ _].
    by assert ((0 <? Z.of_nat (length (w_rsrMgr w))) = true) as -> by lia.
  - exfalso.
    destruct (start_ok_step x w Hx Hs) as [[a ->]|(X & o & k & y & w' & -> & Ho & Hk & Hs')].
    + by eapply Hno, (step_thread _ _ 0).
    + eapply Hno, (step_thread _ _ 0); [done|]. cbn. by rewrite Ho.
  - by eapply supplied_stuck.
Qed.

End end_to_end.

(** The store [Start] leaves satisfies what provisioning asks of it. *)
Lemma started_world_ok `{BootEnv} `{Env} s tp :
  0 < di_PonPorts (st_deviceInfo s) ->
  Forall2 (manager_of (st_deviceInfo s)) (u32 <$> seqZ 0 (di_PonPorts (st_deviceInfo s))) (st_rsrMgr s) ->
  Forall is_Some (st_rsrMgr s) ->
  start_ok (st_deviceInfo s) (started_world s tp).
Proof.
  intros Hp Hm Hs. split; cbn; [done..| | |done].
  - rewrite length_fmap, <-(Forall2_length _ _ _ Hm), length_fmap, length_seqZ. lia.
  - intros m r Hr. apply list_lookup_fmap_Some in Hr as (r0 & -> & Hr).
    pose proof (proj1 (Forall_lookup _ _) Hs m r0 Hr) as [r' ->].
    destruct (Forall2_lookup_r _ _ _ _ _ Hm Hr) as (pon & _ & _ & Hmgr).
    destruct (Hmgr r' eq_refl) as (Hd & _). eexists. split; [done|]. cbn. rewrite Hd. lia.
Qed.

(** ** Properties *)

(** From start-up to the end.  When the services can be set up, with a
    manager for every PON, the agent activates every ONU and the profile managers
    can supply the instances of the run, the goroutine that adds the NNI trap flows and starts
    provisioning, and all the goroutines that follow from it, complete under
    every scheduler, whatever the agent answers to requests other than
    activations. *)
Theorem program_completes `{BootEnv} `{Supplier} (ipPort : string) (cfg : OpenOltScaleTesterConfig)
    (e : ext) (s : Started) (cs : list BootCall) (e' : ext) (tp : tp_state) :
  start_services ipPort cfg e = (Continues (inr s), cs, e') ->
  Forall is_Some (st_rsrMgr s) -> activates_all -> run_ok cfg (st_deviceInfo s) ->
  supplies tp (instances_due cfg (st_deviceInfo s)) ->
  eventually completed
    (Running [start_process cfg (st_deviceInfo s)] (started_world s tp)).
Proof.
  intros Hb Hm Ha Hr Hd. destruct (start_services_outcome _ _ _ _ _ _ Hb) as [Hms _].
  apply (eventually_stuck (started cfg (st_deviceInfo s))).
  - intros c c'. by apply started_step.
  - intros c. by apply started_stuck.
  - apply sta_begin. split; [|done]. by apply started_world_ok; [apply Hr|..].
Qed.

Lemma program_completes_witness :
  exists s cs,
    start_services (H := sample_services (sample_olt 2)) "10.90.0.114:9191"
      (sample_config "DT" 8 2) tt = (Continues (inr s), cs, tt)
    /\ eventually (H := sample_env accepting) completed
         (Running [start_process (sample_config "DT" 8 2) (st_deviceInfo s)]
            (started_world s (1 : tp_state (Env := sample_env accepting)))).
Proof.
  eexists _, _.
  assert (start_services (H := sample_services (sample_olt 2)) "10.90.0.114:9191"
    (sample_config "DT" 8 2) tt = (Continues (inr _), _, tt)) as Hs by (vm_compute; reflexivity).
  split; [exact Hs|].
  apply (program_completes (H1 := sample_supplier) _ _ _ _ _ _
    (1 : tp_state (Env := sample_env accepting)) Hs); [repeat constructor; by eexists|done| |done].
  split; [split; [done|]|done|done|].
  - apply elem_of_cons; right. apply elem_of_cons; by left.
  - intros per [= <-]. by vm_compute.
Defined.
