(* ===== verification/Indications.v ===== *)
(** * Indications (src/core/olt_manager.go)

    [readIndications] and [handleIndication]: the goroutine that drains the
    agent's stream of indications.  It shares no variable with the others.  What
    the stream, the agent and the back-off answer may depend on everything the
    goroutine did before; a run is the list of what it did.  The loop has no
    bound of its own: [fuel] counts its iterations. *)
From S2P Require Import Prelude Utils Proto Config Runtime.

(** The variants [handleIndication] tells apart; [IndOther] is any other one. *)
Inductive Indication :=
  | Indication_OltInd
  | Indication_IntfInd
  | Indication_IntfOperInd (type : string)
  | Indication_OnuInd
  | Indication_OmciInd
  | Indication_PktInd
  | Indication_AlarmInd
  | Indication_Other.

(** The message logged, if any. *)
Definition handleIndication (indication : Indication) : option string :=
  match indication with
  | Indication_OltInd => Some "received olt indication"
  | Indication_IntfInd => Some "Received interface indication "
  | Indication_IntfOperInd type =>
      if decide (type = "nni") then Some "received interface oper indication for nni port"
      else if decide (type = "pon") then Some "received interface oper indication for pon port"
      else None
  | Indication_OnuInd => Some "Received Onu indication "
  | Indication_OmciInd => Some "Received Omci indication "
  | Indication_PktInd => Some "Received packet indication "
  | Indication_AlarmInd => Some "Received alarm indication "
  | Indication_Other => None
  end.

Inductive RecvResult := Received (i : Indication) | EOF | RecvError (e : GoError).

Inductive IndAction :=
  | AEnable (err : option GoError)
  | ARecv (r : RecvResult)
  | ANextBackOff
  | AReset
  | ASleep (d : Z)
  | AHandle (i : Indication) (message : option string).

(** [backoff.Stop]. *)
Definition Stop : Z := -1.

Section indications.
Context (EnableIndication : list IndAction -> option GoError).
Context (Recv : list IndAction -> RecvResult).
Context (NextBackOff : list IndAction -> Z).

(** One turn of the loop: what is done so far, and whether the loop goes on. *)
Definition read_turn (h : list IndAction) : list IndAction * bool :=
  let r := Recv h in
  let h := h ++ [ARecv r] in
  match r with
  | EOF =>
      let duration := NextBackOff h in
      let h := h ++ [ANextBackOff] in
      let h := if duration =? Stop then h ++ [AReset] else h in
      let d := NextBackOff h in
      let h := h ++ [ANextBackOff; ASleep d] in
      let err := EnableIndication h in
      let h := h ++ [AEnable err] in
      match err with Some _ => (h, false) | None => (h, true) end
  | RecvError _ => (h, false)
  | Received indication => (h ++ [AReset; AHandle indication (handleIndication indication)], true)
  end.

(** [true]: the goroutine has returned. *)
Fixpoint read_loop (fuel : nat) (h : list IndAction) : list IndAction * bool :=
  match fuel with
  | O => (h, false)
  | S fuel' =>
      let '(h, continue) := read_turn h in
      if continue : bool then read_loop fuel' h else (h, true)
  end.

Definition readIndications (fuel : nat) : list IndAction * bool :=
  let err := EnableIndication [] in
  match err with
  | Some _ => ([AEnable err], true)
  | None => read_loop fuel [AEnable err]
  end.

(** ** Lemmas *)

Definition received (a : IndAction) : option Indication :=
  match a with ARecv (Received i) => Some i | _ => None end.
Definition handled (a : IndAction) : option Indication :=
  match a with AHandle i _ => Some i | _ => None end.
Definition receipt (a : IndAction) : option RecvResult :=
  match a with ARecv r => Some r | _ => None end.
Definition slept (a : IndAction) : option Z := match a with ASleep d => Some d | _ => None end.
Definition is_eof (a : IndAction) : option unit := match a with ARecv EOF => Some tt | _ => None end.

(** The stream or the agent has failed. *)
Definition failure (a : IndAction) : Prop :=
  match a with ARecv (RecvError _) | AEnable (Some _) => True | _ => False end.

(** What holds of a run after any number of turns. *)
Record drained (h : list IndAction) (turns : nat) (returned : bool) : Prop := {
  dr_handled : omap handled h = omap received h;
  dr_turns : length (omap receipt h) = turns;
  dr_sleeps : length (omap slept h) = length (omap is_eof h);
  dr_end : if returned then exists h0 a, h = h0 ++ [a] /\ failure a /\ Forall (fun b => ~ failure b) h0
           else Forall (fun b => ~ failure b) h;
}.

Lemma drained_app (h l : list IndAction) (n : nat) (returned : bool) :
  drained h n false -> omap handled l = omap received l -> length (omap receipt l) = 1%nat ->
  length (omap slept l) = length (omap is_eof l) ->
  (if returned then exists l0 a, l = l0 ++ [a] /\ failure a /\ Forall (fun b => ~ failure b) l0
   else Forall (fun b => ~ failure b) l) ->
  drained (h ++ l) (S n) returned.
Proof.
  intros [H1 H2 H3 H4] E1 E2 E3 E4. split; rewrite ?omap_app, ?length_app; [congruence|lia|lia|].
  destruct returned.
  - destruct E4 as (l0 & a & -> & Ha & Hl0). exists (h ++ l0), a. rewrite app_assoc.
    split_and!; [done..|]. by apply Forall_app.
  - by apply Forall_app.
Qed.

Lemma read_turn_drained h n :
  drained h n false -> let '(h', continue) := read_turn h in drained h' (S n) (negb continue).
Proof.
  intros Hd. unfold read_turn. destruct (Recv h) as [i| |e].
  - rewrite <-app_assoc. apply drained_app; [done..|]. repeat constructor; by intros [].
  - destruct (_ =? Stop); destruct (EnableIndication _) as [e|]; rewrite <-!app_assoc;
      (apply drained_app; [done..|]).
    + match goal with |- context [ASleep ?d] =>
        exists [ARecv EOF; ANextBackOff; AReset; ANextBackOff; ASleep d], (AEnable (Some e)) end.
      split_and!; [done..|]. repeat constructor; by intros [].
    + repeat constructor; by intros [].
    + match goal with |- context [ASleep ?d] =>
        exists [ARecv EOF; ANextBackOff; ANextBackOff; ASleep d], (AEnable (Some e)) end.
      split_and!; [done..|]. repeat constructor; by intros [].
    + repeat constructor; by intros [].
  - apply drained_app; [done..|]. by exists [], (ARecv (RecvError e)).
Qed.

Lemma read_loop_drained fuel h n :
  drained h n false ->
  exists turns, let '(h', returned) := read_loop fuel h in
    drained h' turns returned /\ (turns <= n + fuel)%nat /\ (returned = false -> turns = n + fuel)%nat.
Proof.
  revert h n. induction fuel as [|fuel IH]; intros h n Hd; cbn [read_loop].
  { exists n. split; [done|lia]. }
  pose proof (read_turn_drained h n Hd) as Ht. destruct (read_turn h) as [h' [|]]; cbn in Ht.
  - destruct (IH h' (S n) Ht) as [turns Hl]. exists turns.
    destruct (read_loop fuel h') as [h2 returned]. destruct Hl as (H1 & H2 & H3).
    split_and!; [done|lia|]. intros Hr. specialize (H3 Hr). lia.
  - exists (S n). split_and!; [done|lia|done].
Qed.

End indications.

(** ** Properties *)

(** C32. Whatever the stream, the agent and the back-off answer, after any
    number of turns: the indications handled are those received, in order, none
    dropped and none twice; every end of the stream costs one sleep; and the
    goroutine has returned exactly when its last action is the first failure,
    of a receive or of enabling the indications, so that ends of the stream
    alone never stop it: until a failure, [n] turns make [n] receives. *)
Theorem readIndications_spec (EnableIndication : list IndAction -> option GoError)
    (Recv : list IndAction -> RecvResult) (NextBackOff : list IndAction -> Z) (n : nat) :
  let '(h, returned) := readIndications EnableIndication Recv NextBackOff n in
  omap handled h = omap received h
  /\ length (omap slept h) = length (omap is_eof h)
  /\ (returned = false -> length (omap receipt h) = n)
  /\ if returned then exists h0 a, h = h0 ++ [a] /\ failure a /\ Forall (fun b => ~ failure b) h0
     else Forall (fun b => ~ failure b) h.
Proof.
  unfold readIndications. destruct (EnableIndication []) as [e|] eqn:He.
  - split_and!; [done..|]. by exists [], (AEnable (Some e)).
  - edestruct (read_loop_drained EnableIndication Recv NextBackOff n [AEnable None] 0) as [turns Hl].
    { split; [done..|]. repeat constructor. by intros []. }
    destruct (read_loop _ _ _ n _) as [h returned]. destruct Hl as ([H1 H2 H3 H4] & _ & H6).
    split_and!; [done..| |done]. intros Hr. rewrite H2. by apply H6.
Qed.
