(* ===== verification/Faults.v ===== *)
(** * Executions that go wrong

    The completion theorem assumes that the agent activates every ONU, and says
    nothing about which requests are sent.  These are executions, found with the
    scheduler of Runtime, where the program does not do what it means to. *)
From stdpp Require Import gmultiset.
From S2P Require Import Prelude Utils Proto Config Runtime Samples TechProfile ResourceManager WorkflowUtils TtWorkflow WorkflowManager SubscriberManager OnuManager OltManager Termination WaitGroups Completion.

(** No goroutine can move. *)
Definition stuckb `{Env} (c : Runtime.config) : bool :=
  match c with
  | Running pool w =>
      forallb (fun p => match thread_step p w with TFinished | TBlocked => true | _ => false end) pool
  | Crashed _ => true
  end.

Lemma stuckb_stuck `{Env} c : stuckb c = true -> forall c', ~ step c c'.
Proof.
  intros Hb c' Hs. destruct Hs as [pool w i p p' w' sp Hi Hp|pool w i p r Hi Hp]; cbn in Hb;
    rewrite forallb_forall in Hb; apply list_elem_of_lookup_2, list_elem_of_In, Hb in Hi;
    by rewrite Hp in Hi.
Qed.

(** An execution that ends stuck, with provisioning not over. *)
Definition hangs `{Env} (c : Runtime.config) : Prop :=
  exists pool w, steps c (Running pool w) /\ (forall c', ~ step (Running pool w) c')
    /\ ~ Forall (fun p => p = Ret tt) pool /\ w_killed w = false.

Definition hangs_on `{Env} (w0 : World) (c : Runtime.config) (l : list nat) : bool :=
  match schedule c l with
  | Running pool w =>
      stuckb (Running pool w) && negb (w_killed w)
      && existsb (fun p => match thread_step p w with TFinished => false | _ => true end) pool
  | Crashed _ => false
  end.

Lemma hangs_on_hangs `{Env} w0 c l : hangs_on w0 c l = true -> hangs c.
Proof.
  unfold hangs_on. pose proof (schedule_steps c l) as Hs.
  destruct (schedule c l) as [pool w|r]; [|done]. intros [[Hst Hk]%andb_prop He]%andb_prop.
  exists pool, w. split_and!; [done|by apply stuckb_stuck| |by apply negb_true_iff].
  intros Hret. apply existsb_exists in He as (p & Hp%list_elem_of_In & He).
  rewrite Forall_forall in Hret. by rewrite (Hret p Hp) in He.
Qed.

(** The agent answers [c] to activations and accepts everything else. *)
Definition refusing (c : Code) : list Request -> Request -> Code * string :=
  fun _ r => match r with RpcActivateOnu _ => (c, "") | _ => (OK, "") end.

(** An agent that accepts everything, with a profile manager that returns an
    error together with an instance. *)
Definition failing_profiles : Env :=
  {| device := accepting; rand_src := fun n => Z.of_nat n; clock := fun n => Z.of_nat n;
     tp_state := Z; tp_GetResourceID := fun _ _ _ _ n => (([n], None), n + 1);
     tp_CreateTechProfileInstance :=
       fun _ _ _ _ n => (inr (Some sample_tp, Some (ErrorsNew "kv")), n) |}.

Definition failing_world : @World failing_profiles :=
  @Build_World failing_profiles []
    [Some {| rm_deviceInfo := sample_deviceInfo 1; rm_intfID := 0; rm_flow_id := 0 |}]
    init_globals 0 [] ∅ [] [] 0%nat 0%nat 1 false.

(** Provisioning of one ONU with one subscriber on a device with one PON. *)
Definition one_onu : prog unit := provisionONUs (sample_config "ATT" 1 1) (sample_deviceInfo 1).

(** The PONs that schedulers were created on. *)
Definition sched_pons (l : list Request) : list Z :=
  omap (fun r => match r with RpcCreateTrafficSchedulers s => Some (tss_IntfId s) | _ => None end) l.

(** Group subscribers: two ONUs on PON 0, one on PON 1. *)
Definition group_subs : list Subscriber :=
  [sample_subs "TT" 0 1 0; sample_subs "TT" 0 2 0; sample_subs "TT" 1 1 0].

Definition group_start : Runtime.config (H := sample_env accepting) :=
  Running [DeployWorkflow 0 true; DeployWorkflow 1 true; DeployWorkflow 2 true]
    (sample_world accepting 2 group_subs [3]).

Definition group_end (l : list nat) : bool * list Z * list string :=
  let c := schedule (H := sample_env accepting) group_start l in
  let w := world_of (H := sample_env accepting) (sample_world accepting 2 [] []) c in
  (stuckb (H := sample_env accepting) c, sched_pons (w_trace w), Reason <$> w_subs w).

(** ** Properties *)

(** One failure stops the program from ending: when the agent answers an
    activation with anything but OK, already-exists included, or when a profile
    instance comes with an error, an execution comes to a state where nothing
    can move, some goroutine still waits, and the process has not been told to
    stop. *)
Theorem failure_hangs (c : Code) :
  c <> OK ->
  hangs (H := sample_env (refusing c)) (Running [one_onu] (sample_world (refusing c) 1 [] []))
  /\ hangs (H := failing_profiles) (Running [one_onu] failing_world).
Proof.
  intros Hc. split.
  - eapply (hangs_on_hangs (H := sample_env (refusing c)) (sample_world (refusing c) 1 [] []) _
      (round_robin 3 30)).
    destruct c; [done|..]; vm_compute; reflexivity.
  - eapply (hangs_on_hangs (H := failing_profiles) failing_world _ (round_robin 6 30)).
    vm_compute. reflexivity.
Qed.

Lemma failure_hangs_witness :
  hangs (H := sample_env (refusing AlreadyExists))
    (Running [one_onu] (sample_world (refusing AlreadyExists) 1 [] []))
  /\ hangs (H := failing_profiles) (Running [one_onu] failing_world).
Proof. apply (failure_hangs AlreadyExists). done. Defined.

(** C39. Which PONs get a multicast scheduler depends on the scheduler: the
    counter of PONs done is read and incremented in two steps.  With three group
    subscribers, two on PON 0 and one on PON 1, and an agent that accepts
    everything, one execution creates one scheduler on each PON, and another
    creates two on PON 0 and none on PON 1; in both, every subscriber reports
    success. *)
Theorem multicast_scheduler_race :
  exists w1 w2 pool1 pool2,
    steps group_start (Running pool1 w1) /\ steps group_start (Running pool2 w2)
    /\ sched_pons (w_trace w1) = [0; 1] /\ sched_pons (w_trace w2) = [0; 0]
    /\ Reason <$> w_subs w1 = replicate 3 "SUBSCRIBER_PROVISION_SUCCESS"
    /\ Reason <$> w_subs w2 = replicate 3 "SUBSCRIBER_PROVISION_SUCCESS".
Proof.
  set (in_turn := (replicate 40 0 ++ replicate 40 1 ++ replicate 40 2)%nat).
  set (e := sample_env accepting). set (w0 := sample_world accepting 2 [] []).
  set (end_of l := schedule (H := e) group_start l).
  assert (forall l, match end_of l with Running _ _ => true | Crashed _ => false end = true ->
    exists pool, steps (H := e) group_start (Running pool (world_of (H := e) w0 (end_of l)))) as Hl.
  { intros l Hr. pose proof (schedule_steps (H := e) group_start l) as Hs. unfold end_of in *.
    destruct (schedule (H := e) group_start l) as [pool w|]; [|done]. by exists pool. }
  destruct (Hl in_turn) as [pool1 H1]; [by vm_compute|].
  destruct (Hl ([0; 0; 0; 1; 1; 1]%nat ++ in_turn)) as [pool2 H2]; [by vm_compute|].
  eexists _, _, pool1, pool2. split; [exact H1|]. split; [exact H2|].
  split_and!; vm_compute; reflexivity.
Qed.
