(* ===== verification/Accounting.v ===== *)
(** * What ends the process

    The process is told to stop by the last action of [provisionONUs].  This
    file follows the [Done]s on the WaitGroup of the batches, whatever the agent
    and the profile manager answer: a goroutine of an ONU has a credit of one
    [Done], which a refused activation loses.  A judgement [can p n m Q] bounds
    what [p] may do: [n] is its credit, and [m] is [None] except for the
    provisioning goroutine, for which it says whether ONUs may be outstanding
    since its last wait. *)
From S2P Require Import Prelude Utils Proto Config Runtime Play Judgement Samples TechProfile ResourceManager WorkflowUtils AttWorkflow DtWorkflow TtWorkflow WorkflowManager SubscriberManager OnuManager OltManager Typing Termination WaitGroups Completion Faults.

(** A goroutine's share. *)
Record share := Share { credit : nat; mode : option bool }.

(** WaitGroup 0 is the one of the batches. *)
Definition op_can {X : Type} (o : Op X) (r : share) (K : X -> share -> Prop) : Prop :=
  let 'Share n m := r in
  match o in Op X return (X -> share -> Prop) -> Prop with
  | OpRpc q => fun K =>
      match q with
      | RpcActivateOnu _ =>
          K None r /\ exists n', n = S n' /\ forall e, K (Some e) (Share n' m)
      | _ => forall e, told e -> K e r
      end
  | OpNewWg => fun K => forall g, g <> 0%nat -> K g r
  | OpWgAdd g d => fun K =>
      (g <> 0%nat -> K tt r)
      /\ (g = 0%nat -> (d = 1 /\ is_Some m /\ K tt (Share (S n) (Some true)))
                       \/ (d = -1 /\ exists n', n = S n' /\ K tt (Share n' m)))
  | OpWgWait g => fun K =>
      (g <> 0%nat -> K tt r) /\ (g = 0%nat -> K tt (Share n (m ≫= fun _ => Some false)))
  | OpNewSub s => fun K => subWg s <> 0%nat /\ forall a, K a r
  | OpStoreSub a s => fun K => subWg s <> 0%nat /\ K tt r
  | OpLoadSub a => fun K => forall s, subWg s <> 0%nat -> K s r
  | OpKillSelf => fun K => m = Some false /\ K tt (Share n None)
  | OpRandIntn k => fun K => forall v, (0 < k -> 0 <= v < k) -> K v r
  | OpGetFlowID _ => fun K => forall v, is_u64 v -> K v r
  | _ => fun K => forall x, K x r
  end K.

Lemma op_can_mono {X} (o : Op X) r (K K' : X -> share -> Prop) :
  op_can o r K -> (forall x r', K x r' -> K' x r') -> op_can o r K'.
Proof.
  intros Ho HK. destruct r as [n m]. destruct o; cbn in *; auto; try (destruct Ho; by split; auto).
  - destruct r; auto. destruct Ho as (H1 & n' & -> & H2). split; [auto|]. exists n'. auto.
  - destruct Ho as [H1 H2]. split; [auto|]. intros Hg.
    destruct (H2 Hg) as [(? & ? & ?)|(? & n' & -> & ?)]; [left; auto|right; eauto].
Qed.

#[export] Instance batch_logic : Logic share := {
  allows := @op_can;
  splits r rc rk := (credit r = credit rc + credit rk)%nat /\ mode rc = None /\ mode rk = mode r;
  allows_mono := @op_can_mono;
}.

#[export] Instance batch_neutral : Neutral share (fun q => forall onu, q <> RpcActivateOnu onu).
Proof.
  split; intros; destruct r as [cr md]; cbn; auto. destruct q as [onu| | | | |]; auto. by destruct (H onu).
Qed.

Section judgement.

Implicit Types (n : nat) (m : option bool).

Lemma judge_go {A} c (k : prog A) n m nc (Q : A -> share -> Prop) :
  judge c (Share nc None) anything -> judge k (Share n m) Q ->
  judge (Go c k) (Share (nc + n) m) Q.
Proof. intros Hc Hk. exists (Share nc None), (Share n m). by split_and!. Qed.

(** ** Subscribers and ONUs *)

Lemma can_DeployWorkflow a isGroup : judge (DeployWorkflow a isGroup) (Share 0 None) anything.
Proof.
  apply judge_op_bind. intros s Hs. apply judge_deref_bind. intros wf Hwf.
  apply judge_bind. eapply sends_judge.
  - eapply sends_mono; [by apply (sends_deploy_reason s wf)|by intros q []|done].
  - intros reason _. apply judge_op_bind. split; [done|]. by split.
Qed.

Lemma can_create_tp_instances a ids r Q :
  (forall b, Q b r) -> judge (create_tp_instances a ids) r Q.
Proof.
  destruct r as [n m]. intros HQ. induction ids as [|id ids IH]; [apply HQ|]. cbn [create_tp_instances].
  apply judge_op_bind. intros s Hs. apply judge_op_bind. intros [[inst|] err]; [|done].
  apply judge_op_bind. split; [done|]. destruct err as [e|]; [|exact IH].
  apply judge_op_bind. intros s' Hs'. apply judge_op_bind. split; [done|apply HQ].
Qed.

Lemma can_Subscriber_Start a isGroup : judge (Subscriber_Start a isGroup) (Share 0 None) anything.
Proof.
  apply judge_op_bind. intros s Hs. apply judge_op_bind. split; [done|].
  apply judge_bind, can_create_tp_instances. intros [|]; [|done].
  apply (judge_go _ _ 0 None 0); [apply can_DeployWorkflow|done].
Qed.

Lemma can_start_subscriber a g i n m Q :
  g <> 0%nat -> Q tt (Share n m) -> judge (start_subscriber a g i) (Share n m) Q.
Proof.
  intros Hg HQ. apply judge_op_bind. intros onu. apply judge_bind.
  apply judge_op_bind. intros ctag. apply judge_op_bind. intros stag. cbn [judge].
  apply judge_op_bind. split; [done|]. intros sa. apply judge_op_bind. intros [].
  apply judge_op_bind. split; [|done]. intros _.
  apply (judge_go _ _ n m 0); [apply can_Subscriber_Start|done].
Qed.

Lemma can_OnuDevice_Start a : judge (OnuDevice_Start a) (Share 1 None) anything.
Proof.
  apply judge_op_bind. intros onu. apply judge_op_bind. intros []. apply judge_op_bind. intros g Hg.
  apply judge_bind, (judge_for_each _ _ (fun r => r = Share 1 None)); [|done|].
  - intros i r Q _ -> HQ. apply can_start_subscriber; auto.
  - intros r ->. apply judge_op_bind. split; [|done]. intros _. split; [done|].
    intros _. right. by split; [|exists 0%nat].
Qed.

Lemma can_activateONU cfg intf onuID sn name onuWg :
  judge (activateONU cfg intf onuID sn name onuWg) (Share 1 None) anything.
Proof.
  apply judge_op_bind. intros mgr. apply judge_op_bind. intros now. apply judge_op_bind. split.
  - apply judge_op_bind. intros a. apply judge_op_bind. intros []. apply judge_op_bind. intros a'.
    apply (judge_go _ _ 0 None 1); [apply can_OnuDevice_Start|done].
  - exists 0%nat. split; [done|]. intros e. apply judge_op_bind. intros a. by apply judge_op_bind; intros [].
Qed.

(** ** Provisioning *)

(** The provisioning goroutine between two ONUs. *)
Definition at_work (r : share) : Prop := exists b, r = Share 0 (Some b).

Lemma can_provision_one cfg i j k r Q :
  at_work r -> (forall r', at_work r' -> Q tt r') -> judge (provision_one cfg 0 i j k) r Q.
Proof.
  intros [b ->] HQ. assert (forall b', Q tt (Share 0 (Some b'))) as HQb by (intros b'; apply HQ; by eexists).
  apply judge_op_bind. intros sn. apply judge_op_bind. intros mgr. apply judge_op_bind. intros [ids err].
  destruct err as [e|]; [apply HQb|]. apply judge_index_bind. intros onuID _.
  apply judge_op_bind. split; [done|]. intros _. left. split_and!; [done|by eexists|].
  apply judge_bind. destruct (stringifySerialNumber (Some sn)) as [name|]; [|done].
  apply (judge_go _ _ 0 (Some true) 1); [apply can_activateONU|apply HQb].
Qed.

Lemma can_provision_batches cfg ponPorts per l Q :
  Q tt (Share 0 (Some false)) ->
  judge (for_each l (provision_batch cfg ponPorts per 0)) (Share 0 (Some false)) Q.
Proof.
  intros HQ. apply (judge_for_each _ _ (fun r => r = Share 0 (Some false))); [|done|by intros r ->].
  intros i r Q' _ -> HQ'. apply judge_bind, (judge_for_each _ _ at_work); [|by eexists|].
  - intros j r Q2 _ Hr HQ2. apply (judge_for_each _ _ at_work); [|done..].
    intros k r' Q3 _. apply can_provision_one.
  - intros r [b ->]. split; [done|]. intros _. by apply HQ'.
Qed.

Lemma can_after_new_wg cfg di : judge (after_new_wg cfg di 0) (Share 0 (Some false)) anything.
Proof.
  unfold after_new_wg. apply judge_bind.
  destruct (negb _); [done|]. destruct (_ <? _); [done|]. destruct (_ =? 0); [done|].
  destruct (onusPerIterationPerPonPort _) as [per|]; [|done].
  apply judge_op_bind. intros start. destruct (per =? 0); [done|].
  apply judge_bind, can_provision_batches. apply judge_op_bind. by intros e.
Qed.

End judgement.

(** ** The accounts of an execution *)

Section accounts.
Context `{Env}.

Definition is_activation (q : Request) : Prop :=
  match q with RpcActivateOnu _ => True | _ => False end.

#[export] Instance is_activation_dec q : Decision (is_activation q).
Proof. destruct q; cbn; apply _. Defined.

(** The requests of [l] that were refused activations, [pre] being the requests
    before them. *)
Fixpoint refusals (pre l : list Request) : nat :=
  match l with
  | [] => 0
  | r :: l' =>
      match r with
      | RpcActivateOnu _ => if decide ((device pre r).1 = OK) then 0 else 1
      | _ => 0
      end + refusals (pre ++ [r]) l'
  end.

Lemma refusals_app pre l1 l2 : refusals pre (l1 ++ l2) = (refusals pre l1 + refusals (pre ++ l1) l2)%nat.
Proof.
  revert pre. induction l1 as [|r l1 IH]; intros pre; cbn; [by rewrite app_nil_r|].
  rewrite IH, <-app_assoc. cbn. lia.
Qed.

Lemma refusals_none pre l : Forall (fun q => ~ is_activation q) l -> refusals pre l = 0%nat.
Proof.
  intros Hl. revert pre. induction Hl as [|q l Hq _ IH]; intros pre; [done|]. cbn. rewrite IH.
  by destruct q; [destruct Hq|..].
Qed.

Lemma refusals_lookup pre l i onu :
  refusals pre l = 0%nat -> l !! i = Some (RpcActivateOnu onu) ->
  (device (pre ++ take i l) (RpcActivateOnu onu)).1 = OK.
Proof.
  revert pre i. induction l as [|r l IH]; intros pre i Hr Hi; [done|]. cbn in Hr.
  destruct i as [|i]; cbn in Hi |- *.
  - injection Hi as ->. rewrite app_nil_r. case_decide; [done|lia].
  - rewrite <-(IH (pre ++ [r]) i); [by rewrite <-app_assoc|lia|done].
Qed.

Definition total (R : list share) : nat := sum_list (credit <$> R).

Record accounts (w : World) (R : list share) : Prop := {
  ac_wgs : (0 < length (w_wgs w))%nat;
  ac_subs : Forall (fun s => subWg s <> 0%nat) (w_subs w);
  ac_count : Z.of_nat (total R + refusals [] (w_trace w)) <= counter w 0;
  ac_main : (length (omap mode R) <= 1)%nat;
  ac_settled : Some false ∈ mode <$> R -> counter w 0 = 0;
  ac_killed : w_killed w = true -> omap mode R = [] /\ counter w 0 = 0;
}.

Lemma accounts_perm w R R' : R ≡ₚ R' -> accounts w R -> accounts w R'.
Proof.
  intros HR [H2 H3 H4 H5 H6 H7]. unfold total in *. split; unfold total; rewrite <-?HR; try done.
  intros Hk. destruct (H7 Hk) as [Hm Hc]. split; [|done].
  apply Permutation_nil. by rewrite <-Hm, HR.
Qed.

(** An operation, seen from the accounts of the others. *)
Record books (w w' : World) (r r' : share) : Prop := {
  bk_wgs : (0 < length (w_wgs w'))%nat;
  bk_subs : Forall (fun s => subWg s <> 0%nat) (w_subs w');
  bk_count : Z.of_nat (credit r' + refusals [] (w_trace w')) - counter w' 0
             <= Z.of_nat (credit r + refusals [] (w_trace w)) - counter w 0;
  bk_zero : counter w 0 = 0 -> counter w' 0 = 0 \/ is_Some (mode r) /\ mode r' = Some true;
  bk_mode : is_Some (mode r') -> is_Some (mode r);
  bk_settled : mode r' = Some false -> mode r = Some false \/ counter w' 0 = 0;
  bk_killed : w_killed w' = true -> w_killed w = true \/ mode r = Some false /\ mode r' = None;
}.

Lemma accounts_books w w' t t' R :
  accounts w (t :: R) -> books w w' t t' -> accounts w' (t' :: R).
Proof.
  intros [H2 H3 H4 H5 H6 H7] [B1 B2 B3 B4 B5 B6 B7].
  assert (is_Some (mode t) -> omap mode R = []) as Honly.
  { intros [b Hb]. cbn in H5. rewrite Hb in H5. cbn in H5. destruct (omap mode R); [done|cbn in H5; lia]. }
  assert (forall b, Some b ∈ mode <$> R -> omap mode R <> []) as Hin.
  { intros b (u & Hu & Hur)%list_elem_of_fmap Hnil.
    assert (b ∈ omap mode R) as Hb by (apply list_elem_of_omap; by exists u).
    rewrite Hnil in Hb. by apply not_elem_of_nil in Hb. }
  split; [done|done| | | |].
  - unfold total in *. cbn in *. lia.
  - cbn in *. destruct (mode t') as [b|] eqn:Et'.
    + rewrite Honly by (apply B5; by eexists). done.
    + destruct (mode t); cbn in H5; lia.
  - rewrite fmap_cons. intros [Hm|Hm]%elem_of_cons.
    + symmetry in Hm. destruct (B6 Hm) as [Ht|?]; [|done].
      destruct B4 as [?|[_ ?]]; [|done|congruence]. apply H6. rewrite fmap_cons, Ht. apply elem_of_cons. by left.
    + destruct B4 as [?|[Ht _]]; [apply H6; rewrite fmap_cons; apply elem_of_cons; by right|done|].
      by destruct (Hin _ Hm (Honly Ht)).
  - intros Hk. destruct (B7 Hk) as [Hw|[Ht Ht']].
    + destruct (H7 Hw) as [Hnil Hz]. cbn in Hnil. destruct (mode t) as [b|] eqn:Et; [done|].
      assert (mode t' = None) as Ht'.
      { destruct (mode t') as [b|]; [|done]. destruct B5 as [? ?]; [by eexists|done]. }
      cbn. rewrite Ht'. split; [done|]. destruct (B4 Hz) as [?|[[? ?] _]]; done.
    + cbn. rewrite Ht'. split; [apply Honly; by eexists|].
      destruct B4 as [?|[_ ?]]; [|done|congruence].
      apply H6. rewrite fmap_cons, Ht. apply elem_of_cons. by left.
Qed.

(** Most operations have no part in the accounts. *)
Lemma books_same w w' r :
  (0 < length (w_wgs w))%nat -> Forall (fun s => subWg s <> 0%nat) (w_subs w') ->
  length (w_wgs w) = length (w_wgs w') -> counter w' 0 = counter w 0 ->
  refusals [] (w_trace w') = refusals [] (w_trace w) -> w_killed w' = w_killed w ->
  books w w' r r.
Proof. intros H1 H2 H3 H4 H5 H6. split; rewrite ?H4, ?H5, ?H6; auto; lia. Qed.

(** ** One operation *)

Lemma refusals_snoc tr r :
  refusals [] (tr ++ [r]) =
  (refusals [] tr + match r with
                    | RpcActivateOnu _ => if decide ((device tr r).1 = OK) then 0 else 1
                    | _ => 0
                    end)%nat.
Proof. rewrite refusals_app. cbn. lia. Qed.

Lemma books_wg_add g d w w' r K :
  (0 < length (w_wgs w))%nat -> Forall (fun s => subWg s <> 0%nat) (w_subs w) ->
  op_can (OpWgAdd g d) r K -> exec (OpWgAdd g d) w = Done tt w' ->
  exists r', books w w' r r' /\ K tt r'.
Proof.
  intros Hw Hs Ho He. destruct r as [n m]. unfold exec, wg_add in He.
  destruct (w_wgs w !! g) as [c|] eqn:Hg; [|done].
  destruct (Z.ltb_spec (c + d) 0) as [|Hd]; [done|]. injection He as <-.
  apply lookup_lt_Some in Hg as Hlt.
  pose proof (counter_insert w g (c + d) 0 Hlt) as Hcnt.
  destruct Ho as [Hother Hzero]. destruct (decide (g = 0%nat)) as [->|Hne].
  - rewrite decide_True in Hcnt by done.
    assert (counter w 0 = c) as Hc by (unfold counter; by rewrite Hg).
    destruct (Hzero eq_refl) as [(-> & Hm & HK)|(-> & n' & -> & HK)];
      (eexists; split; [|exact HK]); split; cbn; rewrite ?length_insert, ?Hcnt; try done; try lia; auto.
  - eexists; split; [|by apply Hother]. rewrite decide_False in Hcnt by done.
    apply books_same; try done. cbn. by rewrite length_insert.
Qed.

Lemma books_rpc q w r K :
  (0 < length (w_wgs w))%nat -> Forall (fun s => subWg s <> 0%nat) (w_subs w) ->
  op_can (OpRpc q) r K ->
  exists r', books w (set_trace (w_trace w ++ [q]) w) r r' /\ K (status_Err (device (w_trace w) q)) r'.
Proof.
  intros Hw Hs Ho. destruct r as [n m]. pose proof (refusals_snoc (w_trace w) q) as Hr.
  destruct q as [onu|fl|ts|tq|rq|gr]; cbn [op_can] in Ho;
    try (eexists; split; [apply books_same; try done; cbn; rewrite Hr; lia|apply Ho, told_status]).
  destruct Ho as [HNone (n' & -> & HSome)]. unfold status_Err. case_decide as Hok.
  - eexists; split; [|exact HNone]. apply books_same; try done. cbn. rewrite Hr. lia.
  - eexists; split; [|apply HSome]. split; cbn; rewrite ?Hr; try done; try lia; auto.
    change (counter (set_trace (w_trace w ++ [RpcActivateOnu onu]) w) 0) with (counter w 0). lia.
Qed.

Lemma books_exec {X} (o : Op X) w x w' r K :
  (0 < length (w_wgs w))%nat -> Forall (fun s => subWg s <> 0%nat) (w_subs w) ->
  op_can o r K -> exec o w = Done x w' -> exists r', books w w' r r' /\ K x r'.
Proof.
  intros Hw Hs Ho He.
  destruct o; try (by destruct x; eapply books_wg_add);
    try (destruct r as [n' m']; eexists; cbv [exec with_mgr] in He;
         repeat match type of He with
         | context [match ?e with _ => _ end] => destruct e
         end; try discriminate; injection He as <- <-;
         split; [by apply books_same|by apply Ho]).
  - cbv [exec] in He. injection He as <- <-. by apply books_rpc.
  - destruct r as [n' m']. cbv [exec] in He. injection He as <- <-. eexists; split; [by apply books_same|].
    apply Ho. intros Hn. by apply Z.mod_pos_bound.
  - destruct r as [n m]. unfold exec, with_mgr in He. repeat case_match; try done. injection He as <- <-.
    eexists; split; [by apply books_same|]. apply Ho, u64_range.
  - destruct r as [n m]. cbv [exec] in He. injection He as <- <-. eexists. split; [|apply Ho; lia].
    assert (counter (set_wgs (w_wgs w ++ [0]) w) 0 = counter w 0) as Hc.
    { unfold counter. cbn. by rewrite lookup_app_l. }
    split; cbn; rewrite ?length_app, ?Hc; cbn; try done; try lia; auto.
  - destruct r as [n m]. unfold exec in He. destruct (w_wgs w !! g) as [c|] eqn:Hg; [|done].
    destruct (Z.eqb_spec c 0) as [->|]; [|done]. injection He as <- <-.
    destruct Ho as [Hother Hzero]. destruct (decide (g = 0%nat)) as [->|Hne].
    + eexists. split; [|by apply Hzero].
      assert (counter w 0 = 0) as Hc by (unfold counter; by rewrite Hg).
      split; rewrite ?Hc; try done; auto. by destruct m.
    + eexists. split; [by apply books_same|by apply Hother].
  - destruct r as [n m]. cbv [exec] in He. injection He as <- <-. destruct Ho as [Hsub HK].
    eexists. split; [|apply HK]. apply books_same; try done.
    apply Forall_app. by split; [|constructor].
  - destruct r as [n m]. unfold exec in He. destruct (w_subs w !! a) as [s|] eqn:Ha; [|done]. injection He as <- <-.
    eexists. split; [by apply books_same|]. apply Ho.
    rewrite Forall_lookup in Hs. by eapply Hs.
  - destruct r as [n m]. cbv [exec] in He. injection He as <- <-. destruct Ho as [Hsub HK].
    eexists. split; [|apply HK]. apply books_same; try done. by apply Forall_insert.
  - destruct r as [n m]. cbv [exec] in He. injection He as <- <-. destruct Ho as [-> HK].
    eexists. split; [|apply HK]. split; cbn; try done; auto.
Qed.

(** ** Every execution *)

#[export] Instance accounts_sound : Sound share (fun _ => True) accounts.
Proof.
  split.
  - apply accounts_perm.
  - intros w r rs X o K x w' Hinv Ho He _.
    destruct (books_exec o w x w' r K (ac_wgs _ _ Hinv) (ac_subs _ _ Hinv) Ho He) as (r' & Hb & HK).
    exists r'. split; [done|]. by eapply accounts_books.
  - intros w r rc rk rs [H2 H3 H4 H5 H6 H7] (Hn & Hc & Hk).
    split; [done|done| | | |]; unfold total in *; cbn in *; rewrite ?Hc, ?Hk; [lia|done| |done].
    intros Hm. apply H6. apply elem_of_cons in Hm as [->|Hm]; [apply elem_of_cons; by left|].
    apply elem_of_cons in Hm as [?|Hm]; [done|]. apply elem_of_cons. by right.
  - done.
Qed.

Lemma accounts_refusal w R :
  accounts w R -> w_killed w = true -> refusals [] (w_trace w) = 0%nat.
Proof. intros HR Hk. destruct (ac_killed _ _ HR Hk) as [_ Hc]. pose proof (ac_count _ _ HR). lia. Qed.

(** No ONU has been provisioned yet. *)
Record fresh (w : World) : Prop := {
  fr_trace : Forall (fun q => ~ is_activation q) (w_trace w);
  fr_wgs : w_wgs w = [];
  fr_subs : w_subs w = [];
  fr_killed : w_killed w = false;
}.

(** The first operation makes the WaitGroup of the batches. *)
Lemma fresh_start cfg di w pool w' :
  w_wgs w = [] -> steps (Running [provisionONUs cfg di] w) (Running pool w') ->
  w' = w \/ steps (Running [after_new_wg cfg di 0] (set_wgs [0] w)) (Running pool w').
Proof.
  intros Hw Hs. inversion Hs as [|? c2 ? H12 H23]; subst; [by left|right].
  rewrite provisionONUs_eq in H12. inversion H12 as [? ? i p p' w1 sp Hi Hp|? ? i p r Hi Hp]; subst;
    apply list_lookup_singleton_Some in Hi as [-> <-]; [|done].
  cbn in Hp. injection Hp as <- <- <-. by rewrite Hw in H23.
Qed.

Lemma fresh_accounts cfg di w pool w' :
  fresh w -> steps (Running [provisionONUs cfg di] w) (Running pool w') ->
  w' = w \/ exists R, accounts w' R.
Proof.
  intros [F1 F2 F3 F4] Hs. destruct (fresh_start _ _ _ _ _ F2 Hs) as [?|Hs']; [by left|right].
  eapply (judged_inv _ _ [Share 0 (Some false)]); [|idtac|exact Hs'|done].
  - constructor; [apply can_after_new_wg|constructor].
  - split; cbn; rewrite ?(refusals_none _ _ F1), ?F3, ?F4; cbn; try done; lia.
Qed.

(** When the process has been told to stop, no activation was refused and the
    batches have been waited for. *)
Lemma killed_accounts cfg di w pool w' :
  fresh w -> steps (Running [provisionONUs cfg di] w) (Running pool w') -> w_killed w' = true ->
  refusals [] (w_trace w') = 0%nat /\ counter w' 0 = 0.
Proof.
  intros Hf Hs Hk. destruct (fresh_accounts cfg di w _ _ Hf Hs) as [->|[R HR]].
  - by rewrite (fr_killed _ Hf) in Hk.
  - split; [by eapply accounts_refusal|]. by apply (ac_killed _ _ HR Hk).
Qed.

End accounts.

(** ** Properties *)

(** C11. The process is told to stop only by a provisioning none of whose
    activations was refused, whatever the configuration, the agent, the
    profile manager and the interleaving: once the agent has answered an
    activation with anything but OK, no later state, as long as no goroutine
    panics, is one where the program has signalled its end. *)
Theorem refusal_never_ends `{Env} (cfg : OpenOltScaleTesterConfig) (di : DeviceInfo) (w : World)
    (pool : list (prog unit)) (w' : World) (i : nat) (onu : Onu) :
  fresh w -> steps (Running [provisionONUs cfg di] w) (Running pool w') ->
  w_trace w' !! i = Some (RpcActivateOnu onu) ->
  (device (take i (w_trace w')) (RpcActivateOnu onu)).1 <> OK ->
  w_killed w' = false.
Proof.
  intros Hf Hs Hi Hrefused. destruct (w_killed w') eqn:Hk; [|done]. exfalso.
  apply Hrefused. apply (refusals_lookup [] _ i onu); [|done].
  by apply (killed_accounts cfg di w pool w' Hf Hs Hk).
Qed.

(** One ONU on one PON, whose activation is refused. *)
Lemma refusal_never_ends_witness :
  let e := sample_env (refusing AlreadyExists) in
  let w := sample_world (refusing AlreadyExists) 1 [] [] in
  let c := schedule (H := e) (Running [one_onu] w) (round_robin 3 30) in
  w_killed (world_of (H := e) w c) = false.
Proof.
  intros e w c.
  assert (exists onu, (w_trace (world_of (H := e) w c) !! 0%nat) = Some (RpcActivateOnu onu))
    as [onu Honu] by (eexists; vm_compute; reflexivity).
  assert (c = Running (pool_of (H := e) c) (world_of (H := e) w c)) as Hc
    by (apply running_eq; vm_compute; reflexivity).
  apply (refusal_never_ends (H := e) (sample_config "ATT" 1 1) (sample_deviceInfo 1) w
    (pool_of (H := e) c) (world_of (H := e) w c) 0 onu).
  - by split.
  - rewrite <-Hc. apply (schedule_steps (H := e)).
  - exact Honu.
  - discriminate.
Defined.
