(* ===== verification/Outcomes.v ===== *)
(** * What is done when the process is told to stop

    Accounting shows that the process is told to stop only when no activation
    was refused and no ONU of a batch is outstanding.  This file follows what the
    goroutines of an execution without refusals have still to do.  Each has a
    [role]; an ONU has the WaitGroup it made, its group, and its subscribers
    report to it.  The invariant [tally] relates the roles to the store: the
    batches' counter covers the ONUs under way, the counter of a group its
    subscribers without an outcome, and a group nobody is filling any more has
    all its subscribers.  It also counts the activations to come, which shows
    that no ONU is missing when every request for an ONU id is answered. *)
From S2P Require Import Prelude Utils Proto Config Runtime Play Judgement Samples TechProfile ResourceManager WorkflowUtils AttWorkflow DtWorkflow TtWorkflow WorkflowManager SubscriberManager OnuManager OltManager Typing Termination WaitGroups Completion Faults Accounting.

(** ** Roles *)

Inductive role :=
  | Idle
  | Provisioner (n : nat)    (* provisioning, with [n] ONUs still to start *)
  | Counting (n : nat)       (* the same, and one counted in its batch *)
  | Counted                  (* an ONU counted in its batch, not activated yet *)
  | Accepted                 (* activated, without an object *)
  | Device                   (* with an object, its group not made yet *)
  | Making (g k : nat)       (* making the subscribers of group [g], [k] made *)
  | Made (g k a : nat)       (* one more, at [a] *)
  | Added (g k a : nat)      (* counted in the group *)
  | Closed                   (* the group has been waited for *)
  | Serving (a g : nat)      (* provisioning the subscriber at [a] *)
  | Served (g : nat).        (* its outcome is recorded *)

(** What a role stands for in the counters. *)
Definition in_batch (r : role) : nat :=
  match r with Idle | Provisioner _ | Serving _ _ | Served _ => 0 | _ => 1 end.

Definition in_group (g : nat) (r : role) : nat :=
  match r with
  | Added h _ _ | Serving _ h | Served h => if decide (h = g) then 1 else 0
  | _ => 0
  end.

Definition groupless (r : role) : nat := match r with Accepted | Device => 1 | _ => 0 end.
Definition objectless (r : role) : nat := match r with Accepted => 1 | _ => 0 end.

(** The activations to come; the goroutine that provisions. *)
Definition to_activate (r : role) : nat :=
  match r with Provisioner n => n | Counting n => S n | Counted => 1 | _ => 0 end.
Definition boss (r : role) : nat := match r with Provisioner _ | Counting _ => 1 | _ => 0 end.

(** The group a role is filling, with its size; the subscriber it answers for,
    with its group. *)
Definition filling (r : role) : option (nat * nat) :=
  match r with
  | Making g k => Some (g, k)
  | Made g k _ | Added g k _ => Some (g, S k)
  | _ => None
  end.

Definition answers_for (r : role) : option (nat * nat) :=
  match r with
  | Made g _ a | Added g _ a | Serving a g => Some (a, g)
  | _ => None
  end.

Section roles.
Variable cfg : OpenOltScaleTesterConfig.

Definition per_onu : nat := Z.to_nat (SubscribersPerOnu cfg).

Definition onu_good (d : OnuDevice) : Prop :=
  onu_testConfig d = cfg /\ onu_onuWg d = 0%nat /\ onu_Reason d = ReasonOk.

Definition wg_add_can (g : nat) (d : Z) (r : role) (K : unit -> role -> Prop) : Prop :=
  match r with
  | Provisioner (S n) => g = 0%nat /\ d = 1 /\ K tt (Counting n)
  | Closed => g = 0%nat /\ d = -1 /\ K tt Idle
  | Made h k a => g = h /\ d = 1 /\ K tt (Added h k a)
  | Served h => g = h /\ d = -1 /\ g <> 0%nat /\ K tt Idle
  | _ => False
  end.

Definition role_can {X : Type} (o : Op X) (r : role) (K : X -> role -> Prop) : Prop :=
  match o in Op X return (X -> role -> Prop) -> Prop with
  | OpRpc q => fun K =>
      match q with
      | RpcActivateOnu _ => r = Counted /\ K None Accepted
      | _ => forall e, told e -> K e r
      end
  | OpRandIntn k => fun K => forall v, (0 < k -> 0 <= v < k) -> K v r
  | OpGetFlowID _ => fun K => forall v, is_u64 v -> K v r
  | OpGetResourceID _ _ t _ => fun K => forall ids err,
      match r, t, err with
      | Provisioner (S n), ONU_ID, Some _ => K (ids, err) (Provisioner n)
      | _, _, _ => K (ids, err) r
      end
  | OpKillSelf => fun K => r = Provisioner 0 /\ K tt Idle
  | OpNewWg => fun K => r = Device /\ forall g, K g (Making g 0)
  | OpWgAdd g d => wg_add_can g d r
  | OpWgWait g => fun K =>
      match r with
      | Making h k => g = h /\ k = per_onu /\ K tt Closed
      | _ => K tt r
      end
  | OpNewOnu d => fun K => r = Accepted /\ onu_good d /\ forall a, K a Device
  | OpLoadOnu a => fun K => forall d, onu_good d -> K d r
  | OpStoreOnu a d => fun K => onu_good d /\ K tt r
  | OpNewSub s => fun K => exists g k, r = Making g k /\ subWg s = g /\ forall a, K a (Made g k a)
  | OpLoadSub a => fun K => exists g, r = Serving a g /\ forall s, subWg s = g -> g <> 0%nat -> K s r
  | OpStoreSub a s => fun K => exists g, r = Serving a g /\ subWg s = g
      /\ (K tt r \/ Reason s <> "" /\ K tt (Served g))
  | _ => fun K => forall x, K x r
  end K.

Lemma role_can_mono {X} (o : Op X) r (K K' : X -> role -> Prop) :
  role_can o r K -> (forall x r', K x r' -> K' x r') -> role_can o r K'.
Proof.
  intros Ho HK. destruct o; cbn in *; auto.
  - destruct r0; auto. destruct Ho; auto.
  - intros ids err. specialize (Ho ids err). destruct r as [|[|q]| | | | | | | | | |]; auto.
    destruct t; auto. destruct err; auto.
  - destruct Ho; auto.
  - destruct r as [|[|q]| | | | | | | | | |]; cbn in *; auto; destruct Ho as (? & ? & Ho); auto. destruct Ho; auto.
  - destruct r; auto. destruct Ho as (? & ? & ?); auto.
  - destruct Ho as (? & ? & ?); auto.
  - destruct Ho; auto.
  - destruct Ho as (g & k & ? & ? & ?). exists g, k. auto.
  - destruct Ho as (g & ? & ?). exists g. auto.
  - destruct Ho as (g & ? & ? & [?|[? ?]]); exists g; auto 6.
  - destruct Ho; auto.
Qed.

(** A goroutine hands its role to the goroutine it starts; an ONU keeps filling
    its group. *)
Definition role_splits (r rc rk : role) : Prop :=
  match r with
  | Counting n => rc = Counted /\ rk = Provisioner n
  | Added g k a => rc = Serving a g /\ rk = Making g (S k)
  | _ => rc = r /\ rk = Idle
  end.

#[local] Instance role_logic : Logic role := {
  allows := @role_can;
  splits := role_splits;
  allows_mono := @role_can_mono;
}.

#[local] Instance role_neutral : Neutral role (fun q => forall onu, q <> RpcActivateOnu onu).
Proof. split; intros; cbn; auto. destruct q as [onu| | | | |]; auto. by destruct (H onu). Qed.

(** ** The program in these roles *)

Lemma role_DeployWorkflow a g isGroup : judge (DeployWorkflow a isGroup) (Serving a g) anything.
Proof.
  apply judge_op_bind. exists g. split; [done|]. intros s Hs Hg. apply judge_deref_bind. intros wf Hwf.
  apply judge_bind. eapply sends_judge.
  - eapply sends_mono; [by apply (sends_deploy_reason s wf)|by intros q []|done].
  - intros reason Hr. apply judge_op_bind. exists g. split_and!; [done..|]. right. split; [done|]. rewrite Hs. by split_and!.
Qed.

Lemma role_create_tp_instances a g ids Q :
  (forall b, Q b (Serving a g)) -> judge (create_tp_instances a ids) (Serving a g) Q.
Proof.
  intros HQ. induction ids as [|id ids IH]; [apply HQ|]. cbn [create_tp_instances].
  apply judge_op_bind. exists g. split; [done|]. intros s Hs Hg.
  apply judge_op_bind. intros [[inst|] err]; [|done].
  apply judge_op_bind. exists g. split_and!; [done..|]. left. destruct err as [e|]; [|exact IH].
  apply judge_op_bind. exists g. split; [done|]. intros s' Hs' _.
  apply judge_op_bind. exists g. split_and!; [done..|]. left. apply HQ.
Qed.

Lemma role_Subscriber_Start a g isGroup : judge (Subscriber_Start a isGroup) (Serving a g) anything.
Proof.
  apply judge_op_bind. exists g. split; [done|]. intros s Hs Hg.
  apply judge_op_bind. exists g. split_and!; [done..|]. left.
  apply judge_bind, role_create_tp_instances. intros [|]; [|done].
  exists (Serving a g), Idle. split_and!; [done..|apply role_DeployWorkflow|done].
Qed.

Lemma role_start_subscriber a g k i Q :
  Q tt (Making g (S k)) -> judge (start_subscriber a g i) (Making g k) Q.
Proof.
  intros HQ. apply judge_op_bind. intros onu Honu. apply judge_bind.
  apply judge_op_bind. intros ctag. apply judge_op_bind. intros stag. cbn [judge].
  apply judge_op_bind. exists g, k. split_and!; [done..|]. intros sa.
  apply judge_op_bind. split; [done|]. apply judge_op_bind. split_and!; [done..|].
  exists (Serving sa g), (Making g (S k)). split_and!; [done..|apply role_Subscriber_Start|done].
Qed.

Lemma role_start_subscribers a g l k Q :
  Q tt (Making g (k + length l)) -> judge (for_each l (start_subscriber a g)) (Making g k) Q.
Proof.
  revert k. induction l as [|i l IH]; intros k HQ; cbn in HQ.
  { by rewrite Nat.add_0_r in HQ. }
  rewrite for_each_cons. apply judge_bind, role_start_subscriber, IH.
  by rewrite Nat.add_succ_comm.
Qed.

Lemma role_OnuDevice_Start a : judge (OnuDevice_Start a) Device anything.
Proof.
  apply judge_op_bind. intros onu (Hcfg & Hwg & Hr). apply judge_op_bind. split; [done|].
  apply judge_op_bind. split; [done|]. intros g. apply judge_bind, role_start_subscribers.
  rewrite length_seqZ, Hcfg. apply judge_op_bind. split_and!; [done..|]. by rewrite Hwg.
Qed.

Lemma role_activateONU intf onuID sn name :
  judge (activateONU cfg intf onuID sn name 0) Counted anything.
Proof.
  apply judge_op_bind. intros mgr. apply judge_op_bind. intros now. apply judge_op_bind. split; [done|].
  apply judge_op_bind. split_and!; [done..|]. intros a. apply judge_op_bind. intros [].
  apply judge_op_bind. intros a'. exists Device, Idle. split_and!; [done..|apply role_OnuDevice_Start|done].
Qed.

Lemma role_provision_one i j k n r Q :
  r = Provisioner (S n) -> (forall r', r' = Provisioner n -> Q tt r') ->
  judge (provision_one cfg 0 i j k) r Q.
Proof.
  intros -> HQ. apply judge_op_bind. intros sn. apply judge_op_bind. intros mgr.
  apply judge_op_bind. intros ids [e|]; [by apply HQ|].
  apply judge_index_bind. intros onuID _. apply judge_op_bind. split_and!; [done..|].
  apply judge_bind. destruct (stringifySerialNumber (Some sn)) as [name|]; [|done].
  exists Counted, (Provisioner n). split_and!; [done..|apply role_activateONU|by apply HQ].
Qed.

(** A loop whose body starts [c] ONUs. *)
Lemma role_for_each {A} (l : list A) body c n r Q :
  (forall x n r' Q', r' = Provisioner (c + n) -> (forall r'', r'' = Provisioner n -> Q' tt r'') ->
     judge (body x) r' Q') ->
  r = Provisioner (c * length l + n) -> (forall r', r' = Provisioner n -> Q tt r') ->
  judge (for_each l body) r Q.
Proof.
  intros Hb. revert r. induction l as [|x l IH]; intros r Hr HQ.
  { apply HQ. rewrite Hr. f_equal. cbn. lia. }
  rewrite for_each_cons. apply judge_bind, (Hb x (c * length l + n)%nat).
  - rewrite Hr. f_equal. cbn. lia.
  - intros r' Hr'. by apply IH.
Qed.

(** The ONUs provisioning starts when it gets an id for each. *)
Definition planned (di : DeviceInfo) : nat :=
  let ponPorts := di_PonPorts di in
  if negb (isPowerOfTwo (NumOfOnu cfg)) || (NumOfOnu cfg <? ponPorts) || (ponPorts =? 0) then 0
  else match onusPerIterationPerPonPort (NumOfOnu cfg / ponPorts) with
       | Some per =>
           if per =? 0 then 0
           else Z.to_nat per * Z.to_nat ponPorts * Z.to_nat (u32 (NumOfOnu cfg / ponPorts) / per)
       | None => 0
       end.

Lemma role_after_new_wg di : judge (after_new_wg cfg di 0) (Provisioner (planned di)) anything.
Proof.
  assert (forall r, r = Provisioner 0 ->
    judge (op OpKillSelf) r anything) as Hkill by by intros r ->.
  unfold after_new_wg, planned. apply judge_bind.
  destruct (negb _); [by apply Hkill|]. destruct (_ <? _); [by apply Hkill|]. destruct (_ =? 0); [done|].
  cbn [orb]. destruct (onusPerIterationPerPonPort _) as [per|]; [|by apply Hkill].
  apply judge_op_bind. intros start. destruct (per =? 0); [done|].
  apply judge_bind, (role_for_each _ _ (Z.to_nat per * Z.to_nat (di_PonPorts di)) 0).
  - intros i n r Q Hr HQ. apply judge_bind, (role_for_each _ _ (Z.to_nat per) n).
    + intros j n' r' Q' Hr' HQ'. apply (role_for_each _ _ 1 n').
      * intros k m r2 Q2. apply role_provision_one.
      * rewrite Hr', length_seqZ. f_equal. lia.
      * done.
    + rewrite Hr, length_seqZ. done.
    + intros r' ->. by apply HQ.
  - rewrite length_seqZ. f_equal. lia.
  - intros r Hr. apply judge_op_bind. intros e. by apply Hkill.
Qed.

(** ** The tally *)

Section tally.
Context `{Env}.

Definition activations (tr : list Request) : nat := length (filter is_activation tr).

#[local] Arguments activations tr : simpl never.

(** Every request for an ONU id is answered with one. *)
Definition ids_given : Prop :=
  forall m j n st, exists ids, (tp_GetResourceID m j ONU_ID n st).1 = (ids, None).

(** The activations there will be. *)
Variable total : nat.

(** The subscribers of a group. *)
Definition members (w : World) (g : nat) : nat :=
  length (filter (fun s => subWg s = g) (w_subs w)).

Definition count (f : role -> nat) (rs : list role) : nat := sum_list (f <$> rs).

Record tally (w : World) (rs : list role) : Prop := {
  ta_batch : Z.of_nat (count in_batch rs) <= counter w 0;
  ta_group : forall g, g <> 0%nat -> Z.of_nat (count (in_group g) rs) <= counter w g;
  ta_wgs : (0 < length (w_wgs w))%nat;
  ta_acts : (activations (w_trace w) + 1 = length (w_wgs w) + count groupless rs)%nat;
  ta_onus : (activations (w_trace w) = length (w_onus w) + count objectless rs)%nat;
  ta_good : Forall onu_good (w_onus w);
  ta_nodup : NoDup (omap filling rs).*1;
  ta_filling : forall g k, (g, k) ∈ omap filling rs ->
    (0 < g < length (w_wgs w))%nat /\ members w g = k;
  ta_filled : forall g, (0 < g < length (w_wgs w))%nat ->
    g ∈ (omap filling rs).*1 \/ counter w g = 0 /\ members w g = per_onu;
  ta_subs : forall a s, w_subs w !! a = Some s ->
    (0 < subWg s < length (w_wgs w))%nat
    /\ (Reason s <> "" \/ (a, subWg s) ∈ omap answers_for rs);
  ta_answers : forall a g, (a, g) ∈ omap answers_for rs ->
    exists s, w_subs w !! a = Some s /\ subWg s = g;
  ta_plan : ids_given -> (activations (w_trace w) + count to_activate rs = total)%nat;
  ta_boss : (count boss rs + (if w_killed w then 1 else 0) = 1)%nat;
}.

Lemma tally_perm w rs rs' : rs ≡ₚ rs' -> tally w rs -> tally w rs'.
Proof.
  intros HR [H1 H2 H3 H4 H5 H6 H7 H8 H9 H10 H11 H12 H13]. unfold count in *.
  split; unfold count; try done.
  - by rewrite <-HR.
  - intros g. rewrite <-HR. apply H2.
  - by rewrite <-HR.
  - by rewrite <-HR.
  - by rewrite <-HR.
  - intros g k. rewrite <-HR. apply H8.
  - intros g. rewrite <-HR. apply H9.
  - intros a s. rewrite <-HR. apply H10.
  - intros a g. rewrite <-HR. apply H11.
  - by rewrite <-HR.
  - by rewrite <-HR.
Qed.

(** A split changes no count. *)
Lemma tally_go w r rc rk rs : tally w (r :: rs) -> role_splits r rc rk -> tally w (rk :: rc :: rs).
Proof.
  intros [H1 H2 H3 H4 H5 H6 H7 H8 H9 H10 H11 H12 H13] Hs.
  destruct r; destruct Hs as [-> ->]; split; unfold count in *; cbn in *; auto;
    try lia; intros Hids; specialize (H12 Hids); lia.
Qed.

(** Subscribers of no new group. *)
Lemma members_open w g rs : tally w rs -> (length (w_wgs w) <= g)%nat -> members w g = 0%nat.
Proof.
  intros Ht Hg. unfold members. destruct (filter _ _) as [|s l] eqn:E; [done|].
  assert (s ∈ filter (fun s => subWg s = g) (w_subs w)) as Hs by (rewrite E; apply elem_of_cons; by left).
  apply list_elem_of_filter in Hs as [<- Hs]. apply list_elem_of_lookup_1 in Hs as [a Ha].
  destruct (ta_subs _ _ Ht a s Ha) as [? _]. lia.
Qed.

(** *** One operation *)

(** What happens to the groups: nothing, a new one, one more subscriber, or its
    owner has waited for it. *)
Inductive regroup (w w' : World) : option (nat * nat) -> option (nat * nat) -> Prop :=
  | rg_same fl : length (w_wgs w') = length (w_wgs w) ->
      (forall g, members w' g = members w g) -> regroup w w' fl fl
  | rg_open : length (w_wgs w') = S (length (w_wgs w)) ->
      (forall g, members w' g = members w g) -> regroup w w' None (Some (length (w_wgs w), 0%nat))
  | rg_more g k : length (w_wgs w') = length (w_wgs w) ->
      (forall h, members w' h = members w h + if decide (h = g) then 1 else 0)%nat ->
      regroup w w' (Some (g, k)) (Some (g, S k))
  | rg_close g : length (w_wgs w') = length (w_wgs w) ->
      (forall h, members w' h = members w h) -> counter w' g = 0 ->
      regroup w w' (Some (g, per_onu)) None.

(** An operation of a goroutine, seen from the tally of the others. *)
Record moves (w w' : World) (r r' : role) : Prop := {
  mv_batch : Z.of_nat (in_batch r') - counter w' 0 <= Z.of_nat (in_batch r) - counter w 0;
  mv_group : forall g, g <> 0%nat ->
    Z.of_nat (in_group g r') - counter w' g <= Z.of_nat (in_group g r) - counter w g;
  mv_still : forall g, g <> 0%nat -> counter w g = 0 -> in_group g r = 0%nat ->
    (forall k, filling r <> Some (g, k)) -> counter w' g = 0;
  mv_acts : (activations (w_trace w') + length (w_wgs w) + groupless r
             = activations (w_trace w) + length (w_wgs w') + groupless r')%nat;
  mv_onus : (activations (w_trace w') + length (w_onus w) + objectless r
             = activations (w_trace w) + length (w_onus w') + objectless r')%nat;
  mv_good : Forall onu_good (w_onus w');
  mv_filling : regroup w w' (filling r) (filling r');
  mv_subs : forall a s', w_subs w' !! a = Some s' ->
    (exists s, w_subs w !! a = Some s /\ subWg s = subWg s'
       /\ (Reason s <> "" \/ answers_for r = Some (a, subWg s) ->
            Reason s' <> "" \/ answers_for r' = Some (a, subWg s')))
    \/ (0 < subWg s' < length (w_wgs w'))%nat /\ answers_for r' = Some (a, subWg s');
  mv_keep : forall a s, w_subs w !! a = Some s ->
    exists s', w_subs w' !! a = Some s' /\ subWg s' = subWg s;
  mv_answers : forall a g, answers_for r' = Some (a, g) ->
    answers_for r = Some (a, g) \/ exists s, w_subs w' !! a = Some s /\ subWg s = g;
  mv_plan : ids_given ->
    (activations (w_trace w') + to_activate r' = activations (w_trace w) + to_activate r)%nat;
  mv_boss : (boss r' + (if w_killed w' then 1 else 0) = boss r + (if w_killed w then 1 else 0))%nat;
}.

Lemma elem_of_omap_cons {B} (f : role -> option B) r rs b :
  b ∈ omap f (r :: rs) <-> f r = Some b \/ b ∈ omap f rs.
Proof.
  cbn. destruct (f r) as [c|].
  - rewrite elem_of_cons. split; (intros [Hb|Hb]; [left; congruence|by right]).
  - split; [by right|]. by intros [Hb|Hb].
Qed.

Lemma groups_elem rs g : g ∈ (omap filling rs).*1 <-> exists k, (g, k) ∈ omap filling rs.
Proof.
  rewrite list_elem_of_fmap. split.
  - intros ([h k] & -> & Hk). by exists k.
  - intros [k Hk]. by exists (g, k).
Qed.

Lemma moves_wgs w w' r r' : moves w w' r r' -> (length (w_wgs w) <= length (w_wgs w'))%nat.
Proof. intros Hm. destruct (mv_filling _ _ _ _ Hm); lia. Qed.

(** The groups, across a move. *)
Lemma moves_nodup w w' r r' rs :
  tally w (r :: rs) -> moves w w' r r' -> NoDup (omap filling (r' :: rs)).*1.
Proof.
  intros Ht Hm. pose proof (ta_nodup _ _ Ht) as Hn. pose proof (ta_filling _ _ Ht) as Hf.
  cbn in Hn, Hf |- *. destruct (mv_filling _ _ _ _ Hm); cbn in *; try done.
  - apply NoDup_cons. split; [|done]. rewrite groups_elem. intros [k Hk].
    apply Hf in Hk as [? _]. lia.
  - by apply NoDup_cons in Hn as [_ Hn].
Qed.

Lemma regroup_other w w' fl fl' g :
  regroup w w' fl fl' -> (forall k, fl' <> Some (g, k)) -> members w' g = members w g.
Proof.
  intros [f Hl Hs|Hl Hs|h k Hl Hs|h Hl Hs Hc] Hg; auto. rewrite Hs, decide_False; [lia|].
  intros ->. by eapply Hg.
Qed.

Lemma moves_filling w w' r r' rs g k :
  tally w (r :: rs) -> moves w w' r r' -> (g, k) ∈ omap filling (r' :: rs) ->
  (0 < g < length (w_wgs w'))%nat /\ members w' g = k.
Proof.
  intros Ht Hm Hin. pose proof (ta_filling _ _ Ht) as Hf.
  pose proof (moves_wgs _ _ _ _ Hm) as Hw. pose proof (ta_wgs _ _ Ht) as H0.
  apply elem_of_omap_cons in Hin as [Hr'|Hk].
  - pose proof (members_open w (length (w_wgs w)) _ Ht ltac:(lia)) as Hopen.
    pose proof (mv_filling _ _ _ _ Hm) as Hg. rewrite Hr' in Hg.
    assert (forall j, filling r = Some (g, j) -> (0 < g < length (w_wgs w))%nat /\ members w g = j) as Hin
      by (intros j Hj; apply Hf, elem_of_omap_cons; by left).
    inversion Hg as [fl Hl Hs Hr|Hl Hs Hr|h j Hl Hs Hr|]; subst; rewrite Hs.
    + destruct (Hin k) as [? ?]; [done|]. split; [lia|done].
    + split; [lia|done].
    + destruct (Hin j) as [? ?]; [done|]. rewrite decide_True by done. split; lia.
  - destruct (Hf g k) as [? Hmem]; [by apply elem_of_omap_cons; right|]. split; [lia|].
    rewrite <-Hmem. eapply regroup_other; [apply Hm|]. intros j Hr'.
    pose proof (moves_nodup _ _ _ _ _ Ht Hm) as Hn. cbn in Hn. rewrite Hr' in Hn. cbn in Hn.
    apply NoDup_cons in Hn as [Hn _]. apply Hn, groups_elem. by exists k.
Qed.

(** A group that is filled and has no subscriber outstanding stays so. *)
Lemma moves_still w w' r r' rs g :
  tally w (r :: rs) -> moves w w' r r' -> (0 < g < length (w_wgs w))%nat ->
  (forall k, filling r <> Some (g, k)) -> (forall k, (g, k) ∉ omap filling rs) ->
  counter w' g = 0 /\ members w g = per_onu.
Proof.
  intros Ht Hm Hg Hr Hrs. destruct (ta_filled _ _ Ht g Hg) as [Hin|[Hc Hp]].
  - apply groups_elem in Hin as [k [Hk|Hk]%elem_of_omap_cons]; [by edestruct Hr|by edestruct Hrs].
  - split; [|done]. apply (mv_still _ _ _ _ Hm); [lia|done| |done].
    pose proof (ta_group _ _ Ht g ltac:(lia)) as Hgr. unfold count in Hgr. cbn in Hgr. lia.
Qed.

Lemma moves_filled w w' r r' rs g :
  tally w (r :: rs) -> moves w w' r r' -> (0 < g < length (w_wgs w'))%nat ->
  g ∈ (omap filling (r' :: rs)).*1 \/ counter w' g = 0 /\ members w' g = per_onu.
Proof.
  intros Ht Hm Hg.
  destruct (decide (g ∈ (omap filling (r' :: rs)).*1)) as [Hin|Hin]; [by left|right].
  rewrite groups_elem in Hin.
  assert (forall k, filling r' <> Some (g, k)) as Hr'.
  { intros k Hk. apply Hin. exists k. apply elem_of_omap_cons. by left. }
  assert (forall k, (g, k) ∉ omap filling rs) as Hrs.
  { intros k Hk. apply Hin. exists k. apply elem_of_omap_cons. by right. }
  rewrite (regroup_other _ _ _ _ _ (mv_filling _ _ _ _ Hm) Hr').
  pose proof (mv_filling _ _ _ _ Hm) as Hfl. destruct (filling r) as [[h k]|] eqn:Hr.
  - destruct (decide (h = g)) as [->|Hne].
    + destruct (ta_filling _ _ Ht g k) as [_ ->]; [apply elem_of_omap_cons; by left|].
      inversion Hfl; subst; try done; exfalso; by eapply Hr'.
    + assert (length (w_wgs w') = length (w_wgs w)) as Hl by by inversion Hfl.
      apply (moves_still _ _ _ _ _ _ Ht Hm); [lia| |done]. rewrite Hr. by intros ? [= -> ->].
  - assert (g < length (w_wgs w))%nat.
    { destruct (decide (g = length (w_wgs w))) as [->|]; inversion Hfl; subst; try lia; exfalso; by eapply Hr'. }
    apply (moves_still _ _ _ _ _ _ Ht Hm); [lia|by rewrite Hr|done].
Qed.

Lemma moves_subs w w' r r' rs a s' :
  tally w (r :: rs) -> moves w w' r r' -> w_subs w' !! a = Some s' ->
  (0 < subWg s' < length (w_wgs w'))%nat
  /\ (Reason s' <> "" \/ (a, subWg s') ∈ omap answers_for (r' :: rs)).
Proof.
  intros Ht Hm Hs'. pose proof (moves_wgs _ _ _ _ Hm) as Hw. rewrite elem_of_omap_cons.
  destruct (mv_subs _ _ _ _ Hm a s' Hs') as [(s & Hs & Hwg & Himp)|[Hwg Ha]]; [|by auto].
  destruct (ta_subs _ _ Ht a s Hs) as [Hr Hor]. rewrite elem_of_omap_cons in Hor.
  rewrite <-Hwg. split; [lia|]. rewrite <-Hwg in Himp.
  destruct Hor as [Hne|[Hans|Hin]]; [..|by auto]; destruct Himp; auto.
Qed.

Lemma tally_moves w w' r r' rs : tally w (r :: rs) -> moves w w' r r' -> tally w' (r' :: rs).
Proof.
  intros Ht Hm. pose proof (moves_wgs _ _ _ _ Hm) as Hw. pose proof Ht as [H1 H2 H3 H4 H5 _ _ _ _ _ H11 H12 H13].
  pose proof Hm as [M1 M2 M3 M4 M5 M6 _ _ M9 M10 M11 M12].
  split; unfold count in *; cbn in H1, H2, H4, H5, H12, H13.
  - cbn. lia.
  - intros g Hg. specialize (H2 g Hg). specialize (M2 g Hg). cbn. lia.
  - lia.
  - cbn. lia.
  - cbn. lia.
  - done.
  - by eapply moves_nodup.
  - intros g k. by eapply moves_filling.
  - intros g. by eapply moves_filled.
  - intros a s. by eapply moves_subs.
  - intros a g Hin.
    assert ((a, g) ∈ omap answers_for (r :: rs) -> exists s, w_subs w' !! a = Some s /\ subWg s = g) as Hold.
    { intros Hi. destruct (H11 a g Hi) as (s & Hs & <-). by apply M9. }
    rewrite elem_of_omap_cons in Hold. apply elem_of_omap_cons in Hin as [Hr'|Hin]; [|by auto].
    destruct (M10 a g Hr') as [Hr|?]; auto.
  - intros Hids. specialize (H12 Hids). specialize (M11 Hids). cbn. lia.
  - cbn. lia.
Qed.

(** Operations that leave the subscribers alone. *)
Lemma moves_intro w w' r r' :
  w_subs w' = w_subs w -> answers_for r' = answers_for r ->
  Z.of_nat (in_batch r') - counter w' 0 <= Z.of_nat (in_batch r) - counter w 0 ->
  (forall g, g <> 0%nat ->
    Z.of_nat (in_group g r') - counter w' g <= Z.of_nat (in_group g r) - counter w g) ->
  (forall g, g <> 0%nat -> counter w g = 0 -> in_group g r = 0%nat ->
    (forall k, filling r <> Some (g, k)) -> counter w' g = 0) ->
  (activations (w_trace w') + length (w_wgs w) + groupless r
   = activations (w_trace w) + length (w_wgs w') + groupless r')%nat ->
  (activations (w_trace w') + length (w_onus w) + objectless r
   = activations (w_trace w) + length (w_onus w') + objectless r')%nat ->
  Forall onu_good (w_onus w') -> regroup w w' (filling r) (filling r') ->
  (ids_given ->
   (activations (w_trace w') + to_activate r' = activations (w_trace w) + to_activate r)%nat) ->
  (boss r' + (if w_killed w' then 1 else 0) = boss r + (if w_killed w then 1 else 0))%nat ->
  moves w w' r r'.
Proof.
  intros Hs Ha H1 H2 H3 H4 H5 H6 H7 H8 H9. split; rewrite ?Hs, ?Ha; try done.
  - intros a s Has. left. by exists s.
  - intros a s Has. by exists s.
  - intros a g Hg. by left.
Qed.

Lemma members_same w w' : w_subs w' = w_subs w -> forall g, members w' g = members w g.
Proof. intros Hs g. unfold members. by rewrite Hs. Qed.

(** Operations that leave everything the tally counts. *)
Lemma moves_same w w' r :
  w_subs w' = w_subs w -> w_wgs w' = w_wgs w -> activations (w_trace w') = activations (w_trace w) ->
  length (w_onus w') = length (w_onus w) -> Forall onu_good (w_onus w') ->
  w_killed w' = w_killed w -> moves w w' r r.
Proof.
  intros Hs Hw Ht Hl Hg Hk.
  assert (forall g, counter w' g = counter w g) as Hc by (intros g; unfold counter; by rewrite Hw).
  apply moves_intro; rewrite ?Hw, ?Ht, ?Hl, ?Hc, ?Hk; try done; try (intros g; by rewrite Hc).
  apply rg_same; [by rewrite Hw|by apply members_same].
Qed.

Lemma activations_none tr : Forall (fun q => ~ is_activation q) tr -> activations tr = 0%nat.
Proof.
  unfold activations. induction 1 as [|q l Hq _ IH]; [done|]. by rewrite filter_cons_False.
Qed.

Lemma activations_snoc tr q :
  activations (tr ++ [q]) = (activations tr + if decide (is_activation q) then 1 else 0)%nat.
Proof.
  unfold activations. rewrite filter_app, length_app. f_equal. cbn. by case_decide.
Qed.

Lemma moves_rpc w q r K rs :
  tally w (r :: rs) -> role_can (OpRpc q) r K ->
  refusals [] (w_trace w ++ [q]) = 0%nat ->
  exists r', K (status_Err (device (w_trace w) q)) r' /\ moves w (set_trace (w_trace w ++ [q]) w) r r'.
Proof.
  intros Ht Ho Hok. pose proof (ta_good _ _ Ht) as Hg. pose proof (activations_snoc (w_trace w) q) as Ha.
  rewrite refusals_snoc in Hok.
  destruct q; cbn [role_can] in Ho;
    try (rewrite decide_False, Nat.add_0_r in Ha by (intros []);
         exists r; split; [apply Ho, told_status|by apply moves_same]).
  rewrite decide_True in Ha by exact I.
  destruct Ho as [-> HK]. unfold status_Err.
  destruct (decide ((device (w_trace w) (RpcActivateOnu onu)).1 = OK)); [|lia].
  exists Accepted. split; [done|]. apply moves_intro; try done; cbn; try lia.
  by apply rg_same.
Qed.

Lemma moves_wg_add w g d w' r K rs :
  tally w (r :: rs) -> wg_add_can g d r K -> exec (OpWgAdd g d) w = Done tt w' ->
  exists r', K tt r' /\ moves w w' r r'.
Proof.
  intros Ht Ho He. pose proof (ta_good _ _ Ht) as Hgood. unfold exec, wg_add in He.
  destruct (w_wgs w !! g) as [c|] eqn:Hg; [|done].
  destruct (Z.ltb_spec (c + d) 0) as [|Hd]; [done|]. injection He as <-.
  apply lookup_lt_Some in Hg as Hlt.
  pose proof (fun h => counter_insert w g (c + d) h Hlt) as Hcnt.
  assert (counter w g = c) as Hc by (unfold counter; by rewrite Hg).
  set (w' := set_wgs _ w) in *.
  assert (length (w_wgs w') = length (w_wgs w)) as Hl by apply length_insert.
  assert (forall fl, regroup w w' fl fl) as Hrg by (intros fl; by apply rg_same).
  assert (forall r', Z.of_nat (in_batch r') - (if decide (0%nat = g) then d else 0) <= Z.of_nat (in_batch r) ->
    (forall h, h <> 0%nat -> Z.of_nat (in_group h r') - (if decide (h = g) then d else 0)
                <= Z.of_nat (in_group h r)) ->
    (g <> 0%nat -> in_group g r = 0%nat -> exists k, filling r = Some (g, k)) ->
    answers_for r' = answers_for r -> groupless r' = groupless r -> objectless r' = objectless r ->
    filling r' = filling r -> to_activate r' = to_activate r -> boss r' = boss r ->
    moves w w' r r') as Hnew.
  { intros r' H1 H2 H3 H4 H5 H6 H7 H8 H9. apply moves_intro; rewrite ?Hl, ?H5, ?H6, ?H7, ?H8, ?H9; try done; try lia.
    - rewrite Hcnt. destruct (decide (0%nat = g)); [subst g|]; lia.
    - intros h Hh. specialize (H2 h Hh). rewrite Hcnt. destruct (decide (h = g)); [subst h|]; lia.
    - intros h Hh Hz Hi Hf. rewrite Hcnt. destruct (decide (h = g)); [subst h|done].
      destruct (H3 Hh Hi) as [k Hk]. by destruct (Hf k). }
  assert (forall h k a, r = Made h k a -> h <> 0%nat) as Hmade.
  { intros h k a ->. destruct (ta_filling _ _ Ht h (S k)) as [? _]; [apply elem_of_cons; by left|lia]. }
  destruct r as [|[|n]| | | | | | | | | |]; try done; destruct Ho as (-> & -> & HK);
    try (destruct HK as [Hne HK]);
    try (pose proof (Hmade _ _ _ eq_refl)); (eexists; split; [exact HK|]); apply Hnew;
    cbn; try done; try lia; try (intros h Hh; repeat case_decide; subst; try done; lia).
  - rewrite decide_False by done. lia.
  - by eexists.
  - rewrite decide_False by done. lia.
Qed.

Lemma moves_new_wg w rs :
  tally w (Device :: rs) ->
  moves w (set_wgs (w_wgs w ++ [0]) w) Device (Making (length (w_wgs w)) 0).
Proof.
  intros Ht. pose proof (ta_wgs _ _ Ht) as H0.
  assert (length (w_wgs (set_wgs (w_wgs w ++ [0]) w)) = S (length (w_wgs w))) as Hl
    by (cbn; rewrite length_app; cbn; lia).
  assert (forall g, counter (set_wgs (w_wgs w ++ [0]) w) g = counter w g) as Hc.
  { intros g. unfold counter. cbn. destruct (decide (g < length (w_wgs w))%nat).
    - by rewrite lookup_app_l.
    - rewrite lookup_app_r, (lookup_ge_None_2 (w_wgs w)) by lia.
      by destruct (g - length (w_wgs w))%nat as [|[|?]]. }
  apply moves_intro; rewrite ?Hl, ?Hc; try done; try (intros g; by rewrite Hc); cbn; try lia.
  - apply (ta_good _ _ Ht).
  - by apply rg_open.
Qed.

Lemma moves_new_sub w g k s rs :
  tally w (Making g k :: rs) -> subWg s = g ->
  moves w (set_subs (w_subs w ++ [s]) w) (Making g k) (Made g k (length (w_subs w))).
Proof.
  intros Ht Hs. destruct (ta_filling _ _ Ht g k) as [Hg _]; [apply elem_of_cons; by left|].
  split; try (cbn; lia); try done.
  - apply (ta_good _ _ Ht).
  - apply rg_more; [done|]. intros h. unfold members. cbn. rewrite filter_app, length_app. f_equal.
    cbn. rewrite Hs. repeat case_decide; by subst.
  - intros a s' Ha. cbn in Ha. destruct (decide (a < length (w_subs w))%nat).
    + rewrite lookup_app_l in Ha by done. left. exists s'. split_and!; [done..|]. intros [?|[=]]. by left.
    + apply lookup_snoc_Some in Ha as [[? _]|[-> <-]]; [lia|]. right. rewrite Hs. by split.
  - intros a s' Ha. exists s'. split; [|done]. cbn. rewrite lookup_app_l; [done|by eapply lookup_lt_Some].
  - intros a h [= <- <-]. right. exists s. split; [|done]. cbn. by rewrite lookup_app_r, Nat.sub_diag.
Qed.

Lemma moves_store_sub w a g s r' rs :
  tally w (Serving a g :: rs) -> subWg s = g -> r' = Serving a g \/ Reason s <> "" /\ r' = Served g ->
  moves w (set_subs (<[a := s]> (w_subs w)) w) (Serving a g) r'.
Proof.
  intros Ht Hs Hr'. destruct (ta_answers _ _ Ht a g) as (s0 & Ha & Hs0); [apply elem_of_cons; by left|].
  apply lookup_lt_Some in Ha as Hlt.
  assert (filling r' = None /\ groupless r' = 0%nat /\ objectless r' = 0%nat /\ in_batch r' = 0%nat
    /\ forall h, in_group h r' = in_group h (Serving a g)) as (F1 & F2 & F3 & F4 & F5)
    by by destruct Hr' as [->|[_ ->]].
  split; rewrite ?F1, ?F2, ?F3, ?F4; try (cbn; lia); try done.
  - intros h _. rewrite F5. cbn. change (counter (set_subs _ w) h) with (counter w h). lia.
  - apply (ta_good _ _ Ht).
  - apply rg_same; [done|]. intros h. unfold members. cbn.
    rewrite <-(list_insert_id (w_subs w) a s0 Ha) at 2. rewrite !insert_take_drop by done.
    rewrite !filter_app, !length_app. f_equal. cbn. rewrite Hs, Hs0. by case_decide.
  - intros b s' Hb. left. cbn in Hb. destruct (decide (a = b)) as [<-|Hne].
    + rewrite list_lookup_insert_eq in Hb by done. injection Hb as <-. exists s0.
      split_and!; [done|congruence|]. intros _. destruct Hr' as [->|[? _]]; [right|by left]. cbn. congruence.
    + rewrite list_lookup_insert_ne in Hb by done. exists s'. split_and!; [done..|].
      intros [?|[= ? _]]; [by left|done].
  - intros b s' Hb. cbn. destruct (decide (a = b)) as [<-|Hne].
    + exists s. rewrite list_lookup_insert_eq by done. split; [done|]. congruence.
    + exists s'. by rewrite list_lookup_insert_ne.
  - intros b h Hb. left. destruct Hr' as [->|[_ ->]]; done.
  - destruct Hr' as [->|[_ ->]]; done.
  - destruct Hr' as [->|[_ ->]]; done.
Qed.

Lemma moves_exec {X} (o : Op X) w x w' r K rs :
  tally w (r :: rs) -> role_can o r K -> exec o w = Done x w' -> refusals [] (w_trace w') = 0%nat ->
  exists r', K x r' /\ moves w w' r r'.
Proof.
  intros Ht Ho He Hok. pose proof (ta_good _ _ Ht) as Hg.
  destruct o; try (by destruct x; eapply moves_wg_add);
    try (exists r; cbv [exec with_mgr] in He;
         repeat match type of He with
         | context [match ?e with _ => _ end] => destruct e
         end; try discriminate; injection He as <- <-;
         split; [by apply Ho|by apply moves_same]).
  - cbv [exec] in He. injection He as <- <-. by eapply moves_rpc.
  - cbv [exec] in He. injection He as <- <-. exists r. split; [|by apply moves_same].
    apply Ho. intros Hn. by apply Z.mod_pos_bound.
  - unfold exec, with_mgr in He. repeat case_match; try done. injection He as <- <-.
    exists r. split; [apply Ho, u64_range|by apply moves_same].
  - unfold exec, with_mgr in He. destruct (w_rsrMgr w !! mgr) as [[m|]|]; try done.
    destruct (tp_GetResourceID mgr intf t n (w_tp w)) as [[ids err] st] eqn:E.
    injection He as <- <-. specialize (Ho ids err).
    destruct r as [|[|q]| | | | | | | | | |]; try (eexists; split; [exact Ho|by apply moves_same]).
    destruct t; try (eexists; split; [exact Ho|by apply moves_same]).
    destruct err as [e|]; [|eexists; split; [exact Ho|by apply moves_same]].
    exists (Provisioner q). split; [done|]. apply moves_intro; try done; cbn; try lia; [by apply rg_same|].
    intros Hids. destruct (Hids mgr intf n (w_tp w)) as [l Hl]. by rewrite E in Hl.
  - cbv [exec] in He. injection He as <- <-. destruct Ho as [-> HK].
    eexists. split; [apply HK|]. by eapply moves_new_wg.
  - unfold exec in He. destruct (w_wgs w !! g) as [c|] eqn:Hc; [|done].
    destruct (Z.eqb_spec c 0) as [->|]; [|done]. injection He as <- <-.
    destruct r; try (eexists; split; [exact Ho|by apply moves_same]).
    destruct Ho as (-> & -> & HK). eexists. split; [exact HK|].
    apply moves_intro; cbn; try done; try lia; try (intros h; by auto).
    apply rg_close; [done..|]. unfold counter. by rewrite Hc.
  - cbv [exec] in He. injection He as <- <-. destruct Ho as (-> & Hd & HK).
    eexists. split; [apply HK|]. apply moves_intro; cbn; try done; rewrite ?length_app; cbn; try lia.
    + apply Forall_app. by split; [|constructor].
    + by apply rg_same.
  - unfold exec in He. destruct (w_onus w !! a) as [d|] eqn:Ha; [|done]. injection He as <- <-.
    eexists. split; [apply Ho|by apply moves_same]. rewrite Forall_lookup in Hg. by eapply Hg.
  - cbv [exec] in He. injection He as <- <-. destruct Ho as [Hd HK]. exists r. split; [done|].
    apply moves_same; try done; cbn; [by rewrite length_insert|by apply Forall_insert].
  - cbv [exec] in He. injection He as <- <-. destruct Ho as (g & k & -> & Hs & HK).
    eexists. split; [apply HK|]. by eapply moves_new_sub.
  - unfold exec in He. destruct (w_subs w !! a) as [s|] eqn:Ha; [|done]. injection He as <- <-.
    destruct Ho as (g & -> & HK). exists (Serving a g). split; [|by apply moves_same].
    destruct (ta_answers _ _ Ht a g) as (s0 & Ha' & Hs0); [apply elem_of_cons; by left|]. simplify_eq.
    apply HK; [done|]. destruct (ta_subs _ _ Ht a s Ha) as [? _]. lia.
  - cbv [exec] in He. injection He as <- <-. destruct Ho as (g & -> & Hs & [HK|[Hr HK]]);
      (eexists; split; [exact HK|]); eapply moves_store_sub; eauto.
  - cbv [exec] in He. injection He as <- <-. destruct Ho as [-> HK]. exists Idle. split; [done|].
    pose proof (ta_boss _ _ Ht) as Hb. unfold count in Hb. cbn in Hb.
    apply moves_intro; try done; cbn; try lia. by apply rg_same.
Qed.

#[local] Instance tally_sound : Sound role (fun w => refusals [] (w_trace w) = 0%nat) tally.
Proof.
  split.
  - apply tally_perm.
  - intros w r rs X o K x w' Ht Ho He Hok. destruct (moves_exec o w x w' r K rs Ht Ho He Hok) as (r' & HK & Hm).
    exists r'. split; [done|]. by eapply tally_moves.
  - apply tally_go.
  - intros X o w x w' He Hok. rewrite (exec_trace o w x w' He), refusals_app in Hok. lia.
Qed.

(** *** Nothing outstanding *)

Lemma members_total c N (l : list Subscriber) :
  Forall (fun s => (0 < subWg s <= N)%nat) l ->
  (forall g, (0 < g <= N)%nat -> length (filter (fun s => subWg s = g) l) = c) ->
  length l = (N * c)%nat.
Proof.
  revert l. induction N as [|N IH]; intros l Hl Hc.
  { destruct Hl as [|s l Hs _]; [done|lia]. }
  rewrite <-(filter_app_complement (fun s => subWg s = S N) l), length_app, Hc by lia.
  rewrite (IH (filter (fun s => ~ subWg s = S N) l)); [lia| |].
  - rewrite Forall_forall in Hl |- *. intros s [Hne Hin]%list_elem_of_filter.
    specialize (Hl s Hin). lia.
  - intros g Hg. rewrite <-(Hc g) by lia. f_equal. apply list_filter_filter_l. intros s Hs. lia.
Qed.

(** No role is left in a batch once its counter is 0. *)
Lemma tally_idle w rs r : tally w rs -> counter w 0 = 0 -> r ∈ rs -> in_batch r = 0%nat.
Proof.
  intros Ht Hc Hr. apply elem_of_Permutation in Hr as [rs' Hr].
  apply (tally_perm _ _ _ Hr) in Ht. pose proof (ta_batch _ _ Ht) as Hb. unfold count in Hb. cbn in Hb. lia.
Qed.

Lemma count_idle f rs :
  (forall r, in_batch r = 0%nat -> f r = 0%nat) -> (forall r, r ∈ rs -> in_batch r = 0%nat) ->
  count f rs = 0%nat.
Proof.
  intros Hf Hrs. induction rs as [|r rs IH]; [done|]. unfold count in *. cbn.
  rewrite IH, Hf; [done|apply Hrs, elem_of_cons; by left|]. intros r' Hr'. apply Hrs, elem_of_cons. by right.
Qed.

Lemma tally_filled w rs g :
  tally w rs -> counter w 0 = 0 -> (0 < g < length (w_wgs w))%nat ->
  counter w g = 0 /\ members w g = per_onu.
Proof.
  intros Ht Hc Hg. destruct (ta_filled _ _ Ht g Hg) as [Hin|?]; [|done].
  apply groups_elem in Hin as [k (r & Hr & Hf)%list_elem_of_omap].
  apply (tally_idle _ _ _ Ht Hc) in Hr. by destruct r.
Qed.

Lemma tally_end w rs :
  tally w rs -> counter w 0 = 0 ->
  length (w_onus w) = activations (w_trace w) /\ Forall onu_good (w_onus w)
  /\ length (w_subs w) = (activations (w_trace w) * per_onu)%nat
  /\ Forall (fun s => Reason s <> "") (w_subs w).
Proof.
  intros Ht Hc. pose proof (fun r => tally_idle _ _ r Ht Hc) as Hi.
  pose proof (ta_onus _ _ Ht) as Ho. pose proof (ta_acts _ _ Ht) as Ha.
  rewrite (count_idle objectless) in Ho by first [done|by intros []].
  rewrite (count_idle groupless) in Ha by first [done|by intros []].
  split_and!; [lia|apply Ht| |].
  - apply members_total.
    + apply Forall_lookup. intros a s Hs. destruct (ta_subs _ _ Ht a s Hs). lia.
    + intros g Hg. apply (tally_filled _ _ _ Ht Hc). lia.
  - apply Forall_lookup. intros a s Hs. destruct (ta_subs _ _ Ht a s Hs) as [Hg [?|Hans]]; [done|exfalso].
    apply list_elem_of_omap in Hans as (r & Hr & Hans). pose proof (Hi r Hr) as Hb.
    destruct (tally_filled _ _ _ Ht Hc Hg) as [Hz _].
    apply elem_of_Permutation in Hr as [rs' Hr]. apply (tally_perm _ _ _ Hr) in Ht.
    pose proof (ta_group _ _ Ht (subWg s) ltac:(lia)) as Hgr. unfold count in Hgr. cbn in Hgr.
    destruct r; try done. injection Hans as <- ->. cbn in Hgr. rewrite decide_True in Hgr by done. lia.
Qed.

(** Nothing is left to activate once provisioning is over. *)
Lemma tally_planned w rs :
  tally w rs -> counter w 0 = 0 -> w_killed w = true -> ids_given -> activations (w_trace w) = total.
Proof.
  intros Ht Hc Hk Hids. pose proof (ta_plan _ _ Ht Hids) as Hp. pose proof (ta_boss _ _ Ht) as Hb.
  rewrite Hk in Hb. assert (count to_activate rs = 0%nat) as Hz; [|lia].
  assert (forall r, r ∈ rs -> boss r = 0%nat /\ in_batch r = 0%nat) as Hr.
  { intros r Hr. split; [|by eapply tally_idle]. apply elem_of_Permutation in Hr as [rs' Hr].
    unfold count in Hb. rewrite Hr in Hb. cbn in Hb. lia. }
  clear -Hr. induction rs as [|r rs IH]; [done|]. unfold count in *. cbn.
  destruct (Hr r) as [H1 H2]; [apply elem_of_cons; by left|].
  rewrite IH by (intros r' Hr'; apply Hr, elem_of_cons; by right). by destruct r.
Qed.

End tally.

#[local] Existing Instance tally_sound.
#[local] Arguments activations tr : simpl never.

Lemma killed_tally `{Env} di w pool w' :
  fresh w -> w_onus w = [] -> steps (Running [provisionONUs cfg di] w) (Running pool w') ->
  w_killed w' = true -> exists rs, tally (planned di) w' rs.
Proof.
  intros Hf Hn Hs Hk. destruct (killed_accounts _ _ _ _ _ Hf Hs Hk) as [Hok _].
  destruct Hf as [F1 F2 F3 F4]. destruct (fresh_start _ _ _ _ _ F2 Hs) as [->|Hs']; [by rewrite F4 in Hk|].
  apply (judged_inv (allowed := fun w => refusals [] (w_trace w) = 0%nat) (inv := tally (planned di))
    [after_new_wg cfg di 0] (set_wgs [0] w) [Provisioner (planned di)] pool);
    [| |exact Hs'|done].
  - constructor; [apply role_after_new_wg|constructor].
  - split; cbn; rewrite ?(activations_none _ F1), ?(refusals_none _ _ F1), ?F3, ?F4, ?Hn; cbn; try done; try lia.
    all: try (intros; lia).
    + intros g Hg. unfold counter. cbn. by destruct g as [|[|g]].
    + constructor.
    + by intros g k ?%not_elem_of_nil.
    + by intros a g ?%not_elem_of_nil.
Qed.

End roles.

(** A power of two of ONUs on a power of two of PONs: all of them. *)
Lemma planned_all cfg di :
  let n := NumOfOnu cfg in let p := di_PonPorts di in
  n < 2 ^ 32 -> 0 < p <= n -> isPowerOfTwo n = true -> isPowerOfTwo p = true ->
  planned cfg di = Z.to_nat n.
Proof.
  cbv zeta. intros Hn Hp Htn Htp. unfold planned. rewrite Htn.
  assert ((NumOfOnu cfg <? di_PonPorts di) = false) as -> by lia.
  assert ((di_PonPorts di =? 0) = false) as -> by lia. cbn [negb orb].
  destruct (even_batches (NumOfOnu cfg) (di_PonPorts di)) as (per & -> & Hper & Hall); [lia..|].
  assert ((per =? 0) = false) as -> by lia. rewrite <-(Hall Htn Htp) at 2. nia.
Qed.

(** ** What the signal means *)

(** Provisioning that has come to its end: every activation was accepted by the
    agent; each has its ONU object, with reason OK; every ONU has exactly its
    configured number of subscribers; and each of these has its outcome recorded,
    success or the text of an error.  When no request for an ONU id was refused,
    no ONU is missing. *)
Record provisioned `{Env} (cfg : OpenOltScaleTesterConfig) (di : DeviceInfo) (w : World) : Prop := {
  pv_accepted i onu : w_trace w !! i = Some (RpcActivateOnu onu) ->
    (device (take i (w_trace w)) (RpcActivateOnu onu)).1 = OK;
  pv_onus : length (w_onus w) = activations (w_trace w);
  pv_ok : Forall (fun d => onu_Reason d = "OK") (w_onus w);
  pv_subs : length (w_subs w) = (activations (w_trace w) * Z.to_nat (SubscribersPerOnu cfg))%nat;
  pv_outcomes : Forall (fun s => Reason s <> "") (w_subs w);
  pv_planned : ids_given -> activations (w_trace w) = planned cfg di;
}.

(** When the signal that ends the process has been sent, in any environment and
    under any interleaving. *)
Theorem killed_provisioned `{Env} (cfg : OpenOltScaleTesterConfig) (di : DeviceInfo) (w : World)
    (pool : list (prog unit)) (w' : World) :
  fresh w -> w_onus w = [] ->
  steps (Running [provisionONUs cfg di] w) (Running pool w') -> w_killed w' = true -> provisioned cfg di w'.
Proof.
  intros Hf Hn Hs Hk. destruct (killed_accounts _ _ _ _ _ Hf Hs Hk) as [Hok Hc].
  destruct (killed_tally _ _ _ _ _ Hf Hn Hs Hk) as [rs Ht].
  destruct (tally_end _ _ _ _ Ht Hc) as (H1 & H2 & H3 & H4). split; try done.
  - intros i onu Hi. by apply (refusals_lookup [] _ i onu).
  - eapply Forall_impl; [exact H2|]. by intros d (_ & _ & ?).
  - by eapply tally_planned.
Qed.
