(* ===== verification/Traffic.v ===== *)
(** * How many requests a run sends

    A judgement in which a share is a number of requests: [costs k p] says that [p],
    with the goroutines it starts, sends at most [k] requests in any execution.  The
    unicast stages send each request once, whatever the answers; the TT workflow
    sends one per gem port, priority code point and flow of a service.  With the
    number of ONUs this bounds the requests of a run. *)
From S2P Require Import Prelude Utils Proto Config Runtime Play Judgement Samples TechProfile ResourceManager WorkflowUtils AttWorkflow DtWorkflow TtWorkflow WorkflowManager SubscriberManager OnuManager OltManager Typing Plan Termination WaitGroups Completion Outcomes.

Section traffic.
Variables (cfg : OpenOltScaleTesterConfig) (pairs : nat).

(** The gem ports of an instance carry at most [pairs] priority code points. *)
Definition small (inst : TechProfileInstance) : Prop := (length (gem_pcps inst) <= pairs)%nat.

Definition sub_small (s : Subscriber) : Prop := TestConfig s = cfg /\ map_Forall (fun _ => small) (TpInstance s).

(** The requests of one subscriber. *)
Definition requests_of : nat :=
  if IsGroupTest cfg then if decide (WorkflowName cfg = "TT") then 5 else 0
  else if decide (WorkflowName cfg = "ATT") then 8
  else if decide (WorkflowName cfg = "DT") then 6
  else if decide (WorkflowName cfg = "TT") then 4 + 12 * pairs
  else 0.

Definition op_budget {X : Type} (o : Op X) (r : nat) (K : X -> nat -> Prop) : Prop :=
  match o in Op X return (X -> nat -> Prop) -> Prop with
  | OpRpc _ => fun K => exists r', r = S r' /\ forall e, K e r'
  | OpCreateTechProfileInstance _ _ _ _ => fun K =>
      forall inst err, (forall i, inst = Some i -> small i) -> K (inst, err) r
  | OpNewOnu d => fun K => onu_testConfig d = cfg /\ forall a, K a r
  | OpLoadOnu _ => fun K => forall d, onu_testConfig d = cfg -> K d r
  | OpStoreOnu _ d => fun K => onu_testConfig d = cfg /\ K tt r
  | OpNewSub s => fun K => sub_small s /\ forall a, K a r
  | OpLoadSub _ => fun K => forall s, sub_small s -> K s r
  | OpStoreSub _ s => fun K => sub_small s /\ K tt r
  | _ => fun K => forall x, K x r
  end K.

Lemma op_budget_mono {X} (o : Op X) r (K K' : X -> nat -> Prop) :
  op_budget o r K -> (forall x r', K x r' -> K' x r') -> op_budget o r K'.
Proof.
  intros Ho HK. destruct o; cbn in *; auto; try (destruct Ho; split; by auto).
  destruct Ho as (r' & -> & Ho). exists r'. auto.
Qed.

#[local] Instance budget_logic : Logic nat := {
  allows := @op_budget;
  splits r rc rk := (rc + rk <= r)%nat;
  allows_mono := @op_budget_mono;
}.

(** ** Costs *)

Definition costs {A} (k : nat) (p : prog A) : Prop :=
  forall r Q, (k <= r)%nat -> (forall a r', (r - k <= r')%nat -> Q a r') -> judge p r Q.

Lemma costs_judge {A} k (p : prog A) : costs k p -> judge p k anything.
Proof. intros Hp. by apply Hp. Qed.

Lemma costs_mono {A} k k' (p : prog A) : costs k p -> (k <= k')%nat -> costs k' p.
Proof. intros Hp Hk r Q Hr HQ. apply Hp; [lia|]. intros a r' Hr'. apply HQ. lia. Qed.

Lemma costs_ret {A} k (a : A) : costs k (Ret a).
Proof. intros r Q _ HQ. apply HQ. lia. Qed.

Lemma costs_panic {A} k e : costs k (Panic e : prog A).
Proof. done. Qed.

Lemma costs_bind {A B} k1 k2 (p : prog A) (f : A -> prog B) :
  costs k1 p -> (forall a, costs k2 (f a)) -> costs (k1 + k2) (p ≫= f).
Proof.
  intros Hp Hf r Q Hr HQ. apply judge_bind, Hp; [lia|]. intros a r1 Hr1. apply Hf; [lia|].
  intros b r2 Hr2. apply HQ. lia.
Qed.

Lemma costs_rpc q : costs 1 (op (OpRpc q)).
Proof. intros r Q Hr HQ. exists (pred r). split; [lia|]. intros e. apply HQ. lia. Qed.

Lemma costs_rpc_bind {B} k q (f : option GoError -> prog B) : (forall e, costs k (f e)) -> costs (S k) (op (OpRpc q) ≫= f).
Proof. intros Hf. apply (costs_bind 1 k); [apply costs_rpc|done]. Qed.

(** Operations that are free, whatever their answer. *)
Definition free_op {X} (o : Op X) : Prop := forall r K, (forall x, K x r) -> op_budget o r K.

Lemma costs_op_bind {X B} k (o : Op X) (f : X -> prog B) :
  free_op o -> (forall x, costs k (f x)) -> costs k (op o ≫= f).
Proof. intros Ho Hf r Q Hr HQ. apply judge_op_bind, Ho. intros x. by apply Hf. Qed.

Lemma costs_op {X} (o : Op X) : free_op o -> costs 0 (op o).
Proof. intros Ho r Q _ HQ. apply Ho. intros x. apply HQ. lia. Qed.

Lemma costs_load_sub {B} k a (f : Subscriber -> prog B) :
  (forall s, sub_small s -> costs k (f s)) -> costs k (op (OpLoadSub a) ≫= f).
Proof. intros Hf r Q Hr HQ. apply judge_op_bind. intros s Hs. by apply (Hf s Hs). Qed.

Lemma costs_store_sub {B} k a s (f : unit -> prog B) :
  sub_small s -> costs k (f tt) -> costs k (op (OpStoreSub a s) ≫= f).
Proof. intros Hs Hf r Q Hr HQ. apply judge_op_bind. split; [done|]. by apply Hf. Qed.

Lemma costs_create {B} k m tpID name j (f : option TechProfileInstance * option GoError -> prog B) :
  (forall inst err, (forall i, inst = Some i -> small i) -> costs k (f (inst, err))) ->
  costs k (op (OpCreateTechProfileInstance m tpID name j) ≫= f).
Proof. intros Hf r Q Hr HQ. apply judge_op_bind. intros inst err Hi. by apply (Hf inst err Hi). Qed.

Lemma costs_new_sub {B} k s (f : nat -> prog B) :
  sub_small s -> (forall a, costs k (f a)) -> costs k (op (OpNewSub s) ≫= f).
Proof. intros Hs Hf r Q Hr HQ. apply judge_op_bind. split; [done|]. intros a. by apply Hf. Qed.

Lemma costs_new_onu {B} k d (f : nat -> prog B) :
  onu_testConfig d = cfg -> (forall a, costs k (f a)) -> costs k (op (OpNewOnu d) ≫= f).
Proof. intros Hd Hf r Q Hr HQ. apply judge_op_bind. split; [done|]. intros a. by apply Hf. Qed.

Lemma costs_load_onu {B} k a (f : OnuDevice -> prog B) :
  (forall d, onu_testConfig d = cfg -> costs k (f d)) -> costs k (op (OpLoadOnu a) ≫= f).
Proof. intros Hf r Q Hr HQ. apply judge_op_bind. intros d Hd. by apply (Hf d Hd). Qed.

Lemma costs_store_onu {B} k a d (f : unit -> prog B) :
  onu_testConfig d = cfg -> costs k (f tt) -> costs k (op (OpStoreOnu a d) ≫= f).
Proof. intros Hd Hf r Q Hr HQ. apply judge_op_bind. split; [done|]. by apply Hf. Qed.

Lemma costs_go {A} k c (a : A) : costs k c -> costs k (Go c (Ret a)).
Proof.
  intros Hc r Q Hr HQ. exists k, (r - k)%nat. split_and!; [cbn; lia|by apply costs_judge|by apply HQ].
Qed.

Lemma costs_for_each {A} k (l : list A) body : (forall x, costs k (body x)) -> costs (k * length l) (for_each l body).
Proof.
  intros Hb. induction l as [|x l IH]; [apply costs_ret|].
  rewrite for_each_cons. eapply costs_mono; [by apply costs_bind|]. cbn. lia.
Qed.

Lemma costs_for_err {A} (l : list A) body (c : A -> nat) :
  (forall x, x ∈ l -> costs (c x) (body x)) -> costs (sum_list (c <$> l)) (for_err l body).
Proof.
  intros Hb. induction l as [|x l IH]; [apply costs_ret|]. cbn [for_err fmap list_fmap sum_list].
  apply costs_bind; [apply Hb; by left|]. intros [e|]; [apply costs_ret|]. apply IH. intros y Hy. apply Hb. by right.
Qed.

Lemma costs_when_nil k err p : costs k p -> costs k (when_nil err p).
Proof. intros Hp. destruct err; [apply costs_ret|done]. Qed.

(** A free program followed by one that is not. *)
Lemma costs_free_bind {A B} k (p : prog A) (f : A -> prog B) :
  costs 0 p -> (forall a, costs k (f a)) -> costs k (p ≫= f).
Proof. by apply (costs_bind 0). Qed.

(** ** The workflows *)

Lemma costs_deref {A} (p : option A) : costs 0 (deref p).
Proof. destruct p; [apply costs_ret|apply costs_panic]. Qed.

Lemma costs_index {A} (l : list A) i : costs 0 (index l i).
Proof. unfold index. destruct (l !! i); [apply costs_ret|apply costs_panic]. Qed.

Lemma costs_GetFlowID m pon : costs 0 (GetFlowID m pon).
Proof. apply costs_op_bind; [by intros r K|]. intros id. apply costs_ret. Qed.

Lemma costs_with_flow_id subs k f : (forall id, costs k (f id)) -> costs k (with_flow_id subs f).
Proof. intros Hf. apply costs_free_bind; [apply costs_GetFlowID|]. intros [id [e|]]; [apply costs_ret|apply Hf]. Qed.

Lemma costs_first_TpInstance subs : costs 0 (first_TpInstance subs).
Proof. apply costs_free_bind; [apply costs_index|]. intros id. apply costs_ret. Qed.

Lemma costs_random_mac n mac : costs 0 (random_mac n mac).
Proof.
  revert mac. induction n as [|n IH]; intros mac; [apply costs_ret|].
  apply costs_free_bind; [|intros b; apply IH]. apply costs_op_bind; [by intros r K|]. intros r. apply costs_ret.
Qed.

Lemma costs_GetTrafficScheduler inst c sh : costs 0 (GetTrafficScheduler inst c sh).
Proof. do 3 (apply costs_free_bind; [apply costs_deref|intros ?]). apply costs_ret. Qed.

(** Takes a program apart; the answers do not matter. *)
Ltac costing :=
  repeat first
    [ apply costs_ret | apply costs_panic | apply costs_rpc | apply costs_deref | apply costs_index
    | apply costs_first_TpInstance | apply costs_GetFlowID | apply costs_random_mac | apply costs_GetTrafficScheduler
    | apply costs_rpc_bind; intros ?
    | apply costs_op_bind; [by intros ? ?|intros ?]
    | apply costs_free_bind; [|intros ?]
    | match goal with
      | |- costs _ (match ?x with _ => _ end) => destruct x
      end ].

Lemma costs_send_scheds subs d : costs 1 (send_scheds subs d).
Proof. apply costs_free_bind; [unfold getTrafficSched, GetDsScheduler, GetUsScheduler; costing|]. intros ts. costing. Qed.

Lemma costs_send_queues subs d : costs 1 (send_queues subs d).
Proof. apply costs_free_bind; [unfold getTrafficQueues, GetTrafficQueues; costing|]. intros ts. costing. Qed.

Lemma costs_AddFlow subs ty dir id alloc gem pcp rep sym pb : costs 1 (AddFlow subs ty dir id alloc gem pcp rep sym pb).
Proof. unfold AddFlow. costing. Qed.

Lemma costs_AddTtFlow subs ty dir id alloc gem pcp rep sym pb : costs 1 (AddTtFlow subs ty dir id alloc gem pcp rep sym pb).
Proof.
  apply costs_free_bind; [|intros x; costing]. unfold FormatTtClassfierAction, GenerateMac. costing.
Qed.

Lemma costs_us_gems {B} k subs (f : Z * list GemPortAttributes -> prog B) :
  sub_small subs ->
  (forall alloc tp, small tp -> costs k (f (alloc, UpstreamGemPortAttributeList tp))) -> costs k (us_gems subs ≫= f).
Proof.
  intros [_ Hs] Hf. unfold us_gems, first_TpInstance, index.
  destruct (TpIDList (TestConfig subs) !! 0%nat) as [id|]; [|apply costs_panic].
  rewrite !ret_bind. cbn [mret]. change (Ret ?a ≫= ?g) with (g a).
  destruct (TpInstance subs !! id) as [tp|] eqn:Htp; [|apply costs_panic].
  cbn [deref]. rewrite !ret_bind. destruct (UsScheduler tp) as [us|]; [|apply costs_panic].
  cbn [deref]. rewrite !ret_bind. apply Hf. by apply Hs in Htp.
Qed.

(** The flows of a service of the TT workflow: [c] for each gem port and priority. *)
Lemma costs_service c subs body :
  sub_small subs -> (forall alloc g pcp, costs c (body alloc g pcp)) ->
  costs (c * pairs) ('(allocID, gems) ← us_gems subs;
    for_err gems (fun gem => for_err (pbit_pcps (gp_PbitMap gem)) (body allocID gem))).
Proof.
  intros Hs Hb. apply costs_us_gems; [done|]. intros alloc tp Htp.
  eapply costs_mono; [apply (costs_for_err _ _ (fun gem => c * length (pbit_pcps (gp_PbitMap gem)))%nat)|].
  - intros gem _. eapply costs_mono; [apply (costs_for_err _ _ (fun _ => c)); intros pcp _; apply Hb|].
    induction (pbit_pcps (gp_PbitMap gem)) as [|x l IH]; cbn in *; lia.
  - etrans; [|apply Nat.mul_le_mono_l; exact Htp]. unfold gem_pcps.
    induction (UpstreamGemPortAttributeList tp) as [|g l IH]; [cbn; lia|]. cbn.
    rewrite length_app, length_fmap. cbn in IH. lia.
Qed.

Ltac costs_flows :=
  repeat first
    [ apply costs_ret | apply costs_AddFlow | apply costs_AddTtFlow
    | apply costs_with_flow_id; intros ? | apply costs_when_nil
    | apply (costs_bind 1 1); [|intros ?] | apply (costs_bind 1 2); [|intros ?] | apply (costs_bind 1 3); [|intros ?]
    | apply (costs_bind 1 0); [|intros ?] ].

Lemma costs_two d d' (p q : prog (option GoError)) : costs d p -> costs d' q -> costs (d + d') (err ← p; when_nil err q).
Proof. intros Hp Hq. apply costs_bind; [done|]. intros err. by apply costs_when_nil. Qed.

Lemma costs_stages stages ks subs :
  Forall2 (fun (stage : Subscriber -> prog (option GoError)) k => costs k (stage subs)) stages ks ->
  costs (sum_list ks) (for_err stages (fun stage => stage subs)).
Proof.
  induction 1 as [|stage k stages ks Hs _ IH]; [apply costs_ret|]. cbn [for_err sum_list].
  apply costs_bind; [done|]. intros [e|]; [apply costs_ret|exact IH].
Qed.

Lemma costs_mapped subs ty dir :
  sub_small subs ->
  costs 1 ('(allocID, gems) ← us_gems subs;
           let pbitToGem := build_pbitToGem gems in
           with_flow_id subs (fun flowID => AddFlow subs ty dir flowID allocID 0 0xff true 0 pbitToGem)).
Proof. intros Hs. apply costs_us_gems; [done|]. intros alloc tp _. costs_flows. Qed.

Lemma costs_hsia subs :
  sub_small subs ->
  costs 2 ('(allocID, gems) ← us_gems subs;
           let pbitToGem := build_pbitToGem gems in
           with_flow_id subs (fun flowIDUs =>
           err ← AddFlow subs HsiaFlow Upstream flowIDUs allocID 0 0xff true 0 pbitToGem;
           when_nil err (
           with_flow_id subs (fun flowIDDs =>
           AddFlow subs HsiaFlow Downstream flowIDDs allocID 0 0xff true flowIDUs pbitToGem)))).
Proof. intros Hs. apply costs_us_gems; [done|]. intros alloc tp _. costs_flows. Qed.

Lemma costs_multicast grp : costs 5 (AddMulticastQueueFlow grp).
Proof.
  assert (costs 1 (AddMulticastFlow grp)) as Hf.
  { apply costs_free_bind; [apply costs_GetFlowID|]. intros [id [e|]]; [apply costs_ret|].
    apply costs_free_bind; [unfold GenerateMulticastMac; costing|]. intros mac. costing. }
  assert (costs 1 (AddMulticastSched grp)) as Hs by (unfold AddMulticastSched; costing).
  assert (forall (b : bool) (p : prog (option GoError)), costs 1 p -> costs 1 (if b then p else Ret None)) as Hif
    by (intros [|] p Hp; [done|apply costs_ret]).
  unfold AddMulticastQueueFlow.
  do 5 (apply (costs_two 1); [apply Hif; first [done|apply costs_rpc]|]). apply costs_ret.
Qed.

Lemma costs_tt_multicast subs : costs 5 (tt_ProvisionMulticastFlow subs).
Proof.
  apply costs_op_bind; [by intros r K|]. intros di. destruct (_ =? 0); [apply costs_panic|].
  apply costs_op_bind; [by intros r K|]. intros last. apply costs_free_bind.
  - destruct (_ =? _); costing.
  - intros b. apply costs_multicast.
Qed.

Lemma costs_scheds subs :
  costs 2 (err ← send_scheds subs Direction_DOWNSTREAM; when_nil err (send_scheds subs Direction_UPSTREAM)).
Proof. apply (costs_two 1 1); apply costs_send_scheds. Qed.

Lemma costs_queues subs :
  costs 2 (err ← send_queues subs Direction_DOWNSTREAM; when_nil err (send_queues subs Direction_UPSTREAM)).
Proof. apply (costs_two 1 1); apply costs_send_queues. Qed.

Ltac costs_tt := intros Hs; apply costs_service; [done|]; intros alloc g pcp; costs_flows.

Lemma costs_tt_hsia subs : sub_small subs -> costs (2 * pairs) (tt_ProvisionHsiaFlow subs).
Proof. costs_tt. Qed.
Lemma costs_tt_voip subs : sub_small subs -> costs (3 * pairs) (tt_ProvisionVoipFlow subs).
Proof. costs_tt. Qed.
Lemma costs_tt_vod subs : sub_small subs -> costs (4 * pairs) (tt_ProvisionVodFlow subs).
Proof. costs_tt. Qed.
Lemma costs_tt_mgmt subs : sub_small subs -> costs (3 * pairs) (tt_ProvisionMgmtFlow subs).
Proof. costs_tt. Qed.

Lemma costs_unicast subs wf :
  sub_small subs -> getWorkFlow subs = Some wf -> IsGroupTest cfg = false ->
  costs requests_of (for_err (unicast_stages wf) (fun stage => stage subs)).
Proof.
  intros Hs Hwf Hg. unfold requests_of. rewrite Hg. unfold getWorkFlow in Hwf. rewrite (proj1 Hs) in Hwf.
  destruct (decide (WorkflowName cfg = "ATT")); [|destruct (decide (WorkflowName cfg = "DT"));
    [|destruct (decide (WorkflowName cfg = "TT")); [|done]]]; injection Hwf as <-.
  - apply (costs_stages _ [2; 2; 1; 1; 0; 0; 2; 0; 0; 0]%nat).
    repeat apply Forall2_cons_2; [..|by apply Forall2_nil_2]; try apply costs_ret.
    + exact (costs_scheds subs).
    + exact (costs_queues subs).
    + exact (costs_mapped subs EapolFlow Upstream Hs).
    + exact (costs_mapped subs DhcpFlowIPV4 Upstream Hs).
    + exact (costs_hsia subs Hs).
  - apply (costs_stages _ [2; 2; 0; 0; 0; 0; 2; 0; 0; 0]%nat).
    repeat apply Forall2_cons_2; [..|by apply Forall2_nil_2]; try apply costs_ret.
    + exact (costs_scheds subs).
    + exact (costs_queues subs).
    + exact (costs_hsia subs Hs).
  - eapply costs_mono; [apply (costs_stages _ [2; 2; 0; 0; 0; 0; 2 * pairs; 3 * pairs; 4 * pairs; 3 * pairs]%nat)|cbn; lia].
    repeat apply Forall2_cons_2; [..|by apply Forall2_nil_2]; try apply costs_ret.
    + exact (costs_scheds subs).
    + exact (costs_queues subs).
    + exact (costs_tt_hsia subs Hs).
    + exact (costs_tt_voip subs Hs).
    + exact (costs_tt_vod subs Hs).
    + exact (costs_tt_mgmt subs Hs).
Qed.

Lemma costs_group subs wf :
  sub_small subs -> getWorkFlow subs = Some wf -> IsGroupTest cfg = true ->
  costs requests_of (ProvisionMulticastFlow wf subs).
Proof.
  intros Hs Hwf Hg. unfold requests_of. rewrite Hg. unfold getWorkFlow in Hwf. rewrite (proj1 Hs) in Hwf.
  destruct (decide (WorkflowName cfg = "ATT")); [|destruct (decide (WorkflowName cfg = "DT"));
    [|destruct (decide (WorkflowName cfg = "TT")); [|done]]]; injection Hwf as <-.
  - apply costs_ret.
  - apply costs_ret.
  - apply costs_tt_multicast.
Qed.

Lemma costs_deploy_reason subs wf :
  sub_small subs -> getWorkFlow subs = Some wf -> costs requests_of (deploy_reason wf subs (IsGroupTest cfg)).
Proof.
  intros Hs Hwf. rewrite <-(Nat.add_0_r requests_of). apply costs_bind; [|intros [e|]; apply costs_ret].
  destruct (IsGroupTest cfg) eqn:Hg; [by apply costs_group|by apply costs_unicast].
Qed.

(** ** Subscribers and ONUs *)

Lemma costs_wg_add g d : costs 0 (op (OpWgAdd g d)).
Proof. by apply costs_op; intros r K. Qed.

Lemma costs_DeployWorkflow a : costs requests_of (DeployWorkflow a (IsGroupTest cfg)).
Proof.
  apply costs_load_sub. intros s Hs. destruct (getWorkFlow s) as [wf|] eqn:Hwf; [|apply costs_panic].
  cbn [deref]. rewrite ret_bind. rewrite <-(Nat.add_0_r requests_of).
  apply costs_bind; [by apply costs_deploy_reason|]. intros reason.
  apply costs_store_sub; [done|]. apply costs_wg_add.
Qed.

Lemma costs_create_tp_instances a ids : costs 0 (create_tp_instances a ids).
Proof.
  induction ids as [|id ids IH]; [apply costs_ret|]. cbn [create_tp_instances].
  apply costs_load_sub. intros s [Hs1 Hs2].
  apply costs_create. intros [inst|] err Hinst; [|apply costs_panic].
  apply costs_store_sub; [split; [done|by apply map_Forall_insert_2; [apply Hinst|]]|].
  destruct err as [e|]; [|exact IH]. apply costs_load_sub. intros s' Hs'.
  apply costs_store_sub; [done|apply costs_ret].
Qed.

Lemma costs_Subscriber_Start a : costs requests_of (Subscriber_Start a (IsGroupTest cfg)).
Proof.
  apply costs_load_sub. intros s [Hs _]. apply costs_store_sub; [by split; [|apply map_Forall_empty]|].
  apply costs_free_bind; [apply costs_create_tp_instances|].
  intros [|]; [apply costs_go, costs_DeployWorkflow|apply costs_ret].
Qed.

Lemma costs_start_subscriber a g i : costs requests_of (start_subscriber a g i).
Proof.
  apply costs_load_onu. intros onu Honu.
  assert (forall s, sub_small s -> costs requests_of
    (sa ← op (OpNewSub s);
     _ ← op (OpStoreOnu a (set_SubscriberMap (<[SubscriberName s := sa]> (onu_SubscriberMap onu)) onu));
     _ ← op (OpWgAdd g 1);
     Go (Subscriber_Start sa (IsGroupTest (onu_testConfig onu))) (Ret tt))) as Hrest.
  { intros s Hs. apply costs_new_sub; [done|]. intros sa. apply costs_store_onu; [done|].
    apply costs_free_bind; [apply costs_wg_add|]. intros []. rewrite Honu. apply costs_go, costs_Subscriber_Start. }
  intros r Q Hr HQ. apply judge_bind. do 2 (apply judge_op_bind; intros ?).
  by apply Hrest; [split; [|apply map_Forall_empty]|..].
Qed.

(** The requests of one ONU. *)
Definition onu_requests : nat := S (requests_of * per_onu cfg).

Lemma costs_OnuDevice_Start a : costs (requests_of * per_onu cfg) (OnuDevice_Start a).
Proof.
  apply costs_load_onu. intros onu Honu. apply costs_store_onu; [done|].
  apply costs_op_bind; [by intros r K|]. intros g. rewrite <-(Nat.add_0_r (_ * _)). apply costs_bind.
  - rewrite Honu. unfold per_onu. rewrite <-(length_seqZ 0). apply costs_for_each. intros i. apply costs_start_subscriber.
  - intros []. apply costs_op_bind; [by intros r K|]. intros []. apply costs_wg_add.
Qed.

Lemma costs_activateONU intf onuID sn name g : costs onu_requests (activateONU cfg intf onuID sn name g).
Proof.
  apply costs_op_bind; [by intros r K|]. intros mgr. apply costs_op_bind; [by intros r K|]. intros now.
  apply costs_rpc_bind. intros err. apply costs_new_onu; [by destruct err as [e|]; [case_decide|]|]. intros a.
  apply costs_op_bind; [by intros r K|]. intros []. destruct err as [e|]; [apply costs_ret|].
  apply costs_op_bind; [by intros r K|]. intros a'. apply costs_go, costs_OnuDevice_Start.
Qed.

Lemma costs_provision_one g i j k : costs onu_requests (provision_one cfg g i j k).
Proof.
  apply costs_op_bind; [by intros r K|]. intros sn. apply costs_op_bind; [by intros r K|]. intros mgr.
  apply costs_op_bind; [by intros r K|]. intros [ids [e|]]; [apply costs_ret|].
  apply costs_free_bind; [apply costs_index|]. intros id. apply costs_free_bind; [apply costs_wg_add|]. intros [].
  apply costs_free_bind; [destruct (stringifySerialNumber _); [apply costs_ret|apply costs_panic]|].
  intros name. apply costs_go, costs_activateONU.
Qed.

Lemma costs_provision_loop per ponPorts batches g :
  costs (onu_requests * length (seqZ 0 per) * length (seqZ 0 ponPorts) * length (seqZ 0 batches))
    (for_each (seqZ 0 batches) (provision_batch cfg ponPorts per g)).
Proof.
  apply costs_for_each. intros i. rewrite <-(Nat.add_0_r (_ * _)). apply costs_bind.
  - apply costs_for_each. intros j. apply costs_for_each. intros k. apply costs_provision_one.
  - intros []. by apply costs_op; intros r K.
Qed.

Lemma costs_provisionONUs di : costs (planned cfg di * onu_requests) (provisionONUs cfg di).
Proof.
  assert (forall k, costs k (op OpKillSelf)) as Hkill
    by (intros k; eapply costs_mono; [apply costs_op; by intros r K|lia]).
  rewrite <-(Nat.add_0_r (_ * _)). apply costs_bind; [|intros []; apply Hkill].
  apply costs_op_bind; [by intros r K|]. intros g. unfold planned. cbv zeta.
  destruct (negb _); [apply costs_ret|]. destruct (_ <? _); [apply costs_ret|].
  destruct (_ =? 0); [apply costs_panic|]. cbn [orb].
  destruct (onusPerIterationPerPonPort _) as [per|]; [|apply costs_ret].
  apply costs_op_bind; [by intros r K|]. intros start. destruct (per =? 0); [apply costs_panic|].
  rewrite <-(Nat.add_0_r (_ * _)). apply costs_bind.
  - eapply costs_mono; [apply costs_provision_loop|]. rewrite !length_seqZ. lia.
  - intros []. apply costs_op_bind; [by intros r K|]. intros e. apply costs_ret.
Qed.

(** ** The requests of an execution *)

Section sound.
Context `{Env}.
Hypothesis instances_small : forall m tpID name j st inst err st',
  tp_CreateTechProfileInstance m tpID name j st = (inr (Some inst, err), st') -> small inst.

Variable total : nat.

(** Those sent and those still allowed. *)
Record within (w : World) (rs : list nat) : Prop := {
  wi_total : (length (w_trace w) + sum_list rs <= total)%nat;
  wi_onus : Forall (fun d => onu_testConfig d = cfg) (w_onus w);
  wi_subs : Forall sub_small (w_subs w);
}.

Lemma within_same w w' rs :
  within w rs -> w_trace w' = w_trace w -> Forall (fun d => onu_testConfig d = cfg) (w_onus w') ->
  Forall sub_small (w_subs w') -> within w' rs.
Proof. intros [H1 _ _] Ht Ho Hs. split; [by rewrite Ht|done..]. Qed.

Lemma within_exec {X} (o : Op X) w x w' r K rs :
  within w (r :: rs) -> op_budget o r K -> exec o w = Done x w' -> exists r', K x r' /\ within w' (r' :: rs).
Proof.
  intros Hw Ho He. pose proof Hw as [Ht Hn Hs]. destruct o;
    try (exists r; cbv [exec with_mgr wg_add] in He;
         repeat match type of He with
         | context [match ?e with _ => _ end] => destruct e
         end; try discriminate; injection He as <- <-;
         split; [by apply Ho|by eapply within_same]).
  - cbv [exec] in He. injection He as <- <-. destruct Ho as (r' & -> & HK). exists r'. split; [apply HK|].
    split; [|done..]. cbn in *. rewrite length_app. cbn. lia.
  - unfold exec, with_mgr in He. destruct (w_rsrMgr w !! mgr) as [[m|]|]; try done.
    destruct (tp_CreateTechProfileInstance mgr tpID uniPortName intf (w_tp w)) as [[e|[inst err]] st] eqn:E; [done|].
    injection He as <- <-. exists r. split; [|by eapply within_same]. apply Ho. intros i ->. by eapply instances_small.
  - cbv [exec] in He. injection He as <- <-. destruct Ho as [Hd HK]. exists r. split; [apply HK|].
    apply (within_same w); [done|done| |done]. apply Forall_app. by split; [|constructor].
  - unfold exec in He. destruct (w_onus w !! a) as [d|] eqn:Hd; [|done]. injection He as <- <-. exists r.
    split; [|done]. apply Ho. exact (Forall_lookup_1 _ _ _ _ Hn Hd).
  - cbv [exec] in He. injection He as <- <-. destruct Ho as [Hd HK]. exists r. split; [exact HK|].
    apply (within_same w); [done|done| |done]. by apply Forall_insert.
  - cbv [exec] in He. injection He as <- <-. destruct Ho as [Hd HK]. exists r. split; [apply HK|].
    apply (within_same w); [done..|]. apply Forall_app. by split; [|constructor].
  - unfold exec in He. destruct (w_subs w !! a) as [s|] eqn:Hsub; [|done]. injection He as <- <-. exists r.
    split; [|done]. apply Ho. exact (Forall_lookup_1 _ _ _ _ Hs Hsub).
  - cbv [exec] in He. injection He as <- <-. destruct Ho as [Hd HK]. exists r. split; [exact HK|].
    apply (within_same w); [done..|]. by apply Forall_insert.
Qed.

#[local] Instance budget_sound : Sound nat (fun _ => True) within.
Proof.
  split.
  - intros w rs rs' HR [H1 H2 H3]. split; [|done..]. by rewrite <-HR.
  - intros w r rs X o K x w' Hw Ho He _. by eapply within_exec.
  - intros w r rc rk rs [H1 H2 H3] Hs. split; [|done..]. cbn in *. lia.
  - done.
Qed.

End sound.
End traffic.

(** ** Properties *)

(** No more ONUs are planned than configured. *)
Lemma planned_le cfg di : (planned cfg di <= Z.to_nat (NumOfOnu cfg))%nat.
Proof.
  unfold planned. destruct (negb _); [cbn; lia|]. destruct (Z.ltb_spec (NumOfOnu cfg) (di_PonPorts di)); [cbn; lia|].
  destruct (Z.eqb_spec (di_PonPorts di) 0); [cbn; lia|]. cbn [orb].
  set (N := NumOfOnu cfg) in *. set (P := di_PonPorts di) in *.
  rewrite onusPerIteration_cases. set (per := if 4 <=? u32 (N / P) then 4 else _).
  destruct (Z.eqb_spec per 0); [lia|]. destruct (decide (P < 0)); [lia|].
  assert (0 <= u32 (N / P) <= N / P) as Hu.
  { pose proof (u32_range (N / P)). assert (0 <= N / P) by (apply Z.div_pos; lia). split; [lia|]. apply Z.mod_le; lia. }
  assert (0 < per) as Hper by (subst per; zbool; lia).
  pose proof (Z.mul_div_le (u32 (N / P)) per Hper). pose proof (Z.mul_div_le N P ltac:(lia)).
  assert (0 <= u32 (N / P) / per) by (apply Z.div_pos; lia).
  apply Nat2Z.inj_le. rewrite !Nat2Z.inj_mul, !Z2Nat.id by lia. nia.
Qed.

(** C18. Provisioning sends a bounded number of requests, whatever the agent answers and
    however it is scheduled: at most one activation for each configured ONU, and for
    each of its subscribers 8 requests in the ATT workflow, 6 in the DT workflow, 4
    and 12 for each pair of a gem port and a priority code point in the TT workflow,
    5 for a multicast group. *)
Theorem requests_bounded `{Env} (cfg : OpenOltScaleTesterConfig) (di : DeviceInfo) (pairs : nat) (w : World)
    (pool : list (prog unit)) (w' : World) :
  (forall m tpID name j st inst err st',
     tp_CreateTechProfileInstance m tpID name j st = (inr (Some inst, err), st') ->
     (length (gem_pcps inst) <= pairs)%nat) ->
  w_onus w = [] -> w_subs w = [] ->
  steps (Running [provisionONUs cfg di] w) (Running pool w') ->
  (length (w_trace w') <= length (w_trace w)
     + Z.to_nat (NumOfOnu cfg) * (1 + Z.to_nat (SubscribersPerOnu cfg) * requests_of cfg pairs))%nat.
Proof.
  intros Hsmall Ho Hs Hst. set (total := (length (w_trace w) + planned cfg di * onu_requests cfg pairs)%nat).
  destruct (judged_inv (H0 := budget_logic cfg pairs) (H1 := budget_sound cfg pairs Hsmall total)
    [provisionONUs cfg di] w [(planned cfg di * onu_requests cfg pairs)%nat] pool w') as [rs Hrs]; try done.
  - constructor; [apply costs_judge, costs_provisionONUs|constructor].
  - split; [unfold total; cbn; lia|rewrite Ho; constructor|rewrite Hs; constructor].
  - pose proof (wi_total _ _ _ _ _ Hrs) as Ht. pose proof (planned_le cfg di) as Hp.
    unfold total, onu_requests, per_onu in Ht. nia.
Qed.

(** One ONU with two subscribers of the TT workflow, whose profile has two gem ports
    of two priority code points each; the agent accepts everything, and the bound is
    reached. *)
Lemma requests_bounded_witness :
  let e := sample_env accepting in
  let cfg := sample_config "TT" 1 2 in
  let w := sample_world accepting 1 [] [] in
  let c := schedule (H := e) (Running [provisionONUs cfg (sample_deviceInfo 1)] w) (round_robin 7 400) in
  length (w_trace (world_of (H := e) w c)) = 105%nat
  /\ (length (w_trace (world_of (H := e) w c)) <= length (w_trace w)
        + Z.to_nat (NumOfOnu cfg) * (1 + Z.to_nat (SubscribersPerOnu cfg) * requests_of cfg 4))%nat.
Proof.
  intros e cfg w c. split; [vm_compute; reflexivity|].
  assert (c = Running (pool_of (H := e) c) (world_of (H := e) w c)) as Hc
    by (apply running_eq; vm_compute; reflexivity).
  apply (requests_bounded (H := e) cfg (sample_deviceInfo 1) 4 w (pool_of (H := e) c)).
  - intros m tpID name j st inst err st' [= <- _ _]. vm_compute. lia.
  - done.
  - done.
  - rewrite <-Hc. apply (schedule_steps (H := e)).
Defined.
