(* ===== verification/Identity.v ===== *)
(** * ONUs are told apart

    What the program needs of the resource manager is an interface,
    [FreshOnuIds]: an ONU id is handed out once per PON.  Against it, every ONU
    the program activates has its own (PON, ONU id).  A goroutine that was given
    an id holds a permit for it, which the activation uses up.  TechInstance shows
    that voltha-lib-go, on its bitmap pools, implements the interface. *)
From S2P Require Import Prelude Utils Proto Config Runtime Judgement Samples TechProfile ResourceManager WorkflowUtils AttWorkflow DtWorkflow TtWorkflow WorkflowManager SubscriberManager OnuManager OltManager Typing.

(** ** The interface *)

(** The ids in use on a PON, in the states [ids_ok] that the manager keeps. *)
Class FreshOnuIds `{Env} := {
  ids_ok : tp_state -> Prop;
  in_use : tp_state -> Z -> Z -> Prop;  (* state, PON, ONU id *)
  ids_ok_get m j t n st : ids_ok st -> ids_ok (tp_GetResourceID m j t n st).2;
  ids_ok_create m tpID name j st : ids_ok st -> ids_ok (tp_CreateTechProfileInstance m tpID name j st).2;
  in_use_get m j t n st pon id :
    ids_ok st -> in_use st pon id -> in_use (tp_GetResourceID m j t n st).2 pon id;
  in_use_create m tpID name j st pon id :
    ids_ok st -> in_use st pon id -> in_use (tp_CreateTechProfileInstance m tpID name j st).2 pon id;
  fresh_id m j n st id ids st' :
    ids_ok st -> tp_GetResourceID m j ONU_ID n st = ((id :: ids, None), st') ->
    ~ in_use st j id /\ in_use st' j id;
}.

(** ** Permits *)

(** The PON and ONU id a goroutine may activate. *)
Inductive permit := NoPermit | Permit (pon id : Z).

Definition activated (tr : list Request) : list (Z * Z) :=
  omap (fun q => match q with RpcActivateOnu onu => Some (ou_IntfId onu, ou_OnuId onu) | _ => None end) tr.

Definition permitted (r : permit) : option (Z * Z) :=
  match r with NoPermit => None | Permit pon id => Some (pon, id) end.

Definition op_permits {X : Type} (o : Op X) (r : permit) (K : X -> permit -> Prop) : Prop :=
  match o in Op X return (X -> permit -> Prop) -> Prop with
  | OpRpc q => fun K =>
      match q with
      | RpcActivateOnu onu => r = Permit (ou_IntfId onu) (ou_OnuId onu) /\ forall e, K e NoPermit
      | _ => forall e, told e -> K e r
      end
  | OpRandIntn k => fun K => forall v, (0 < k -> 0 <= v < k) -> K v r
  | OpGetFlowID _ => fun K => forall v, is_u64 v -> K v r
  | OpGetResourceID _ j t _ => fun K => forall ids err,
      match t, ids, err with
      | ONU_ID, id :: _, None => K (ids, err) (Permit j id)
      | _, _, _ => K (ids, err) r
      end
  | _ => fun K => forall x, K x r
  end K.

Lemma op_permits_mono {X} (o : Op X) r (K K' : X -> permit -> Prop) :
  op_permits o r K -> (forall x r', K x r' -> K' x r') -> op_permits o r K'.
Proof.
  intros Ho HK. destruct o; cbn in *; auto.
  - destruct r0; auto. destruct Ho; auto.
  - intros ids err. specialize (Ho ids err). destruct t; auto. destruct ids; auto. destruct err; auto.
Qed.

#[export] Instance permit_logic : Logic permit := {
  allows := @op_permits;
  splits r rc rk := rc = r /\ rk = NoPermit;
  allows_mono := @op_permits_mono;
}.

#[export] Instance permit_neutral : Neutral permit (fun q => forall onu, q <> RpcActivateOnu onu).
Proof. split; intros; cbn; auto. destruct q as [onu| | | | |]; auto. by destruct (H onu). Qed.

(** The goroutines of an activated ONU ask for no permit. *)
Lemma permit_go {A} c (k : prog A) r (Q : A -> permit -> Prop) :
  (forall r, judge c r anything) -> judge k NoPermit Q -> judge (Go c k) r Q.
Proof. intros Hc Hk. exists r, NoPermit. by split_and!. Qed.

Lemma permit_DeployWorkflow a isGroup r : judge (DeployWorkflow a isGroup) r anything.
Proof.
  apply judge_op_bind. intros s. apply judge_deref_bind. intros wf Hwf.
  apply judge_bind. eapply sends_judge.
  - eapply sends_mono; [by apply (sends_deploy_reason s wf)|by intros q []|done].
  - intros reason _. apply judge_op_bind. by intros [] [].
Qed.

Lemma permit_create_tp_instances a ids r Q :
  (forall b, Q b r) -> judge (create_tp_instances a ids) r Q.
Proof.
  intros HQ. induction ids as [|id ids IH]; [apply HQ|]. cbn [create_tp_instances].
  apply judge_op_bind. intros s. apply judge_op_bind. intros [[inst|] err]; [|done].
  apply judge_op_bind. intros []. destruct err as [e|]; [|exact IH].
  apply judge_op_bind. intros s'. apply judge_op_bind. intros []. apply HQ.
Qed.

Lemma permit_Subscriber_Start a isGroup r : judge (Subscriber_Start a isGroup) r anything.
Proof.
  apply judge_op_bind. intros s. apply judge_op_bind. intros [].
  apply judge_bind, permit_create_tp_instances. intros [|]; [|done].
  apply permit_go; [|done]. apply permit_DeployWorkflow.
Qed.

Lemma permit_OnuDevice_Start a r : judge (OnuDevice_Start a) r anything.
Proof.
  apply judge_op_bind. intros onu. apply judge_op_bind. intros [].
  apply judge_op_bind. intros g. apply judge_bind, (judge_for_each _ _ (fun _ => True)); [|done|].
  - intros i r' Q _ _ HQ. apply judge_op_bind. intros d. apply judge_bind.
    apply judge_op_bind. intros ctag. apply judge_op_bind. intros stag. cbn [judge].
    apply judge_op_bind. intros sa. apply judge_op_bind. intros []. apply judge_op_bind. intros [].
    apply permit_go; [apply permit_Subscriber_Start|by apply HQ].
  - intros r' _. apply judge_op_bind. by intros [] [].
Qed.

Lemma permit_activateONU cfg intf onuID sn name g :
  judge (activateONU cfg intf onuID sn name g) (Permit intf onuID) anything.
Proof.
  apply judge_op_bind. intros mgr. apply judge_op_bind. intros now.
  apply judge_op_bind. split; [done|]. intros err.
  apply judge_op_bind. intros a. apply judge_op_bind. intros []. destruct err; [done|].
  apply judge_op_bind. intros a'. apply permit_go; [apply permit_OnuDevice_Start|done].
Qed.

Lemma permit_provision_one cfg g i j k r Q :
  (forall r', Q tt r') -> judge (provision_one cfg g i j k) r Q.
Proof.
  intros HQ. apply judge_op_bind. intros sn. apply judge_op_bind. intros mgr.
  apply judge_op_bind. intros ids [e|]; [destruct ids; apply HQ|].
  destruct ids as [|id ids]; [done|]. apply judge_bind. cbn [index lookup judge].
  apply judge_op_bind. intros []. apply judge_bind.
  destruct (stringifySerialNumber (Some sn)) as [name|]; [|done].
  exists (Permit j id), NoPermit. split_and!; [done..|apply permit_activateONU|apply HQ].
Qed.

Lemma permit_provisionONUs cfg di r : judge (provisionONUs cfg di) r anything.
Proof.
  apply (judge_provisionONUs (fun _ => True)); [done|by intros X [] r' K|].
  intros g i j k r' Q _ _ HQ. apply permit_provision_one. intros r2. by apply HQ.
Qed.

(** ** The store *)

Section sound.
Context `{FreshOnuIds}.

(** The keys activated and those that may still be. *)
Definition keys (tr : list Request) (rs : list permit) : list (Z * Z) :=
  activated tr ++ omap permitted rs.

Record distinct (w : World) (rs : list permit) : Prop := {
  di_ok : ids_ok (w_tp w);
  di_nodup : NoDup (keys (w_trace w) rs);
  di_used : forall pon id, (pon, id) ∈ keys (w_trace w) rs -> in_use (w_tp w) pon id;
}.

Lemma distinct_perm w rs rs' : rs ≡ₚ rs' -> distinct w rs -> distinct w rs'.
Proof.
  intros HR [H1 H2 H3]. unfold keys in *. split; unfold keys; [done|by rewrite <-HR|].
  intros pon id. rewrite <-HR. apply H3.
Qed.

(** Fewer keys, and ids that stay in use. *)
Lemma distinct_sub w w' rs rs' :
  distinct w rs -> ids_ok (w_tp w') ->
  (exists l, keys (w_trace w) rs ≡ₚ keys (w_trace w') rs' ++ l) ->
  (forall pon id, in_use (w_tp w) pon id -> in_use (w_tp w') pon id) -> distinct w' rs'.
Proof.
  intros [H1 H2 H3] Hok [l Hl] Hu. rewrite Hl in H2. apply NoDup_app in H2 as (H2 & _ & _).
  split; [done|done|]. intros pon id Hin. apply Hu, H3. rewrite Hl. apply elem_of_app. by left.
Qed.

Lemma keys_cons tr r rs : keys tr (r :: rs) ≡ₚ option_list (permitted r) ++ keys tr rs.
Proof.
  unfold keys. destruct r; cbn; [done|]. by rewrite Permutation_middle.
Qed.

(** Operations that touch neither the ids nor the activations. *)
Lemma distinct_same w w' rs :
  distinct w rs -> w_tp w' = w_tp w -> activated (w_trace w') = activated (w_trace w) -> distinct w' rs.
Proof.
  intros Hd Ht Ha. eapply distinct_sub; [exact Hd|rewrite Ht; apply Hd| |by rewrite Ht].
  exists []. unfold keys. by rewrite Ha, app_nil_r.
Qed.

Lemma distinct_get w m j t n r rs K :
  distinct w (r :: rs) -> op_permits (OpGetResourceID m j t n) r K ->
  exists r', K (tp_GetResourceID m j t n (w_tp w)).1 r'
    /\ distinct (set_tp (tp_GetResourceID m j t n (w_tp w)).2 w) (r' :: rs).
Proof.
  intros Hd Ho. pose proof (di_ok _ _ Hd) as Hok.
  pose proof (ids_ok_get m j t n _ Hok) as Hok'.
  assert (forall pon id, in_use (w_tp w) pon id -> in_use (tp_GetResourceID m j t n (w_tp w)).2 pon id) as Hu
    by (intros pon id; by apply in_use_get).
  assert (K (tp_GetResourceID m j t n (w_tp w)).1 r -> exists r', K (tp_GetResourceID m j t n (w_tp w)).1 r'
    /\ distinct (set_tp (tp_GetResourceID m j t n (w_tp w)).2 w) (r' :: rs)) as Hsame.
  { intros HK. exists r. split; [done|]. eapply distinct_sub; [exact Hd|done| |done].
    exists []. by rewrite app_nil_r. }
  destruct (tp_GetResourceID m j t n (w_tp w)) as [[ids err] st] eqn:E.
  specialize (Ho ids err). destruct t; try (by apply Hsame).
  destruct ids as [|id ids]; [by apply Hsame|]. destruct err as [e|]; [by apply Hsame|].
  exists (Permit j id). split; [exact Ho|].
  destruct (fresh_id _ _ _ _ _ _ _ Hok E) as [Hnew Hin].
  assert (distinct w rs) as Hrs.
  { eapply distinct_sub; [exact Hd|done| |done]. exists (option_list (permitted r)).
    by rewrite keys_cons, Permutation_app_comm. }
  split; [done| |].
  - rewrite keys_cons. apply NoDup_cons. split; [|apply (di_nodup _ _ Hrs)].
    intros Hk. by apply (di_used _ _ Hrs) in Hk.
  - intros pon i. rewrite keys_cons. cbn. intros [[= -> ->]|Hk]%elem_of_cons; [done|].
    by apply Hu, (di_used _ _ Hrs).
Qed.

Lemma distinct_exec {X} (o : Op X) w x w' r K rs :
  distinct w (r :: rs) -> op_permits o r K -> exec o w = Done x w' ->
  exists r', K x r' /\ distinct w' (r' :: rs).
Proof.
  intros Hd Ho He. destruct o;
    try (exists r; cbv [exec with_mgr wg_add] in He;
         repeat match type of He with
         | context [match ?e with _ => _ end] => destruct e
         end; try discriminate; injection He as <- <-;
         split; [by apply Ho|by eapply distinct_same]).
  - cbv [exec] in He. injection He as <- <-.
    assert (activated (w_trace w ++ [r0]) = activated (w_trace w) ++ activated [r0]) as Ha
      by apply omap_app.
    destruct r0; try (exists r; split; [apply Ho, told_status|];
      eapply distinct_same; [exact Hd|done|exact (eq_trans Ha (app_nil_r _))]).
    destruct Ho as [-> HK]. exists NoPermit. split; [apply HK|].
    eapply distinct_sub; [exact Hd|apply Hd| |done]. exists []. rewrite app_nil_r, keys_cons.
    unfold keys. cbn [w_trace set_trace]. rewrite Ha. cbn.
    rewrite <-app_assoc. cbn. by rewrite <-Permutation_middle.
  - cbv [exec] in He. injection He as <- <-. exists r. split; [|by eapply distinct_same].
    apply Ho. intros Hn. by apply Z.mod_pos_bound.
  - unfold exec, with_mgr in He. repeat case_match; try done. injection He as <- <-.
    exists r. split; [apply Ho, u64_range|by eapply distinct_same].
  - unfold exec, with_mgr in He. destruct (w_rsrMgr w !! mgr) as [[m|]|]; try done.
    destruct (distinct_get w mgr intf t n r rs K Hd Ho) as (r' & HK & Hd').
    destruct (tp_GetResourceID mgr intf t n (w_tp w)) as [y st]. injection He as <- <-. by exists r'.
  - unfold exec, with_mgr in He. destruct (w_rsrMgr w !! mgr) as [[m|]|]; try done.
    pose proof (ids_ok_create mgr tpID uniPortName intf _ (di_ok _ _ Hd)) as Hok.
    pose proof (fun pon id => in_use_create mgr tpID uniPortName intf _ pon id (di_ok _ _ Hd)) as Hu.
    destruct (tp_CreateTechProfileInstance mgr tpID uniPortName intf (w_tp w)) as [[e|y] st]; [done|].
    injection He as <- <-. exists r. split; [apply Ho|].
    eapply distinct_sub; [exact Hd|done| |done]. exists []. by rewrite app_nil_r.
Qed.

#[export] Instance permit_sound : Sound permit (fun _ => True) distinct.
Proof.
  split.
  - apply distinct_perm.
  - intros w r rs X o K x w' Hd Ho He _. by eapply distinct_exec.
  - intros w r rc rk rs Hd [-> ->]. eapply distinct_sub; [exact Hd|apply Hd| |done].
    exists []. by rewrite app_nil_r.
  - done.
Qed.

End sound.

(** ** The activations *)

(** Every ONU the program activates has its own PON and ONU id, in every
    execution, when the resource manager keeps its promise. *)
Theorem activated_once `{FreshOnuIds} (cfg : OpenOltScaleTesterConfig) (di : DeviceInfo) (w : World)
    (pool : list (prog unit)) (w' : World) :
  ids_ok (w_tp w) -> w_trace w = [] ->
  steps (Running [provisionONUs cfg di] w) (Running pool w') -> NoDup (activated (w_trace w')).
Proof.
  intros Hok Ht Hs.
  destruct (judged_inv (inv := distinct) [provisionONUs cfg di] w [NoPermit] pool w') as [rs Hd]; try done.
  - constructor; [apply permit_provisionONUs|constructor].
  - split; [done|unfold keys; rewrite Ht; constructor|].
    intros pon id. unfold keys. rewrite Ht. by intros ?%not_elem_of_nil.
  - pose proof (di_nodup _ _ Hd) as Hn. by apply NoDup_app in Hn as [Hn _].
Qed.
