(* ===== verification/IdPool.v ===== *)
(** * Pools of ids (voltha-lib-go's resource manager, go-bitmap)

    The ids of ONUs, alloc ids and gem ports come from pools kept in etcd, one
    bitmap per PON and type (vendor/.../ponresourcemanager and
    vendor/github.com/boljen/go-bitmap).  A pool is stored as JSON with the
    bitmap in base64; the store is modelled as a map from keys to records, whose
    operations may fail.  The delegation to shared managers is left out: the
    program never sets one. *)
From S2P Require Import Prelude Utils Proto Config Runtime Judgement Samples TechProfile ResourceManager WorkflowUtils AttWorkflow DtWorkflow TtWorkflow WorkflowManager SubscriberManager OnuManager OltManager Typing Identity.

(** ** Bitmaps *)

Definition tA : list Z := [1; 2; 4; 8; 16; 32; 64; 128].
Definition tB : list Z := [254; 253; 251; 247; 239; 223; 191; 127].

Definition NewSlice (l : nat) : list Z :=
  let remainder := if decide (l mod 8 <> 0)%nat then 1%nat else 0%nat in
  replicate (l / 8 + remainder) 0.

Definition Len (m : list Z) : nat := (length m * 8)%nat.

(** The library does not check the bounds; its callers keep [i] below [Len]. *)
Definition Get (m : list Z) (i : nat) : bool :=
  negb (Z.land (nth (i / 8) m 0) (nth (i mod 8) tA 0) =? 0).

Definition Set_ (m : list Z) (i : nat) (v : bool) : list Z :=
  let b := nth (i / 8) m 0 in
  <[(i / 8)%nat := if v then Z.lor b (nth (i mod 8) tA 0) else Z.land b (nth (i mod 8) tB 0)]> m.

(** ** One pool *)

(** The JSON object of a pool. *)
Record Resource := {
  PON_INTF_ID : Z;
  START_IDX : Z;
  END_IDX : Z;
  POOL : list Z;
}.

Definition set_POOL (m : list Z) (r : Resource) : Resource :=
  {| PON_INTF_ID := PON_INTF_ID r; START_IDX := START_IDX r; END_IDX := END_IDX r; POOL := m |}.

(** [for Idx = 0; Idx < Len; Idx++ { if !Data.Get(Idx) { break } }], with the
    number of turns left. *)
Fixpoint first_clear (turns : nat) (m : list Z) (Idx : nat) : nat :=
  match turns with
  | O => Idx
  | S turns' => if Get m Idx then first_clear turns' m (S Idx) else Idx
  end.

Definition exhausted : GoError := ErrorsNew "resource-exhausted--no-free-id-in-the-pool".

(** [None] is the nil map: it has no pool. *)
Definition GenerateNextID (res : option Resource) : (Z * option GoError) * option Resource :=
  match res with
  | None => ((0, Some (ErrorsNew "unexpected-type-<nil>")), None)
  | Some r =>
      let Data := POOL r in
      let Idx := first_clear (Len Data) Data 0 in
      if decide (Idx = Len Data) then ((0, Some exhausted), Some r)
      else ((u32 (u32 (Z.of_nat Idx) + START_IDX r), None), Some (set_POOL (Set_ Data Idx true) r))
  end.

Definition ReleaseID (r : Resource) (Id : Z) : bool * Resource :=
  let Idx := u32 (Id - START_IDX r) in
  if u32 (Z.of_nat (Len (POOL r))) <=? Idx then (false, r)
  else (true, set_POOL (Set_ (POOL r) (Z.to_nat Idx) false) r).

Definition reserveID (TSData : list Z) (StartIndex Id : Z) : list Z :=
  let Idx := u32 (Id - StartIndex) in
  if u32 (Z.of_nat (Len TSData)) <=? Idx then TSData else Set_ TSData (Z.to_nat Idx) true.

(** The bitmap has [EndIDx] bits. *)
Definition FormatResource (IntfID StartIDx EndIDx : Z) (Excluded : list Z) : Resource :=
  let TSData := foldl (fun m id =>
      if (id <? StartIDx) || (EndIDx <? id) then m else reserveID m StartIDx id)
    (NewSlice (Z.to_nat EndIDx)) Excluded in
  {| PON_INTF_ID := IntfID; START_IDX := StartIDx; END_IDX := EndIDx; POOL := TSData |}.

(** ** The key-value store *)

Record KVStore := { kv_data : gmap string Resource; kv_calls : nat }.

(** The manager of one PON: where it keeps its pools, and the number that
    replaces the PON's when a type has a shared pool. *)
Record PoolManager := {
  pm_PathPrefix : string;
  pm_DeviceID : string;
  pm_SharedPoolID : ResourceType -> Z;
}.

Definition pool_name (t : ResourceType) : option string :=
  match t with
  | ONU_ID => Some "onu_id_pool"
  | ALLOC_ID => Some "alloc_id_pool"
  | GEMPORT_ID => Some "gemport_id_pool"
  | FLOW_ID => Some "flow_id_pool"
  | UNI_ID => None
  end.

(** With the prefix the backend adds.  [None] is the empty path. *)
Definition GetPath (PONRMgr : PoolManager) (IntfID : Z) (t : ResourceType) : option string :=
  let SharedPoolID := pm_SharedPoolID PONRMgr t in
  let IntfID := if decide (SharedPoolID <> 0) then SharedPoolID else IntfID in
  match pool_name t with
  | Some name => Some (pm_PathPrefix PONRMgr +:+ "/{" +:+ pm_DeviceID PONRMgr +:+ "}/" +:+ name
                       +:+ "/{" +:+ Itoa IntfID +:+ "}")
  | None => None
  end.

Section store.
(** The [n]-th call fails with an error; a write that fails may have been made. *)
Variable kv_fault : nat -> option (GoError * bool).

Definition kv_Get (Path : string) (st : KVStore) : (option Resource * option GoError) * KVStore :=
  let st' := {| kv_data := kv_data st; kv_calls := S (kv_calls st) |} in
  match kv_fault (kv_calls st) with
  | Some (e, _) => ((None, Some e), st')
  | None => ((kv_data st !! Path, None), st')
  end.

Definition kv_Put (Path : string) (r : Resource) (st : KVStore) : option GoError * KVStore :=
  let put := {| kv_data := <[Path := r]> (kv_data st); kv_calls := S (kv_calls st) |} in
  match kv_fault (kv_calls st) with
  | Some (e, made) =>
      (Some e, if made : bool then put else {| kv_data := kv_data st; kv_calls := S (kv_calls st) |})
  | None => (None, put)
  end.

(** The loop over [NumIDs]; the resource is updated in place. *)
Fixpoint generate_ids (NumIDs : nat) (res : option Resource) (acc : list Z)
    : (list Z * option GoError) * option Resource :=
  match NumIDs with
  | O => ((acc, None), res)
  | S n =>
      match GenerateNextID res with
      | ((_, Some e), res') => ((acc, Some e), res')
      | ((id, None), res') => generate_ids n res' (acc ++ [id])
      end
  end.

(** What [GetResourceID] takes from the resource it has read.  [&&] binds
    tighter than [||]: flow ids are generated whatever the error. *)
Definition take_ids (t : ResourceType) (NumIDs : nat) (res : option Resource) (err : option GoError)
    : (list Z * option GoError) * option Resource :=
  match t, err with
  | FLOW_ID, _ | ONU_ID, None => generate_ids 1 res []
  | GEMPORT_ID, None | ALLOC_ID, None => generate_ids NumIDs res []
  | _, _ => (([], err), None)
  end.

(** [PONResourceManager.GetResourceID].  Without ids and without an error,
    nothing is written. *)
Definition PONRMgr_GetResourceID (PONRMgr : PoolManager) (IntfID : Z) (t : ResourceType) (NumIDs : Z)
    (st : KVStore) : (list Z * option GoError) * KVStore :=
  if NumIDs <? 1 then (([], Some (ErrorsNew ("Invalid number of resources requested " +:+ Itoa NumIDs))), st)
  else
    match GetPath PONRMgr IntfID t with
    | None => (([], Some (ErrorsNew "Failed to get path for resource type UNI_ID")), st)
    | Some Path =>
        let '((res, err), st) := kv_Get Path st in
        match take_ids t (Z.to_nat NumIDs) res err with
        | ((Result, None), Some res') =>
            match kv_Put Path res' st with
            | (Some _, st') => (([], Some (ErrorsNew ("Failed to update resource " +:+ Path))), st')
            | (None, st') => ((Result, None), st')
            end
        | ((Result, err), _) => ((Result, err), st)
        end
    end.

(** [TechProfileMgr.GetResourceID], under the lock of the type. *)
Definition TechProfileMgr_GetResourceID (PONRMgr : PoolManager) (intfID : Z) (t : ResourceType)
    (numIDs : Z) (st : KVStore) : (list Z * option GoError) * KVStore :=
  match t with
  | ALLOC_ID | GEMPORT_ID | ONU_ID =>
      match PONRMgr_GetResourceID PONRMgr intfID t numIDs st with
      | ((_, Some e), st') => (([], Some e), st')
      | ((ids, None), st') => ((ids, None), st')
      end
  | FLOW_ID => (([], Some (ErrorsNew "resourceType FLOW_ID not supported")), st)
  | UNI_ID => (([], Some (ErrorsNew "resourceType UNI_ID not supported")), st)
  end.

(** A pool that is in the store already is kept.  [reserved] is the list of
    reserved gem ports of the configuration.  A failed write is forgotten: the
    error returned is the one of the read. *)
Definition InitResourceIDPool (reserved : list Z) (PONRMgr : PoolManager) (Intf : Z) (t : ResourceType)
    (StartID EndID : Z) (st : KVStore) : option GoError * KVStore :=
  match GetPath PONRMgr Intf t with
  | None => (Some (ErrorsNew "Failed to get path for resource type UNI_ID"), st)
  | Some Path =>
      match kv_Get Path st with
      | ((Some _, None), st) => (None, st)
      | ((_, err), st) =>
          let excluded := match t with GEMPORT_ID => reserved | _ => [] end in
          match kv_Put Path (FormatResource Intf StartID EndID excluded) st with
          | (None, st) => (None, st)
          | (Some _, st) => (err, st)
          end
      end
  end.

End store.

(** ** Lemmas: bitmaps *)

Definition bytes : list Z -> Prop := Forall is_u8.

Lemma nth_bytes m i : bytes m -> is_u8 (nth i m 0).
Proof.
  intros Hm. destruct (decide (i < length m)%nat).
  - destruct (lookup_lt_is_Some_2 m i) as [b Hb]; [done|]. erewrite nth_lookup_Some by done.
    by eapply Forall_lookup_1.
  - rewrite nth_overflow by lia. done.
Qed.

Definition get_bit (b : Z) (j : nat) : bool := negb (Z.land b (nth j tA 0) =? 0).
Definition set_bit (b : Z) (i : nat) (v : bool) : Z :=
  if v then Z.lor b (nth i tA 0) else Z.land b (nth i tB 0).

(** The masks do what they are for, on every byte and pair of positions. *)
Definition mask_ok (b : Z) (i j : nat) : bool :=
  forallb (fun v => (0 <=? set_bit b i v) && (set_bit b i v <? 256)
                    && Bool.eqb (get_bit (set_bit b i v) j) (if decide (i = j) then v else get_bit b j))
    [true; false]
  && (get_bit b i || (set_bit (set_bit b i true) i false =? b)).

Lemma mask_all b i j : is_u8 b -> (i < 8)%nat -> (j < 8)%nat -> mask_ok b i j = true.
Proof.
  intros Hb Hi Hj.
  assert (forallb (fun b => forallb (fun i => forallb (mask_ok b i) (seq 0 8)) (seq 0 8)) (seqZ 0 256) = true)
    as Hall by (vm_compute; reflexivity).
  assert (In b (seqZ 0 256)) as Hin by (apply list_elem_of_In, elem_of_seqZ; unfold is_u8 in Hb; lia).
  rewrite forallb_forall in Hall. specialize (Hall b Hin). rewrite forallb_forall in Hall.
  specialize (Hall i ltac:(apply in_seq; lia)). rewrite forallb_forall in Hall. apply Hall, in_seq. lia.
Qed.

Lemma mask_set b i j v :
  is_u8 b -> (i < 8)%nat -> (j < 8)%nat ->
  is_u8 (set_bit b i v)
  /\ get_bit (set_bit b i v) j = (if decide (i = j) then v else get_bit b j).
Proof.
  intros Hb Hi Hj. pose proof (mask_all b i j Hb Hi Hj) as Hm. unfold mask_ok in Hm.
  apply andb_prop in Hm as [Hm _]. rewrite forallb_forall in Hm.
  specialize (Hm v ltac:(destruct v; cbn; auto)). apply andb_prop in Hm as [Hr Hm].
  split; [unfold is_u8; lia|by apply Bool.eqb_prop in Hm].
Qed.

Lemma unset_bit b i :
  is_u8 b -> (i < 8)%nat -> get_bit b i = false -> set_bit (set_bit b i true) i false = b.
Proof.
  intros Hb Hi Hg. pose proof (mask_all b i i Hb Hi Hi) as Hm. unfold mask_ok in Hm.
  apply andb_prop in Hm as [_ Hm]. rewrite Hg, orb_false_l in Hm. by apply Z.eqb_eq.
Qed.

Lemma div_mod_8 i : (i mod 8 < 8)%nat.
Proof. apply Nat.mod_upper_bound. lia. Qed.

Lemma Len_div m i : (i < Len m)%nat -> (i / 8 < length m)%nat.
Proof. intros Hi. apply Nat.Div0.div_lt_upper_bound. unfold Len in Hi. lia. Qed.

Lemma nth_insert (m : list Z) (i j : nat) x :
  (i < length m)%nat -> nth j (<[i := x]> m) 0 = if decide (i = j) then x else nth j m 0.
Proof.
  intros Hi. rewrite !nth_lookup. case_decide; subst.
  - by rewrite list_lookup_insert_eq.
  - by rewrite list_lookup_insert_ne.
Qed.

Lemma Set_Len m i v : Len (Set_ m i v) = Len m.
Proof. unfold Len, Set_. by rewrite length_insert. Qed.

Lemma Set_bytes m i v : bytes m -> bytes (Set_ m i v).
Proof.
  intros Hm. apply Forall_insert; [done|]. by apply (mask_set _ _ 0 v); [apply nth_bytes|apply div_mod_8|lia].
Qed.

Lemma Get_Set m i j v :
  bytes m -> (i < Len m)%nat -> Get (Set_ m i v) j = if decide (i = j) then v else Get m j.
Proof.
  intros Hm Hi. apply Len_div in Hi. unfold Get, Set_. rewrite nth_insert by done.
  pose proof (Nat.div_mod_eq i 8) as Ei. pose proof (Nat.div_mod_eq j 8) as Ej.
  destruct (decide (i / 8 = j / 8)%nat) as [Hd|Hd].
  - destruct (mask_set (nth (i / 8) m 0) (i mod 8) (j mod 8) v (nth_bytes _ _ Hm)
      (div_mod_8 i) (div_mod_8 j)) as [_ Hg]. rewrite <-Hd.
    etrans; [exact Hg|]. repeat case_decide; try done; exfalso; lia.
  - destruct (decide (i = j)) as [->|]; done.
Qed.

(** Setting a clear bit and clearing it again. *)
Lemma Set_unset m i :
  bytes m -> (i < Len m)%nat -> Get m i = false -> Set_ (Set_ m i true) i false = m.
Proof.
  intros Hm Hi Hg. apply Len_div in Hi. unfold Set_. rewrite nth_insert, decide_True by done.
  rewrite list_insert_insert_eq. pose proof (unset_bit _ _ (nth_bytes _ (i / 8) Hm) (div_mod_8 i) Hg) as Hu.
  unfold set_bit in Hu. rewrite Hu. apply list_insert_id.
  destruct (lookup_lt_is_Some_2 m (i / 8) Hi) as [b Hb]. by erewrite nth_lookup_Some.
Qed.

(** The search stops at the first clear bit. *)
Lemma first_clear_spec m n i :
  let k := first_clear n m i in
  (i <= k <= i + n)%nat /\ (forall j, (i <= j < k)%nat -> Get m j = true)
  /\ ((k < i + n)%nat -> Get m k = false).
Proof.
  revert i. induction n as [|n IH]; intros i; cbn.
  { split_and!; [lia|lia|intros; lia|lia]. }
  destruct (Get m i) eqn:Hi.
  - destruct (IH (S i)) as (H1 & H2 & H3). split_and!; [lia|lia| |intros; apply H3; lia].
    intros j Hj. destruct (decide (j = i)) as [->|]; [done|]. apply H2. lia.
  - split_and!; [lia|lia|intros; lia|done].
Qed.

(** ** Lemmas: one pool *)

#[local] Arguments Len m : simpl never.
#[local] Arguments NewSlice l : simpl never.
#[local] Arguments Get m i : simpl never.
#[local] Arguments Set_ m i v : simpl never.

Record pool_ok (r : Resource) : Prop := {
  po_bytes : bytes (POOL r);
  po_len : Z.of_nat (Len (POOL r)) < 2 ^ 32;
  po_start : is_u32 (START_IDX r);
}.

(** The id of a position; the ids in use. *)
Definition id_at (r : Resource) (Idx : nat) : Z := u32 (Z.of_nat Idx + START_IDX r).

Definition used (r : Resource) (id : Z) : Prop :=
  exists Idx, (Idx < Len (POOL r))%nat /\ Get (POOL r) Idx = true /\ id = id_at r Idx.

Lemma id_at_inj r i j :
  Z.of_nat (Len (POOL r)) < 2 ^ 32 -> (i < Len (POOL r))%nat -> (j < Len (POOL r))%nat ->
  id_at r i = id_at r j -> i = j.
Proof.
  intros Hl Hi Hj He. apply Nat2Z.inj. eapply u32_inj_shift; [..|exact He]; unfold is_u32; lia.
Qed.

Lemma pool_ok_set r i v : pool_ok r -> pool_ok (set_POOL (Set_ (POOL r) i v) r).
Proof. intros [H1 H2 H3]. split; cbn; [by apply Set_bytes|by rewrite Set_Len|done]. Qed.

Lemma used_set r i id :
  pool_ok r -> (i < Len (POOL r))%nat ->
  used (set_POOL (Set_ (POOL r) i true) r) id <-> id = id_at r i \/ used r id.
Proof.
  intros Hr Hi. unfold used. cbn. rewrite Set_Len. split.
  - intros (j & Hj & Hg & ->). rewrite Get_Set in Hg by (done || apply Hr).
    case_decide; [subst; by left|right]. by exists j.
  - intros [->|(j & Hj & Hg & ->)]; [exists i|exists j]; (split_and!; [done| |done]);
      rewrite Get_Set by (done || apply Hr); by case_decide.
Qed.

(** Both outcomes of [GenerateNextID]. *)
Lemma generate_cases r :
  let k := first_clear (Len (POOL r)) (POOL r) 0 in
  (forall j, (j < k)%nat -> Get (POOL r) j = true)
  /\ ((k = Len (POOL r) /\ GenerateNextID (Some r) = ((0, Some exhausted), Some r))
      \/ ((k < Len (POOL r))%nat /\ Get (POOL r) k = false
          /\ GenerateNextID (Some r) = ((id_at r k, None), Some (set_POOL (Set_ (POOL r) k true) r)))).
Proof.
  intros k. destruct (first_clear_spec (POOL r) (Len (POOL r)) 0) as (H1 & H2 & H3). fold k in H1, H2, H3.
  split; [intros j Hj; apply H2; lia|]. unfold GenerateNextID. fold k.
  case_decide as Hk; [by left|right]. split_and!; [lia|apply H3; lia|].
  unfold id_at. by rewrite u32_add_l.
Qed.

Lemma generate_outcome r :
  pool_ok r ->
  match GenerateNextID (Some r) with
  | ((id, None), Some r') =>
      ~ used r id /\ (forall x, used r' x <-> x = id \/ used r x) /\ pool_ok r'
      /\ exists k, id = id_at r k /\ (k < Len (POOL r))%nat
           /\ forall j, (j < k)%nat -> used r (id_at r j)
  | ((_, Some e), r') =>
      e = exhausted /\ r' = Some r /\ forall j, (j < Len (POOL r))%nat -> used r (id_at r j)
  | _ => False
  end.
Proof.
  intros Hr. destruct (generate_cases r) as [Hbelow [[Hk ->]|(Hk & Hg & ->)]].
  - split_and!; [done..|]. intros j Hj. exists j. split_and!; [done|apply Hbelow; lia|done].
  - set (k := first_clear _ _ _) in *. split_and!.
    + intros (j & Hj & Hgj & He). apply id_at_inj in He; [|apply Hr|done..]. subst. congruence.
    + intros x. by apply used_set.
    + by apply pool_ok_set.
    + exists k. split_and!; [done..|]. intros j Hj. exists j. split_and!; [lia|by apply Hbelow|done].
Qed.

(** The pool after a list of ids has been taken from it. *)
Record takes (r : Resource) (ids : list Z) (r' : Resource) : Prop := {
  tk_nodup : NoDup ids;
  tk_new : forall id, id ∈ ids -> ~ used r id;
  tk_used : forall id, used r' id <-> id ∈ ids \/ used r id;
  tk_low : forall j k, (j < k < Len (POOL r))%nat -> id_at r k ∈ ids -> used r' (id_at r j);
  tk_ok : pool_ok r';
  tk_len : Len (POOL r') = Len (POOL r);
  tk_start : START_IDX r' = START_IDX r;
}.

Lemma takes_nil r : pool_ok r -> takes r [] r.
Proof. intros Hr. split; [constructor|set_solver| |set_solver|done..]. intros id. rewrite elem_of_nil. tauto. Qed.

Lemma takes_one r id r' ids r'' :
  pool_ok r -> GenerateNextID (Some r) = ((id, None), Some r') -> takes r' ids r'' -> takes r (id :: ids) r''.
Proof.
  intros Hr Hg [H1 H2 H3 H4 H5 H6 H7]. pose proof (generate_outcome r Hr) as Ho. rewrite Hg in Ho.
  destruct Ho as (Hn & Hu & Hok & k & -> & Hk & Hlow).
  assert (Len (POOL r') = Len (POOL r) /\ START_IDX r' = START_IDX r) as [El Es].
  { destruct (generate_cases r) as [_ [[_ E]|(_ & _ & E)]]; [congruence|].
    rewrite E in Hg. injection Hg as _ <-. cbn. by rewrite Set_Len. }
  assert (forall i, id_at r' i = id_at r i) as Ei by (intros i; unfold id_at; by rewrite Es).
  split; [| | | |done|congruence|congruence].
  - constructor; [|done]. intros Hin. apply (H2 _ Hin), Hu. by left.
  - intros x [->|Hx]%elem_of_cons; [done|]. intros Hx'. apply (H2 _ Hx), Hu. by right.
  - intros x. rewrite H3, Hu, elem_of_cons. tauto.
  - intros i j Hij [He|Hin]%elem_of_cons.
    + apply id_at_inj in He as ->; [|apply Hr|lia..]. apply H3, or_intror, Hu. right. apply Hlow. lia.
    + rewrite <-Ei. apply (H4 _ j); [lia|by rewrite Ei].
Qed.

Lemma generate_ids_acc n res acc :
  generate_ids n res acc
  = ((acc ++ (generate_ids n res []).1.1, (generate_ids n res []).1.2), (generate_ids n res []).2).
Proof.
  revert res acc. induction n as [|n IH]; intros res acc; cbn [generate_ids]; [by rewrite app_nil_r|].
  destruct (GenerateNextID res) as [[id [e|]] res']; [by rewrite app_nil_r|].
  rewrite (IH res' (acc ++ [id])), (IH res' ([] ++ [id])). cbn. by rewrite <-app_assoc.
Qed.

(** A pool whose first [k] positions are set and no other. *)
Definition filled_to (k : nat) (r : Resource) : Prop :=
  forall j, (j < Len (POOL r))%nat -> Get (POOL r) j = bool_decide (j < k)%nat.

Lemma generate_filled k r :
  pool_ok r -> filled_to k r -> (k < Len (POOL r))%nat ->
  exists r', GenerateNextID (Some r) = ((id_at r k, None), Some r') /\ filled_to (S k) r'
    /\ pool_ok r' /\ Len (POOL r') = Len (POOL r) /\ START_IDX r' = START_IDX r.
Proof.
  intros Hr Hf Hk. destruct (generate_cases r) as [Hbelow [[He _]|(Hlt & Hg & ->)]].
  - specialize (Hbelow k ltac:(lia)). rewrite Hf, bool_decide_false in Hbelow by lia. done.
  - set (i := first_clear _ _ _) in *. assert (i = k) as ->.
    { rewrite Hf in Hg by done. apply bool_decide_eq_false in Hg.
      destruct (decide (k < i)%nat) as [Hki|]; [|lia].
      specialize (Hbelow k Hki). rewrite Hf, bool_decide_false in Hbelow by lia. done. }
    eexists. split_and!; [done| |by apply pool_ok_set|cbn; by rewrite Set_Len|done].
    intros j Hj. cbn in *. rewrite Set_Len in Hj. rewrite Get_Set by (done || apply Hr).
    case_decide; [subst; symmetry; apply bool_decide_true; lia|]. rewrite Hf by done.
    apply bool_decide_ext. lia.
Qed.

Lemma generate_ids_filled n k r acc :
  pool_ok r -> filled_to k r -> (k + n <= Len (POOL r))%nat ->
  exists r', generate_ids n (Some r) acc = ((acc ++ ((fun i => id_at r i) <$> seq k n), None), Some r')
    /\ filled_to (k + n) r' /\ pool_ok r' /\ Len (POOL r') = Len (POOL r).
Proof.
  revert k r acc. induction n as [|n IH]; intros k r acc Hr Hf Hk.
  { exists r. cbn. rewrite Nat.add_0_r, app_nil_r. by split_and!. }
  destruct (generate_filled k r Hr Hf) as (r1 & Hg & Hf1 & Hr1 & Hl1 & Hs1); [lia|].
  destruct (IH (S k) r1 (acc ++ [id_at r k]) Hr1 Hf1) as (r2 & Hg2 & Hf2 & Hr2 & Hl2); [lia|].
  exists r2. cbn [generate_ids]. rewrite Hg, Hg2, <-app_assoc.
  split_and!; [|by replace (k + S n)%nat with (S k + n)%nat by lia|done|lia].
  cbn. do 4 f_equal. apply list_fmap_ext. intros _ x _. unfold id_at. by rewrite Hs1.
Qed.

Lemma generate_full r : filled_to (Len (POOL r)) r -> GenerateNextID (Some r) = ((0, Some exhausted), Some r).
Proof.
  intros Hf. destruct (generate_cases r) as [_ [[_ ->]|(Hlt & Hg & _)]]; [done|].
  rewrite Hf, bool_decide_true in Hg by done. done.
Qed.

(** The size of a bitmap is the number of bits asked for, rounded up to bytes. *)
Lemma NewSlice_Len l : Len (NewSlice l) = (8 * ((l + 7) / 8))%nat.
Proof.
  unfold Len, NewSlice. rewrite length_replicate.
  pose proof (Nat.div_mod_eq l 8). pose proof (Nat.div_mod_eq (l + 7) 8).
  pose proof (div_mod_8 l). pose proof (div_mod_8 (l + 7)). case_decide; lia.
Qed.

Lemma NewSlice_clear l i : Get (NewSlice l) i = false.
Proof.
  unfold Get, NewSlice. rewrite nth_lookup.
  assert (default 0 (replicate (l / 8 + if decide (l mod 8 <> 0)%nat then 1 else 0) 0 !! (i / 8)%nat) = 0) as ->.
  { destruct (_ !! _) as [x|] eqn:E; [|done]. by apply lookup_replicate in E as [-> _]. }
  by rewrite Z.land_0_l.
Qed.

Lemma FormatResource_new intf s e :
  is_u32 s -> 0 <= e < 2 ^ 32 - 7 ->
  pool_ok (FormatResource intf s e []) /\ filled_to 0 (FormatResource intf s e [])
  /\ Z.of_nat (Len (POOL (FormatResource intf s e []))) = 8 * ((e + 7) / 8).
Proof.
  intros Hs He. assert (Z.of_nat (Len (NewSlice (Z.to_nat e))) = 8 * ((e + 7) / 8)) as Hl.
  { rewrite NewSlice_Len, Nat2Z.inj_mul, Nat2Z.inj_div, Nat2Z.inj_add, Z2Nat.id by lia. done. }
  split_and!; [|intros j _; apply NewSlice_clear|done].
  split; [by apply Forall_replicate| |done].
  cbn [POOL FormatResource foldl]. rewrite Hl. pose proof (Z.mul_div_le (e + 7) 8). lia.
Qed.

(** ** Lemmas: the manager of a PON *)

Definition store_ok (st : KVStore) : Prop := map_Forall (fun _ => pool_ok) (kv_data st).

(** Taking any number of ids. *)
Lemma generate_ids_outcome (r : Resource) (n : nat) :
  pool_ok r ->
  match generate_ids n (Some r) [] with
  | ((ids, err), Some r') =>
      takes r ids r'
      /\ ((err = None /\ length ids = n)
          \/ (err = Some exhausted /\ (length ids < n)%nat
              /\ forall j, (j < Len (POOL r))%nat -> used r' (id_at r j)))
  | _ => False
  end.
Proof.
  revert r. induction n as [|n IH]; intros r Hr; cbn [generate_ids].
  { split; [by apply takes_nil|by left]. }
  pose proof (generate_outcome r Hr) as Ho. destruct (GenerateNextID (Some r)) as [[id [e|]] [r1|]] eqn:Hg; try done.
  { destruct Ho as (-> & [= ->] & Ho). split; [by apply takes_nil|right]. split_and!; [done|cbn; lia|done]. }
  { by destruct Ho as (_ & ? & _). }
  rewrite generate_ids_acc. specialize (IH r1 ltac:(apply Ho)).
  destruct (generate_ids n (Some r1) []) as [[ids err] [r2|]]; [|done].
  destruct IH as [Ht Hend]. cbn. pose proof (takes_one _ _ _ _ _ Hr Hg Ht) as Ht'. split; [done|].
  destruct Hend as [[-> ->]|(-> & Hlt & Hall)]; [by left|right]. split_and!; [done|lia|].
  intros j Hj. rewrite <-(tk_len _ _ _ Ht'), (tk_len _ _ _ Ht) in Hj. specialize (Hall j Hj).
  unfold id_at in *. by rewrite <-(tk_start _ _ _ Ht'), (tk_start _ _ _ Ht).
Qed.

Lemma generate_ids_takes n r ids res :
  pool_ok r -> generate_ids n (Some r) [] = ((ids, None), res) ->
  exists r', res = Some r' /\ takes r ids r' /\ length ids = n.
Proof.
  intros Hr Hg. pose proof (generate_ids_outcome r n Hr) as Ho. rewrite Hg in Ho.
  destruct res as [r'|]; [|done]. destruct Ho as [Ht [[_ Hl]|(? & _)]]; [by exists r'|done].
Qed.

(** How many ids a request is for. *)
Definition ids_wanted (t : ResourceType) (n : nat) : nat :=
  match t with GEMPORT_ID | ALLOC_ID => n | _ => 1 end.

(** Ids are taken from a pool that is there, or there is an error. *)
Lemma take_ids_outcome t n res err l e res' :
  (0 < n)%nat -> t <> UNI_ID -> (forall r, res = Some r -> pool_ok r) ->
  take_ids t n res err = ((l, e), res') ->
  e <> None
  \/ (e = None /\ exists r r', res = Some r /\ res' = Some r' /\ takes r l r' /\ length l = ids_wanted t n).
Proof.
  intros Hn Ht Hr Hk. destruct e as [e|]; [by left|right; split; [done|]].
  assert (forall k, (0 < k)%nat -> generate_ids k res [] = ((l, None), res') ->
    exists r r', res = Some r /\ res' = Some r' /\ takes r l r' /\ length l = k) as Hg.
  { intros k Hk0 Hg. destruct res as [r|]; [|by destruct k; [lia|]].
    apply generate_ids_takes in Hg as (r' & -> & ? & ?); [|by apply Hr]. by exists r, r'. }
  destruct t; try done; destruct err; try done; cbn [take_ids ids_wanted] in *; apply Hg; (done || lia).
Qed.

(** The ids come from the pool at the path of the manager, which is written
    back: after an error the write may have been made all the same. *)
Lemma GetResourceID_effect kv_fault m j t n st ids err st' :
  store_ok st -> PONRMgr_GetResourceID kv_fault m j t n st = ((ids, err), st') ->
  (kv_data st' = kv_data st /\ err <> None)
  \/ exists Path r l r', GetPath m j t = Some Path /\ kv_data st !! Path = Some r /\ takes r l r'
       /\ (kv_data st' = <[Path := r']> (kv_data st) \/ (kv_data st' = kv_data st /\ err <> None))
       /\ (err = None -> ids = l /\ 1 <= n /\ length l = ids_wanted t (Z.to_nat n)).
Proof.
  intros Hok. unfold PONRMgr_GetResourceID. case_match eqn:Hn.
  { intros [= _ <- <-]. by left. }
  destruct (GetPath m j t) as [Path|] eqn:Hp; [|intros [= _ <- <-]; by left].
  destruct (kv_Get kv_fault Path st) as [[res e] st1] eqn:Hget.
  assert (kv_data st1 = kv_data st /\ (forall r, res = Some r -> kv_data st !! Path = Some r)) as [Hd Hres].
  { unfold kv_Get in Hget. destruct (kv_fault _) as [[? ?]|]; by injection Hget as <- <- <-. }
  destruct (take_ids t (Z.to_nat n) res e) as [[l err1] res1] eqn:Ht.
  apply take_ids_outcome in Ht as [He|(-> & r & r' & -> & -> & Hx & Hl)].
  - destruct err1; [|done]. intros [= _ <- <-]. by left.
  - unfold kv_Put. intros Hput. right. exists Path, r, l, r'. split_and!; [done|by apply Hres|done|..].
    + destruct (kv_fault _) as [[? [|]]|]; injection Hput as <- <- <-; cbn; rewrite Hd; auto.
    + intros Herr. destruct (kv_fault _) as [[? [|]]|]; injection Hput as <- <- <-; split_and!; (done || lia).
  - lia.
  - intros ->. by destruct (pm_SharedPoolID m UNI_ID).
  - intros r Hr. by apply (Hok Path), Hres.
Qed.

(** ** Properties *)

(** C20. The ids taken from a pool in one request are distinct, were not in use
    and are the lowest that were not; afterwards they are in use, and no other id
    changes.  The request fails only when the pool is exhausted: then every id of
    the pool is in use. *)
Theorem generate_ids_spec (r : Resource) (n : nat) :
  pool_ok r ->
  match generate_ids n (Some r) [] with
  | ((ids, err), Some r') =>
      takes r ids r'
      /\ ((err = None /\ length ids = n)
          \/ (err = Some exhausted /\ (length ids < n)%nat
              /\ forall j, (j < Len (POOL r))%nat -> used r' (id_at r j)))
  | _ => False
  end.
Proof. apply generate_ids_outcome. Qed.

(** Releasing an id that was generated brings the pool back to what it was. *)
Theorem release_generate (r r' : Resource) (id : Z) :
  pool_ok r -> GenerateNextID (Some r) = ((id, None), Some r') -> ReleaseID r' id = (true, r).
Proof.
  intros Hr Hg. destruct (generate_cases r) as [_ [[_ Hk]|(Hk & Hc & Hk')]]; [congruence|].
  set (k := first_clear _ _ _) in *. rewrite Hk' in Hg. injection Hg as <- <-.
  unfold ReleaseID, id_at. cbn. pose proof (po_len _ Hr) as Hl.
  assert (u32 (u32 (Z.of_nat k + START_IDX r) - START_IDX r) = Z.of_nat k) as ->.
  { unfold u32. rewrite Zminus_mod_idemp_l, Z.add_simpl_r. apply Z.mod_small. lia. }
  rewrite Set_Len, (u32_small (Z.of_nat (Len (POOL r)))), Nat2Z.id by lia.
  destruct (Z.leb_spec (Z.of_nat (Len (POOL r))) (Z.of_nat k)); [lia|].
  rewrite Set_unset by (done || apply Hr). by destruct r.
Qed.

(** C38. A new pool gives its start index and the ids that follow, as many as its
    end index rounded up to a multiple of 8, and then none: a pool that starts at
    2 or later gives ids beyond its end. *)
Theorem pool_capacity (intf s e : Z) :
  is_u32 s -> 0 <= e < 2 ^ 32 - 7 -> s + 8 * ((e + 7) / 8) <= 2 ^ 32 ->
  exists r', generate_ids (Z.to_nat (8 * ((e + 7) / 8))) (Some (FormatResource intf s e [])) []
             = ((seqZ s (8 * ((e + 7) / 8)), None), Some r')
    /\ GenerateNextID (Some r') = ((0, Some exhausted), Some r')
    /\ (2 <= s <= e -> e + 1 ∈ seqZ s (8 * ((e + 7) / 8))).
Proof.
  intros Hs He Hsum. destruct (FormatResource_new intf s e Hs He) as (Hr & Hf & Hl).
  set (r := FormatResource intf s e []) in *. set (n := 8 * ((e + 7) / 8)) in *.
  assert (Len (POOL r) = Z.to_nat n) as Hn by lia.
  destruct (generate_ids_filled (Z.to_nat n) 0 r [] Hr Hf) as (r' & Hg & Hf' & Hr' & Hl'); [lia|].
  exists r'. split_and!.
  - rewrite Hg. cbn [app]. do 3 f_equal. unfold seqZ. apply list_fmap_ext. intros i x Hx.
    apply lookup_seq in Hx. unfold id_at. apply Z.mod_small. cbn. unfold is_u32 in Hs. lia.
  - apply generate_full. rewrite Hl', Hn. exact Hf'.
  - intros H2. apply elem_of_seqZ. pose proof (Z.div_mod (e + 7) 8 ltac:(lia)).
    pose proof (Z.mod_pos_bound (e + 7) 8 ltac:(lia)). lia.
Qed.

(** A pool of ONU ids that starts at 1, and its manager. *)
Definition sample_manager : PoolManager :=
  {| pm_PathPrefix := "service/voltha/resource_manager/XGS-PON"; pm_DeviceID := "BBSIM_OLT";
     pm_SharedPoolID := fun _ => 0 |}.
Definition sample_pool : Resource := FormatResource 0 1 16 [].

Lemma sample_pool_ok : pool_ok sample_pool.
Proof. by apply FormatResource_new. Qed.

Lemma generate_ids_spec_witness :
  match generate_ids 3 (Some sample_pool) [] with
  | ((ids, err), Some r') => (ids, err) = ([1; 2; 3], None) /\ takes sample_pool ids r'
  | _ => False
  end.
Proof.
  pose proof (generate_ids_spec sample_pool 3 sample_pool_ok) as Hs.
  destruct (generate_ids 3 (Some sample_pool) []) as [[ids err] [r'|]] eqn:E; [|exact Hs].
  split; [|apply Hs]. transitivity (generate_ids 3 (Some sample_pool) []).1; [by rewrite E|].
  vm_compute. reflexivity.
Defined.

Lemma release_generate_witness :
  match GenerateNextID (Some sample_pool) with
  | ((id, None), Some r') => id = 1 /\ ReleaseID r' id = (true, sample_pool)
  | _ => False
  end.
Proof.
  destruct (GenerateNextID (Some sample_pool)) as [[id [e|]] [r'|]] eqn:E; try (vm_compute in E; discriminate).
  split; [by vm_compute in E; injection E|]. apply (release_generate sample_pool r' id sample_pool_ok E).
Defined.

(** A pool of [1024 .. 1030] gives 1031 as well. *)
Lemma pool_capacity_witness :
  exists r', generate_ids 1032 (Some (FormatResource 0 1024 1030 [])) [] = ((seqZ 1024 1032, None), Some r')
    /\ GenerateNextID (Some r') = ((0, Some exhausted), Some r')
    /\ (2 <= 1024 <= 1030 -> 1031 ∈ seqZ 1024 1032).
Proof. apply (pool_capacity 0 1024 1030); [split; lia|lia|vm_compute; discriminate]. Defined.
