(* ===== verification/GemPorts.v ===== *)
(** * Gem ports are told apart

    What the program needs of the profile managers is an interface,
    [FreshGemPorts]: an instance comes with gem ports that nothing on its PON has.
    Against it, no two profile instances of the subscribers share a gem port of a
    PON.  A goroutine owns the object of the subscriber it works for, whose
    contents nobody else changes, and holds the gem ports of the instances that
    are not stored yet.  TechInstance shows that voltha-lib-go implements the
    interface. *)
From S2P Require Import Prelude Utils Proto Config Runtime Judgement Samples TechProfile ResourceManager WorkflowUtils AttWorkflow DtWorkflow TtWorkflow WorkflowManager SubscriberManager OnuManager OltManager Typing.

(** ** The interface *)

(** The gem ports of an instance: the downstream ones are the same. *)
Definition gem_ids (inst : TechProfileInstance) : list Z := gp_GemportId <$> UpstreamGemPortAttributeList inst.

(** The gem ports in use on a PON, in the states [gems_ok] that the managers keep,
    as long as they do not panic. *)
Class FreshGemPorts `{Env} := {
  gems_ok : tp_state -> Prop;
  gem_in_use : tp_state -> Z -> Z -> Prop;  (* state, PON, gem port *)
  gems_get m j t n st : gems_ok st ->
    let st' := (tp_GetResourceID m j t n st).2 in
    gems_ok st' /\ forall pon id, gem_in_use st pon id -> gem_in_use st' pon id;
  gems_create m tpID name j st r st' :
    gems_ok st -> tp_CreateTechProfileInstance m tpID name j st = (inr r, st') ->
    gems_ok st' /\ (forall pon id, gem_in_use st pon id -> gem_in_use st' pon id)
    /\ forall inst, r.1 = Some inst ->
         NoDup (gem_ids inst) /\ forall id, id ∈ gem_ids inst -> ~ gem_in_use st j id /\ gem_in_use st' j id;
}.

(** ** Holdings *)

(** The subscriber a goroutine owns, and the gem ports of a PON it has not stored. *)
Record holding := {
  h_sub : option (nat * Subscriber);
  h_gems : list (Z * Z);
}.

Definition nothing : holding := {| h_sub := None; h_gems := [] |}.

Definition map_gems (m : gmap Z TechProfileInstance) : list Z :=
  map_to_list m ≫= fun '(_, inst) => gem_ids inst.

Definition sub_gems (s : Subscriber) : list (Z * Z) := pair (PonIntf s) <$> map_gems (TpInstance s).

Definition op_holds {X : Type} (o : Op X) (h : holding) (K : X -> holding -> Prop) : Prop :=
  match o in Op X return (X -> holding -> Prop) -> Prop with
  | OpRpc _ => fun K => forall e, told e -> K e h
  | OpRandIntn k => fun K => forall v, (0 < k -> 0 <= v < k) -> K v h
  | OpGetFlowID _ => fun K => forall v, is_u64 v -> K v h
  | OpNewSub s => fun K => TpInstance s = ∅ /\ forall a, K a {| h_sub := Some (a, s); h_gems := [] |}
  | OpLoadSub a => fun K =>
      forall s, match h_sub h with Some (a', s') => a = a' -> s = s' | None => True end -> K s h
  | OpStoreSub a s' => fun K =>
      exists s rest, h_sub h = Some (a, s) /\ sub_gems s ++ h_gems h ≡ₚ sub_gems s' ++ rest
        /\ K tt {| h_sub := Some (a, s'); h_gems := [] |}
  | OpCreateTechProfileInstance _ _ _ j => fun K =>
      forall inst err, K (inst, err)
        {| h_sub := h_sub h;
           h_gems := match inst with Some i => pair j <$> gem_ids i | None => [] end |}
  | _ => fun K => forall x, K x h
  end K.

Lemma op_holds_mono {X} (o : Op X) h (K K' : X -> holding -> Prop) :
  op_holds o h K -> (forall x h', K x h' -> K' x h') -> op_holds o h K'.
Proof.
  intros Ho HK. destruct o; cbn in *; auto.
  - destruct Ho as [? ?]. split; auto.
  - destruct Ho as (s' & rest & ? & ? & ?). exists s', rest. auto.
Qed.

#[export] Instance holding_logic : Logic holding := {
  allows := @op_holds;
  splits h hc hk := hc = h /\ hk = nothing;
  allows_mono := @op_holds_mono;
}.

#[export] Instance holding_neutral : Neutral holding (fun _ => True).
Proof. split; intros; cbn; auto. Qed.

(** A goroutine takes over what its parent owns. *)
Lemma holding_go {A} c (k : prog A) h (Q : A -> holding -> Prop) :
  judge c h anything -> judge k nothing Q -> judge (Go c k) h Q.
Proof. intros Hc Hk. exists h, nothing. by split_and!. Qed.

(** Storing an instance, which replaces the one the profile had. *)
Lemma map_gems_insert m k inst :
  exists rest, map_gems m ++ gem_ids inst ≡ₚ map_gems (<[k := inst]> m) ++ rest.
Proof.
  assert (forall m, m !! k = None -> map_gems (<[k := inst]> m) ≡ₚ gem_ids inst ++ map_gems m) as Hnew.
  { intros m0 Hm. unfold map_gems. by rewrite map_to_list_insert. }
  destruct (m !! k) as [old|] eqn:Hk.
  - exists (gem_ids old). rewrite <-insert_delete_eq, Hnew by apply lookup_delete_eq.
    rewrite <-(insert_delete_id m k old) at 1 by done. unfold map_gems at 1.
    rewrite map_to_list_insert by apply lookup_delete_eq. cbn. fold (map_gems (delete k m)).
    rewrite (Permutation_app_comm (gem_ids old)), <-!app_assoc, (Permutation_app_comm (gem_ids inst)).
    by rewrite <-app_assoc, (Permutation_app_comm (gem_ids old)).
  - exists []. by rewrite app_nil_r, Hnew, Permutation_app_comm.
Qed.

Lemma sub_gems_insert s k inst :
  exists rest, sub_gems s ++ (pair (PonIntf s) <$> gem_ids inst)
               ≡ₚ sub_gems (set_TpInstance (<[k := inst]> (TpInstance s)) s) ++ rest.
Proof.
  destruct (map_gems_insert (TpInstance s) k inst) as [rest Hr]. exists (pair (PonIntf s) <$> rest).
  unfold sub_gems. cbn. by rewrite <-!fmap_app, Hr.
Qed.

(** ** The goroutines *)

Definition owns (a : nat) (s : Subscriber) : holding := {| h_sub := Some (a, s); h_gems := [] |}.

Lemma holding_store {B} a s s' (f : unit -> prog B) gems rest Q :
  sub_gems s ++ gems ≡ₚ sub_gems s' ++ rest -> judge (f tt) (owns a s') Q ->
  judge (op (OpStoreSub a s') ≫= f) {| h_sub := Some (a, s); h_gems := gems |} Q.
Proof. intros Hr Hf. apply judge_op_bind. by exists s, rest. Qed.

Lemma holding_load {B} a s (f : Subscriber -> prog B) gems Q :
  judge (f s) {| h_sub := Some (a, s); h_gems := gems |} Q ->
  judge (op (OpLoadSub a) ≫= f) {| h_sub := Some (a, s); h_gems := gems |} Q.
Proof. intros Hf. apply judge_op_bind. intros s' Hs. by rewrite (Hs eq_refl). Qed.

Lemma holding_DeployWorkflow a isGroup s : judge (DeployWorkflow a isGroup) (owns a s) anything.
Proof.
  apply holding_load, judge_deref_bind. intros wf Hwf. apply judge_bind. eapply sends_judge.
  - eapply sends_mono; [by apply (sends_deploy_reason s wf)|done..].
  - intros reason _. apply (holding_store _ _ _ _ [] []); [done|]. by intros [].
Qed.

Lemma holding_create_tp_instances a ids s :
  judge (create_tp_instances a ids) (owns a s) (fun _ h => exists s', h = owns a s').
Proof.
  revert s. induction ids as [|id ids IH]; intros s; [by exists s|].
  cbn [create_tp_instances]. apply holding_load, judge_op_bind. intros [inst|] err; [|done].
  destruct (sub_gems_insert s id inst) as [rest Hr]. eapply holding_store; [exact Hr|].
  destruct err as [e|]; [|apply IH]. apply holding_load, (holding_store _ _ _ _ [] []); [done|]. by eexists.
Qed.

Lemma holding_Subscriber_Start a isGroup s : judge (Subscriber_Start a isGroup) (owns a s) anything.
Proof.
  apply holding_load, (holding_store _ _ _ _ [] (sub_gems s)); [by rewrite app_nil_r|].
  apply judge_bind. eapply judge_mono; [apply holding_create_tp_instances|].
  intros [|] h [s' ->]; [|done]. by apply holding_go; [apply holding_DeployWorkflow|].
Qed.

Lemma holding_OnuDevice_Start a : judge (OnuDevice_Start a) nothing anything.
Proof.
  apply judge_op_bind. intros onu. apply judge_op_bind. intros [].
  apply judge_op_bind. intros g. apply judge_bind, (judge_for_each _ _ (fun h => h = nothing)); [|done|].
  - intros i h Q _ -> HQ. apply judge_op_bind. intros d. apply judge_bind.
    apply judge_op_bind. intros ctag. apply judge_op_bind. intros stag. cbn [judge].
    apply judge_op_bind. split; [done|]. intros sa. apply judge_op_bind. intros []. apply judge_op_bind. intros [].
    apply holding_go; [apply holding_Subscriber_Start|by apply HQ].
  - intros h ->. apply judge_op_bind. by intros [] [].
Qed.

Lemma holding_activateONU cfg intf onuID sn name g :
  judge (activateONU cfg intf onuID sn name g) nothing anything.
Proof.
  apply judge_op_bind. intros mgr. apply judge_op_bind. intros now.
  apply judge_op_bind. intros err _.
  apply judge_op_bind. intros a. apply judge_op_bind. intros []. destruct err; [done|].
  apply judge_op_bind. intros a'. by apply holding_go; [apply holding_OnuDevice_Start|].
Qed.

Lemma holding_provision_one cfg g i j k Q :
  Q tt nothing -> judge (provision_one cfg g i j k) nothing Q.
Proof.
  intros HQ. apply judge_op_bind. intros sn. apply judge_op_bind. intros mgr.
  apply judge_op_bind. intros [ids [e|]]; [destruct ids; apply HQ|].
  destruct ids as [|id ids]; [done|]. apply judge_bind. cbn [index lookup judge].
  apply judge_op_bind. intros []. apply judge_bind.
  destruct (stringifySerialNumber (Some sn)) as [name|]; [|done].
  by apply holding_go; [apply holding_activateONU|].
Qed.

Lemma holding_provisionONUs cfg di : judge (provisionONUs cfg di) nothing anything.
Proof.
  apply (judge_provisionONUs (fun h => h = nothing)); [done|by intros X [] r' K|].
  intros g i j k h Q _ -> HQ. apply holding_provision_one. by apply HQ.
Qed.

(** ** The store *)

Section sound.
Context `{FreshGemPorts}.

(** The gem ports of all instances: those stored, by subscriber, and those held. *)
Definition gems_of (subs : list Subscriber) (hs : list holding) : list (Z * Z) :=
  (subs ≫= sub_gems) ++ (hs ≫= h_gems).

Definition owned (hs : list holding) : list (nat * Subscriber) := omap h_sub hs.

Record apart (w : World) (hs : list holding) : Prop := {
  ap_ok : gems_ok (w_tp w);
  ap_subs : forall a s, (a, s) ∈ owned hs -> w_subs w !! a = Some s;
  ap_owners : NoDup (owned hs).*1;
  ap_nodup : NoDup (gems_of (w_subs w) hs);
  ap_used : forall pon id, (pon, id) ∈ gems_of (w_subs w) hs -> gem_in_use (w_tp w) pon id;
}.

Lemma apart_perm w hs hs' : hs ≡ₚ hs' -> apart w hs -> apart w hs'.
Proof.
  intros HR [H1 H2 H3 H4 H5].
  assert (gems_of (w_subs w) hs ≡ₚ gems_of (w_subs w) hs') as Hg by (unfold gems_of; by rewrite HR).
  assert (owned hs ≡ₚ owned hs') as Ho by (unfold owned; by rewrite HR).
  split; [done| |by rewrite <-Ho|by rewrite <-Hg|].
  - intros a s. rewrite <-Ho. apply H2.
  - intros pon id. rewrite <-Hg. apply H5.
Qed.

(** Fewer gem ports and owners, and gem ports that stay in use. *)
Lemma apart_sub w w' hs hs' :
  apart w hs -> gems_ok (w_tp w') ->
  (forall pon id, gem_in_use (w_tp w) pon id -> gem_in_use (w_tp w') pon id) ->
  (forall a s, (a, s) ∈ owned hs' -> w_subs w' !! a = Some s) -> NoDup (owned hs').*1 ->
  (exists l, gems_of (w_subs w) hs ≡ₚ gems_of (w_subs w') hs' ++ l) -> apart w' hs'.
Proof.
  intros [H1 H2 H3 H4 H5] Hok Hu Ho Hn [l Hl]. split; [done|done|done| |].
  - rewrite Hl in H4. by apply NoDup_app in H4 as [H4 _].
  - intros pon id Hin. apply Hu, H5. rewrite Hl. apply elem_of_app. by left.
Qed.

(** Operations that touch neither subscribers nor gem ports. *)
Lemma apart_same w w' hs : apart w hs -> w_tp w' = w_tp w -> w_subs w' = w_subs w -> apart w' hs.
Proof.
  intros Ha Ht Hs. apply (apart_sub w w' hs hs Ha); [rewrite Ht; apply Ha|by rewrite Ht|rewrite Hs; apply Ha
    |apply Ha|]. exists []. by rewrite Hs, app_nil_r.
Qed.

Lemma gems_cons subs h hs : gems_of subs (h :: hs) ≡ₚ h_gems h ++ gems_of subs hs.
Proof. unfold gems_of. cbn. by rewrite !app_assoc, (Permutation_app_comm (h_gems h)). Qed.

(** The subscriber at an address among the others. *)
Lemma gems_insert subs a s s' hs rest gems :
  subs !! a = Some s -> sub_gems s ++ gems ≡ₚ sub_gems s' ++ rest ->
  gems ++ gems_of subs hs ≡ₚ gems_of (<[a := s']> subs) hs ++ rest.
Proof.
  intros Ha Hr. destruct (insert_app_perm subs a s s' [] Ha) as (l0 & Hl & Hl'). rewrite app_nil_r in Hl'.
  unfold gems_of. rewrite Hl', Hl. cbn. rewrite !app_assoc, (Permutation_app_comm gems), Hr.
  rewrite <-!app_assoc. f_equiv. rewrite (Permutation_app_comm rest). by rewrite <-!app_assoc.
Qed.
Lemma apart_store w a s s' hs rest gems :
  apart w ({| h_sub := Some (a, s); h_gems := gems |} :: hs) -> sub_gems s ++ gems ≡ₚ sub_gems s' ++ rest ->
  apart (set_subs (<[a := s']> (w_subs w)) w) (owns a s' :: hs).
Proof.
  intros Ha Hr. pose proof (ap_subs _ _ Ha a s ltac:(left)) as Hs. pose proof (ap_owners _ _ Ha) as Hn.
  cbn in Hn. apply NoDup_cons in Hn as [Hnot Hn].
  apply (apart_sub w _ _ _ Ha); [apply Ha|done| |by apply NoDup_cons|].
  - intros b t. cbn. intros [[= -> ->]|Hin]%elem_of_cons; [by apply list_lookup_insert_eq, lookup_lt_is_Some_1; eexists|].
    rewrite list_lookup_insert_ne; [by apply (ap_subs _ _ Ha); right|]. intros <-. apply Hnot.
    apply list_elem_of_fmap. by exists (a, t).
  - exists rest. cbn [w_subs set_subs]. rewrite !gems_cons. cbn [h_gems owns app].
    by apply (gems_insert _ _ s).
Qed.

Lemma apart_new w s h hs :
  apart w (h :: hs) -> TpInstance s = ∅ ->
  apart (set_subs (w_subs w ++ [s]) w) (owns (length (w_subs w)) s :: hs).
Proof.
  intros Ha Hs.
  assert (forall b t, (b, t) ∈ owned hs -> w_subs w !! b = Some t) as Hold.
  { intros b t Hin. apply (ap_subs _ _ Ha). unfold owned. cbn. destruct (h_sub h); [by right|done]. }
  apply (apart_sub w _ _ _ Ha); [apply Ha|done| | |].
  - intros b t. cbn. intros [[= -> ->]|Hin]%elem_of_cons.
    + by rewrite lookup_app_r, Nat.sub_diag by lia.
    + apply lookup_app_l_Some. by apply Hold.
  - cbn. apply NoDup_cons. split.
    + intros ([b t] & Hb & Hin)%list_elem_of_fmap. cbn in Hb. subst. apply Hold, lookup_lt_Some in Hin. lia.
    + pose proof (ap_owners _ _ Ha) as Hn. unfold owned in Hn. cbn in Hn. destruct (h_sub h); [|done].
      by apply NoDup_cons in Hn as [_ Hn].
  - exists (h_gems h). cbn [w_subs set_subs]. rewrite !gems_cons. cbn [h_gems owns app].
    unfold gems_of. rewrite bind_app. cbn. unfold sub_gems. rewrite Hs. cbn.
    by rewrite !app_nil_r, Permutation_app_comm.
Qed.

Lemma apart_create w m tpID name j h hs inst err st :
  apart w (h :: hs) -> tp_CreateTechProfileInstance m tpID name j (w_tp w) = (inr (inst, err), st) ->
  apart (set_tp st w)
    ({| h_sub := h_sub h; h_gems := match inst with Some i => pair j <$> gem_ids i | None => [] end |} :: hs).
Proof.
  intros Ha He. destruct (gems_create _ _ _ _ _ _ _ (ap_ok _ _ Ha) He) as (Hok & Hu & Hi).
  assert (apart (set_tp st w) ({| h_sub := h_sub h; h_gems := [] |} :: hs)) as Hd.
  { apply (apart_sub w _ _ _ Ha); [done|done|apply Ha|apply Ha|]. exists (h_gems h). cbn [w_subs set_tp].
    by rewrite !gems_cons, Permutation_app_comm. }
  destruct inst as [i|]; [|done]. destruct (Hi i eq_refl) as [Hn Hf]. destruct Hd as [D1 D2 D3 D4 D5].
  split; [done|exact D2|exact D3| |].
  - rewrite gems_cons in *. cbn [h_gems app] in *. apply NoDup_app. split_and!; [by apply NoDup_fmap; [apply _|]| |done].
    intros x (id & -> & Hin)%list_elem_of_fmap Hx. destruct (Hf id Hin) as [Hnot _]. apply Hnot, (ap_used _ _ Ha).
    rewrite gems_cons. apply elem_of_app. by right.
  - intros pon id. rewrite gems_cons in *. cbn [h_gems] in *. intros [Hin|Hin]%elem_of_app; [|apply D5; by rewrite gems_cons].
    apply list_elem_of_fmap in Hin as (id' & [= -> ->] & Hin). by apply Hf.
Qed.

Lemma apart_exec {X} (o : Op X) w x w' h K hs :
  apart w (h :: hs) -> op_holds o h K -> exec o w = Done x w' ->
  exists h', K x h' /\ apart w' (h' :: hs).
Proof.
  intros Ha Ho He. destruct o;
    try (exists h; cbv [exec with_mgr wg_add] in He;
         repeat match type of He with
         | context [match ?e with _ => _ end] => destruct e
         end; try discriminate; injection He as <- <-;
         split; [by apply Ho|by eapply apart_same]).
  - cbv [exec] in He. injection He as <- <-. exists h. split; [apply Ho, told_status|by eapply apart_same].
  - cbv [exec] in He. injection He as <- <-. exists h. split; [|by eapply apart_same].
    apply Ho. intros Hn. by apply Z.mod_pos_bound.
  - unfold exec, with_mgr in He. repeat case_match; try done. injection He as <- <-.
    exists h. split; [apply Ho, u64_range|by eapply apart_same].
  - unfold exec, with_mgr in He. destruct (w_rsrMgr w !! mgr) as [[m|]|]; try done.
    destruct (gems_get mgr intf t n _ (ap_ok _ _ Ha)) as [Hok Hu].
    destruct (tp_GetResourceID mgr intf t n (w_tp w)) as [y st]. injection He as <- <-. exists h. split; [apply Ho|].
    apply (apart_sub w _ _ _ Ha); [done|done|apply Ha|apply Ha|]. exists []. by rewrite app_nil_r.
  - unfold exec, with_mgr in He. destruct (w_rsrMgr w !! mgr) as [[m|]|]; try done.
    destruct (tp_CreateTechProfileInstance mgr tpID uniPortName intf (w_tp w)) as [[e|[inst err]] st] eqn:E; [done|].
    injection He as <- <-. eexists. split; [apply Ho|by eapply apart_create].
  - cbv [exec] in He. injection He as <- <-. destruct Ho as [Hs HK]. eexists. split; [apply HK|by eapply apart_new].
  - unfold exec in He. destruct (w_subs w !! a) as [s|] eqn:Hs; [|done]. injection He as <- <-.
    exists h. split; [|done]. apply Ho. destruct (h_sub h) as [[a' s']|] eqn:Hh; [|done]. intros <-.
    pose proof (ap_subs _ _ Ha a s') as Hs'. unfold owned in Hs'. cbn in Hs'. rewrite Hh in Hs'.
    specialize (Hs' ltac:(left)). congruence.
  - cbv [exec] in He. injection He as <- <-. destruct Ho as (s0 & rest & Hh & Hr & HK). eexists. split; [exact HK|].
    destruct h as [hs0 gems]. cbn in *. subst. by eapply apart_store.
Qed.

#[export] Instance holding_sound : Sound holding (fun _ => True) apart.
Proof.
  split.
  - apply apart_perm.
  - intros w h hs X o K x w' Ha Ho He _. by eapply apart_exec.
  - intros w h hc hk hs Ha [-> ->]. apply (apart_sub w _ _ _ Ha); [apply Ha|done|apply Ha|apply Ha|].
    exists []. by rewrite app_nil_r.
  - done.
Qed.

End sound.

(** ** The instances *)

(** In every execution, the gem ports of all the profile instances of all the
    subscribers are distinct on each PON, when the profile managers keep their
    promise. *)
Theorem gem_ports_apart `{FreshGemPorts} (cfg : OpenOltScaleTesterConfig) (di : DeviceInfo) (w : World)
    (pool : list (prog unit)) (w' : World) :
  gems_ok (w_tp w) -> w_subs w = [] ->
  steps (Running [provisionONUs cfg di] w) (Running pool w') -> NoDup (w_subs w' ≫= sub_gems).
Proof.
  intros Hok Hw Hs.
  destruct (judged_inv (inv := apart) [provisionONUs cfg di] w [nothing] pool w') as [hs Ha]; try done.
  - constructor; [apply holding_provisionONUs|constructor].
  - split; [done|by intros a s ?%not_elem_of_nil|constructor|unfold gems_of; rewrite Hw; constructor|].
    intros pon id. unfold gems_of. rewrite Hw. by intros ?%not_elem_of_nil.
  - pose proof (ap_nodup _ _ Ha) as Hn. by apply NoDup_app in Hn as [Hn _].
Qed.
