(* ===== verification/TechInstance.v ===== *)
(** * Instances of technology profiles (voltha-lib-go's techprofile)

    [CreateTechProfileInstance] of tech_profile.go, for the technologies other
    than EPON, on the pools of IdPool: the template is read, an alloc id and gem
    ports are taken, the instance is cached and recorded in a store.  It is one
    step of the program: two subscribers of an ONU that make their first instance
    at the same time are not interleaved.  With it the library implements the
    interface of Identity, and a second one, on gem ports. *)
From S2P Require Import Prelude Utils Proto Config Runtime Judgement Samples TechProfile ResourceManager WorkflowUtils AttWorkflow DtWorkflow TtWorkflow WorkflowManager SubscriberManager OnuManager OltManager Typing Identity IdPool GemPorts.
From Stdlib Require Import Ascii.

(** ** The names of UNI ports *)

(** The rest of a string after a literal; after one or more bytes of a class, as
    many as there are. *)
Definition after (lit s : string) : option string :=
  if String.prefix lit s
  then Some (String.substring (String.length lit) (String.length s - String.length lit) s)
  else None.

Fixpoint skip_all (P : ascii -> bool) (s : string) : string :=
  match s with
  | EmptyString => EmptyString
  | String c s' => if P c then skip_all P s' else s
  end.

Definition after_some (P : ascii -> bool) (s : string) : option string :=
  match s with
  | String c s' => if P c then Some (skip_all P s') else None
  | EmptyString => None
  end.

(** [[a-z0-9\-]]. *)
Definition device_byte (c : ascii) : bool :=
  let n := Z.of_N (N_of_ascii c) in
  is_digit c || ((97 <=? n) && (n <=? 122)) || (n =? 45).

Definition at_end (s : string) : bool := bool_decide (s = "").

(** [uniPortNameFormatRegexp.Match]:
    [^olt-{[a-z0-9\-]+}/pon-{[0-9]+}/onu-{[0-9]+}/uni-{[0-9]+}$]. *)
Definition uniPortNameFormat (s : string) : bool :=
  match
    s ← after "olt-{" s; s ← after_some device_byte s;
    s ← after "}/pon-{" s; s ← after_some is_digit s;
    s ← after "}/onu-{" s; s ← after_some is_digit s;
    s ← after "}/uni-{" s; s ← after_some is_digit s;
    after "}" s
  with
  | Some s => at_end s
  | None => false
  end.

(** The regular expression [/uni-{[0-9]+}$] of [getSingleInstanceTp], at the
    beginning of a string. *)
Definition uni_suffix (s : string) : bool :=
  match s ← after "/uni-{" s; s ← after_some is_digit s; after "}" s with
  | Some s => at_end s
  | None => false
  end.

(** The first part of [Split(tpPathSuffix, 2)]. *)
Fixpoint cut_uni (s : string) : string :=
  if uni_suffix s then EmptyString
  else match s with
       | EmptyString => EmptyString
       | String c s' => String c (cut_uni s')
       end.

(** ** Templates *)

Record InstanceControl := { ic_Onu : string; ic_Uni : string }.

(** The fields that the code copies or tests; the pointers may be nil. *)
Record TechProfile := {
  tpl_NumGemPorts : Z;
  tpl_InstanceControl : option InstanceControl;
  tpl_UsScheduler : option SchedulerAttributes;
  tpl_DsScheduler : option SchedulerAttributes;
  tpl_UpstreamGemPortAttributeList : list GemPortAttributes;
  tpl_DownstreamGemPortAttributeList : list GemPortAttributes;
}.

Definition default_scheduler (d : Direction) : SchedulerAttributes :=
  {| sa_Direction := d; sa_AllocId := 0; sa_AdditionalBw := AdditionalBW_BestEffort;
     sa_Priority := 0; sa_Weight := 0; sa_QSchedPolicy := SchedulingPolicy_Hybrid |}.

Definition default_gem (isMulticast : string) : GemPortAttributes :=
  {| gp_GemportId := 0; gp_PbitMap := "0b11111111"; gp_AesEncryption := "True";
     gp_SchedulingPolicy := SchedulingPolicy_WRR; gp_PriorityQ := 0; gp_Weight := 0;
     gp_DiscardPolicy := DiscardPolicy_TailDrop; gp_IsMulticast := isMulticast |}.

(** One gem port for the only p-bit map of the library's configuration. *)
Definition getDefaultTechProfile : TechProfile :=
  {| tpl_NumGemPorts := 1;
     tpl_InstanceControl := Some {| ic_Onu := "multi-instance"; ic_Uni := "single-instance" |};
     tpl_UsScheduler := Some (default_scheduler Direction_UPSTREAM);
     tpl_DsScheduler := Some (default_scheduler Direction_DOWNSTREAM);
     tpl_UpstreamGemPortAttributeList := [default_gem ""];
     tpl_DownstreamGemPortAttributeList := [default_gem "False"] |}.

Definition validateInstanceControlAttr (instCtl : InstanceControl) : option GoError :=
  if negb (bool_decide (ic_Onu instCtl = "single-instance"))
     && negb (bool_decide (ic_Onu instCtl = "multi-instance"))
  then Some (ErrorsNew "invalid-onu-instance-ctl-attr")
  else if negb (bool_decide (ic_Uni instCtl = "single-instance"))
          && negb (bool_decide (ic_Uni instCtl = "multi-instance"))
  then Some (ErrorsNew "invalid-uni-instance-ctl-attr")
  else if bool_decide (ic_Uni instCtl = "multi-instance")
  then Some (ErrorsNew "uni-multi-instance-tp-not-supported")
  else None.

(** ** The state of the library *)

Record ResourceInstance := {
  ri_TpId : Z;
  ri_SubscriberIdentifier : string;
  ri_AllocId : Z;
  ri_GemportIds : list Z;
}.

(** The pools; the caches of each manager, given by the index of the resource
    manager that has it; the instances recorded in the store.  The calls of all
    the stores are counted together, in [ls_kv]. *)
Record LibState := {
  ls_kv : KVStore;
  ls_tpMap : gmap (nat * Z) TechProfile;
  ls_tpInstanceMap : gmap (nat * string) TechProfileInstance;
  ls_resources : gmap string ResourceInstance;
}.

Definition set_kv (kv : KVStore) (st : LibState) : LibState :=
  {| ls_kv := kv; ls_tpMap := ls_tpMap st; ls_tpInstanceMap := ls_tpInstanceMap st;
     ls_resources := ls_resources st |}.
Definition set_tpMap (m : gmap (nat * Z) TechProfile) (st : LibState) : LibState :=
  {| ls_kv := ls_kv st; ls_tpMap := m; ls_tpInstanceMap := ls_tpInstanceMap st;
     ls_resources := ls_resources st |}.
Definition set_tpInstanceMap (m : gmap (nat * string) TechProfileInstance) (st : LibState) : LibState :=
  {| ls_kv := ls_kv st; ls_tpMap := ls_tpMap st; ls_tpInstanceMap := m; ls_resources := ls_resources st |}.
Definition set_resources (m : gmap string ResourceInstance) (st : LibState) : LibState :=
  {| ls_kv := ls_kv st; ls_tpMap := ls_tpMap st; ls_tpInstanceMap := ls_tpInstanceMap st; ls_resources := m |}.

(** Computations of the library, which may panic. *)
Definition lib (A : Type) : Type := LibState -> (PanicReason + A) * LibState.

#[export] Instance lib_ret : MRet lib := fun A a st => (inr a, st).

#[export] Instance lib_bind : MBind lib := fun A B f m st =>
  match m st with
  | (inl r, st') => (inl r, st')
  | (inr a, st') => f a st'
  end.

Definition lib_panic {A} (r : PanicReason) : lib A := fun st => (inl r, st).

Definition on_kv {A} (f : KVStore -> A * KVStore) : lib A :=
  fun st => let '(a, kv) := f (ls_kv st) in (inr a, set_kv kv st).

Definition reads {A} (f : LibState -> A) : lib A := fun st => (inr (f st), st).
Definition updates (f : LibState -> LibState) : lib unit := fun st => (inr tt, f st).

(** A pointer that is used; an element of a slice. *)
Definition lib_deref {A} (p : option A) : lib A :=
  match p with Some a => mret a | None => lib_panic NilDereference end.
Definition lib_index {A} (l : list A) (i : nat) : lib A :=
  match l !! i with Some a => mret a | None => lib_panic IndexOutOfRange end.

(** ** Creating an instance *)

Section library.
(** The calls of the stores that fail; the technology; the managers of the pools;
    what a call that reads a template finds and can decode. *)
Variable kv_fault : nat -> option (GoError * bool).
Variable technology : string.
Variable managers : nat -> PoolManager.
Variable templates : nat -> Z -> option TechProfile.

Definition GetTechProfileInstanceKey (tpID : Z) (uniPortName : string) : string :=
  technology +:+ "/" +:+ Itoa tpID +:+ "/" +:+ uniPortName.

(** [PONResourceManager.FreeResourceID]: a pool that is not there is written back
    as a null, which is no pool either. *)
Definition PONRMgr_FreeResourceID (PONRMgr : PoolManager) (IntfID : Z) (t : ResourceType)
    (ReleaseContent : list Z) (st : KVStore) : option GoError * KVStore :=
  match GetPath PONRMgr IntfID t with
  | None => (Some (ErrorsNew "Failed to get path"), st)
  | Some Path =>
      match kv_Get kv_fault Path st with
      | ((_, Some e), st) => (Some e, st)
      | ((None, None), st) =>
          (match kv_fault (kv_calls st) with
           | Some _ => Some (ErrorsNew ("Free resource for " +:+ Path +:+ " failed"))
           | None => None
           end, {| kv_data := kv_data st; kv_calls := S (kv_calls st) |})
      | ((Some Resource, None), st) =>
          let Resource := foldl (fun r Val => (ReleaseID r Val).2) Resource ReleaseContent in
          match kv_Put kv_fault Path Resource st with
          | (Some _, st) => (Some (ErrorsNew ("Free resource for " +:+ Path +:+ " failed")), st)
          | (None, st) => (None, st)
          end
      end
  end.

(** A template is looked for in the cache, then in the store. *)
Definition getTPFromKVStore (m : nat) (tpID : Z) : lib (option TechProfile) :=
  cached ← reads (fun st => ls_tpMap st !! (m, tpID));
  match cached with
  | Some tp => mret (Some tp)
  | None =>
      on_kv (fun kv =>
        (match kv_fault (kv_calls kv) with
         | Some _ => None
         | None => templates (kv_calls kv) tpID
         end, {| kv_data := kv_data kv; kv_calls := S (kv_calls kv) |}))
  end.

(** The template that is used: the one found, if its control attributes are
    valid. *)
Definition choose_template (tp : option TechProfile) : lib TechProfile :=
  match tp with
  | Some tp =>
      ic ← lib_deref (tpl_InstanceControl tp);
      match validateInstanceControlAttr ic with
      | Some _ => mret getDefaultTechProfile
      | None => mret tp
      end
  | None => mret getDefaultTechProfile
  end.

(** Another instance of the ONU for the same profile: the one with the lowest UNI.
    The part before the UNI is the format of a [Sprintf]; the names of the program and
    of the technologies have no percent sign. *)
Definition getSingleInstanceTp (m : nat) (tpPathSuffix : string) (st : LibState) : option TechProfileInstance :=
  head (omap (fun i => ls_tpInstanceMap st !! (m, cut_uni tpPathSuffix +:+ "/uni-{" +:+ Itoa i +:+ "}"))
    (seqZ 0 16)).

Definition take_alloc_id (m : nat) (intfID : Z) : lib (list Z * option GoError) :=
  on_kv (TechProfileMgr_GetResourceID kv_fault (managers m) intfID ALLOC_ID 1).

Definition choose_alloc_id (m : nat) (intfID : Z) (tp : TechProfile) (tpInstPathSuffix : string)
    : lib (list Z * option GoError) :=
  ic ← lib_deref (tpl_InstanceControl tp);
  if bool_decide (ic_Onu ic = "multi-instance") then take_alloc_id m intfID
  else
    tpInst ← reads (getSingleInstanceTp m tpInstPathSuffix);
    match tpInst with
    | None => take_alloc_id m intfID
    | Some tpInst => s ← lib_deref (UsScheduler tpInst); mret ([sa_AllocId s], None)
    end.

(** The attributes of a gem port, without the mark of a multicast one. *)
Definition unicast_gem (GemportId : Z) (a : GemPortAttributes) : GemPortAttributes :=
  {| gp_GemportId := GemportId; gp_PbitMap := gp_PbitMap a; gp_AesEncryption := gp_AesEncryption a;
     gp_SchedulingPolicy := gp_SchedulingPolicy a; gp_PriorityQ := gp_PriorityQ a;
     gp_Weight := gp_Weight a; gp_DiscardPolicy := gp_DiscardPolicy a; gp_IsMulticast := "" |}.

Definition multicast_gem (a : GemPortAttributes) : GemPortAttributes :=
  {| gp_GemportId := 0; gp_PbitMap := gp_PbitMap a; gp_AesEncryption := gp_AesEncryption a;
     gp_SchedulingPolicy := gp_SchedulingPolicy a; gp_PriorityQ := gp_PriorityQ a;
     gp_Weight := gp_Weight a; gp_DiscardPolicy := gp_DiscardPolicy a;
     gp_IsMulticast := gp_IsMulticast a |}.

(** [for index := 0; index < NumGemPorts; index++ ...]: the [index]-th id with the
    [index]-th attributes. *)
Definition number_gems (n : nat) (gemPorts : list Z) (attrs : list GemPortAttributes)
    : lib (list GemPortAttributes) :=
  mapM (fun index => id ← lib_index gemPorts index; a ← lib_index attrs index; mret (unicast_gem id a))
    (seq 0 n).

Definition scheduler_of (AllocId : Z) (s : SchedulerAttributes) : SchedulerAttributes :=
  {| sa_Direction := sa_Direction s; sa_AllocId := AllocId; sa_AdditionalBw := sa_AdditionalBw s;
     sa_Priority := sa_Priority s; sa_Weight := sa_Weight s; sa_QSchedPolicy := sa_QSchedPolicy s |}.

(** [None] is a nil instance. *)
Definition allocateTPInstance (m : nat) (uniPortName : string) (tp : TechProfile) (intfID : Z)
    (tpInstPathSuffix : string) : lib (option TechProfileInstance) :=
  '(tcontIDs, err) ← choose_alloc_id m intfID tp tpInstPathSuffix;
  match err with
  | Some _ => mret None
  | None =>
      '(gemPorts, err) ← on_kv (TechProfileMgr_GetResourceID kv_fault (managers m) intfID GEMPORT_ID
                                  (tpl_NumGemPorts tp));
      match err with
      | Some _ => mret None
      | None =>
          let n := Z.to_nat (tpl_NumGemPorts tp) in
          usGemPortAttributeList ← number_gems n gemPorts (tpl_UpstreamGemPortAttributeList tp);
          let down := tpl_DownstreamGemPortAttributeList tp in
          let dsMulticast := multicast_gem <$> filter (fun a => isMulticastGem (gp_IsMulticast a) = true) down in
          let dsUnicast := filter (fun a => isMulticastGem (gp_IsMulticast a) = false) down in
          dsGemPortAttributeList ←
            (match dsUnicast with [] => mret [] | _ => number_gems n gemPorts dsUnicast end);
          AllocId ← lib_index tcontIDs 0;
          us ← lib_deref (tpl_UsScheduler tp);
          ds ← lib_deref (tpl_DsScheduler tp);
          mret (Some {| UsScheduler := Some (scheduler_of AllocId us);
                        DsScheduler := Some (scheduler_of AllocId ds);
                        UpstreamGemPortAttributeList := usGemPortAttributeList;
                        DownstreamGemPortAttributeList := dsGemPortAttributeList ++ dsMulticast |})
      end
  end.

(** The resource instance has no field that cannot be encoded; it is kept apart
    from the pools by the prefix of its store. *)
Definition addResourceInstanceToKVStore (tpID : Z) (uniPortName : string) (resInst : ResourceInstance)
    : lib (option GoError) := fun st =>
  let kv := ls_kv st in
  let st' := set_kv {| kv_data := kv_data kv; kv_calls := S (kv_calls kv) |} st in
  let put := set_resources (<[GetTechProfileInstanceKey tpID uniPortName := resInst]> (ls_resources st)) st' in
  match kv_fault (kv_calls kv) with
  | Some (e, made) => (inr (Some e), if made : bool then put else st')
  | None => (inr None, put)
  end.

(** After a failed write the list of errors has two elements, nil or not: the
    process is always ended. *)
Definition CreateTechProfileInstance (m : nat) (tpID : Z) (uniPortName : string) (intfID : Z)
    : lib (option TechProfileInstance * option GoError) :=
  if negb (uniPortNameFormat uniPortName)
  then mret (None, Some (ErrorsNew ("uni-port-name-not-confirming-to-format-" +:+ uniPortName)))
  else
    let tpInstancePathSuffix := GetTechProfileInstanceKey tpID uniPortName in
    found ← getTPFromKVStore m tpID;
    tp ← choose_template found;
    _ ← updates (fun st => set_tpMap (<[(m, tpID) := tp]> (ls_tpMap st)) st);
    tpInstance ← allocateTPInstance m uniPortName tp intfID tpInstancePathSuffix;
    match tpInstance with
    | None => mret (None, Some (ErrorsNew "tp-instance-allocation-failed"))
    | Some inst =>
        _ ← updates (fun st => set_tpInstanceMap (<[(m, tpInstancePathSuffix) := inst]> (ls_tpInstanceMap st)) st);
        us ← lib_deref (UsScheduler inst);
        let resInst := {| ri_TpId := tpID; ri_SubscriberIdentifier := uniPortName;
                          ri_AllocId := sa_AllocId us;
                          ri_GemportIds := gp_GemportId <$> UpstreamGemPortAttributeList inst |} in
        err ← addResourceInstanceToKVStore tpID uniPortName resInst;
        match err with
        | Some err =>
            e1 ← on_kv (PONRMgr_FreeResourceID (managers m) intfID ALLOC_ID [ri_AllocId resInst]);
            e2 ← on_kv (PONRMgr_FreeResourceID (managers m) intfID GEMPORT_ID (ri_GemportIds resInst));
            let errList := [e1; e2] in
            if (0 <? Z.of_nat (length errList)) then lib_panic LogFatal else mret (None, Some err)
        | None => mret (Some inst, None)
        end
    end.

End library.

Example name_ok : uniPortNameFormat (uniPortName 3 127 15) = true.
Proof. vm_compute. reflexivity. Qed.
Example name_cut : cut_uni ("XGS-PON/64/" +:+ uniPortName 3 127 15) = "XGS-PON/64/olt-{1}/pon-{3}/onu-{127}".
Proof. vm_compute. reflexivity. Qed.

(** ** Lemmas: computations of the library *)

(** A computation that keeps a preorder on the states; one whose value satisfies
    [Q], with the state it leaves, when it does not panic. *)
Definition respects {A} (R : LibState -> LibState -> Prop) (m : lib A) : Prop :=
  forall st, R st (m st).2.

Definition returns {A} (m : lib A) (st : LibState) (Q : A -> LibState -> Prop) : Prop :=
  match m st with (inr a, st') => Q a st' | (inl _, _) => True end.

Lemma returns_ret {A} (a : A) st (Q : A -> LibState -> Prop) : Q a st -> returns (mret a) st Q.
Proof. done. Qed.

Lemma returns_bind {A B} (m : lib A) (f : A -> lib B) st (Q : B -> LibState -> Prop) :
  returns m st (fun a st' => returns (f a) st' Q) -> returns (m ≫= f) st Q.
Proof. unfold returns, mbind, lib_bind. by destruct (m st) as [[r|a] st']. Qed.

Lemma returns_any {A} (m : lib A) st : returns m st (fun _ _ => True).
Proof. unfold returns. by destruct (m st) as [[r|a] st']. Qed.

Lemma returns_assoc {A B C} (m : lib A) (f : A -> lib B) (g : B -> lib C) st (Q : C -> LibState -> Prop) :
  returns ((m ≫= f) ≫= g) st Q -> returns (m ≫= fun a => f a ≫= g) st Q.
Proof. unfold returns, mbind, lib_bind. by destruct (m st) as [[r|a] st']. Qed.

Lemma returns_mono {A} (m : lib A) st (Q Q' : A -> LibState -> Prop) :
  returns m st Q -> (forall a st', Q a st' -> Q' a st') -> returns m st Q'.
Proof. unfold returns. intros Hm HQ. destruct (m st) as [[r|a] st']; auto. Qed.

Lemma returns_deref {A} (p : option A) st (Q : A -> LibState -> Prop) :
  (forall a, p = Some a -> Q a st) -> returns (lib_deref p) st Q.
Proof. unfold returns. destruct p as [a|]; [|done]. intros HQ. by apply HQ. Qed.

Lemma returns_index {A} (l : list A) i st (Q : A -> LibState -> Prop) :
  (forall a, l !! i = Some a -> Q a st) -> returns (lib_index l i) st Q.
Proof. unfold returns, lib_index. destruct (l !! i) as [a|]; [|done]. intros HQ. by apply HQ. Qed.

Section respects.
Context (R : LibState -> LibState -> Prop) `{!PreOrder R}.

Lemma respects_ret {A} (a : A) : respects R (mret a).
Proof. intros st. reflexivity. Qed.

Lemma respects_bind {A B} (m : lib A) (f : A -> lib B) :
  respects R m -> (forall a, respects R (f a)) -> respects R (m ≫= f).
Proof.
  intros Hm Hf st. unfold mbind, lib_bind. specialize (Hm st). destruct (m st) as [[r|a] st']; [done|].
  etrans; [exact Hm|apply Hf].
Qed.

Lemma respects_panic {A} r : respects R (lib_panic (A := A) r).
Proof. intros st. reflexivity. Qed.

Lemma respects_deref {A} (p : option A) : respects R (lib_deref p).
Proof. intros st. by destruct p. Qed.

Lemma respects_index {A} (l : list A) i : respects R (lib_index l i).
Proof. intros st. unfold lib_index. by destruct (l !! i). Qed.

Lemma respects_reads {A} (f : LibState -> A) : respects R (reads f).
Proof. intros st. reflexivity. Qed.

Lemma respects_number_gems n ids attrs : respects R (number_gems n ids attrs).
Proof.
  unfold number_gems. induction (seq 0 n) as [|i l IH]; [apply respects_ret|]. cbn [mapM].
  repeat first [apply respects_bind|apply respects_index|apply respects_ret|exact IH|intros ?].
Qed.

End respects.

(** Takes a computation apart. *)
Ltac respecting :=
  repeat match goal with
  | |- forall _, _ => intro
  | |- respects _ (_ ≫= _) => apply respects_bind; [apply _|..]
  | |- respects _ (mret _) => apply respects_ret; apply _
  | |- respects _ (lib_panic _) => apply respects_panic; apply _
  | |- respects _ (lib_deref _) => apply respects_deref; apply _
  | |- respects _ (lib_index _ _) => apply respects_index; apply _
  | |- respects _ (reads _) => apply respects_reads; apply _
  | |- respects _ (number_gems _ _ _) => apply respects_number_gems; apply _
  | |- respects _ (match ?x with _ => _ end) => destruct x
  end.

Lemma returns_respects {A} R (m : lib A) st (Q : A -> LibState -> Prop) :
  respects R m -> (forall a st', R st st' -> Q a st') -> returns m st Q.
Proof. unfold respects, returns. intros Hm HQ. specialize (Hm st). destruct (m st) as [[r|a] st']; [done|]. by apply HQ. Qed.

(** The ids in order, each with attributes of the list. *)
Lemma returns_number_gems n ids attrs st :
  returns (number_gems n ids attrs) st
    (fun l st' => st' = st /\ gp_GemportId <$> l = take n ids /\ (n <= length ids)%nat
       /\ (fun g => unicast_gem 0 g) <$> l = (fun g => unicast_gem 0 g) <$> take n attrs).
Proof.
  unfold number_gems.
  assert (forall l k, returns
    (mapM (fun index => id ← lib_index ids index; a ← lib_index attrs index; mret (unicast_gem id a)) (seq k l)) st
    (fun r st' => st' = st /\ gp_GemportId <$> r = take l (drop k ids) /\ (l <= length (drop k ids))%nat
       /\ (fun g => unicast_gem 0 g) <$> r = (fun g => unicast_gem 0 g) <$> take l (drop k attrs))) as Hgo.
  2: { specialize (Hgo n 0%nat). by rewrite !drop_0 in Hgo. }
  induction l as [|l IH]; intros k; cbn [seq mapM].
  { apply returns_ret. split_and!; [done|by rewrite take_0|lia|by rewrite take_0]. }
  apply returns_bind, returns_bind, returns_index. intros id Hid. apply returns_bind, returns_index.
  intros a Ha. apply returns_ret. apply returns_bind. eapply returns_mono; [apply (IH (S k))|].
  intros r st' (-> & Hr & Hl & Hattr). apply returns_ret.
  rewrite (drop_S ids id k Hid), (drop_S attrs a k Ha). csimpl. split_and!; [done|by rewrite Hr|lia|by rewrite Hattr].
Qed.

(** *** Paths *)

Lemma pool_name_app t t' n n' s s' :
  pool_name t = Some n -> pool_name t' = Some n' -> n +:+ s = n' +:+ s' -> t = t'.
Proof. destruct t, t'; intros [= <-] [= <-]; done. Qed.

Lemma GetPath_type m j t j' t' P : GetPath m j t = Some P -> GetPath m j' t' = Some P -> t = t'.
Proof.
  unfold GetPath. destruct (pool_name t) as [n|] eqn:E; [|done]. destruct (pool_name t') as [n'|] eqn:E'; [|done].
  intros [= <-] [= Heq]. repeat (apply (inj (String.append _)) in Heq). symmetry in Heq.
  by eapply pool_name_app.
Qed.

(** ** Lemmas: what creating an instance does to the pools *)

Section effects.
Variable kv_fault : nat -> option (GoError * bool).
Variable technology : string.
Variable managers : nat -> PoolManager.
Variable templates : nat -> Z -> option TechProfile.

(** The managers keep the pools of a PON at the same place: they are of one
    device and technology. *)
Hypothesis same_pools : forall m m' j t, GetPath (managers m) j t = GetPath (managers m') j t.

Lemma paths_apart m j t m' j' t' P :
  GetPath (managers m) j t = Some P -> GetPath (managers m') j' t' = Some P -> t = t'.
Proof. rewrite (same_pools m m'). apply GetPath_type. Qed.

(** The pools of a type are left alone. *)
Definition kept (t : ResourceType) (kv kv' : KVStore) : Prop :=
  forall m j P, GetPath (managers m) j t = Some P -> kv_data kv' !! P = kv_data kv !! P.

(** Ids in use stay in use. *)
Definition taken (kv kv' : KVStore) : Prop :=
  forall P r, kv_data kv !! P = Some r -> exists r', kv_data kv' !! P = Some r' /\ forall id, used r id -> used r' id.

#[local] Instance kept_preorder t : PreOrder (kept t).
Proof.
  split; [by intros kv m j P HP|]. intros kv1 kv2 kv3 H1 H2 m j P HP. by rewrite (H2 m j P HP), (H1 m j P HP).
Qed.

#[local] Instance taken_preorder : PreOrder taken.
Proof.
  split; [intros kv P r Hr; by exists r|]. intros kv1 kv2 kv3 H1 H2 P r Hr.
  destruct (H1 P r Hr) as (r1 & Hr1 & Hu1). destruct (H2 P r1 Hr1) as (r2 & Hr2 & Hu2). exists r2. auto.
Qed.

Lemma kept_same t kv kv' : kv_data kv' = kv_data kv -> kept t kv kv'.
Proof. intros E m j P _. by rewrite E. Qed.

Lemma taken_same kv kv' : kv_data kv' = kv_data kv -> taken kv kv'.
Proof. intros E P r Hr. exists r. by rewrite E. Qed.

(** A request for ids, in one of its outcomes. *)
Lemma GetResourceID_outcome m j t n kv :
  store_ok kv ->
  let '((ids, err), kv') := TechProfileMgr_GetResourceID kv_fault (managers m) j t n kv in
  store_ok kv' /\ taken kv kv' /\ (forall t', t' <> t -> kept t' kv kv')
  /\ (err = None -> 1 <= n /\ length ids = ids_wanted t (Z.to_nat n) /\ exists P r r',
        GetPath (managers m) j t = Some P /\ kv_data kv !! P = Some r /\ kv_data kv' !! P = Some r'
        /\ takes r ids r').
Proof.
  intros Hok. destruct (PONRMgr_GetResourceID kv_fault (managers m) j t n kv) as [[ids err] kv'] eqn:Hg.
  pose proof Hg as Hx. apply GetResourceID_effect in Hx; [|done].
  assert (store_ok kv' /\ taken kv kv' /\ (forall t', t' <> t -> kept t' kv kv')
    /\ (err = None -> 1 <= n /\ length ids = ids_wanted t (Z.to_nat n) /\ exists P r r',
        GetPath (managers m) j t = Some P /\ kv_data kv !! P = Some r /\ kv_data kv' !! P = Some r'
        /\ takes r ids r')) as Hgo.
  { destruct Hx as [[Hd He]|(P & r & l & r' & HP & Hr & Ht & [Hd|[Hd He]] & Hl)].
    - unfold store_ok. rewrite Hd. split_and!; [done|by apply taken_same|intros; by apply kept_same|done].
    - unfold store_ok. rewrite Hd. split_and!.
      + apply map_Forall_insert_2; [apply Ht|done].
      + intros P0 r0 Hr0. rewrite Hd. destruct (decide (P = P0)) as [<-|Hne].
        * exists r'. rewrite lookup_insert_eq. split; [done|]. intros id Hid. apply (tk_used _ _ _ Ht).
          right. by replace r with r0 by congruence.
        * exists r0. by rewrite lookup_insert_ne.
      + intros t' Hne m' j' P' HP'. rewrite Hd, lookup_insert_ne; [done|]. intros ->.
        by destruct Hne; eapply paths_apart.
      + intros He. destruct (Hl He) as (-> & Hn & Hlen). split_and!; [done..|]. exists P, r, r'.
        by rewrite lookup_insert_eq.
    - unfold store_ok. rewrite Hd. split_and!; [done|by apply taken_same|intros; by apply kept_same|done]. }
  destruct t; cbn [TechProfileMgr_GetResourceID]; rewrite ?Hg;
    try (destruct err; [|done]; by destruct Hgo as (? & ? & ? & _)).
  all: by split_and!; [|apply taken_same| |].
Qed.

(** What every computation does to the pools: they stay pools, and those of ONU
    ids are left alone. *)
Definition spares (st st' : LibState) : Prop :=
  store_ok (ls_kv st) -> store_ok (ls_kv st') /\ kept ONU_ID (ls_kv st) (ls_kv st').

#[local] Instance spares_preorder : PreOrder spares.
Proof.
  split; [by intros st Hok|]. intros s1 s2 s3 H1 H2 Hok. destruct (H1 Hok) as [Hok2 Hk1].
  destruct (H2 Hok2) as [Hok3 Hk2]. split; [done|by etrans].
Qed.

Lemma spares_on_kv {A} (f : KVStore -> A * KVStore) :
  (forall kv, store_ok kv -> store_ok (f kv).2 /\ kept ONU_ID kv (f kv).2) -> respects spares (on_kv f).
Proof. intros Hf st Hok. unfold on_kv. specialize (Hf (ls_kv st) Hok). by destruct (f (ls_kv st)). Qed.

Lemma spares_get m j t n : t <> ONU_ID -> respects spares (on_kv (TechProfileMgr_GetResourceID kv_fault (managers m) j t n)).
Proof.
  intros Ht. apply spares_on_kv. intros kv Hok. pose proof (GetResourceID_outcome m j t n kv Hok) as Ho.
  destruct (TechProfileMgr_GetResourceID _ _ _ _ _ _) as [[ids err] kv'].
  destruct Ho as (Hok' & _ & Hk & _). split; [done|]. by apply Hk.
Qed.

Lemma ReleaseIDs_ok r ids : pool_ok r -> pool_ok (foldl (fun r Val => (ReleaseID r Val).2) r ids).
Proof.
  revert r. induction ids as [|id ids IH]; intros r Hr; [done|]. cbn [foldl]. apply IH.
  unfold ReleaseID. case_match; [done|by apply pool_ok_set].
Qed.

Lemma spares_free m j t ids : t <> ONU_ID -> respects spares (on_kv (PONRMgr_FreeResourceID kv_fault (managers m) j t ids)).
Proof.
  intros Ht. apply spares_on_kv. intros kv Hok. unfold PONRMgr_FreeResourceID.
  destruct (GetPath (managers m) j t) as [P|] eqn:HP; [|by split]. unfold kv_Get, kv_Put.
  destruct (kv_fault (kv_calls kv)) as [[e made]|]; [by split|].
  destruct (kv_data kv !! P) as [r|] eqn:Hr; [|by split]. cbn.
  assert (store_ok {| kv_data := <[P := foldl (fun r Val => (ReleaseID r Val).2) r ids]> (kv_data kv);
    kv_calls := S (S (kv_calls kv)) |}) as Hput
    by (apply map_Forall_insert_2; [by apply ReleaseIDs_ok, (Hok P)|done]).
  assert (kept ONU_ID kv {| kv_data := <[P := foldl (fun r Val => (ReleaseID r Val).2) r ids]> (kv_data kv);
    kv_calls := S (S (kv_calls kv)) |}) as Hk.
  { intros m' j' P' HP'. cbn. rewrite lookup_insert_ne; [done|]. intros ->. by destruct Ht; eapply paths_apart. }
  destruct (kv_fault (S (kv_calls kv))) as [[e [|]]|]; by split.
Qed.

Lemma spares_template m tpID : respects spares (getTPFromKVStore kv_fault templates m tpID).
Proof. unfold getTPFromKVStore. respecting. apply spares_on_kv. by intros kv Hok. Qed.

Lemma spares_choose tp : respects spares (choose_template tp).
Proof. unfold choose_template. respecting. Qed.

Lemma spares_alloc m j tp path : respects spares (choose_alloc_id kv_fault managers m j tp path).
Proof. unfold choose_alloc_id, take_alloc_id. respecting; by apply spares_get. Qed.

Lemma spares_allocate m name tp j path :
  respects spares (allocateTPInstance kv_fault managers m name tp j path).
Proof.
  unfold allocateTPInstance. cbv zeta. respecting; [apply spares_alloc|by apply spares_get].
Qed.

Lemma spares_record tpID name r : respects spares (addResourceInstanceToKVStore kv_fault technology tpID name r).
Proof.
  intros st Hok. unfold addResourceInstanceToKVStore.
  destruct (kv_fault _) as [[e [|]]|]; (split; [done|by apply kept_same]).
Qed.

Lemma spares_update f : (forall st, ls_kv (f st) = ls_kv st) -> respects spares (updates f).
Proof. intros Hf st Hok. cbn. by rewrite Hf. Qed.

Lemma spares_create m tpID name j :
  respects spares (CreateTechProfileInstance kv_fault technology managers templates m tpID name j).
Proof.
  unfold CreateTechProfileInstance. cbv zeta.
  respecting; first [apply spares_template|apply spares_choose|by apply spares_update|apply spares_allocate
    |apply spares_record|by apply spares_free].
Qed.

(** Ids that were not in use in the pool of a PON and are now. *)
Definition fresh_ids (t : ResourceType) (m : nat) (j : Z) (ids : list Z) (kv kv' : KVStore) : Prop :=
  NoDup ids /\ exists P r r', GetPath (managers m) j t = Some P /\ kv_data kv !! P = Some r
    /\ kv_data kv' !! P = Some r' /\ forall id, id ∈ ids -> ~ used r id /\ used r' id.

Lemma fresh_ids_kept t m j ids kv0 kv1 kv2 kv3 :
  kept t kv0 kv1 -> fresh_ids t m j ids kv1 kv2 -> kept t kv2 kv3 -> fresh_ids t m j ids kv0 kv3.
Proof.
  intros H1 (Hn & P & r & r' & HP & Hr & Hr' & Hid) H2. split; [done|]. exists P, r, r'.
  by rewrite <-(H1 m j P HP), (H2 m j P HP).
Qed.

(** What holds between the states of a computation that returns. *)
Record advances (st : LibState) (kv' : KVStore) : Prop := {
  ad_ok : store_ok kv';
  ad_taken : taken (ls_kv st) kv';
}.

Lemma returns_get m j t n st Q :
  store_ok (ls_kv st) ->
  (forall ids err kv', advances st kv' -> (forall t', t' <> t -> kept t' (ls_kv st) kv') ->
     (err = None -> 1 <= n /\ length ids = ids_wanted t (Z.to_nat n) /\ fresh_ids t m j ids (ls_kv st) kv') ->
     Q (ids, err) (set_kv kv' st)) ->
  returns (on_kv (TechProfileMgr_GetResourceID kv_fault (managers m) j t n)) st Q.
Proof.
  intros Hok HQ. unfold returns, on_kv. pose proof (GetResourceID_outcome m j t n _ Hok) as Ho.
  destruct (TechProfileMgr_GetResourceID _ _ _ _ _ _) as [[ids err] kv'].
  destruct Ho as (Hok' & Ht & Hk & Hid). apply HQ; [by split|done|]. intros He.
  destruct (Hid He) as (Hn & Hl & P & r & r' & HP & Hr & Hr' & Hx). split_and!; [done..|]. split; [apply Hx|].
  exists P, r, r'. split_and!; [done..|]. intros id Hin. split; [by apply (tk_new _ _ _ Hx)|].
  apply (tk_used _ _ _ Hx). by left.
Qed.

(** The alloc id of a new instance: a fresh one, or for a profile of one instance
    per ONU that of an instance the ONU has already. *)
Definition alloc_id_of (m : nat) (j : Z) (tp : TechProfile) (path : string) (a : Z) (st : LibState)
    (kv' : KVStore) : Prop :=
  match tpl_InstanceControl tp, getSingleInstanceTp m path st with
  | Some ic, Some other =>
      if bool_decide (ic_Onu ic = "multi-instance") then fresh_ids ALLOC_ID m j [a] (ls_kv st) kv'
      else sa_AllocId <$> UsScheduler other = Some a
  | _, _ => fresh_ids ALLOC_ID m j [a] (ls_kv st) kv'
  end.

Lemma returns_alloc m j tp path st :
  store_ok (ls_kv st) ->
  returns (choose_alloc_id kv_fault managers m j tp path) st (fun r st' =>
    exists kv', st' = set_kv kv' st /\ advances st kv' /\ (forall t, t <> ALLOC_ID -> kept t (ls_kv st) kv')
      /\ (r.2 = None -> exists a, r.1 = [a] /\ alloc_id_of m j tp path a st kv')).
Proof.
  intros Hok. apply returns_bind, returns_deref. intros ic Hic.
  assert ((bool_decide (ic_Onu ic = "multi-instance") = true \/ getSingleInstanceTp m path st = None) ->
    returns (take_alloc_id kv_fault managers m j) st (fun r st' =>
    exists kv', st' = set_kv kv' st /\ advances st kv' /\ (forall t, t <> ALLOC_ID -> kept t (ls_kv st) kv')
      /\ (r.2 = None -> exists a, r.1 = [a] /\ alloc_id_of m j tp path a st kv'))) as Htake.
  { intros Hc. apply returns_get; [done|]. intros ids err kv' Ha Hk Hid. exists kv'. split_and!; [done..|].
    cbn [fst snd]. intros He. destruct (Hid He) as (_ & Hl & Hf). destruct ids as [|a [|? ?]]; try done.
    exists a. split; [done|]. unfold alloc_id_of. rewrite Hic.
    destruct Hc as [-> | ->]; [by destruct (getSingleInstanceTp m path st)|done]. }
  destruct (bool_decide (ic_Onu ic = "multi-instance")) eqn:Hm; [by apply Htake; left|].
  apply returns_bind. change (returns (reads ?f) st ?Q) with (Q (f st) st). cbv beta.
  destruct (getSingleInstanceTp m path st) as [other|] eqn:Ho; [|by apply Htake; right].
  apply returns_bind, returns_deref. intros s Hs. apply returns_ret. exists (ls_kv st).
  split_and!; [by destruct st|by split; [|reflexivity]|by intros|]. intros _. exists (sa_AllocId s).
  split; [done|]. unfold alloc_id_of. by rewrite Hic, Ho, Hm, Hs.
Qed.

Lemma alloc_id_kept m j tp path a st kv1 kv2 :
  alloc_id_of m j tp path a st kv1 -> kept ALLOC_ID kv1 kv2 -> alloc_id_of m j tp path a st kv2.
Proof.
  unfold alloc_id_of. intros Ha Hk. repeat case_match; try done; by eapply fresh_ids_kept.
Qed.

(** The attributes of gem ports and schedulers, without their ids. *)
Abbreviation attributes := (fmap (unicast_gem 0)).
Abbreviation unnumbered := (fmap (scheduler_of 0)).

Definition unicast_attrs (tp : TechProfile) : list GemPortAttributes :=
  filter (fun a => isMulticastGem (gp_IsMulticast a) = false) (tpl_DownstreamGemPortAttributeList tp).
Definition multicast_attrs (tp : TechProfile) : list GemPortAttributes :=
  filter (fun a => isMulticastGem (gp_IsMulticast a) = true) (tpl_DownstreamGemPortAttributeList tp).

(** What an instance is made of: the attributes of its template, one alloc id for
    both schedulers, fresh gem ports that upstream and downstream share, and the
    multicast gem ports, which have no id. *)
Record instance_of (m : nat) (j : Z) (tp : TechProfile) (path : string) (inst : TechProfileInstance)
    (st : LibState) (kv' : KVStore) : Prop := {
  io_alloc : exists a, alloc_id_of m j tp path a st kv'
    /\ sa_AllocId <$> UsScheduler inst = Some a /\ sa_AllocId <$> DsScheduler inst = Some a;
  io_scheds : unnumbered (UsScheduler inst) = unnumbered (tpl_UsScheduler tp)
    /\ unnumbered (DsScheduler inst) = unnumbered (tpl_DsScheduler tp);
  io_gems : fresh_ids GEMPORT_ID m j (gem_ids inst) (ls_kv st) kv';
  io_count : Z.of_nat (length (gem_ids inst)) = tpl_NumGemPorts tp;
  io_up : attributes (UpstreamGemPortAttributeList inst)
          = attributes (take (length (gem_ids inst)) (tpl_UpstreamGemPortAttributeList tp));
  io_down : exists unicast,
    DownstreamGemPortAttributeList inst = unicast ++ (multicast_gem <$> multicast_attrs tp)
    /\ attributes unicast = attributes (take (length (gem_ids inst)) (unicast_attrs tp))
    /\ (unicast_attrs tp <> [] -> gp_GemportId <$> unicast = gem_ids inst);
}.

Lemma returns_allocate m name tp j path st :
  store_ok (ls_kv st) ->
  returns (allocateTPInstance kv_fault managers m name tp j path) st (fun o st' =>
    exists kv', st' = set_kv kv' st /\ advances st kv'
      /\ forall inst, o = Some inst -> instance_of m j tp path inst st kv').
Proof.
  intros Hok. apply returns_bind. eapply returns_mono; [by apply returns_alloc|].
  intros [ids err] st1 (kv1 & -> & [Hok1 Ht1] & Hk1 & Ha). destruct err as [e|].
  { apply returns_ret. by exists kv1. }
  destruct (Ha eq_refl) as (a & Ea & Hal). cbn [fst] in Ea. subst ids.
  apply returns_bind, returns_get; [done|]. intros gems err kv2 [Hok2 Ht2] Hk2 Hg. cbn [ls_kv set_kv] in *.
  assert (advances st kv2) as Had by (split; [done|by etrans]).
  destruct err as [e|]. { apply returns_ret. by exists kv2. }
  destruct (Hg eq_refl) as (Hn & Hlen & Hfresh). cbn [ids_wanted] in Hlen.
  apply returns_bind. eapply returns_mono; [apply returns_number_gems|]. intros up st' (-> & Hup & _ & Hupa).
  rewrite <-Hlen, take_ge in Hup by done.
  apply returns_bind. eapply (returns_mono _ _ (fun dn st' => st' = set_kv kv2 (set_kv kv1 st)
    /\ attributes dn = attributes (take (length gems) (unicast_attrs tp))
    /\ (unicast_attrs tp <> [] -> gp_GemportId <$> dn = gems))).
  { unfold unicast_attrs. destruct (filter _ _) as [|u us] eqn:Eu.
    { apply returns_ret. by rewrite take_nil. }
    eapply returns_mono; [apply returns_number_gems|]. intros dn st' (-> & Hd & _ & Hda).
    rewrite <-Hlen, take_ge in Hd by done. by rewrite Hlen. }
  intros dn st' (-> & Hda & Hd).
  apply returns_bind, returns_index. intros a' [= <-].
  apply returns_bind, returns_deref. intros us Hus. apply returns_bind, returns_deref. intros ds Hds.
  apply returns_ret. exists kv2. split_and!; [by destruct st|done|]. intros inst [= <-].
  split; unfold gem_ids; cbn [UsScheduler DsScheduler UpstreamGemPortAttributeList DownstreamGemPortAttributeList].
  - exists a. split_and!; [|done..]. eapply alloc_id_kept; [done|by apply Hk2].
  - by rewrite Hus, Hds.
  - rewrite Hup. eapply fresh_ids_kept; [by apply Hk1|done|reflexivity].
  - rewrite Hup. lia.
  - by rewrite Hup, Hlen.
  - exists dn. by rewrite Hup.
Qed.

(** Only the pools and the cached instances matter. *)
Lemma fresh_ids_ext t m j ids kv0 kv0' kv1 kv1' :
  kv_data kv0' = kv_data kv0 -> kv_data kv1' = kv_data kv1 ->
  fresh_ids t m j ids kv0 kv1 -> fresh_ids t m j ids kv0' kv1'.
Proof. unfold fresh_ids. by intros -> ->. Qed.

Lemma instance_of_ext m j tp path inst st kv st' kv' :
  ls_tpInstanceMap st' = ls_tpInstanceMap st -> kv_data (ls_kv st') = kv_data (ls_kv st) ->
  kv_data kv' = kv_data kv -> instance_of m j tp path inst st kv -> instance_of m j tp path inst st' kv'.
Proof.
  intros Hm Hk Hk' [H1 H2 H3 H4 H5 H6]. split; try done; [|by eapply fresh_ids_ext].
  destruct H1 as (a & Ha & Hs). exists a. split; [|done]. revert Ha.
  unfold alloc_id_of, getSingleInstanceTp. rewrite Hm. repeat case_match; try done; by apply fresh_ids_ext.
Qed.

Lemma advances_ext st st' kv kv' :
  kv_data (ls_kv st') = kv_data (ls_kv st) -> kv_data kv' = kv_data kv -> advances st kv -> advances st' kv'.
Proof.
  intros Hk Hk' [H1 H2]. split; [unfold store_ok; by rewrite Hk'|]. intros P r Hr. rewrite Hk in Hr.
  rewrite Hk'. by apply H2.
Qed.

(** The template an instance is made from. *)
Definition found_template (m : nat) (tpID : Z) (st : LibState) : option TechProfile :=
  match ls_tpMap st !! (m, tpID) with
  | Some tp => Some tp
  | None => match kv_fault (kv_calls (ls_kv st)) with
            | Some _ => None
            | None => templates (kv_calls (ls_kv st)) tpID
            end
  end.

Definition used_template (m : nat) (tpID : Z) (st : LibState) : TechProfile :=
  match found_template m tpID st with
  | Some tp => match validateInstanceControlAttr <$> tpl_InstanceControl tp with
               | Some None => tp
               | _ => getDefaultTechProfile
               end
  | None => getDefaultTechProfile
  end.

Lemma returns_template m tpID st :
  returns (found ← getTPFromKVStore kv_fault templates m tpID; choose_template found) st (fun tp st' =>
    tp = used_template m tpID st /\ exists kv', st' = set_kv kv' st /\ kv_data kv' = kv_data (ls_kv st)).
Proof.
  unfold used_template, found_template. apply returns_bind, returns_bind.
  change (returns (reads ?f) st ?Q) with (Q (f st) st). cbv beta.
  assert (forall o st', (exists kv', st' = set_kv kv' st /\ kv_data kv' = kv_data (ls_kv st)) ->
    returns (choose_template o) st' (fun tp st' =>
      tp = match o with
           | Some tp => match validateInstanceControlAttr <$> tpl_InstanceControl tp with
                        | Some None => tp | _ => getDefaultTechProfile end
           | None => getDefaultTechProfile
           end /\ exists kv', st' = set_kv kv' st /\ kv_data kv' = kv_data (ls_kv st))) as Hch.
  { intros [tp|] st' Hst'; [|by apply returns_ret]. apply returns_bind, returns_deref. intros ic ->. cbn.
    by destruct (validateInstanceControlAttr ic). }
  destruct (ls_tpMap st !! (m, tpID)) as [tp|].
  - apply returns_ret, Hch. exists (ls_kv st). by destruct st.
  - unfold returns at 1, on_kv. apply Hch. by eexists.
Qed.

(** What creating an instance returns, with the state it leaves. *)
Definition created (m : nat) (tpID : Z) (name : string) (j : Z) (st : LibState)
    (r : option TechProfileInstance * option GoError) (st' : LibState) : Prop :=
  let path := GetTechProfileInstanceKey technology tpID name in
  advances st (ls_kv st')
  /\ match r with
     | (Some inst, None) =>
         uniPortNameFormat name = true
         /\ instance_of m j (used_template m tpID st) path inst st (ls_kv st')
         /\ ls_tpMap st' = <[(m, tpID) := used_template m tpID st]> (ls_tpMap st)
         /\ ls_tpInstanceMap st' = <[(m, path) := inst]> (ls_tpInstanceMap st)
         /\ exists a, sa_AllocId <$> UsScheduler inst = Some a
              /\ ls_resources st' = <[path := {| ri_TpId := tpID; ri_SubscriberIdentifier := name;
                                                 ri_AllocId := a; ri_GemportIds := gem_ids inst |}]> (ls_resources st)
     | (None, Some _) =>
         ls_tpInstanceMap st' = ls_tpInstanceMap st /\ ls_resources st' = ls_resources st
     | _ => False
     end.

Lemma returns_create m tpID name j st :
  store_ok (ls_kv st) ->
  returns (CreateTechProfileInstance kv_fault technology managers templates m tpID name j) st
    (created m tpID name j st).
Proof.
  intros Hok. unfold CreateTechProfileInstance. cbv zeta. set (path := GetTechProfileInstanceKey technology tpID name).
  destruct (uniPortNameFormat name) eqn:Hname; cbn [negb].
  2: { apply returns_ret. split; [by split|done]. }
  apply returns_assoc, returns_bind. eapply returns_mono; [apply returns_template|].
  intros tp st1 (-> & kv1 & -> & Hkv1). set (tp := used_template m tpID st). apply returns_bind.
  change (returns (updates ?f) ?s ?Q) with (Q tt (f s)). cbv beta.
  set (st2 := set_tpMap _ (set_kv kv1 st)).
  apply returns_bind. eapply returns_mono; [apply returns_allocate; unfold store_ok; cbn; by rewrite Hkv1|].
  intros o st3 (kv3 & -> & Had & Ho). apply (advances_ext _ st _ kv3) in Had; [|done..].
  destruct o as [inst|]; [|by apply returns_ret]. specialize (Ho inst eq_refl).
  apply (instance_of_ext _ _ _ _ _ _ _ st kv3) in Ho; [|done..].
  apply returns_bind. change (returns (updates ?f) ?s ?Q) with (Q tt (f s)). cbv beta.
  apply returns_bind, returns_deref. intros us Hus. apply returns_bind.
  unfold returns at 1, addResourceInstanceToKVStore. cbn [ls_kv set_tpInstanceMap set_kv].
  destruct (kv_fault (kv_calls kv3)) as [[e made]|].
  - by do 2 (apply returns_bind; eapply returns_mono; [apply returns_any|intros ? ? _]).
  - apply returns_ret. split; [by apply (advances_ext st _ kv3)|]. split_and!; try done.
    + apply (instance_of_ext _ _ _ _ _ st kv3); try done.
    + exists (sa_AllocId us). by rewrite Hus.
Qed.

End effects.

(** ** The implementation of the interfaces *)

Section environment.
Variable answers : list Request -> Request -> Code * string.
Variables rand clocks : nat -> Z.
Variable kv_fault : nat -> option (GoError * bool).
Variable technology : string.
(** The manager of pools behind each of [om.rsrMgr]. *)
Variable managers : nat -> PoolManager.
Variable templates : nat -> Z -> option TechProfile.

(** Every resource manager of the program with a profile manager of its own. *)
#[local] Instance library : Env := {|
  device := answers; rand_src := rand; clock := clocks;
  tp_state := LibState;
  tp_GetResourceID := fun m j t n st =>
    let '(r, kv) := TechProfileMgr_GetResourceID kv_fault (managers m) j t n (ls_kv st) in (r, set_kv kv st);
  tp_CreateTechProfileInstance := CreateTechProfileInstance kv_fault technology managers templates;
|}.

Hypothesis same_pools : forall m m' j t, GetPath (managers m) j t = GetPath (managers m') j t.

Definition lib_ok (st : LibState) : Prop := store_ok (ls_kv st).

(** The ids of a type in use on a PON. *)
Definition lib_in_use (t : ResourceType) (st : LibState) (pon id : Z) : Prop :=
  exists P r, GetPath (managers 0) pon t = Some P /\ kv_data (ls_kv st) !! P = Some r /\ used r id.

Lemma lib_in_use_taken t st st' pon id :
  taken (ls_kv st) (ls_kv st') -> lib_in_use t st pon id -> lib_in_use t st' pon id.
Proof.
  intros Ht (P & r & HP & Hr & Hu). destruct (Ht P r Hr) as (r' & Hr' & Hu'). exists P, r'. auto.
Qed.

Lemma lib_in_use_kept t st st' pon id :
  kept managers t (ls_kv st) (ls_kv st') -> lib_in_use t st pon id -> lib_in_use t st' pon id.
Proof. intros Hk (P & r & HP & Hr & Hu). exists P, r. by rewrite (Hk 0%nat pon P HP). Qed.

Lemma lib_fresh t m j ids st st' id :
  fresh_ids managers t m j ids (ls_kv st) (ls_kv st') -> id ∈ ids ->
  ~ lib_in_use t st j id /\ lib_in_use t st' j id.
Proof.
  intros (_ & P & r & r' & HP & Hr & Hr' & Hid) Hin. destruct (Hid id Hin) as [Hn Hu].
  rewrite (same_pools m 0) in HP. split; [|by exists P, r'].
  intros (P' & r0 & HP' & Hr0 & Hu0). by simplify_eq.
Qed.

Lemma lib_get m j t n st :
  lib_ok st ->
  let '((ids, err), st') := tp_GetResourceID m j t n st in
  lib_ok st' /\ taken (ls_kv st) (ls_kv st')
  /\ (err = None -> fresh_ids managers t m j ids (ls_kv st) (ls_kv st')).
Proof.
  intros Hok. cbn. pose proof (returns_get kv_fault managers same_pools m j t n st (fun r st' =>
    lib_ok st' /\ taken (ls_kv st) (ls_kv st')
    /\ (r.2 = None -> fresh_ids managers t m j r.1 (ls_kv st) (ls_kv st'))) Hok) as Hg.
  unfold returns, on_kv in Hg. destruct (TechProfileMgr_GetResourceID _ _ _ _ _ _) as [[ids err] kv'].
  apply Hg. intros ids' err' kv2 [Hok' Ht] _ Hf. split_and!; [done|done|]. intros He. by apply Hf.
Qed.

#[export] Instance library_onu_ids : FreshOnuIds.
Proof.
  refine (Build_FreshOnuIds library lib_ok (lib_in_use ONU_ID) _ _ _ _ _).
  - intros m j t n st Hok. pose proof (lib_get m j t n st Hok) as Hg.
    destruct (tp_GetResourceID m j t n st) as [[ids err] st']. apply Hg.
  - intros m tpID name j st Hok. by apply (spares_create _ technology managers templates same_pools m tpID name j).
  - intros m j t n st pon id Hok. pose proof (lib_get m j t n st Hok) as Hg.
    destruct (tp_GetResourceID m j t n st) as [[ids err] st']. by apply lib_in_use_taken, Hg.
  - intros m tpID name j st pon id Hok. apply lib_in_use_kept.
    by apply (spares_create _ technology managers templates same_pools m tpID name j).
  - intros m j n st id ids st' Hok Hg. pose proof (lib_get m j ONU_ID n st Hok) as Ho. rewrite Hg in Ho.
    apply (lib_fresh _ m _ (id :: ids)); [by apply Ho|by left].
Defined.

#[export] Instance library_gem_ports : FreshGemPorts.
Proof.
  refine (Build_FreshGemPorts library lib_ok (lib_in_use GEMPORT_ID) _ _).
  - intros m j t n st Hok. pose proof (lib_get m j t n st Hok) as Hg.
    destruct (tp_GetResourceID m j t n st) as [[ids err] st']. destruct Hg as (Hok' & Ht & _).
    split; [done|]. intros pon id. by apply lib_in_use_taken.
  - intros m tpID name j st [inst err] st' Hok Hc.
    pose proof (returns_create kv_fault technology managers templates same_pools m tpID name j st Hok) as Ho.
    unfold returns in Ho. cbn in Hc. rewrite Hc in Ho. destruct Ho as [[Hok' Ht] Ho]. split; [done|].
    split; [intros pon id; by apply lib_in_use_taken|]. intros i [= ->]. destruct err as [e|]; [done|].
    destruct Ho as (_ & [_ _ Hg _ _ _] & _). split; [apply Hg|]. intros id. by apply (lib_fresh _ m _ (gem_ids i)).
Defined.

(** C5. With the library behind the resource managers, every ONU the program
    activates has its own PON and ONU id: in every execution, no two activation
    requests name the same ONU of a PON, whatever the agent answers, whatever the
    profiles and whichever operations of the store fail.  The managers are of one
    device and technology. *)
Theorem onu_keys_unique (cfg : OpenOltScaleTesterConfig) (di : DeviceInfo) (w : World)
    (pool : list (prog unit)) (w' : World) :
  lib_ok (w_tp w) -> w_trace w = [] ->
  steps (Running [provisionONUs cfg di] w) (Running pool w') -> NoDup (activated (w_trace w')).
Proof. exact (activated_once (H0 := library_onu_ids) cfg di w pool w'). Qed.


End environment.

(** C19. What creating an instance does, on every state and whichever calls of the
    stores fail.  When it returns an instance, the name of the port is well formed,
    the instance has the attributes of the template in use (the one found, or the
    default profile), fresh gem ports that both directions share and one alloc id,
    fresh or that of another instance of the ONU; it is cached and recorded with
    these ids.  Otherwise it returns an error and no instance, and neither caches
    nor records anything: an instance never comes with an error.  The pools of ONU
    ids are left alone, also by a panic. *)
Theorem CreateTechProfileInstance_spec (kv_fault : nat -> option (GoError * bool)) (technology : string)
    (managers : nat -> PoolManager) (templates : nat -> Z -> option TechProfile)
    (m : nat) (tpID : Z) (name : string) (j : Z) (st : LibState) :
  (forall m m' j t, GetPath (managers m) j t = GetPath (managers m') j t) -> store_ok (ls_kv st) ->
  let '(r, st') := CreateTechProfileInstance kv_fault technology managers templates m tpID name j st in
  store_ok (ls_kv st') /\ kept managers ONU_ID (ls_kv st) (ls_kv st')
  /\ match r with
     | inr r => created kv_fault technology managers templates m tpID name j st r st'
     | inl _ => True
     end.
Proof.
  intros Hp Hok. pose proof (spares_create kv_fault technology managers templates Hp m tpID name j st Hok) as Hs.
  pose proof (returns_create kv_fault technology managers templates Hp m tpID name j st Hok) as Hr.
  unfold returns in Hr. destruct (CreateTechProfileInstance _ _ _ _ _ _ _ _ _) as [[e|r] st'];
    destruct Hs; by split_and!.
Qed.

(** ** Names *)

Lemma substring_app s t : String.substring (String.length s) (String.length t) (s +:+ t) = t.
Proof.
  assert (forall t, String.substring 0 (String.length t) t = t) as Ht.
  { intros u. induction u as [|c u IH]; [done|]. cbn. by rewrite IH. }
  induction s as [|c s IH]; [apply Ht|exact IH].
Qed.

Lemma after_app lit s : after lit (lit +:+ s) = Some s.
Proof.
  unfold after. assert (String.prefix lit (lit +:+ s) = true) as ->.
  { induction lit as [|c lit IH]; [by destruct s|].
    change (String c lit +:+ s) with (String c (lit +:+ s)). cbn. destruct (ascii_dec c c); [exact IH|done]. }
  assert (String.length (lit +:+ s) = String.length lit + String.length s)%nat as ->.
  { clear. induction lit as [|c lit IH]; [done|].
    change (String c lit +:+ s) with (String c (lit +:+ s)). cbn. by rewrite IH. }
  by rewrite Nat.add_comm, Nat.add_sub, substring_app.
Qed.

Lemma skip_all_app P s t : str_all P s = true -> skip_all P (s +:+ t) = skip_all P t.
Proof.
  induction s as [|c s IH]; [done|]. change (String c s +:+ t) with (String c (s +:+ t)).
  cbn. intros [-> Hs]%andb_prop. by apply IH.
Qed.

Lemma Itoa_digits z : 0 <= z -> exists d t, Itoa z = String d t /\ str_all is_digit (String d t) = true.
Proof.
  intros Hz. destruct z as [|p|p]; [by eexists _, _| |lia].
  destruct (pretty_N_spec (Npos p)) as (d & t & Hp & Hd & _). by exists d, t.
Qed.

Lemma after_some_Itoa z c s :
  0 <= z -> is_digit c = false -> after_some is_digit (Itoa z +:+ String c s) = Some (String c s).
Proof.
  intros Hz Hc. destruct (Itoa_digits z Hz) as (d & t & -> & Hd). cbn in Hd. apply andb_prop in Hd as [Hd Ht]. change (String d t +:+ ?u) with (String d (t +:+ u)). cbn. rewrite Hd.
  rewrite skip_all_app by done. cbn. by rewrite Hc.
Qed.

(** The names the program gives to UNI ports are well formed. *)
Lemma uniPortName_ok pon onu uni : 0 <= pon -> 0 <= onu -> 0 <= uni -> uniPortNameFormat (uniPortName pon onu uni) = true.
Proof.
  intros Hp Ho Hu. unfold uniPortNameFormat, uniPortName.
  change ("olt-{1}/pon-{" +:+ ?s) with ("olt-{" +:+ "1" +:+ "}/pon-{" +:+ s). rewrite after_app. cbn [mbind option_bind].
  change (after_some device_byte ("1" +:+ "}/pon-{" +:+ ?s)) with (Some ("}/pon-{" +:+ s)). cbn [mbind option_bind].
  rewrite after_app. cbn [mbind option_bind].
  change ("}/onu-{" +:+ ?s) with (String "}" ("/onu-{" +:+ s)) at 1. rewrite after_some_Itoa by done. cbn [mbind option_bind].
  change (String "}" ("/onu-{" +:+ ?s)) with ("}/onu-{" +:+ s). rewrite after_app. cbn [mbind option_bind].
  change ("}/uni-{" +:+ ?s) with (String "}" ("/uni-{" +:+ s)) at 1. rewrite after_some_Itoa by done. cbn [mbind option_bind].
  change (String "}" ("/uni-{" +:+ ?s)) with ("}/uni-{" +:+ s). rewrite after_app. cbn [mbind option_bind].
  change "}" with (String "}" "") at 1. rewrite after_some_Itoa by done. reflexivity.
Qed.

(** ** Witnesses *)

(** A profile with two gem ports, and a multicast one downstream. *)
Definition sample_template (onu : string) : TechProfile :=
  {| tpl_NumGemPorts := 2; tpl_InstanceControl := Some {| ic_Onu := onu; ic_Uni := "single-instance" |};
     tpl_UsScheduler := Some (default_scheduler Direction_UPSTREAM);
     tpl_DsScheduler := Some (default_scheduler Direction_DOWNSTREAM);
     tpl_UpstreamGemPortAttributeList := [sample_gem 0 "0b00000101"; sample_gem 0 "0b00001010"];
     tpl_DownstreamGemPortAttributeList :=
       [sample_gem 0 "0b00000101"; default_gem "True"; sample_gem 0 "0b00001010"] |}.

Definition sample_path (t : ResourceType) : string := default "" (GetPath sample_manager 0 t).

Definition sample_store : KVStore :=
  {| kv_data := {[ sample_path ONU_ID := FormatResource 0 1 16 [];
                   sample_path ALLOC_ID := FormatResource 0 1024 16 [];
                   sample_path GEMPORT_ID := FormatResource 0 1024 16 [] ]};
     kv_calls := 0 |}.

Definition sample_lib : LibState :=
  {| ls_kv := sample_store; ls_tpMap := ∅; ls_tpInstanceMap := ∅; ls_resources := ∅ |}.

Lemma sample_store_ok : store_ok sample_store.
Proof.
  repeat (apply map_Forall_insert_2; [by apply FormatResource_new|]). apply map_Forall_empty.
Qed.

Definition create_sample (fault : nat -> option (GoError * bool)) (onu : string) :=
  CreateTechProfileInstance fault "XGS-PON" (fun _ => sample_manager) (fun _ _ => Some (sample_template onu)).

Definition no_fault (n : nat) : option (GoError * bool) := None.

(** The first instance takes the first ids; the sixth call of the stores is the write
    that records the instance: when it fails, the process ends. *)
Lemma CreateTechProfileInstance_spec_witness :
  let '(r, st') := create_sample no_fault "multi-instance" 0 64 (uniPortName 0 1 0) 0 sample_lib in
  (match r with
   | inr (Some inst, None) =>
       gem_ids inst = [1024; 1025] /\ gp_GemportId <$> DownstreamGemPortAttributeList inst = [1024; 1025; 0]
   | _ => False
   end)
  /\ store_ok (ls_kv st') /\ kept (fun _ => sample_manager) ONU_ID sample_store (ls_kv st')
  /\ match r with
     | inr r => created no_fault "XGS-PON" (fun _ => sample_manager)
                  (fun _ _ => Some (sample_template "multi-instance")) 0 64 (uniPortName 0 1 0) 0 sample_lib r st'
     | inl _ => True
     end.
Proof.
  pose proof (CreateTechProfileInstance_spec no_fault "XGS-PON" (fun _ => sample_manager)
    (fun _ _ => Some (sample_template "multi-instance")) 0 64 (uniPortName 0 1 0) 0 sample_lib
    (fun _ _ _ _ => eq_refl) sample_store_ok) as Hs.
  pose (o := (create_sample no_fault "multi-instance" 0 64 (uniPortName 0 1 0) 0 sample_lib).1).
  assert (match o with
    | inr (Some inst, None) =>
        gem_ids inst = [1024; 1025] /\ gp_GemportId <$> DownstreamGemPortAttributeList inst = [1024; 1025; 0]
    | _ => False
    end) as Ho by (vm_compute; by split).
  unfold o, create_sample in *. destruct (CreateTechProfileInstance _ _ _ _ _ _ _ _ _) as [r st'].
  by split.
Defined.

Example record_failure_ends_process :
  (create_sample (fun n => if decide (n = 5)%nat then Some (ErrorsNew "etcd", false) else None)
     "multi-instance" 0 64 (uniPortName 0 1 0) 0 sample_lib).1 = inl LogFatal.
Proof. vm_compute. reflexivity. Qed.

Definition library_env : Env :=
  library accepting (fun n => Z.of_nat n) (fun n => Z.of_nat n) no_fault "XGS-PON"
    (fun _ => sample_manager) (fun _ _ => Some (sample_template "multi-instance")).

Definition library_world : @World library_env :=
  @Build_World library_env []
    [Some {| rm_deviceInfo := sample_deviceInfo 1; rm_intfID := 0; rm_flow_id := 0 |}]
    init_globals 0 [] ∅ [] [] 0%nat 0%nat sample_lib false.

(** Two ONUs of one PON, with two subscribers each. *)
Definition library_run : @config library_env :=
  schedule (H := library_env)
    (Running [provisionONUs (sample_config "ATT" 2 2) (sample_deviceInfo 1)] library_world)
    (round_robin 11 90).

Lemma library_run_steps :
  exists pool, steps (H := library_env)
    (Running [provisionONUs (sample_config "ATT" 2 2) (sample_deviceInfo 1)] library_world)
    (Running pool (world_of (H := library_env) library_world library_run)).
Proof.
  exists (pool_of (H := library_env) library_run).
  assert (library_run = Running (pool_of (H := library_env) library_run)
    (world_of (H := library_env) library_world library_run)) as <-
    by (apply running_eq; vm_compute; reflexivity).
  apply (schedule_steps (H := library_env)).
Qed.

Lemma onu_keys_unique_witness :
  let tr := w_trace (H := library_env) (world_of (H := library_env) library_world library_run) in
  activated tr = [(0, 1); (0, 2)] /\ NoDup (activated tr).
Proof.
  intros tr. split; [vm_compute; reflexivity|]. destruct library_run_steps as [pool Hs].
  apply (onu_keys_unique accepting (fun n => Z.of_nat n) (fun n => Z.of_nat n) no_fault "XGS-PON"
    (fun _ => sample_manager) (fun _ _ => Some (sample_template "multi-instance")) (fun _ _ _ _ => eq_refl)
    (sample_config "ATT" 2 2) (sample_deviceInfo 1) library_world pool).
  - apply sample_store_ok.
  - reflexivity.
  - exact Hs.
Defined.

