(* ===== verification/AllocIds.v ===== *)
(** * Alloc ids are told apart

    The alloc ids of the profile instances, as an interface: [FreshAllocIds] says
    that the alloc id of a new instance is one that nothing on its PON has, or that
    of an instance the manager keeps for the same ONU and profile.  What becomes of
    the ids is not in the state of the managers, which forget the instances they
    replace; the invariant of the program carries a map from the ids handed out to
    their ONU and profile ([accounted]).  Goroutines hold nothing but facts: the
    entries of the map they have seen.  voltha-lib-go implements the interface. *)
From S2P Require Import Prelude Flags Utils Proto Config Runtime Judgement Samples TechProfile ResourceManager WorkflowUtils AttWorkflow DtWorkflow TtWorkflow WorkflowManager SubscriberManager OnuManager OltManager Typing IdPool TechInstance.
From Stdlib Require Import Ascii.

(** ** The interface *)

(** The T-CONT of an instance: the alloc id its upstream scheduler has. *)
Definition alloc_id (inst : TechProfileInstance) : option Z := sa_AllocId <$> UsScheduler inst.

(** An alloc id of a PON is the one of an ONU for a profile. *)
Record claim := {
  cl_pon : Z;
  cl_alloc : Z;
  cl_profile : Z;
  cl_onu : Z;
}.

Class FreshAllocIds `{Env} := {
  allocs_ok : tp_state -> Prop;
  alloc_in_use : tp_state -> Z -> Z -> Prop;  (* state, PON, alloc id *)
  alloc_kept : tp_state -> claim -> Prop;  (* those of the instances a manager keeps *)
  allocs_get m j t n st : allocs_ok st ->
    let st' := (tp_GetResourceID m j t n st).2 in
    allocs_ok st' /\ (forall pon id, alloc_in_use st pon id -> alloc_in_use st' pon id)
    /\ forall c, alloc_kept st' c -> alloc_kept st c;
  allocs_create m tpID j onu uni st r st' :
    allocs_ok st -> tp_CreateTechProfileInstance m tpID (uniPortName j onu uni) j st = (inr r, st') ->
    allocs_ok st' /\ (forall pon id, alloc_in_use st pon id -> alloc_in_use st' pon id)
    /\ match r.1 with
       | None => forall c, alloc_kept st' c -> alloc_kept st c
       | Some inst => exists a,
           let new := {| cl_pon := j; cl_alloc := a; cl_profile := tpID; cl_onu := onu |} in
           alloc_id inst = Some a
           /\ (~ alloc_in_use st j a /\ alloc_in_use st' j a \/ alloc_kept st new)
           /\ forall c, alloc_kept st' c -> c = new \/ alloc_kept st c
       end;
}.

(** ** Facts *)

Definition facts : Type := claim -> Prop.

(** The claims of the instances of a subscriber. *)
Definition claimed (s : Subscriber) : facts := fun c =>
  exists t inst, TpInstance s !! t = Some inst /\ alloc_id inst = Some (cl_alloc c)
    /\ cl_pon c = PonIntf s /\ cl_profile c = u32 t /\ cl_onu c = OnuID s.

Definition learns (r : facts) (c : claim -> Prop) : facts := fun c' => c c' \/ r c'.

(** The claim of an instance made for a profile and an ONU. *)
Definition claim_of (j tpID onu : Z) (inst : TechProfileInstance) : facts := fun c =>
  alloc_id inst = Some (cl_alloc c) /\ cl_pon c = j /\ cl_profile c = tpID /\ cl_onu c = onu.

Definition op_knows {X : Type} (o : Op X) (r : facts) (K : X -> facts -> Prop) : Prop :=
  match o in Op X return (X -> facts -> Prop) -> Prop with
  | OpRpc _ => fun K => forall e, told e -> K e r
  | OpRandIntn k => fun K => forall v, (0 < k -> 0 <= v < k) -> K v r
  | OpGetFlowID _ => fun K => forall v, is_u64 v -> K v r
  | OpNewSub s => fun K => TpInstance s = ∅ /\ forall a, K a r
  | OpLoadSub _ => fun K => forall s, K s (learns r (claimed s))
  | OpStoreSub _ s => fun K => (forall c, claimed s c -> r c) /\ K tt r
  | OpCreateTechProfileInstance _ tpID name j => fun K => exists onu uni, name = uniPortName j onu uni
      /\ (forall err, K (None, err) r)
      /\ forall inst err, K (Some inst, err) (learns r (claim_of j tpID onu inst))
  | _ => fun K => forall x, K x r
  end K.

Lemma op_knows_mono {X} (o : Op X) r (K K' : X -> facts -> Prop) :
  op_knows o r K -> (forall x r', K x r' -> K' x r') -> op_knows o r K'.
Proof.
  intros Ho HK. destruct o; cbn in *; auto; try (destruct Ho; split; by auto).
  destruct Ho as (onu & uni & -> & Hn & Hs). exists onu, uni. auto.
Qed.

#[export] Instance facts_logic : Logic facts := {
  allows := @op_knows;
  splits r rc rk := rc = r /\ rk = r;
  allows_mono := @op_knows_mono;
}.

#[export] Instance facts_neutral : Neutral facts (fun _ => True).
Proof. split; intros; cbn; auto. Qed.

(** ** The goroutines *)

Lemma facts_go {A} c (k : prog A) r (Q : A -> facts -> Prop) :
  judge c r anything -> judge k r Q -> judge (Go c k) r Q.
Proof. intros Hc Hk. exists r, r. by split_and!. Qed.

Lemma facts_store {B} a s (f : unit -> prog B) r Q :
  (forall c, claimed s c -> r c) -> judge (f tt) r Q -> judge (op (OpStoreSub a s) ≫= f) r Q.
Proof. intros Hs Hf. by apply judge_op_bind. Qed.

Lemma facts_DeployWorkflow a isGroup r : judge (DeployWorkflow a isGroup) r anything.
Proof.
  apply judge_op_bind. intros s. apply judge_deref_bind. intros wf Hwf. apply judge_bind. eapply sends_judge.
  - eapply sends_mono; [by apply (sends_deploy_reason s wf)|done..].
  - intros reason _. apply facts_store; [by left|]. by intros [].
Qed.

Lemma facts_create_tp_instances a ids r : judge (create_tp_instances a ids) r anything.
Proof.
  revert r. induction ids as [|id ids IH]; intros r; [done|]. cbn [create_tp_instances].
  apply judge_op_bind. intros s. apply judge_op_bind. exists (OnuID s), (UniID s). split_and!; [done..|].
  intros inst err. apply facts_store.
  - intros c (t & i & Hi & Ha & Hc). cbn in Hi. apply lookup_insert_Some in Hi as [[<- <-]|[_ Hi]].
    + by left.
    + right. left. by exists t, i.
  - destruct err as [e|]; [|apply IH]. apply judge_op_bind. intros s'. apply facts_store; [by left|done].
Qed.

Lemma facts_Subscriber_Start a isGroup r : judge (Subscriber_Start a isGroup) r anything.
Proof.
  apply judge_op_bind. intros s. apply facts_store; [by intros c (t & i & ? & _)|].
  apply judge_bind. eapply judge_mono; [apply facts_create_tp_instances|]. intros [|] r' _; [|done].
  by apply facts_go; [apply facts_DeployWorkflow|].
Qed.

Lemma facts_OnuDevice_Start a r : judge (OnuDevice_Start a) r anything.
Proof.
  apply judge_op_bind. intros onu. apply judge_op_bind. intros []. apply judge_op_bind. intros g.
  apply judge_bind, (judge_for_each _ _ (fun r' => r' = r)); [|done|].
  - intros i r' Q _ -> HQ. apply judge_op_bind. intros d. apply judge_bind.
    apply judge_op_bind. intros ctag. apply judge_op_bind. intros stag. cbn [judge].
    apply judge_op_bind. split; [done|]. intros sa. apply judge_op_bind. intros []. apply judge_op_bind. intros [].
    apply facts_go; [apply facts_Subscriber_Start|by apply HQ].
  - intros r' ->. apply judge_op_bind. by intros [] [].
Qed.

Lemma facts_activateONU cfg intf onuID sn name g r :
  judge (activateONU cfg intf onuID sn name g) r anything.
Proof.
  apply judge_op_bind. intros mgr. apply judge_op_bind. intros now. apply judge_op_bind. intros err _.
  apply judge_op_bind. intros a. apply judge_op_bind. intros []. destruct err; [done|].
  apply judge_op_bind. intros a'. by apply facts_go; [apply facts_OnuDevice_Start|].
Qed.

Lemma facts_provision_one cfg g i j k r (Q : unit -> facts -> Prop) :
  Q tt r -> judge (provision_one cfg g i j k) r Q.
Proof.
  intros HQ. apply judge_op_bind. intros sn. apply judge_op_bind. intros mgr.
  apply judge_op_bind. intros [ids [e|]]; [destruct ids; apply HQ|].
  destruct ids as [|id ids]; [done|]. apply judge_bind. cbn [index lookup judge].
  apply judge_op_bind. intros []. apply judge_bind.
  destruct (stringifySerialNumber (Some sn)) as [name|]; [|done].
  by apply facts_go; [apply facts_activateONU|].
Qed.

Lemma facts_provisionONUs cfg di r : judge (provisionONUs cfg di) r anything.
Proof.
  apply (judge_provisionONUs (fun r' => r' = r)); [done|by intros X [] r' K|].
  intros g i j k r' Q _ -> HQ. apply facts_provision_one. by apply HQ.
Qed.

(** ** The store *)

Section sound.
Context `{FreshAllocIds}.

(** The ids handed out so far, with their profile and ONU. *)
Abbreviation owners := (gmap (Z * Z) (Z * Z)).

Definition agrees (o : owners) (c : claim) : Prop :=
  o !! (cl_pon c, cl_alloc c) = Some (cl_profile c, cl_onu c).

Record accounted_by (o : owners) (w : World) (rs : list facts) : Prop := {
  ac_used : forall pon id key, o !! (pon, id) = Some key -> alloc_in_use (w_tp w) pon id;
  ac_kept : forall c, alloc_kept (w_tp w) c -> agrees o c;
  ac_subs : forall s c, s ∈ w_subs w -> claimed s c -> agrees o c;
  ac_facts : forall r c, r ∈ rs -> r c -> agrees o c;
}.

Definition accounted (w : World) (rs : list facts) : Prop :=
  allocs_ok (w_tp w) /\ exists o, accounted_by o w rs.

(** Managers that keep less and shares that know less. *)
Lemma accounted_by_same o w w' rs rs' :
  accounted_by o w rs ->
  (forall pon id, alloc_in_use (w_tp w) pon id -> alloc_in_use (w_tp w') pon id) ->
  (forall c, alloc_kept (w_tp w') c -> alloc_kept (w_tp w) c) ->
  (forall s c, s ∈ w_subs w' -> claimed s c -> agrees o c) ->
  (forall r c, r ∈ rs' -> r c -> agrees o c) -> accounted_by o w' rs'.
Proof.
  intros [H1 H2 H3 H4] Hu Hk Hs Hf. split; [|by intros c Hc; apply H2, Hk|done..].
  intros pon id key Ho. by eapply Hu, H1.
Qed.

Lemma accounted_same w w' rs : accounted w rs -> w_tp w' = w_tp w -> w_subs w' = w_subs w -> accounted w' rs.
Proof.
  intros [Hok [o Ho]] Ht Hs. split; [by rewrite Ht|]. exists o.
  apply (accounted_by_same o w w' rs); rewrite ?Ht; try done; [rewrite Hs|]; apply Ho.
Qed.

(** A goroutine that learns nothing but what the map says. *)
Lemma accounted_learn w r c rs :
  accounted w (r :: rs) ->
  (forall o, accounted_by o w (r :: rs) -> forall c', c c' -> agrees o c') -> accounted w (learns r c :: rs).
Proof.
  intros [Hok [o Ho]] Hc. split; [done|]. exists o. apply (accounted_by_same o w w _ _ Ho); [done..|apply Ho|].
  intros r' c' [->|Hr']%elem_of_cons; [|apply (ac_facts _ _ _ Ho); by right].
  intros [Hc'|Hr']; [by apply (Hc o Ho)|apply (ac_facts _ _ _ Ho r); [by left|done]].
Qed.

(** Subscribers all of whose claims are known. *)
Lemma accounted_subs w r rs subs :
  accounted w (r :: rs) -> (forall s c, s ∈ subs -> claimed s c -> s ∈ w_subs w \/ r c) ->
  accounted (set_subs subs w) (r :: rs).
Proof.
  intros [Hok [o Ho]] Hs. split; [done|]. exists o. apply (accounted_by_same o w _ _ _ Ho); [done..| |apply Ho].
  intros s c Hin Hc. destruct (Hs s c Hin Hc) as [Hold|Hr]; [by apply (ac_subs _ _ _ Ho s)|].
  apply (ac_facts _ _ _ Ho r); [by left|done].
Qed.

Lemma agrees_insert o j a key c :
  o !! (j, a) = None \/ o !! (j, a) = Some key -> agrees o c -> agrees (<[(j, a) := key]> o) c.
Proof.
  unfold agrees. intros Ho Hc. destruct (decide ((j, a) = (cl_pon c, cl_alloc c))) as [E|Hne].
  - rewrite E in *. rewrite lookup_insert_eq. destruct Ho; congruence.
  - by rewrite lookup_insert_ne.
Qed.

Lemma accounted_create w m tpID j onu uni inst err st r rs :
  accounted w (r :: rs) ->
  tp_CreateTechProfileInstance m tpID (uniPortName j onu uni) j (w_tp w) = (inr (Some inst, err), st) ->
  accounted (set_tp st w) (learns r (claim_of j tpID onu inst) :: rs).
Proof.
  intros [Hok [o [H1 H2 H3 H4]]] He. destruct (allocs_create _ _ _ _ _ _ _ _ Hok He) as (Hok' & Hu & a & Ha & Hnew & Hk).
  cbn [fst] in *. set (new := {| cl_pon := j; cl_alloc := a; cl_profile := tpID; cl_onu := onu |}) in *.
  split; [done|]. exists (<[(j, a) := (tpID, onu)]> o).
  assert (o !! (j, a) = None \/ o !! (j, a) = Some (tpID, onu)) as Hold.
  { destruct Hnew as [[Hn _]|Hkept]; [left|right; by apply (H2 new)].
    destruct (o !! (j, a)) eqn:E; [|done]. by destruct Hn; eapply H1. }
  assert (agrees (<[(j, a) := (tpID, onu)]> o) new) as Hagree by (unfold agrees; by rewrite lookup_insert_eq).
  split.
  - intros pon id key [[[= <- <-] _]|[_ Ho]]%lookup_insert_Some; [|by eapply Hu, H1].
    destruct Hnew as [[_ Hin]|Hkept]; [done|]. eapply Hu, H1. by apply (H2 new).
  - intros c Hc. destruct (Hk c Hc) as [->|Hc']; [done|]. by apply agrees_insert, H2.
  - intros s c Hs Hc. apply agrees_insert; [done|]. by apply (H3 s).
  - intros r' c [->|Hr']%elem_of_cons; [|intros Hc; apply agrees_insert; [done|]; apply (H4 r'); [by right|done]].
    intros [(Hc & Hp & Ht & Hon)|Hc]; [|apply agrees_insert; [done|]; apply (H4 r); [by left|done]].
    destruct c as [p' a' t' o']; cbn in *. subst. rewrite Ha in Hc. injection Hc as <-. exact Hagree.
Qed.

Lemma accounted_exec {X} (o : Op X) w x w' r K rs :
  accounted w (r :: rs) -> op_knows o r K -> exec o w = Done x w' ->
  exists r', K x r' /\ accounted w' (r' :: rs).
Proof.
  intros Ha Ho He. destruct o;
    try (exists r; cbv [exec with_mgr wg_add] in He;
         repeat match type of He with
         | context [match ?e with _ => _ end] => destruct e
         end; try discriminate; injection He as <- <-;
         split; [by apply Ho|by eapply accounted_same]).
  - cbv [exec] in He. injection He as <- <-. exists r. split; [apply Ho, told_status|by eapply accounted_same].
  - cbv [exec] in He. injection He as <- <-. exists r. split; [|by eapply accounted_same].
    apply Ho. intros Hn. by apply Z.mod_pos_bound.
  - unfold exec, with_mgr in He. repeat case_match; try done. injection He as <- <-.
    exists r. split; [apply Ho, u64_range|by eapply accounted_same].
  - unfold exec, with_mgr in He. destruct (w_rsrMgr w !! mgr) as [[m|]|]; try done.
    destruct Ha as [Hok [own Hw]]. destruct (allocs_get mgr intf t n _ Hok) as (Hok' & Hu & Hk).
    destruct (tp_GetResourceID mgr intf t n (w_tp w)) as [y st]. injection He as <- <-. exists r.
    split; [apply Ho|]. split; [done|]. exists own. by apply (accounted_by_same own w _ _ _ Hw); try done; apply Hw.
  - unfold exec, with_mgr in He. destruct (w_rsrMgr w !! mgr) as [[m|]|]; try done.
    destruct Ho as (onu & uni & -> & Hnone & Hsome).
    destruct (tp_CreateTechProfileInstance _ _ _ _ (w_tp w)) as [[e|[[inst|] err]] st] eqn:E; [done| |];
      injection He as <- <-.
    + eexists. split; [apply Hsome|by eapply accounted_create].
    + exists r. split; [apply Hnone|]. destruct Ha as [Hok [own Hw]].
      destruct (allocs_create _ _ _ _ _ _ _ _ Hok E) as (Hok' & Hu & Hk).
      split; [done|]. exists own. by apply (accounted_by_same own w _ _ _ Hw); try done; apply Hw.
  - cbv [exec] in He. injection He as <- <-. destruct Ho as [Hs HK]. exists r. split; [apply HK|].
    apply accounted_subs; [done|]. intros t c [Ht|Ht%list_elem_of_singleton]%elem_of_app; [by left|].
    subst t. intros (k & i & Hi & _). by rewrite Hs in Hi.
  - unfold exec in He. destruct (w_subs w !! a) as [s|] eqn:Hs; [|done]. injection He as <- <-. eexists.
    split; [apply Ho|]. apply accounted_learn; [done|]. intros own Hw c. apply (ac_subs _ _ _ Hw).
    by apply list_elem_of_lookup_2 in Hs.
  - cbv [exec] in He. injection He as <- <-. destruct Ho as [Hc HK]. exists r. split; [exact HK|].
    apply accounted_subs; [done|]. intros t c Ht Htc.
    apply list_elem_of_lookup in Ht as [i Hi]. apply list_lookup_insert_Some in Hi as [(_ & <- & _)|[_ Hi]].
    + right. by apply Hc.
    + left. by apply list_elem_of_lookup_2 in Hi.
Qed.

#[export] Instance facts_sound : Sound facts (fun _ => True) accounted.
Proof.
  split.
  - intros w rs rs' HR [Hok [o Ho]]. split; [done|]. exists o.
    apply (accounted_by_same o w w _ _ Ho); [done..|apply Ho|]. intros r c Hr. rewrite <-HR in Hr. by apply (ac_facts _ _ _ Ho).
  - intros w r rs X o K x w' Ha Ho He _. by eapply accounted_exec.
  - intros w r rc rk rs [Hok [o Ho]] [-> ->]. split; [done|]. exists o.
    apply (accounted_by_same o w w _ _ Ho); [done..|apply Ho|]. intros r' c Hr. apply (ac_facts _ _ _ Ho).
    apply elem_of_cons in Hr as [->|Hr]; [by left|done].
  - done.
Qed.

(** Along any execution, subscribers with a common alloc id on a PON are of one ONU,
    and have it for one profile. *)
Lemma allocs_apart cfg di w pool w' s1 s2 t1 t2 i1 i2 a :
  allocs_ok (w_tp w) -> (forall c, ~ alloc_kept (w_tp w) c) -> w_subs w = [] ->
  steps (Running [provisionONUs cfg di] w) (Running pool w') ->
  s1 ∈ w_subs w' -> s2 ∈ w_subs w' -> PonIntf s1 = PonIntf s2 ->
  TpInstance s1 !! t1 = Some i1 -> TpInstance s2 !! t2 = Some i2 ->
  alloc_id i1 = Some a -> alloc_id i2 = Some a -> OnuID s1 = OnuID s2 /\ u32 t1 = u32 t2.
Proof.
  intros Hok Hk Hsubs Hst Hs1 Hs2 Hp Hi1 Hi2 Ha1 Ha2.
  destruct (judged_inv (inv := accounted) [provisionONUs cfg di] w [fun _ => False] pool w')
    as [rs [_ [o Ho]]]; try done.
  - constructor; [apply facts_provisionONUs|constructor].
  - split; [done|]. exists ∅. split; [by intros|by intros c ?%Hk|rewrite Hsubs; by intros s c ?%not_elem_of_nil|].
    by intros r c ->%list_elem_of_singleton.
  - pose (claim_at s t := {| cl_pon := PonIntf s; cl_alloc := a; cl_profile := u32 t; cl_onu := OnuID s |}).
    assert (agrees o (claim_at s1 t1)) as C1 by (apply (ac_subs _ _ _ Ho s1); [done|by exists t1, i1]).
    assert (agrees o (claim_at s2 t2)) as C2 by (apply (ac_subs _ _ _ Ho s2); [done|by exists t2, i2]).
    unfold agrees in *. cbn in *. rewrite Hp, C2 in C1. by injection C1.
Qed.

End sound.

(** ** The names of UNI ports and the keys of instances *)

(** Strings cut at the first byte outside a class. *)
Lemma str_cut P s s' c c' u u' :
  str_all P s = true -> str_all P s' = true -> P c = false -> P c' = false ->
  s +:+ String c u = s' +:+ String c' u' -> s = s' /\ String c u = String c' u'.
Proof.
  intros Hs Hs' Hc Hc'. revert s' Hs'. induction s as [|d s IH]; intros [|d' s'] Hs' E; cbn in *.
  - done.
  - injection E as -> _. apply andb_prop in Hs' as [Hd _]. congruence.
  - injection E as -> _. apply andb_prop in Hs as [Hd _]. congruence.
  - apply andb_prop in Hs as [Hd Hs]. apply andb_prop in Hs' as [Hd' Hs']. injection E as <- E.
    destruct (IH Hs s' Hs' E) as [-> Eu]. done.
Qed.

(** Two integers before a separator. *)
Lemma Itoa_cut sep z z' u u' :
  is_digit sep = false -> not_sep sep "-" = true ->
  Itoa z +:+ String sep u = Itoa z' +:+ String sep u' -> z = z' /\ u = u'.
Proof.
  intros Hd Hm E. assert (not_sep sep sep = false) as Hsep by (unfold not_sep; by destruct (ascii_dec sep sep)).
  apply (str_cut (not_sep sep)) in E as [E Eu]; try done; try by apply Itoa_no_sep.
  split; [by apply (inj pretty)|by injection Eu].
Qed.

(** The name of an ONU port, without its UNI. *)
Definition onu_name (pon onu : Z) : string := "olt-{1}/pon-{" +:+ Itoa pon +:+ "}/onu-{" +:+ Itoa onu +:+ "}".

Definition uni_part (uni : Z) : string := "/uni-{" +:+ Itoa uni +:+ "}".

Lemma uniPortName_parts pon onu uni : uniPortName pon onu uni = onu_name pon onu +:+ uni_part uni.
Proof. unfold uniPortName, onu_name, uni_part. rewrite <-!str_app_assoc. reflexivity. Qed.

(** A name that is well formed has no negative number in it. *)
Lemma after_some_neg z s : z < 0 -> after_some is_digit (Itoa z +:+ s) = None.
Proof. by destruct z. Qed.

Lemma uniPortName_ok_inv pon onu uni :
  uniPortNameFormat (uniPortName pon onu uni) = true -> 0 <= pon /\ 0 <= onu /\ 0 <= uni.
Proof.
  unfold uniPortNameFormat, uniPortName.
  change ("olt-{1}/pon-{" +:+ ?s) with ("olt-{" +:+ "1" +:+ "}/pon-{" +:+ s). rewrite after_app. cbn [mbind option_bind].
  change (after_some device_byte ("1" +:+ "}/pon-{" +:+ ?s)) with (Some ("}/pon-{" +:+ s)). cbn [mbind option_bind].
  rewrite after_app. cbn [mbind option_bind].
  destruct (decide (0 <= pon)); [|rewrite after_some_neg by lia; done].
  change ("}/onu-{" +:+ ?s) with (String "}" ("/onu-{" +:+ s)) at 1. rewrite after_some_Itoa by done. cbn [mbind option_bind].
  change (String "}" ("/onu-{" +:+ ?s)) with ("}/onu-{" +:+ s). rewrite after_app. cbn [mbind option_bind].
  destruct (decide (0 <= onu)); [|rewrite after_some_neg by lia; done].
  change ("}/uni-{" +:+ ?s) with (String "}" ("/uni-{" +:+ s)) at 1. rewrite after_some_Itoa by done. cbn [mbind option_bind].
  change (String "}" ("/uni-{" +:+ ?s)) with ("}/uni-{" +:+ s). rewrite after_app. cbn [mbind option_bind].
  destruct (decide (0 <= uni)); [done|rewrite after_some_neg by lia; done].
Qed.

(** What the regular expression of [getSingleInstanceTp] matches has one slash. *)
Lemma after_inv lit s r : after lit s = Some r -> s = lit +:+ r.
Proof.
  unfold after. destruct (String.prefix lit s) eqn:Hp; [|done]. intros [= <-].
  revert s Hp. induction lit as [|c lit IH]; intros s Hp.
  - cbn. rewrite Nat.sub_0_r. symmetry. exact (substring_app "" s).
  - destruct s as [|c' s]; [done|]. cbn in Hp. destruct (ascii_dec c c') as [<-|]; [|done].
    change (String c s = String c (lit +:+ String.substring (String.length lit) (String.length s - String.length lit) s)).
    by rewrite <-IH.
Qed.

Lemma skip_all_inv P s : exists d, s = d +:+ skip_all P s /\ str_all P d = true.
Proof.
  induction s as [|c s (d & Hs & Hd)]; [by exists ""|]. cbn. destruct (P c) eqn:Hc; [|by exists ""].
  exists (String c d). cbn. rewrite Hc. split; [|done].
  change (String c s = String c (d +:+ skip_all P s)). by f_equal.
Qed.

Lemma after_some_inv P s r : after_some P s = Some r -> exists d, s = d +:+ r /\ str_all P d = true.
Proof.
  destruct s as [|c s]; [done|]. cbn. destruct (P c) eqn:Hc; [|done]. intros [= <-].
  destruct (skip_all_inv P s) as (d & Hs & Hd). exists (String c d). cbn. rewrite Hc. split; [|done].
  change (String c s = String c (d +:+ skip_all P s)). by f_equal.
Qed.

Lemma uni_suffix_inv s :
  uni_suffix s = true -> exists t, s = String "/" t /\ str_all (not_sep "/") t = true.
Proof.
  unfold uni_suffix. destruct (after "/uni-{" s) as [s1|] eqn:E1; [|done]. cbn [mbind option_bind].
  destruct (after_some is_digit s1) as [s2|] eqn:E2; [|done]. cbn [mbind option_bind].
  destruct (after "}" s2) as [s3|] eqn:E3; [|done]. intros ->%bool_decide_eq_true_1.
  apply after_inv in E1, E3. apply after_some_inv in E2 as (d & -> & Hd). subst.
  exists ("uni-{" +:+ (d +:+ "}")). split; [done|]. rewrite !str_all_app. cbn.
  rewrite !andb_true_r. eapply str_all_impl; [|exact Hd]. intros c. by apply is_digit_not_sep.
Qed.

Lemma uni_suffix_part uni : 0 <= uni -> uni_suffix (uni_part uni) = true.
Proof.
  intros Hu. unfold uni_suffix, uni_part. rewrite after_app. cbn [mbind option_bind].
  change "}" with (String "}" "") at 1. rewrite after_some_Itoa by done. reflexivity.
Qed.

(** The part of a key before the UNI. *)
Lemma cut_uni_part p uni : 0 <= uni -> cut_uni (p +:+ uni_part uni) = p.
Proof.
  intros Hu. induction p as [|c p IH].
  - change ("" +:+ uni_part uni) with (uni_part uni). pose proof (uni_suffix_part uni Hu) as Hs.
    destruct (uni_part uni); [done|]. cbn [cut_uni]. by rewrite Hs.
  - change (String c p +:+ uni_part uni) with (String c (p +:+ uni_part uni)). cbn [cut_uni].
    destruct (uni_suffix (String c (p +:+ uni_part uni))) eqn:E; [|by f_equal].
    apply uni_suffix_inv in E as (t & [= -> <-] & Ht). rewrite str_all_app in Ht.
    apply andb_prop in Ht as [_ Ht]. done.
Qed.

Section keys.
Variable technology : string.
Abbreviation key_of := (GetTechProfileInstanceKey technology).

Lemma key_parts t pon onu uni :
  key_of t (uniPortName pon onu uni) = key_of t (onu_name pon onu) +:+ uni_part uni.
Proof. unfold GetTechProfileInstanceKey. rewrite uniPortName_parts, <-!str_app_assoc. reflexivity. Qed.

(** A key determines the profile and the ONU. *)
Lemma key_inj t t' pon pon' onu onu' uni uni' :
  key_of t (uniPortName pon onu uni) = key_of t' (uniPortName pon' onu' uni') ->
  t = t' /\ pon = pon' /\ onu = onu'.
Proof.
  unfold GetTechProfileInstanceKey. intros E%(inj (String.append _)). injection E as E.
  apply (Itoa_cut "/") in E as [-> E]; [|done..]. unfold uniPortName in E. injection E as E.
  apply (Itoa_cut "}") in E as [-> E]; [|done..]. injection E as E.
  by apply (Itoa_cut "}") in E as [-> _].
Qed.

End keys.

(** ** The library implements the interface *)

Section library.
Variable answers : list Request -> Request -> Code * string.
Variables rand clocks : nat -> Z.
Variable kv_fault : nat -> option (GoError * bool).
Variable technology : string.
Variable managers : nat -> PoolManager.
Variable templates : nat -> Z -> option TechProfile.
Hypothesis same_pools : forall m m' j t, GetPath (managers m) j t = GetPath (managers m') j t.

#[local] Instance alloc_library : Env := library answers rand clocks kv_fault technology managers templates.

(** The instances that a manager keeps, by their keys. *)
Definition lib_kept (st : LibState) : facts := fun c =>
  exists m uni inst, ls_tpInstanceMap st !!
      (m, GetTechProfileInstanceKey technology (cl_profile c) (uniPortName (cl_pon c) (cl_onu c) uni)) = Some inst
    /\ alloc_id inst = Some (cl_alloc c).

(** An instance found for another UNI is one of the same ONU and profile. *)
Lemma sibling m t pon onu uni other st :
  0 <= uni ->
  getSingleInstanceTp m (GetTechProfileInstanceKey technology t (uniPortName pon onu uni)) st = Some other ->
  exists uni', ls_tpInstanceMap st !! (m, GetTechProfileInstanceKey technology t (uniPortName pon onu uni')) = Some other.
Proof.
  intros Hu Hs. unfold getSingleInstanceTp in Hs. rewrite key_parts, cut_uni_part in Hs by done.
  apply head_Some_elem_of, list_elem_of_omap in Hs as (i & _ & Hi). exists i. by rewrite key_parts.
Qed.

(** Where the alloc id of a new instance is from. *)
Lemma alloc_id_source m j tp t onu uni a st st' :
  0 <= uni ->
  alloc_id_of managers m j tp (GetTechProfileInstanceKey technology t (uniPortName j onu uni)) a st (ls_kv st') ->
  ~ lib_in_use managers ALLOC_ID st j a /\ lib_in_use managers ALLOC_ID st' j a
  \/ lib_kept st {| cl_pon := j; cl_alloc := a; cl_profile := t; cl_onu := onu |}.
Proof.
  intros Hu Ha.
  assert (fresh_ids managers ALLOC_ID m j [a] (ls_kv st) (ls_kv st') ->
    ~ lib_in_use managers ALLOC_ID st j a /\ lib_in_use managers ALLOC_ID st' j a) as Hfresh.
  { intros Hf. apply (lib_fresh managers same_pools _ m _ [a]); [done|by left]. }
  unfold alloc_id_of in Ha. destruct (tpl_InstanceControl tp) as [ic|]; [|left; by apply Hfresh].
  destruct (getSingleInstanceTp _ _ _) as [other|] eqn:Hs; [|left; by apply Hfresh].
  destruct (bool_decide _); [left; by apply Hfresh|]. right.
  apply sibling in Hs as [uni' Hs]; [|done]. by exists m, uni', other.
Qed.

#[export] Instance library_alloc_ids : FreshAllocIds.
Proof.
  refine (Build_FreshAllocIds alloc_library lib_ok (lib_in_use managers ALLOC_ID) lib_kept _ _).
  - intros m j t n st Hok.
    pose proof (lib_get answers rand clocks kv_fault technology managers templates same_pools m j t n st Hok) as Hg.
    cbn in Hg |- *. destruct (TechProfileMgr_GetResourceID _ _ _ _ _ _) as [[ids err] kv'].
    destruct Hg as (Hok' & Ht & _). split_and!; [done|intros pon id; by apply lib_in_use_taken|by intros c].
  - intros m tpID j onu uni st [inst err] st' Hok Hc.
    pose proof (returns_create kv_fault technology managers templates same_pools m tpID (uniPortName j onu uni) j st Hok) as Ho.
    unfold returns in Ho. cbn in Hc. rewrite Hc in Ho. destruct Ho as [[Hok' Ht] Ho]. split; [done|].
    split; [intros pon id; by apply lib_in_use_taken|]. cbn [fst]. destruct inst as [inst|].
    + destruct err as [e|]; [done|]. destruct Ho as (Hname & [[a (Hal & Hus & _)] _ _ _ _ _] & _ & Hmap & _).
      apply uniPortName_ok_inv in Hname as (_ & _ & Hu). exists a.
      split_and!; [exact Hus|by eapply alloc_id_source|].
      intros c (m' & uni' & i & Hi & Hia). rewrite Hmap in Hi. apply lookup_insert_Some in Hi as [[E <-]|[_ Hi]].
      * left. injection E as _ E. apply key_inj in E as (-> & -> & ->).
        destruct c as [p a' t' o]; cbn in *. unfold alloc_id in Hia. rewrite Hus in Hia. by injection Hia as <-.
      * right. by exists m', uni', i.
    + destruct err as [e|]; [|done]. destruct Ho as [Hmap _].
      intros c (m' & uni' & i & Hi & Hia). rewrite Hmap in Hi. by exists m', uni', i.
Defined.


End library.

(** ** Witness *)

(** Two ONUs of one PON with two subscribers each, and a template of one T-CONT per
    ONU. *)
Definition sharing_env : Env :=
  library accepting (fun n => Z.of_nat n) (fun n => Z.of_nat n) no_fault "XGS-PON"
    (fun _ => sample_manager) (fun _ _ => Some (sample_template "single-instance")).

Definition sharing_world : @World sharing_env :=
  @Build_World sharing_env []
    [Some {| rm_deviceInfo := sample_deviceInfo 1; rm_intfID := 0; rm_flow_id := 0 |}]
    init_globals 0 [] ∅ [] [] 0%nat 0%nat sample_lib false.

Definition sharing_run : @config sharing_env :=
  schedule (H := sharing_env)
    (Running [provisionONUs (sample_config "ATT" 2 2) (sample_deviceInfo 1)] sharing_world)
    (round_robin 11 90).

(** The ONU, UNI and alloc id of a subscriber. *)
Definition onu_and_alloc (s : Subscriber) : Z * Z * option Z :=
  (OnuID s, UniID s, TpInstance s !! 64 ≫= alloc_id).

