(* ===== verification/Process.v ===== *)
(** * The process (src/main.go)

    The [init] functions of the packages register their loggers; then [main] reads
    the command line, sets up the loggers, runs [OpenOltManager.Start] in a
    goroutine and waits for a signal; a second goroutine turns the signal into an
    exit code.
    [pstep] is one step of one of these goroutines, or of those that [Start]
    leads to, or a signal from outside.  The signal that ends a run is the one
    [provisionONUs] sends to its own process. *)
From stdpp Require Import gmultiset.
From S2P Require Import Prelude Flags Utils Proto Config Runtime Play Judgement Samples TechProfile ResourceManager WorkflowUtils AttWorkflow DtWorkflow TtWorkflow WorkflowManager SubscriberManager OnuManager OltManager Termination WaitGroups Completion Supply Boot ResourceInit Startup EndToEnd Accounting Outcomes.

(** [OtherSignal]: one that [signal.Notify] is not asked for and whose default
    action ends the process. *)
Inductive Signal := SIGHUP | SIGINT | SIGTERM | SIGQUIT | OtherSignal.

#[export] Instance Signal_eq_dec : EqDecision Signal.
Proof. solve_decision. Defined.

Definition notified (s : Signal) : bool := bool_decide (s ∈ [SIGHUP; SIGINT; SIGTERM; SIGQUIT]).

(** The switch of the goroutine of [waitForExit]. *)
Definition exit_code (s : Signal) : Z :=
  match s with
  | SIGHUP | SIGINT | SIGTERM | SIGQUIT => 0
  | OtherSignal => 1
  end.

(** How a process ends: its exit status, or the signal that killed it. *)
Inductive Ending := Exited (status : Z) | KilledBy (s : Signal).

(** [logger.Fatal] exits with status 1, a panic with status 2. *)
Definition panic_status (r : PanicReason) : Z :=
  match r with LogFatal => 1 | _ => 2 end.

(** The packages of the program with an [init] function, in the order they are
    initialised: a package after those it imports. *)
Inductive Package := PkgConfig | PkgCore | PkgMain.

Definition packages : list Package := [PkgConfig; PkgCore; PkgMain].

(** Where the first goroutine is: in the initialisation of these packages, or in
    [main] before the call of that name, with the configuration it has read; or
    waiting for the exit code, or about to return. *)
Inductive MainPoint :=
  | AtInit (todo : list Package)
  | AtParseCommandArguments
  | AtSetDefaultLogger (cf : OpenOltScaleTesterConfig)
  | AtUpdateAllLoggers (cf : OpenOltScaleTesterConfig)
  | AtStart (cf : OpenOltScaleTesterConfig)
  | AtNotify
  | AtExitChannel
  | AtReturn (code : Z).

(** The goroutine of [waitForExit]. *)
Inductive Watcher := NotRunning | Receiving | Sending (code : Z) | Finished.

(** The answers of the logging library. *)
Record Loggers := {
  RegisterPackage : Package -> option GoError;
  SetDefaultLogger : option GoError;
  UpdateAllLoggers : option GoError;
}.

Definition loggers_ok : Loggers :=
  {| RegisterPackage := fun _ => None; SetDefaultLogger := None; UpdateAllLoggers := None |}.

(** The status of a panic that nothing recovers from. *)
Definition init_panic_status : Z := 2.

(** The [init] function of each package, in config.go, common.go and main.go: it
    panics when its logger cannot be registered. *)
Definition init (loggers : Loggers) (pkg : Package) : option Z :=
  match RegisterPackage loggers pkg with
  | Some _ => Some init_panic_status
  | None => None
  end.

Section process.
Context `{BootEnv} `{Env}.

(** The goroutine of [Start], and those it leads to once the services are set up.
    [Panicked]: one of them has panicked.  Its deferred calls are run before the
    runtime ends the process, and the others go on meanwhile, so the signal of
    [provisionONUs] may still be sent: by its own deferred call, or after the
    deferred [Done] of a [DeployWorkflow] has let it return. *)
Inductive StartState :=
  | NotStarted
  | Starting (cf : OpenOltScaleTesterConfig)
  | StartFailed (e : GoError)
  | Working (c : Runtime.config)
  | Panicked (r : PanicReason) (may_signal : bool).

Record Process := {
  pr_main : MainPoint;
  pr_start : StartState;
  pr_signalChannel : option Signal;  (* buffered, of capacity 1 *)
  pr_watcher : Watcher;
}.

Inductive PState := Alive (p : Process) | Ended (e : Ending).

Definition set_main (m : MainPoint) (p : Process) : Process :=
  {| pr_main := m; pr_start := pr_start p; pr_signalChannel := pr_signalChannel p; pr_watcher := pr_watcher p |}.
Definition set_start (s : StartState) (p : Process) : Process :=
  {| pr_main := pr_main p; pr_start := s; pr_signalChannel := pr_signalChannel p; pr_watcher := pr_watcher p |}.
Definition set_channel (s : option Signal) (p : Process) : Process :=
  {| pr_main := pr_main p; pr_start := pr_start p; pr_signalChannel := s; pr_watcher := pr_watcher p |}.
Definition set_watcher (x : Watcher) (p : Process) : Process :=
  {| pr_main := pr_main p; pr_start := pr_start p; pr_signalChannel := pr_signalChannel p; pr_watcher := x |}.

(** [signal.Notify] has been called. *)
Definition notifying (p : Process) : bool :=
  match pr_main p with AtExitChannel | AtReturn _ => true | _ => false end.

(** A signal that is not asked for takes its default action; one that finds the
    channel full is dropped. *)
Definition deliver (s : Signal) (p : Process) : PState :=
  if notifying p && notified s then
    Alive (match pr_signalChannel p with None => set_channel (Some s) p | Some _ => p end)
  else Ended (KilledBy s).

Section steps.
(** What the logging library answers, and the state of the profile managers once
    the services are set up. *)
Variable loggers : Loggers.
Variable profiles : ext -> tp_state.
(** The arguments of the process, and the services at the beginning. *)
Variable arguments : list string.
Variable services : ext.

Definition initial_process : PState :=
  Alive {| pr_main := AtInit packages; pr_start := NotStarted; pr_signalChannel := None;
           pr_watcher := NotRunning |}.

(** The first goroutine; [AtNotify] and [AtExitChannel] are in [waitForExit], which
    [main] calls. *)
Definition main_step (p : Process) : option PState :=
  match pr_main p with
  | AtInit [] => Some (Alive (set_main AtParseCommandArguments p))
  | AtInit (pkg :: todo) =>
      Some (match init loggers pkg with
            | Some status => Ended (Exited status)
            | None => Alive (set_main (AtInit todo) p)
            end)
  | AtParseCommandArguments =>
      Some (match main_config arguments with
            | ParseExit status => Ended (Exited status)
            | ParsedArgs cf _ => Alive (set_main (AtSetDefaultLogger cf) p)
            end)
  | AtSetDefaultLogger cf =>
      Some (match SetDefaultLogger loggers with
            | Some _ => Ended (Exited (panic_status LogFatal))
            | None => Alive (set_main (AtUpdateAllLoggers cf) p)
            end)
  | AtUpdateAllLoggers cf =>
      Some (match UpdateAllLoggers loggers with
            | Some _ => Ended (Exited (panic_status LogFatal))
            | None => Alive (set_main (AtStart cf) p)
            end)
  | AtStart cf => Some (Alive (set_main AtNotify (set_start (Starting cf) p)))
  | AtNotify => Some (Alive (set_main AtExitChannel (set_watcher Receiving p)))
  | AtExitChannel =>
      match pr_watcher p with
      | Sending code => Some (Alive (set_main (AtReturn code) (set_watcher Finished p)))
      | _ => None
      end
  | AtReturn _ => Some (Ended (Exited 0))
  end.

(** The goroutine of [waitForExit]; [main] takes the code from it. *)
Definition watcher_step (p : Process) : option PState :=
  match pr_watcher p, pr_signalChannel p with
  | Receiving, Some s => Some (Alive (set_watcher (Sending (exit_code s)) (set_channel None p)))
  | _, _ => None
  end.

(** [go sc.openOltManager.Start(cf)]: the set-up of the services touches nothing
    of the process.  Its error is dropped. *)
Definition services_step (p : Process) : option PState :=
  match pr_start p with
  | Starting cf =>
      Some (match start_services (OpenOltAgentAddress cf) cf services with
            | (Stops r, _, _) => Ended (Exited (panic_status r))
            | (Continues (inl e), _, _) => Alive (set_start (StartFailed e) p)
            | (Continues (inr s), _, services') =>
                Alive (set_start (Working (Running [start_process cf (st_deviceInfo s)]
                                             (started_world s (profiles services')))) p)
            end)
  | _ => None
  end.

Definition killed (c : Runtime.config) : bool :=
  match c with Running _ w => w_killed w | Crashed _ => false end.

(** A step of the goroutines of [Start], from [c] to [c']: [syscall.Kill] sends
    [SIGINT].  [logger.Fatal] ends the process without the deferred calls. *)
Definition worked (c c' : Runtime.config) (p : Process) : PState :=
  match c' with
  | Crashed LogFatal => Ended (Exited (panic_status LogFatal))
  | Crashed r => Alive (set_start (Panicked r true) p)
  | Running _ _ =>
      let p := set_start (Working c') p in
      if killed c' && negb (killed c) then deliver SIGINT p else Alive p
  end.

(** After a panic: the signal is sent, or the runtime ends the process. *)
Definition deferred_step (p : Process) : option PState :=
  match pr_start p with
  | Panicked r true => Some (deliver SIGINT (set_start (Panicked r false) p))
  | _ => None
  end.
Definition abort_step (p : Process) : option PState :=
  match pr_start p with
  | Panicked r _ => Some (Ended (Exited (panic_status r)))
  | _ => None
  end.

(** The label is the signal from outside, if the step is one. *)
Inductive pstep : option Signal -> PState -> PState -> Prop :=
  | pstep_main p st : main_step p = Some st -> pstep None (Alive p) st
  | pstep_watcher p st : watcher_step p = Some st -> pstep None (Alive p) st
  | pstep_services p st : services_step p = Some st -> pstep None (Alive p) st
  | pstep_work p c c' : pr_start p = Working c -> step c c' -> pstep None (Alive p) (worked c c' p)
  | pstep_deferred p st : deferred_step p = Some st -> pstep None (Alive p) st
  | pstep_abort p st : abort_step p = Some st -> pstep None (Alive p) st
  | pstep_signal s p : pstep (Some s) (Alive p) (deliver s p).

Definition undisturbed : PState -> PState -> Prop := rtc (pstep None).

(** A deterministic scheduler of the whole process. *)
Inductive Turn := TMain | TWatcher | TServices | TWork (i : nat) | TDeferred | TAbort.

Definition turn_step (st : PState) (t : Turn) : PState :=
  match st with
  | Ended _ => st
  | Alive p =>
      match t with
      | TMain => default st (main_step p)
      | TWatcher => default st (watcher_step p)
      | TServices => default st (services_step p)
      | TWork i =>
          match pr_start p with
          | Working (Running pool w) =>
              match pool !! i with
              | Some q => match thread_step q w with
                          | TNext q' w' spawned => worked (Running pool w) (Running (<[i := q']> pool ++ spawned) w') p
                          | TCrash r => worked (Running pool w) (Crashed r) p
                          | _ => st
                          end
              | None => st
              end
          | _ => st
          end
      | TDeferred => default st (deferred_step p)
      | TAbort => default st (abort_step p)
      end
  end.

Definition turns (st : PState) (l : list Turn) : PState := foldl turn_step st l.

Lemma turns_undisturbed st l : undisturbed st (turns st l).
Proof.
  revert st. induction l as [|t l IH]; intros st; [reflexivity|]. unfold turns. cbn [foldl].
  etrans; [|apply IH]. destruct st as [p|e]; [|reflexivity].
  assert (forall o, (forall st, o = Some st -> pstep None (Alive p) st) ->
    undisturbed (Alive p) (default (Alive p) o)) as Ho.
  { intros [st|] Hs; [|reflexivity]. by apply rtc_once, Hs. }
  destruct t as [| | |i| |]; cbn [turn_step].
  - apply Ho. intros st. apply pstep_main.
  - apply Ho. intros st. apply pstep_watcher.
  - apply Ho. intros st. apply pstep_services.
  - destruct (pr_start p) as [| | |[pool w|]|] eqn:Hp; [reflexivity..| |reflexivity|reflexivity].
    destruct (pool !! i) as [q|] eqn:Hq; [|reflexivity].
    destruct (thread_step q w) as [q' w' sp| | |r] eqn:Ht; [|reflexivity..|];
      (apply rtc_once, pstep_work; [done|]; by econstructor).
  - apply Ho. intros st. apply pstep_deferred.
  - apply Ho. intros st. apply pstep_abort.
Qed.

End steps.
End process.

(** ** Lemmas: from start-up to provisioning *)

Section handoff.
Context `{Env}.

Abbreviation plain := (fun q => ~ is_activation q).

(** What the trap flows leave as it is. *)
Record quiet (w w' : World) : Prop := {
  qu_trace : Forall plain (w_trace w) -> Forall plain (w_trace w');
  qu_wgs : w_wgs w' = w_wgs w;
  qu_subs : w_subs w' = w_subs w;
  qu_onus : w_onus w' = w_onus w;
  qu_killed : w_killed w' = w_killed w;
}.

Lemma quiet_refl w : quiet w w.
Proof. by split. Qed.

Lemma quiet_trans w1 w2 w3 : quiet w1 w2 -> quiet w2 w3 -> quiet w1 w3.
Proof. intros [] []. split; [auto|congruence..]. Qed.

Lemma quiet_fresh w w' : quiet w w' -> fresh w -> w_onus w = [] -> fresh w' /\ w_onus w' = [].
Proof. intros [Q1 Q2 Q3 Q4 Q5] [F1 F2 F3 F4] Ho. split; [split|]; [auto|congruence..]. Qed.

Lemma sends_exec {X A} (o : Op X) (k : X -> prog A) w x w' V :
  sends plain (Do o k) V -> exec o w = Done x w' -> sends plain (k x) V /\ quiet w w'.
Proof.
  intros Hp He. cbn [sends] in Hp. destruct o; try done.
  - cbv [exec] in He. injection He as <- <-. destruct Hp as [Hq Hk].
    split; [apply Hk, told_status|]. split; try done. intros Ht. apply Forall_app. by repeat constructor.
  - cbv [exec] in He. injection He as <- <-. split; [|by split].
    apply Hp. intros Hn. by apply Z.mod_pos_bound.
  - unfold exec, with_mgr in He. repeat case_match; try done. injection He as <- <-.
    split; [apply Hp, u64_range|by split].
  - unfold exec, with_mgr in He. repeat case_match; try done. injection He as <- <-. by split; [apply Hp|].
  - cbv [exec] in He. injection He as <- <-. by split; [apply Hp|].
  - cbv [exec] in He. injection He as <- <-. by split; [apply Hp|].
Qed.

Lemma sends_nni_flow mgr pon (flow : Z -> Flow) :
  sends plain ('(flowID, err) ← GetFlowID mgr pon;
            match err with
            | Some e => Ret (Some e)
            | None => err ← op (OpRpc (RpcFlowAdd (flow flowID))); Ret (already_exists_ok err)
            end) (fun _ => True).
Proof. intros id _. by split; [intros []|]. Qed.

Lemma sends_trap_flows config mgr : sends plain (ProvisionNniTrapFlow config mgr) (fun _ => True).
Proof.
  unfold ProvisionNniTrapFlow. repeat case_decide; [..|done].
  - eapply sends_bind; [apply sends_nni_flow|]. intros _ _. apply (sends_bind _ _ _ (fun _ => True)); [done|].
    intros _ _. eapply sends_bind; [apply sends_nni_flow|]. done.
  - eapply sends_bind; [apply sends_nni_flow|]. done.
  - eapply sends_bind; [apply sends_nni_flow|]. done.
Qed.

Context (cfg : OpenOltScaleTesterConfig) (di : DeviceInfo).

(** The phases of the goroutines of [Start], from the store [w0] on. *)
Inductive phase (w0 : World) : Runtime.config -> Prop :=
  | phase_begin : phase w0 (Running [start_process cfg di] w0)
  | phase_trap (x : prog (option GoError)) w :
      sends plain x (fun _ => True) -> quiet w0 w ->
      phase w0 (Running [x ≫= fun _ => Go (provisionONUs cfg di) (Ret tt)] w)
  | phase_provision w pool w' :
      quiet w0 w -> steps (Running [provisionONUs cfg di] w) (Running pool w') ->
      phase w0 (Running (Ret tt :: pool) w')
  | phase_crashed r : phase w0 (Crashed r).

Lemma phase_step w0 c c' : phase w0 c -> step c c' -> phase w0 c'.
Proof.
  intros [|x w Hx Hq|w pool w' Hq Hs|r] Hc.
  - apply single_step in Hc. unfold start_process in Hc. cbn in Hc.
    destruct (exec (OpIndexRsrMgr 0) w0) as [m w1| |] eqn:He; subst; [|done|apply phase_crashed].
    unfold exec in He. destruct (_ && _) in He; [|done]. injection He as <- <-.
    apply phase_trap; [apply sends_trap_flows|apply quiet_refl].
  - apply single_step in Hc. destruct x as [a|r|X o k|? ?]; cbn in Hc; [| | |done].
    + subst c'. apply (phase_provision w0 w [provisionONUs cfg di]); [done|reflexivity].
    + subst. apply phase_crashed.
    + destruct (exec o w) as [y w1| |] eqn:He; subst; [|done|apply phase_crashed].
      destruct (sends_exec o k w y w1 _ Hx He) as [Hk Hq1].
      apply phase_trap; [done|by eapply quiet_trans].
  - inversion Hc as [? ? [|i] q q' w1 sp Hi Hp|? ? [|i] q r Hi Hp]; subst; cbn in Hi;
      [by injection Hi as <-| |by injection Hi as <-|apply phase_crashed].
    apply (phase_provision w0 w); [done|]. eapply rtc_r; [exact Hs|]. by econstructor.
  - inversion Hc.
Qed.

Lemma phase_steps w0 c : steps (Running [start_process cfg di] w0) c -> phase w0 c.
Proof. intros Hs. eapply steps_invariant; [apply phase_step|apply phase_begin|exact Hs]. Qed.

(** When the process has been signalled, provisioning has signalled it. *)
Lemma signalled_by_provisioning w0 pool w' :
  fresh w0 -> w_onus w0 = [] -> steps (Running [start_process cfg di] w0) (Running pool w') ->
  w_killed w' = true ->
  exists w pool', fresh w /\ w_onus w = [] /\ steps (Running [provisionONUs cfg di] w) (Running pool' w').
Proof.
  intros Hf Ho Hs Hk. apply phase_steps in Hs. inversion Hs as [|x w Hx Hq|w pool1 w1 Hq Hs1|]; subst.
  - by rewrite (fr_killed _ Hf) in Hk.
  - by rewrite (qu_killed _ _ Hq), (fr_killed _ Hf) in Hk.
  - destruct (quiet_fresh _ _ Hq Hf Ho). by exists w, pool1.
Qed.

End handoff.

(** ** Lemmas: the process *)

Section run.
Context `{BootEnv} `{Env}.
Variable loggers : Loggers.
Variable profiles : ext -> tp_state.
Variable arguments : list string.
Variable services : ext.
(** The configuration that [main] reads. *)
Variable cf : OpenOltScaleTesterConfig.
Variable ignored : list string.
Hypothesis parsed : main_config arguments = ParsedArgs cf ignored.

Abbreviation internal := (pstep loggers profiles arguments services None).

(** What [Start] begins to work with. *)
Definition work_from (s : Started) (e' : ext) : Runtime.config :=
  Running [start_process cf (st_deviceInfo s)] (started_world s (profiles e')).

Definition begun (c : Runtime.config) : Prop :=
  exists s cs e', start_services (OpenOltAgentAddress cf) cf services = (Continues (inr s), cs, e')
    /\ steps (work_from s e') c.

(** A signal has arrived. *)
Definition in_flight (p : Process) : bool :=
  match pr_signalChannel p, pr_watcher p, pr_main p with
  | Some _, _, _ | _, Sending _, _ | _, _, AtReturn _ => true
  | _, _, _ => false
  end.

Definition signalled (s : StartState) : Prop :=
  exists pool w, s = Working (Running pool w) /\ w_killed w = true.

Definition panicked (s : StartState) : Prop := exists r b, s = Panicked r b.

(** What holds as long as no signal comes from outside. *)
Record coherent (p : Process) : Prop := {
  co_work : forall c, pr_start p = Working c -> begun c /\ exists pool w, c = Running pool w;
  co_panic : forall r b, pr_start p = Panicked r b -> r <> LogFatal /\ begun (Crashed r);
  co_signal : ~ panicked (pr_start p) -> (in_flight p = true <-> signalled (pr_start p));
  co_config : forall c, pr_start p = Starting c -> c = cf;
  co_code : forall s, pr_signalChannel p = Some s -> exit_code s = 0;
  co_main :
    match pr_main p with
    | AtInit _ | AtParseCommandArguments => pr_start p = NotStarted /\ pr_watcher p = NotRunning
    | AtSetDefaultLogger c | AtUpdateAllLoggers c | AtStart c =>
        c = cf /\ pr_start p = NotStarted /\ pr_watcher p = NotRunning
    | AtNotify => pr_start p <> NotStarted /\ pr_watcher p = NotRunning
    | AtExitChannel => pr_start p <> NotStarted /\ (pr_watcher p = Receiving \/ pr_watcher p = Sending 0)
    | AtReturn code => code = 0
    end;
}.

Lemma not_signalled s : (forall c, s = Working c -> killed c = false) -> ~ signalled s.
Proof. intros Hs (pool & w & -> & Hk). specialize (Hs _ eq_refl). cbn in Hs. congruence. Qed.

(** Closes the goals of a [coherent] whose points are known. *)
Ltac coherence := cbn in *; intuition (simplify_eq; auto; congruence).

Lemma initial_coherent : match initial_process with Alive p => coherent p | Ended _ => False end.
Proof. split; cbn; [done|done| |done..]. intros _. split; [done|]. by intros (? & ? & [=] & _). Qed.

Lemma panicked_dec s : panicked s \/ ~ panicked s.
Proof. destruct s; [right..|left; by eexists _, _]; by intros (? & ? & [=]). Qed.

Lemma coherent_main p st :
  coherent p -> main_step loggers arguments p = Some st ->
  match st with
  | Alive p' => coherent p' /\ (pr_start p' = pr_start p \/ pr_start p = NotStarted /\ pr_start p' = Starting cf)
  | Ended e => e = Exited 1 \/ e = Exited init_panic_status
              \/ e = Exited 0 /\ (signalled (pr_start p) \/ panicked (pr_start p))
  end.
Proof.
  intros [C1 CP C2 C3 C4 C5] Hm. destruct p as [m s ch x]. pose proof (panicked_dec s) as Hdec.
  assert (~ signalled NotStarted) as Hns1 by (by apply not_signalled).
  assert (~ signalled (Starting cf)) as Hns2 by (by apply not_signalled).
  assert (~ panicked NotStarted) as Hnp by (by intros (? & ? & [=])).
  destruct m as [[|pkg todo]| | | | | | |code], ch as [sg|], x as [| |code'|]; cbn in *; unfold init in Hm; rewrite ?parsed in Hm;
    try destruct (RegisterPackage loggers pkg);
    repeat match type of Hm with context [match ?e with _ => _ end] => destruct e end;
    destruct_and?; destruct_or?; simplify_eq/=; auto; try tauto;
    (split; [split|]; coherence).
Qed.

Lemma coherent_watcher p st :
  coherent p -> watcher_step p = Some st ->
  exists p', st = Alive p' /\ coherent p' /\ pr_start p' = pr_start p.
Proof.
  intros [C1 CP C2 C3 C4 C5] Hm. destruct p as [m s [sg|] [| |code'|]]; cbn in *; simplify_eq.
  eexists. split_and!; [done| |done]. rewrite (C4 sg eq_refl).
  split; cbn; [done|done|by destruct m|done|done|]. destruct m; coherence.
Qed.

(** The outcome of [start_services]. *)
Lemma coherent_services p st :
  coherent p -> services_step profiles services p = Some st ->
  match start_services (OpenOltAgentAddress cf) cf services with
  | (Stops r, _, _) => st = Ended (Exited (panic_status r))
  | (Continues (inl e), _, _) => exists p', st = Alive p' /\ coherent p' /\ pr_start p' = StartFailed e
  | (Continues (inr s), _, e') =>
      exists p', st = Alive p' /\ coherent p' /\ pr_start p' = Working (work_from s e')
  end.
Proof.
  intros [C1 CP C2 C3 C4 C5] Hm. destruct p as [m s ch x]. unfold services_step in Hm. cbn in Hm.
  destruct s as [|c0|e|c|]; try done. injection Hm as <-. cbn in *. assert (c0 = cf) as -> by by apply C3. clear C3.
  assert (forall s, (forall c, s = Working c -> killed c = false) ->
    (forall c, s = Working c -> begun c /\ exists pool w, c = Running pool w) ->
    (s <> NotStarted /\ (forall c, s <> Starting c) /\ ~ panicked s) ->
    coherent (set_start s {| pr_main := m; pr_start := Starting cf; pr_signalChannel := ch; pr_watcher := x |})) as Hc.
  { intros s Hk Hb (Hn & Hn' & Hp).
    split; cbn; [done|by intros r b ->; destruct Hp; eexists _, _| |by intros c ?%Hn'|done|by destruct m; coherence].
    intros _. split; intros Hf; [|by apply not_signalled in Hf].
    apply C2 in Hf; [by destruct Hf as (? & ? & [=] & _)|by intros (? & ? & [=])]. }
  destruct (start_services _ _ _) as [[[[e|s]|r] cs] e'] eqn:Hs; [..|done];
    (eexists; split_and!; [done| |done]); apply Hc; try done;
    try (split_and!; [done..|by intros (? & ? & [=])]); intros c [= <-]; [done|].
  split; [exists s, cs, e'; split; [done|reflexivity]|by eexists _, _].
Qed.

Lemma coherent_work p c c' :
  coherent p -> pr_start p = Working c -> step c c' ->
  match worked c c' p with
  | Alive p' => coherent p' /\ (pr_start p' = Working c' \/ exists r, c' = Crashed r /\ pr_start p' = Panicked r true)
  | Ended e => (c' = Crashed LogFatal /\ e = Exited 1) \/ e = KilledBy SIGINT
  end.
Proof.
  intros [C1 CP C2 C3 C4 C5] Hp Hs. destruct (C1 c Hp) as [(s & cs & e' & Hb & Hr) (pool & w & ->)].
  destruct p as [m s0 ch x]. cbn in *. subst s0.
  destruct c' as [pool' w'|r].
  2: { assert (r = LogFatal \/ r <> LogFatal) as [->|Hfatal] by (destruct r; auto); [by left|].
    assert (begun (Crashed r)) as Hbr by (exists s, cs, e'; split; [done|by eapply rtc_r]).
    replace (worked _ _ _) with (Alive {| pr_main := m; pr_start := Panicked r true; pr_signalChannel := ch; pr_watcher := x |})
      by by destruct r.
    split; [|right; by exists r].
    split; cbn; [done|by intros r' b [= <- _]| |done|done|destruct m; coherence].
    intros Hn. destruct Hn. by eexists _, _. }
  cbn [worked killed].
  assert (forall r b, Working (Running pool' w') = Panicked r b -> r <> LogFatal /\ begun (Crashed r)) as Hnp by done.
  assert (~ panicked (Working (Running pool w))) as Hnp' by (by intros (? & ? & [=])).
  specialize (C2 Hnp').
  assert (forall c, Working (Running pool' w') = Working c ->
    begun c /\ exists pool w, c = Running pool w) as Hb'.
  { intros c [= <-]. split; [|by eexists _, _]. exists s, cs, e'. split; [done|by eapply rtc_r]. }
  assert (signalled (Working (Running pool w)) <-> w_killed w = true) as E.
  { split; [by intros (? & ? & [= <- <-] & ?)|]. intros ?. by eexists _, _. }
  assert (signalled (Working (Running pool' w')) <-> w_killed w' = true) as E'.
  { split; [by intros (? & ? & [= <- <-] & ?)|]. intros ?. by eexists _, _. }
  pose proof (step_killed _ _ _ _ Hs) as Hmono. rewrite E in C2.
  destruct (w_killed w) eqn:Hk; [rewrite Hmono by done|destruct (w_killed w') eqn:Hk']; cbn.
  - split; [|by left]. split; cbn; [done|done| |done|done|by destruct m; coherence].
    intros _. rewrite E'. split; intros _; [by apply Hmono|by apply C2].
  - unfold deliver. destruct m; cbn; try by right.
    all: destruct ch; (split; [|by left]); split; cbn; try done; rewrite ?E', ?Hk'; try done; coherence.
  - split; [|by left]. split; cbn; [done|done| |done|done|by destruct m; coherence]. intros _. rewrite E'. exact C2.
Qed.

(** The signal of the deferred calls of a panic. *)
Lemma coherent_deferred p st :
  coherent p -> deferred_step p = Some st ->
  match st with
  | Alive p' => coherent p' /\ exists r, pr_start p = Panicked r true /\ pr_start p' = Panicked r false
  | Ended e => e = KilledBy SIGINT
  end.
Proof.
  intros [C1 CP C2 C3 C4 C5] Hd. destruct p as [m s ch x]. unfold deferred_step in Hd. cbn in *.
  destruct s as [| | | |r [|]]; try done. injection Hd as <-.
  assert (forall b, panicked (Panicked r b)) as Hp by (intros b; by eexists _, _).
  assert (forall r' b, Panicked r false = Panicked r' b -> r' <> LogFatal /\ begun (Crashed r')) as HP
    by (intros r' b [= <- _]; by eapply CP).
  unfold deliver. destruct m; cbn; try done.
  all: destruct ch; (split; [|by exists r]); split; cbn; try done;
    try (intros Hn; by destruct (Hn (Hp false))); coherence.
Qed.

(** *** Without signals from outside *)

(** Every undisturbed state is coherent, and a process that has exited with
    status 0 was signalled by its own provisioning, or one of its goroutines has
    panicked. *)
Definition undisturbed_ok (st : PState) : Prop :=
  match st with
  | Alive p => coherent p
  | Ended (Exited 0) =>
      (exists pool w, begun (Running pool w) /\ w_killed w = true)
      \/ exists r, r <> LogFatal /\ begun (Crashed r)
  | Ended _ => True
  end.

Lemma undisturbed_ok_step st st' : undisturbed_ok st -> internal st st' -> undisturbed_ok st'.
Proof.
  intros Hst Hs. inversion Hs as [p ? Hm|p ? Hm|p ? Hm|p c c' Hp Hc|p ? Hm|p ? Hm|]; subst; cbn in Hst.
  - pose proof (coherent_main _ _ Hst Hm) as Ho. destruct st' as [p'|e]; [by apply Ho|].
    destruct Ho as [->|[->|[-> [(pool & w & Hp & Hk)|(r & b & Hp)]]]]; [done..| |].
    + left. exists pool, w. split; [|done]. by apply (co_work _ Hst).
    + right. exists r. by apply (co_panic _ Hst r b).
  - by destruct (coherent_watcher _ _ Hst Hm) as (p' & -> & ? & _).
  - pose proof (coherent_services _ _ Hst Hm) as Ho.
    destruct (start_services _ _ _) as [[[[e|s]|r] cs] e'];
      [destruct Ho as (p' & -> & ? & _)..|subst; by destruct r]; done.
  - pose proof (coherent_work _ _ _ Hst Hp Hc) as Ho.
    destruct (worked c c' p); [by apply Ho|]. by destruct Ho as [[_ ->]| ->].
  - pose proof (coherent_deferred _ _ Hst Hm) as Ho. destruct st' as [p'|e]; [by apply Ho|by subst].
  - unfold abort_step in Hm. destruct (pr_start p) as [| | | |r b] eqn:Hp; try done. injection Hm as <-. by destruct r.
Qed.

Lemma undisturbed_inv (I : PState -> Prop) st st' :
  (forall s s', I s -> internal s s' -> I s') -> I st ->
  undisturbed loggers profiles arguments services st st' -> I st'.
Proof. intros HI Hst Hs. induction Hs; eauto. Qed.

(** *** Every execution ends *)

Definition start_before (s' s : StartState) : Prop :=
  match s, s' with
  | NotStarted, Starting _ => True
  | Starting _, (StartFailed _ | Working _) => True
  | Working c, Working c' => step c c'
  | Working _, Panicked _ true => True
  | Panicked _ true, Panicked _ false => True
  | _, _ => False
  end.

Lemma start_before_wf s : Acc start_before s.
Proof.
  clear cf ignored parsed.
  assert (forall r b, Acc start_before (Panicked r b)) as Hp.
  { intros r [|]; constructor; intros [| |e|c|r' [|]] []; constructor; by intros [| |e|c|r2 [|]]. }
  assert (forall c, Acc start_before (Working c)) as Hw.
  { intros c. induction (step_wf c) as [c _ IH]. constructor.
    intros [| |e|c'|r b] Hs; [destruct Hs..| |apply Hp]. apply IH, Hs. }
  assert (forall e, Acc start_before (StartFailed e)) as Hf by (intros e; constructor; intros [] []).
  assert (forall c, Acc start_before (Starting c)) as Hs.
  { intros cf. constructor. intros [| |e|c|r b] Hr; [destruct Hr|destruct Hr|apply Hf|apply Hw|apply Hp]. }
  destruct s as [| |e|c|r b]; [|apply Hs|apply Hf|apply Hw|apply Hp].
  constructor. intros [| |e|c|r b] Hr; [destruct Hr|apply Hs|destruct Hr..].
Qed.

Definition main_rank (p : Process) : nat :=
  match pr_main p with
  | AtInit todo => 7 + length todo | AtParseCommandArguments => 6
  | AtSetDefaultLogger _ => 5 | AtUpdateAllLoggers _ => 4 | AtStart _ => 3 | AtNotify => 2
  | AtExitChannel => 1 | AtReturn _ => 0
  end.
Definition watcher_rank (p : Process) : nat :=
  match pr_watcher p with NotRunning | Receiving => 1 | Sending _ | Finished => 0 end.

(** [main] gets on, or [Start] does, or the watcher. *)
Lemma internal_decreases p p' :
  internal (Alive p) (Alive p') ->
  (main_rank p' < main_rank p)%nat
  \/ main_rank p' = main_rank p /\ (start_before (pr_start p') (pr_start p)
       \/ pr_start p' = pr_start p /\ (watcher_rank p' < watcher_rank p)%nat).
Proof.
  clear cf ignored parsed.
  intros Hs. inversion Hs as [q ? Hm|q ? Hm|q ? Hm|q c c' Hp Hc|q ? Hm|q ? Hm|]; subst.
  - left. destruct p as [[[|pkg todo]| | | | | | |code] s ch [| |code'|]]; cbn in Hm; repeat case_match;
      simplify_eq; cbn; lia.
  - right. split; [|right]; destruct p as [m s [sg|] [| |code'|]]; cbn in Hm; simplify_eq; [done|].
    split; [done|]. cbn. lia.
  - right. destruct p as [m s ch x]. unfold services_step in Hm. cbn in Hm. destruct s; try done.
    destruct (start_services _ _ _) as [[[[e|s]|r] cs] e']; simplify_eq; by split; [|left].
  - right. destruct p as [m s ch x]. cbn in *. subst s.
    match goal with Hm : worked _ _ _ = _ |- _ => unfold worked, deliver in Hm; cbn in Hm end.
    repeat case_match; simplify_eq; by split; [|left].
  - right. destruct p as [m s ch x]. unfold deferred_step, deliver in Hm. cbn in Hm.
    repeat case_match; simplify_eq; by split; [|left].
  - unfold abort_step in Hm. by destruct (pr_start p).
Qed.

Lemma internal_wf st : Acc (fun s' s => internal s s') st.
Proof.
  assert (forall e, Acc (fun s' s => internal s s') (Ended e)) as He
    by (intros e; constructor; intros s Hs; inversion Hs).
  destruct st as [p|e]; [|done]. revert p.
  assert (forall n, forall s, forall k, forall p, main_rank p = n -> pr_start p = s -> watcher_rank p = k ->
    Acc (fun s' s => internal s s') (Alive p)) as Hwf; [|by intros p; eapply Hwf].
  intros n. induction (lt_wf n) as [n _ IHn]. intros s. induction (start_before_wf s) as [s _ IHs].
  intros k. induction (lt_wf k) as [k _ IHk]. intros p <- <- <-. constructor. intros [p'|e] Hs; [|done].
  apply internal_decreases in Hs as [Hr|[Hr [Hb|[Hst Hx]]]].
  - by eapply IHn.
  - by eapply IHs.
  - by eapply IHk.
Qed.

Lemma internal_can st : (exists st', internal st st') \/ (forall st', ~ internal st st').
Proof.
  destruct st as [p|e]; [|right; intros st' Hs; inversion Hs].
  destruct (main_step loggers arguments p) as [st'|] eqn:Hm; [left; by eexists; apply pstep_main|].
  destruct (watcher_step p) as [st'|] eqn:Hw; [left; by eexists; apply pstep_watcher|].
  destruct (services_step profiles services p) as [st'|] eqn:Hv; [left; by eexists; apply pstep_services|].
  destruct (deferred_step p) as [st'|] eqn:Hd; [left; by eexists; apply pstep_deferred|].
  destruct (abort_step p) as [st'|] eqn:Hab; [left; by eexists; apply pstep_abort|].
  destruct (pr_start p) as [| | |c|] eqn:Hp; try (right; intros st' Hs; inversion Hs; congruence).
  destruct (can_step c) as [[c' Hc]|Hc]; [left; exists (worked c c' p); by apply pstep_work|right].
  intros st' Hs. inversion Hs; subst; try congruence.
  match goal with Hw : pr_start p = Working _ |- _ => rewrite Hp in Hw; injection Hw as <- end. by eapply Hc.
Qed.

(** Where a process that does not get on is. *)
Lemma internal_stuck p :
  coherent p -> (forall st', ~ internal (Alive p) st') ->
  pr_main p = AtExitChannel /\ pr_start p <> NotStarted /\ (forall c, pr_start p <> Starting c)
  /\ ~ panicked (pr_start p) /\ ~ signalled (pr_start p) /\ forall c, pr_start p = Working c -> forall c', ~ step c c'.
Proof.
  intros Hc Hno.
  assert (main_step loggers arguments p = None) as Hm.
  { destruct (main_step _ _ p) as [st'|] eqn:E; [|done]. exfalso. by eapply Hno, pstep_main. }
  assert (watcher_step p = None) as Hw.
  { destruct (watcher_step p) as [st'|] eqn:E; [|done]. exfalso. by eapply Hno, pstep_watcher. }
  pose proof (co_main _ Hc) as Hp. pose proof (co_signal _ Hc) as Hs.
  assert (pr_main p = AtExitChannel /\ in_flight p = false) as [Hmain Hf].
  { destruct p as [[[|pkg todo]| | | | | | |code] s ch x]; cbn in *; try done.
    destruct Hp as [_ [-> | ->]]; [|done]. by destruct ch. }
  assert (~ panicked (pr_start p)) as Hnp.
  { intros (r & b & E). eapply Hno, pstep_abort. unfold abort_step. by rewrite E. }
  rewrite Hmain in Hp. split_and!; [done|apply Hp| |done|rewrite <-(Hs Hnp), Hf; done|].
  - intros c E. destruct (services_step profiles services p) as [st'|] eqn:Hv.
    + by eapply Hno, pstep_services.
    + unfold services_step in Hv. by rewrite E in Hv.
  - intros c E c' Hstep. by eapply Hno, pstep_work.
Qed.

End run.

(** *** Before the services *)

(** What holds of a process whose command line gives no configuration. *)
Definition early `{BootEnv} `{Env} (status : Z) (st : PState) : Prop :=
  match st with
  | Alive p => (pr_main p = AtParseCommandArguments \/ exists todo, pr_main p = AtInit todo)
               /\ pr_start p = NotStarted /\ pr_watcher p = NotRunning
  | Ended e => e = Exited init_panic_status \/ e = Exited status
  end.

Lemma early_step `{BootEnv} `{Env} loggers profiles arguments services status st st' :
  main_config arguments = ParseExit status -> early status st ->
  pstep loggers profiles arguments services None st st' -> early status st'.
Proof.
  intros Ha Hst Hs. inversion Hs as [p ? Hm|p ? Hm|p ? Hm|p c c' Hp Hc|p ? Hm|p ? Hm|]; subst;
    destruct p as [m s ch x]; cbn in *; destruct Hst as ([-> |[todo ->]] & -> & ->); cbn in *; try done.
  - rewrite Ha in Hm. injection Hm as <-. by right.
  - destruct todo as [|pkg todo]; [injection Hm as <-; cbn; auto|].
    unfold init in Hm. destruct (RegisterPackage loggers pkg); injection Hm as <-; cbn; [by left|].
    split; [right; by exists todo|done].
Qed.

(** Until [AtStart] only the first goroutine can move. *)
Lemma inevitable_main `{BootEnv} `{Env} loggers profiles arguments services P m st :
  let p := {| pr_main := m; pr_start := NotStarted; pr_signalChannel := None; pr_watcher := NotRunning |} in
  main_step loggers arguments p = Some st ->
  inevitable (pstep loggers profiles arguments services None) P st ->
  inevitable (pstep loggers profiles arguments services None) P (Alive p).
Proof.
  intros p Hm Hst. apply in_later; [eexists; by apply pstep_main|].
  intros st' Hs. inversion Hs as [q ? Hm'|q ? Hm'|q ? Hm'|q c c' Hp Hc|q ? Hm'|q ? Hm'|]; subst; [|done..].
  rewrite Hm in Hm'. by injection Hm' as <-.
Qed.

(** What ends the process before [Start] is called: an error of [RegisterPackage]
    in an [init], the command line, or an error of the set-up of the loggers. *)
Definition early_status (loggers : Loggers) (arguments : list string) : option Z :=
  if bool_decide (Exists (fun pkg => is_Some (RegisterPackage loggers pkg)) packages)
  then Some init_panic_status
  else match main_config arguments with
       | ParseExit status => Some status
       | ParsedArgs _ _ =>
           if bool_decide (is_Some (SetDefaultLogger loggers) \/ is_Some (UpdateAllLoggers loggers))
           then Some (panic_status LogFatal) else None
       end.

(** When nothing fails after the set-up, the process ends. *)
Lemma process_completes `{BootEnv} `{Supplier} (profiles : ext -> tp_state) (arguments ignored : list string)
    (cf : OpenOltScaleTesterConfig) (services e' : ext) (s : Started) (cs : list BootCall) :
  main_config arguments = ParsedArgs cf ignored ->
  start_services (OpenOltAgentAddress cf) cf services = (Continues (inr s), cs, e') ->
  Forall is_Some (st_rsrMgr s) -> activates_all -> run_ok cf (st_deviceInfo s) ->
  supplies (profiles e') (instances_due cf (st_deviceInfo s)) ->
  inevitable (pstep loggers_ok profiles arguments services None)
    (fun st => st = Ended (Exited 0) \/ st = Ended (KilledBy SIGINT)) initial_process.
Proof.
  intros Ha Hb Hm Hg Hr Hd. destruct (start_services_outcome _ _ _ _ _ _ Hb) as [Hms _].
  apply (inevitable_stuck _ (fun st => match st with
    | Alive p => coherent profiles services cf p
        /\ match pr_start p with
           | StartFailed _ | Panicked _ _ => False
           | Working c => started cf (st_deviceInfo s) c
           | _ => True
           end
    | Ended e => e = Exited 0 \/ e = KilledBy SIGINT
    end)).
  - apply internal_wf.
  - apply internal_can.
  - intros st st' HI Hs. inversion Hs as [p ? Hp|p ? Hp|p ? Hp|p c c' Hp Hc|p ? Hp|p ? Hp|]; subst; destruct HI as [Hc0 Hst].
    + pose proof (coherent_main _ _ _ _ _ _ Ha _ _ Hc0 Hp) as Ho. destruct st' as [p'|e].
      * destruct Ho as [Hc' [->|[_ ->]]]; by split.
      * destruct p as [[[|pkg todo]| | | | | | |code] x ch y]; cbn in Hp; rewrite ?Ha in Hp;
          repeat case_match; simplify_eq; by left.
    + destruct (coherent_watcher _ _ _ _ _ Hc0 Hp) as (p' & -> & Hc' & ->). by split.
    + pose proof (coherent_services _ _ _ _ _ Hc0 Hp) as Ho. rewrite Hb in Ho.
      destruct Ho as (p' & -> & Hc' & ->). split; [done|].
      apply sta_begin. split; [|done]. by apply started_world_ok; [apply Hr|..].
    + rewrite Hp in Hst. pose proof (started_step _ _ Hg Hr _ _ Hst Hc) as Hst'.
      pose proof (coherent_work _ _ _ _ _ _ Hc0 Hp Hc) as Ho.
      assert (forall r, c' <> Crashed r) as Hnc.
      { intros r ->. destruct (started_stuck _ _ Hg Hr _ Hst') as (? & ? & [=] & _). intros c1 Hx. inversion Hx. }
      destruct (worked c c' p) as [p'|e].
      * destruct Ho as [Hc' [->|(r & E & _)]]; [by split|by destruct (Hnc r)].
      * destruct Ho as [[E _]| ->]; [by destruct (Hnc LogFatal)|by right].
    + unfold deferred_step in Hp. by destruct (pr_start p).
    + unfold abort_step in Hp. by destruct (pr_start p).
  - intros [p|e] HI Hno; [|destruct HI as [-> | ->]; auto]. exfalso. destruct HI as [Hc Hst].
    destruct (internal_stuck _ _ _ _ _ _ Hc Hno) as (_ & Hn1 & Hn2 & _ & Hns & Hw).
    destruct (pr_start p) as [| |e|c|] eqn:Hp; [done|by destruct (Hn2 _ eq_refl)|done| |done].
    destruct (started_stuck _ _ Hg Hr _ Hst (Hw c eq_refl)) as (pool & w & -> & _ & _ & Hk).
    apply Hns. by exists pool, w.
  - by split; [apply initial_coherent|].
Qed.

(** ** Properties *)

(** C2. What it means that the program has ended normally: when a process that
    no signal from outside has disturbed exits with status 0, either its arguments
    asked for help, or they gave a configuration and its services were set up; then
    either one of its goroutines has panicked, and the signal its deferred calls led
    to was faster than the end of the process; or provisioning was carried out,
    under some interleaving, to a store in which every activation was accepted by
    the agent, every ONU has its object with reason OK and its configured number of
    subscribers, and each subscriber has its outcome recorded; and unless the
    resource manager refused an id, all the ONUs planned are there: the configured
    number, when that and the number of PON ports are powers of two.  It holds of
    any services, agent and profile manager. *)
Theorem clean_exit `{BootEnv} `{Env} (loggers : Loggers)
    (profiles : ext -> tp_state) (arguments : list string) (services : ext) :
  undisturbed loggers profiles arguments services initial_process (Ended (Exited 0)) ->
  main_config arguments = ParseExit 0
  \/ exists cf ignored s cs e',
    main_config arguments = ParsedArgs cf ignored
    /\ start_services (OpenOltAgentAddress cf) cf services = (Continues (inr s), cs, e')
    /\ ((exists r, r <> LogFatal
           /\ steps (Running [start_process cf (st_deviceInfo s)] (started_world s (profiles e'))) (Crashed r))
        \/ exists pool w,
             steps (Running [start_process cf (st_deviceInfo s)] (started_world s (profiles e'))) (Running pool w)
             /\ provisioned cf (st_deviceInfo s) w
             /\ (ids_given -> NumOfOnu cf < 2 ^ 32 -> 0 < di_PonPorts (st_deviceInfo s) <= NumOfOnu cf ->
                 isPowerOfTwo (NumOfOnu cf) = true -> isPowerOfTwo (di_PonPorts (st_deviceInfo s)) = true ->
                 length (w_onus w) = Z.to_nat (NumOfOnu cf))).
Proof.
  intros Hs. destruct (main_config arguments) as [cf ignored|status] eqn:Ha.
  2: { left. assert (early status (Ended (Exited 0))) as [[=]|[= <-]]; [|done].
    refine (undisturbed_inv _ _ _ _ (early status) _ _ _ _ Hs); [|by split; [right; by eexists|]].
    intros st st'. by apply early_step. }
  right. assert (undisturbed_ok profiles services cf (Ended (Exited 0))) as Hok.
  { refine (undisturbed_inv _ _ _ _ (undisturbed_ok profiles services cf) _ _ _ _ Hs).
    - intros st st'. by eapply undisturbed_ok_step.
    - apply (initial_coherent profiles services cf). }
  destruct Hok as [(pool & w & (s & cs & e' & Hb & Hst) & Hk)|(r & Hr & s & cs & e' & Hb & Hst)];
    exists cf, ignored, s, cs, e'; (split; [done|]); (split; [done|]); [right|left; by exists r].
  exists pool, w. split; [done|].
  assert (fresh (started_world s (profiles e')) /\ w_onus (started_world s (profiles e')) = []) as [Hf Ho]
    by (split; [split|]; [constructor|done..]).
  destruct (signalled_by_provisioning _ _ _ _ _ Hf Ho Hst Hk) as (w0 & pool' & Hf0 & Ho0 & Hs0).
  pose proof (killed_provisioned _ _ _ _ _ Hf0 Ho0 Hs0 Hk) as Hp. split; [done|].
  intros Hids Hn Hp0 Ht1 Ht2. by rewrite (pv_onus _ _ _ Hp), (pv_planned _ _ _ Hp Hids), planned_all.
Qed.

(** C4. From the start of [main] to the end of the process: when the loggers and
    the services can be set up, with a manager for every PON, the agent activates
    every ONU and the profile managers can supply the instances of the run, every
    execution that no signal disturbs ends, with status 0; or with the default action of SIGINT, when the
    goroutine of [Start] has done all its work before [main] has called
    [signal.Notify]. *)
Theorem process_ends `{BootEnv} `{Supplier} (profiles : ext -> tp_state) (arguments ignored : list string)
    (cf : OpenOltScaleTesterConfig) (services e' : ext) (s : Started) (cs : list BootCall) :
  main_config arguments = ParsedArgs cf ignored ->
  start_services (OpenOltAgentAddress cf) cf services = (Continues (inr s), cs, e') ->
  Forall is_Some (st_rsrMgr s) -> activates_all -> run_ok cf (st_deviceInfo s) ->
  supplies (profiles e') (instances_due cf (st_deviceInfo s)) ->
  inevitable (pstep loggers_ok profiles arguments services None)
    (fun st => st = Ended (Exited 0) \/ st = Ended (KilledBy SIGINT)) initial_process.
Proof. apply process_completes. Qed.

(** C36. When [Start] reports an error, because the agent cannot be dialled or
    gives no device information, the program does not notice: every undisturbed
    execution comes to a state in which the error is lost, [main] waits for a
    signal and nothing can move any more. *)
Theorem start_error_waits `{BootEnv} `{Env} (profiles : ext -> tp_state) (arguments ignored : list string)
    (cf : OpenOltScaleTesterConfig) (services e' : ext) (er : GoError) (cs : list BootCall) :
  main_config arguments = ParsedArgs cf ignored ->
  start_services (OpenOltAgentAddress cf) cf services = (Continues (inl er), cs, e') ->
  inevitable (pstep loggers_ok profiles arguments services None)
    (fun st => (exists p, st = Alive p /\ pr_main p = AtExitChannel /\ pr_start p = StartFailed er)
               /\ forall st', ~ pstep loggers_ok profiles arguments services None st st')
    initial_process.
Proof.
  intros Ha Hb.
  apply (inevitable_stuck _ (fun st => match st with
    | Alive p => coherent profiles services cf p
        /\ match pr_start p with StartFailed e => e = er | Working _ | Panicked _ _ => False | _ => True end
    | Ended _ => False
    end)).
  - apply internal_wf.
  - apply internal_can.
  - intros st st' HI Hs. inversion Hs as [p ? Hp|p ? Hp|p ? Hp|p c c' Hp Hc|p ? Hp|p ? Hp|]; subst; destruct HI as [Hc0 Hst].
    + pose proof (coherent_main _ _ _ _ _ _ Ha _ _ Hc0 Hp) as Ho. destruct st' as [p'|e].
      * destruct Ho as [Hc' [->|[_ ->]]]; by split.
      * exfalso. destruct Ho as [->|[->|[-> [(? & ? & E & _)|(? & ? & E)]]]]; [| |by rewrite E in Hst..];
          by destruct p as [[[|pkg todo]| | | | | | |code] x ch []]; cbn in Hp; rewrite ?Ha in Hp.
    + destruct (coherent_watcher _ _ _ _ _ Hc0 Hp) as (p' & -> & Hc' & ->). by split.
    + pose proof (coherent_services _ _ _ _ _ Hc0 Hp) as Ho. rewrite Hb in Ho.
      by destruct Ho as (p' & -> & Hc' & ->).
    + by rewrite Hp in Hst.
    + unfold deferred_step in Hp. by destruct (pr_start p).
    + unfold abort_step in Hp. by destruct (pr_start p).
  - intros [p|e] HI Hno; [|done]. split; [|done]. destruct HI as [Hc Hst].
    destruct (internal_stuck _ _ _ _ _ _ Hc Hno) as (Hmain & Hn1 & Hn2 & _ & _ & _).
    exists p. split_and!; [done..|]. destruct (pr_start p); try done; [by destruct (Hn2 _ eq_refl)|by subst].
  - by split; [apply initial_coherent|].
Qed.

(** C35. Before [Start], nothing is left to the scheduler: an error of a package's
    [init] ends the process with status 2, arguments that are refused or ask for
    help with the status of package flag, an error of the loggers' set-up with
    status 1; otherwise [Start] is called with the configuration of the
    arguments. *)
Theorem early_outcome `{BootEnv} `{Env} (loggers : Loggers) (profiles : ext -> tp_state)
    (arguments : list string) (services : ext) :
  inevitable (pstep loggers profiles arguments services None)
    (fun st => match early_status loggers arguments with
               | Some status => st = Ended (Exited status)
               | None => exists p cf ignored, st = Alive p /\ pr_start p = Starting cf
                           /\ main_config arguments = ParsedArgs cf ignored
               end)
    initial_process.
Proof.
  unfold early_status, packages. rewrite !bool_decide_decide.
  destruct (RegisterPackage loggers PkgConfig) as [e|] eqn:E1.
  { rewrite decide_True by (apply Exists_cons; left; by rewrite E1).
    eapply inevitable_main; [cbn; unfold init; by rewrite E1|by apply in_now]. }
  eapply inevitable_main; [cbn; unfold init; by rewrite E1|].
  destruct (RegisterPackage loggers PkgCore) as [e|] eqn:E2.
  { rewrite decide_True by (rewrite !Exists_cons, E2; auto).
    eapply inevitable_main; [cbn; unfold init; by rewrite E2|by apply in_now]. }
  eapply inevitable_main; [cbn; unfold init; by rewrite E2|].
  destruct (RegisterPackage loggers PkgMain) as [e|] eqn:E3.
  { rewrite decide_True by (rewrite !Exists_cons, E3; auto).
    eapply inevitable_main; [cbn; unfold init; by rewrite E3|by apply in_now]. }
  rewrite decide_False by (rewrite !Exists_cons, E1, E2, E3, Exists_nil; intros Hx; destruct_or! Hx; by destruct Hx).
  do 2 (eapply inevitable_main; [cbn; unfold init; rewrite ?E3; done|]).
  destruct (main_config arguments) as [cf ignored|status] eqn:Ha;
    (eapply inevitable_main; [cbn; by rewrite Ha|]); [|by apply in_now].
  destruct (SetDefaultLogger loggers) as [e|] eqn:E4.
  { rewrite decide_True by auto. eapply inevitable_main; [cbn; by rewrite E4|by apply in_now]. }
  eapply inevitable_main; [cbn; by rewrite E4|].
  destruct (UpdateAllLoggers loggers) as [e|] eqn:E5.
  { rewrite decide_True by auto. eapply inevitable_main; [cbn; by rewrite E5|by apply in_now]. }
  rewrite decide_False by (intros [[]|[]]; done).
  eapply inevitable_main; [cbn; by rewrite E5|]. eapply inevitable_main; [done|].
  apply in_now. by eexists _, cf, ignored.
Qed.

(** ** Witnesses *)

(** The last part of [args] and what it gives. *)
Definition sample_args (wf onus subscribers : string) : list string :=
  ["--workflow_name=" +:+ wf; "--num_of_onu=" +:+ onus; "--subscribers_per_onu"; subscribers].

Definition sample_turns (work : list nat) : list Turn :=
  replicate 9 TMain ++ [TServices] ++ (TWork <$> work) ++ [TWatcher; TMain; TMain].

(** One ONU with a subscriber of the DT workflow. *)
Lemma clean_exit_witness :
  let arguments := sample_args "DT" "1" "1" in
  main_config arguments = ParseExit 0
  \/ exists cf ignored s cs e',
    main_config arguments = ParsedArgs cf ignored
    /\ start_services (H := sample_services (sample_olt 1)) (OpenOltAgentAddress cf) cf tt
      = (Continues (inr s), cs, e')
    /\ ((exists r, r <> LogFatal
           /\ steps (H := sample_env accepting) (Running [start_process cf (st_deviceInfo s)]
                (started_world s (1 : tp_state (Env := sample_env accepting)))) (Crashed r))
        \/ exists pool w,
             steps (H := sample_env accepting) (Running [start_process cf (st_deviceInfo s)]
               (started_world s (1 : tp_state (Env := sample_env accepting)))) (Running pool w)
             /\ provisioned (H := sample_env accepting) cf (st_deviceInfo s) w
             /\ (ids_given (H := sample_env accepting) -> NumOfOnu cf < 2 ^ 32 ->
                 0 < di_PonPorts (st_deviceInfo s) <= NumOfOnu cf ->
                 isPowerOfTwo (NumOfOnu cf) = true -> isPowerOfTwo (di_PonPorts (st_deviceInfo s)) = true ->
                 length (w_onus (H := sample_env accepting) w) = Z.to_nat (NumOfOnu cf))).
Proof.
  intros arguments.
  apply (clean_exit (H := sample_services (sample_olt 1)) (H0 := sample_env accepting) loggers_ok
    (fun _ => (1 : tp_state (Env := sample_env accepting))) arguments tt).
  assert (turns (H := sample_services (sample_olt 1)) (H0 := sample_env accepting) loggers_ok
    (fun _ => (1 : tp_state (Env := sample_env accepting))) arguments tt initial_process
    (sample_turns (round_robin 6 60)) = Ended (Exited 0)) as <- by (vm_compute; reflexivity).
  apply turns_undisturbed.
Defined.

(** The second batch of 8 ONUs on one PON panics; the deferred call of
    [provisionONUs] sends the signal, and [main] may be faster than the end of the
    process: then the status is 0. *)
Example panic_exits_0 :
  turns (H := sample_services (sample_olt 1)) (H0 := sample_env accepting) loggers_ok
    (fun _ => (1 : tp_state (Env := sample_env accepting))) (sample_args "ATT" "8" "1") tt initial_process
    (replicate 9 TMain ++ [TServices] ++ (TWork <$> round_robin 30 100) ++ [TDeferred; TWatcher; TMain; TMain])
  = Ended (Exited 0).
Proof. vm_compute. reflexivity. Qed.

Lemma process_ends_witness :
  inevitable
    (pstep (H := sample_services (sample_olt 2)) (H0 := sample_env accepting) loggers_ok
       (fun _ => (1 : tp_state (Env := sample_env accepting))) (sample_args "TT" "0x8" "3") tt None)
    (fun st => st = Ended (Exited 0) \/ st = Ended (KilledBy SIGINT)) initial_process.
Proof.
  assert (main_config (sample_args "TT" "0x8" "3") = ParsedArgs (sample_config "TT" 8 3) []) as Ha
    by (vm_compute; reflexivity).
  assert (start_services (H := sample_services (sample_olt 2))
    (OpenOltAgentAddress (sample_config "TT" 8 3)) (sample_config "TT" 8 3) tt
    = (Continues (inr _), _, tt)) as Hs by (vm_compute; reflexivity).
  apply (process_ends (H1 := sample_supplier) _ _ _ _ _ _ _ _ Ha Hs);
    [repeat constructor; by eexists|done| |done].
  split; [split; [done|]|done|done|].
  - apply elem_of_cons; right. apply elem_of_cons; right. apply elem_of_cons; by left.
  - intros per [= <-]. by vm_compute.
Defined.

(** An agent that cannot be dialled. *)
Definition unreachable : BootEnv :=
  {| ext := unit; PONResourceManager := unit; TechProfileIf := unit; EtcdClient := unit;
     File := unit; TechProfile := unit; Bytes := unit; KVValue := unit;
     grpc_Dial := fun _ e => (Some (ErrorsNew "connection refused"), e);
     GetDeviceInfo := fun e => ((None, None), e);
     NewEtcdClient := fun _ e => ((Some tt, None), e);
     os_Open := fun _ e => ((tt, None), e);
     jsonpb_Unmarshal := fun _ e => ((tt, None), e);
     json_Marshal := fun _ => tt;
     etcd_Put := fun _ _ _ e => (None, e);
     etcd_Get := fun _ _ e => (Some tt, e);
     kvstore_ToByte := fun _ => Some tt;
     json_Unmarshal := fun _ => None;
     NewPONResourceManager := fun _ _ e => ((Some tt, None), e);
     InitDefaultPONResourceRanges := fun _ _ e => e;
     InitDeviceResourcePoolForIntf := fun _ _ e => (None, e);
     NewTechProfile := fun _ _ e => ((Some tt, None), e);
     ClearDeviceResourcePool := fun _ e => (None, e) |}.

Lemma start_error_waits_witness :
  inevitable
    (pstep (H := unreachable) (H0 := sample_env accepting) loggers_ok
       (fun _ => (1 : tp_state (Env := sample_env accepting))) [] tt None)
    (fun st => (exists p, st = Alive p /\ pr_main p = AtExitChannel
                /\ pr_start p = StartFailed (ErrorsNew "connection refused"))
               /\ forall st', ~ pstep (H := unreachable) (H0 := sample_env accepting) loggers_ok
                    (fun _ => (1 : tp_state (Env := sample_env accepting))) [] tt None st st')
    initial_process.
Proof.
  apply (start_error_waits (H := unreachable) (H0 := sample_env accepting)
    (fun _ => (1 : tp_state (Env := sample_env accepting))) [] [] (configured no_flags) tt tt
    (ErrorsNew "connection refused") [CallDial "10.90.0.114:9191"]);
    vm_compute; reflexivity.
Defined.
