(* ===== verification/Capacity.v ===== *)
(** * When the library can supply a run

    The pools of voltha-lib-go have room for a run when they have enough free ids:
    an alloc id and the gem ports of the largest template for each instance of a
    PON.  With a store that works and templates that are complete, the library of
    TechInstance then supplies what the program needs ([library_supplier]), and the
    process ends whatever the scheduler does. *)
From S2P Require Import Prelude Flags Utils Proto Config Runtime Judgement Samples TechProfile ResourceManager WorkflowUtils WorkflowManager SubscriberManager OnuManager OltManager Termination WaitGroups Completion Supply Boot ResourceInit Startup EndToEnd Identity IdPool GemPorts TechInstance Process.

#[local] Arguments Len m : simpl never.
#[local] Arguments Get m i : simpl never.
#[local] Arguments Set_ m i v : simpl never.

(** ** Free ids *)

Definition free (r : Resource) : nat :=
  length (filter (fun i => Get (POOL r) i = false) (seq 0 (Len (POOL r)))).

Lemma filter_one_less {A} (P P' : A -> Prop) `{!forall x, Decision (P x)} `{!forall x, Decision (P' x)} (l : list A) k :
  NoDup l -> k ∈ l -> P k -> (forall x, P' x <-> x <> k /\ P x) ->
  S (length (filter P' l)) = length (filter P l).
Proof.
  intros Hn Hk HP HP'. apply elem_of_Permutation in Hk as [l' Hl]. rewrite Hl in Hn |- *.
  apply NoDup_cons in Hn as [Hk _]. rewrite !filter_cons, (decide_True (P := P k)) by done.
  rewrite decide_False by (rewrite HP'; tauto). cbn. do 2 f_equal. clear Hl.
  induction l' as [|x l' IH]; [done|]. rewrite not_elem_of_cons in Hk. destruct Hk as [Hx Hk].
  rewrite !filter_cons, IH by done. destruct (decide (P x)) as [Hy|Hy].
  - rewrite decide_True; [done|]. apply HP'. auto.
  - rewrite decide_False; [done|]. rewrite HP'. tauto.
Qed.

Lemma free_take r k :
  pool_ok r -> (k < Len (POOL r))%nat -> Get (POOL r) k = false ->
  S (free (set_POOL (Set_ (POOL r) k true) r)) = free r.
Proof.
  intros Hr Hk Hg. unfold free. cbn [POOL set_POOL]. rewrite Set_Len.
  apply (filter_one_less _ _ _ k); [apply NoDup_seq|apply elem_of_seq; lia|done|].
  intros x. rewrite Get_Set by (done || apply Hr). case_decide; naive_solver.
Qed.

Lemma free_none r : (forall j, (j < Len (POOL r))%nat -> Get (POOL r) j = true) -> free r = 0%nat.
Proof.
  intros Hall. unfold free. assert (forall l, (forall j, j ∈ l -> Get (POOL r) j = true) ->
    filter (fun i => Get (POOL r) i = false) l = []) as Hl.
  { induction l as [|j l IH]; intros Hl; [done|]. rewrite filter_cons, decide_False by (rewrite Hl by left; done).
    apply IH. intros i Hi. apply Hl. by right. }
  rewrite Hl; [done|]. intros j Hj%elem_of_seq. apply Hall. lia.
Qed.

(** As many ids as there are free ones. *)
Lemma generate_ids_room n r acc :
  pool_ok r -> (n <= free r)%nat ->
  exists ids r', generate_ids n (Some r) acc = ((acc ++ ids, None), Some r') /\ length ids = n
    /\ pool_ok r' /\ (free r' + n = free r)%nat.
Proof.
  revert r acc. induction n as [|n IH]; intros r acc Hr Hn.
  { exists [], r. rewrite app_nil_r. split_and!; [done..|lia]. }
  destruct (generate_cases r) as [Hbelow [[Hk _]|(Hk & Hg & Hgen)]].
  { rewrite free_none in Hn; [lia|]. intros j Hj. apply Hbelow. lia. }
  set (k := first_clear _ _ _) in *. pose proof (free_take r k Hr Hk Hg) as Hf.
  destruct (IH (set_POOL (Set_ (POOL r) k true) r) (acc ++ [id_at r k])) as (ids & r' & Hgo & Hl & Hok & Hfr);
    [by apply pool_ok_set|lia|].
  exists (id_at r k :: ids), r'. cbn [generate_ids]. rewrite Hgen, Hgo, <-app_assoc. split_and!; [done|cbn; lia|done|lia].
Qed.

(** ** Computations that return *)

Definition yields {A} (m : lib A) (st : LibState) (Q : A -> LibState -> Prop) : Prop :=
  exists a st', m st = (inr a, st') /\ Q a st'.

Lemma yields_ret {A} (a : A) st (Q : A -> LibState -> Prop) : Q a st -> yields (mret a) st Q.
Proof. intros HQ. by exists a, st. Qed.

Lemma yields_bind {A B} (m : lib A) (f : A -> lib B) st (Q : B -> LibState -> Prop) :
  yields m st (fun a st' => yields (f a) st' Q) -> yields (m ≫= f) st Q.
Proof. intros (a & st' & Hm & Hf). unfold yields, mbind, lib_bind. by rewrite Hm. Qed.

Lemma yields_mono {A} (m : lib A) st (Q Q' : A -> LibState -> Prop) :
  yields m st Q -> (forall a st', Q a st' -> Q' a st') -> yields m st Q'.
Proof. intros (a & st' & Hm & Ha) HQ. exists a, st'. auto. Qed.

Lemma yields_assoc {A B C} (m : lib A) (f : A -> lib B) (g : B -> lib C) st (Q : C -> LibState -> Prop) :
  yields ((m ≫= f) ≫= g) st Q -> yields (m ≫= fun a => f a ≫= g) st Q.
Proof. unfold yields, mbind, lib_bind. by destruct (m st) as [[r|a] st']. Qed.

Lemma yields_deref {A} (p : option A) st (Q : A -> LibState -> Prop) :
  is_Some p -> (forall a, p = Some a -> Q a st) -> yields (lib_deref p) st Q.
Proof. intros [a ->] HQ. by apply yields_ret, HQ. Qed.

Lemma yields_index {A} (l : list A) i st (Q : A -> LibState -> Prop) :
  (i < length l)%nat -> (forall a, l !! i = Some a -> Q a st) -> yields (lib_index l i) st Q.
Proof. intros [a Ha]%lookup_lt_is_Some_2 HQ. unfold lib_index. rewrite Ha. by apply yields_ret, HQ. Qed.

Lemma yields_number_gems n ids attrs st (Q : list GemPortAttributes -> LibState -> Prop) :
  (n <= length ids)%nat -> (n <= length attrs)%nat -> (forall l, Q l st) -> yields (number_gems n ids attrs) st Q.
Proof.
  intros Hi Ha HQ. unfold number_gems.
  assert (forall l k (Q : list GemPortAttributes -> LibState -> Prop), (k + l <= n)%nat -> (forall r, Q r st) ->
    yields (mapM (fun index => id ← lib_index ids index; a ← lib_index attrs index; mret (unicast_gem id a)) (seq k l)) st Q) as Hgo.
  2: { apply Hgo; [lia|done]. }
  clear Q HQ. induction l as [|l IH]; intros k Q Hk HQ; cbn [seq mapM]; [by apply yields_ret|].
  apply yields_bind, yields_bind, yields_index; [lia|]. intros id _.
  apply yields_bind, yields_index; [lia|]. intros a _. apply yields_ret, yields_bind, IH; [lia|].
  intros r. apply yields_ret, HQ.
Qed.

(** ** Pools with room *)

Section stock.
Variable kv_fault : nat -> option (GoError * bool).
Variable technology : string.
Variable managers : nat -> PoolManager.
Variable templates : nat -> Z -> option TechProfile.
(** The gem ports of the largest template. *)
Variable gems : nat.

Hypothesis same_pools : forall m m' j t, GetPath (managers m) j t = GetPath (managers m') j t.
Hypothesis no_faults : forall n, kv_fault n = None.

(** The PONs of [D] whose pool is at [P]: a shared pool serves several. *)
Definition demand_at (t : ResourceType) (D : list Z) (P : string) : nat :=
  length (filter (fun j => GetPath (managers 0) j t = Some P) D).

(** The pools of a type have [each] ids for every element of [D]. *)
Definition stocked (t : ResourceType) (each : nat) (kv : KVStore) (D : list Z) : Prop :=
  forall j P, j ∈ D -> GetPath (managers 0) j t = Some P ->
    exists r, kv_data kv !! P = Some r /\ (each * demand_at t D P <= free r)%nat.

Lemma demand_at_sub t D D' P : D' ⊆+ D -> (demand_at t D' P <= demand_at t D P)%nat.
Proof.
  intros [l Hl]%submseteq_Permutation. unfold demand_at. rewrite Hl, filter_app, length_app. lia.
Qed.

Lemma stocked_sub t each kv D D' : D' ⊆+ D -> stocked t each kv D -> stocked t each kv D'.
Proof.
  intros HD Hs j P Hj HP. destruct (Hs j P) as (r & Hr & Hf); [by eapply elem_of_submseteq|done|].
  exists r. split; [done|]. pose proof (demand_at_sub t D D' P HD). nia.
Qed.

Lemma stocked_kept t each kv kv' D : kept managers t kv kv' -> stocked t each kv D -> stocked t each kv' D.
Proof. intros Hk Hs j P Hj HP. rewrite (Hk 0%nat j P HP). by apply (Hs j P). Qed.

(** An instance takes its part. *)
Lemma stocked_take t each j D kv kv' P r r' :
  stocked t each kv (j :: D) -> GetPath (managers 0) j t = Some P -> kv_data kv !! P = Some r ->
  kv_data kv' = <[P := r']> (kv_data kv) -> (free r <= free r' + each)%nat -> stocked t each kv' D.
Proof.
  intros Hs HP Hr Hkv Hf j' P' Hj' HP'. destruct (Hs j' P') as (r0 & Hr0 & Hfree); [by right|done|].
  unfold demand_at in Hfree. rewrite filter_cons in Hfree. fold (demand_at t D P') in Hfree. rewrite Hkv.
  destruct (decide (P = P')) as [<-|Hne].
  - rewrite decide_True in Hfree by done. cbn in Hfree. exists r'. rewrite lookup_insert_eq. split; [done|].
    assert (r0 = r) as -> by congruence. unfold demand_at in *. nia.
  - rewrite decide_False in Hfree by congruence. exists r0. by rewrite lookup_insert_ne.
Qed.

(** The part of the first element of the list is there. *)
Lemma stocked_first t each j D kv P :
  stocked t each kv (j :: D) -> GetPath (managers 0) j t = Some P ->
  exists r, kv_data kv !! P = Some r /\ (each <= free r)%nat.
Proof.
  intros Hs HP. destruct (Hs j P) as (r & Hr & Hf); [by left|done|]. exists r. split; [done|].
  unfold demand_at in Hf. rewrite filter_cons, decide_True in Hf by done. cbn in Hf. nia.
Qed.

(** A request for ids when there is room for it. *)
Lemma yields_get t m j n each D st (Q : list Z * option GoError -> LibState -> Prop) :
  t = ALLOC_ID \/ t = GEMPORT_ID -> 1 <= n <= Z.of_nat each ->
  store_ok (ls_kv st) -> stocked t each (ls_kv st) (j :: D) ->
  (forall ids kv', length ids = Z.to_nat n -> store_ok kv' -> stocked t each kv' D ->
     (forall t', t' <> t -> kept managers t' (ls_kv st) kv') -> Q (ids, None) (set_kv kv' st)) ->
  yields (on_kv (TechProfileMgr_GetResourceID kv_fault (managers m) j t n)) st Q.
Proof.
  intros Ht Hn Hok Hs HQ. assert (exists P, GetPath (managers m) j t = Some P) as [P HP]
    by (destruct Ht as [-> | ->]; by eexists).
  pose proof HP as HP0. rewrite (same_pools m 0) in HP0. destruct (stocked_first _ _ _ _ _ _ Hs HP0) as (r & Hr & Hf).
  destruct (generate_ids_room (Z.to_nat n) r []) as (ids & r' & Hg & Hl & Hr' & Hfr); [by apply (Hok P)|lia|].
  set (kv' := {| kv_data := <[P := r']> (kv_data (ls_kv st)); kv_calls := S (S (kv_calls (ls_kv st))) |}).
  assert (TechProfileMgr_GetResourceID kv_fault (managers m) j t n (ls_kv st) = ((ids, None), kv')) as He.
  { assert (PONRMgr_GetResourceID kv_fault (managers m) j t n (ls_kv st) = ((ids, None), kv')) as He;
      [|by destruct Ht as [-> | ->]; cbn; rewrite He].
    unfold PONRMgr_GetResourceID. assert ((n <? 1) = false) as -> by lia. rewrite HP. unfold kv_Get. rewrite no_faults, Hr.
    assert (take_ids t (Z.to_nat n) (Some r) None = ((ids, None), Some r')) as -> by (destruct Ht as [-> | ->]; exact Hg).
    unfold kv_Put. cbn. by rewrite no_faults. }
  exists (ids, None), (set_kv kv' st). split; [by unfold on_kv; rewrite He|]. apply HQ; [done|..].
  - by apply map_Forall_insert_2.
  - eapply (stocked_take _ _ _ _ _ _ P r r'); try done. lia.
  - intros t' Hne m' j' P' HP'. cbn. rewrite lookup_insert_ne; [done|]. intros ->.
    apply Hne. by eapply paths_apart.
Qed.

(** *** Creating an instance *)

Record template_ok (tp : TechProfile) : Prop := {
  to_control : is_Some (tpl_InstanceControl tp);
  to_us : is_Some (tpl_UsScheduler tp);
  to_ds : is_Some (tpl_DsScheduler tp);
  to_gems : 1 <= tpl_NumGemPorts tp <= Z.of_nat gems;
  to_up : tpl_NumGemPorts tp <= Z.of_nat (length (tpl_UpstreamGemPortAttributeList tp));
  to_down : unicast_attrs tp = [] \/ tpl_NumGemPorts tp <= Z.of_nat (length (unicast_attrs tp));
}.

Hypothesis templates_ok : forall n tpID tp, templates n tpID = Some tp -> template_ok tp.
Hypothesis gems_pos : (0 < gems)%nat.

(** The state can supply an instance for each element of [D]. *)
Record room (st : LibState) (D : list Z) : Prop := {
  rm_store : store_ok (ls_kv st);
  rm_alloc : stocked ALLOC_ID 1 (ls_kv st) D;
  rm_gems : stocked GEMPORT_ID gems (ls_kv st) D;
  rm_templates : map_Forall (fun _ => template_ok) (ls_tpMap st);
  rm_instances : map_Forall (fun _ => tp_ok) (ls_tpInstanceMap st);
}.

Lemma room_sub st D D' : D' ⊆+ D -> room st D -> room st D'.
Proof. intros HD [H1 H2 H3 H4 H5]. split; try done; by eapply stocked_sub. Qed.

(** Pools that are kept, and the same caches. *)
Lemma room_kept st st' D :
  store_ok (ls_kv st') -> kept managers ALLOC_ID (ls_kv st) (ls_kv st') -> kept managers GEMPORT_ID (ls_kv st) (ls_kv st') ->
  ls_tpMap st' = ls_tpMap st -> ls_tpInstanceMap st' = ls_tpInstanceMap st -> room st D -> room st' D.
Proof.
  intros Hok Ha Hg Hm Hi [H1 H2 H3 H4 H5]. split; rewrite ?Hm, ?Hi; try done; by eapply stocked_kept.
Qed.

Lemma room_same st st' D :
  kv_data (ls_kv st') = kv_data (ls_kv st) -> ls_tpMap st' = ls_tpMap st ->
  ls_tpInstanceMap st' = ls_tpInstanceMap st -> room st D -> room st' D.
Proof.
  intros Hk Hm Hi Hr. apply (room_kept st); try done; [|by apply kept_same..].
  unfold store_ok. rewrite Hk. apply Hr.
Qed.

Lemma default_ok : template_ok getDefaultTechProfile.
Proof. split; try (by eexists); cbn; try lia. right. done. Qed.

Lemma yields_template m tpID st D :
  room st D ->
  yields (found ← getTPFromKVStore kv_fault templates m tpID; choose_template found) st
    (fun tp st' => template_ok tp /\ room st' D).
Proof.
  intros Hr. apply yields_bind, yields_bind. exists (ls_tpMap st !! (m, tpID)), st. split; [done|].
  assert (forall o st', room st' D -> (forall tp, o = Some tp -> template_ok tp) ->
    yields (choose_template o) st' (fun tp st' => template_ok tp /\ room st' D)) as Hch.
  { intros [tp|] st' Hr' Ho; [|apply yields_ret; by split; [apply default_ok|]].
    apply yields_bind, yields_deref; [by apply Ho|]. intros ic _.
    destruct (validateInstanceControlAttr ic); apply yields_ret; (split; [|done]); [apply default_ok|by apply Ho]. }
  destruct (ls_tpMap st !! (m, tpID)) as [tp|] eqn:Htp.
  - apply yields_ret, Hch; [done|]. intros tp' [= <-]. by apply (rm_templates _ _ Hr) in Htp.
  - eexists _, _. split; [done|]. rewrite no_faults. apply Hch; [by apply (room_same st)|]. intros tp. apply templates_ok.
Qed.

(** The alloc id leaves the gem ports their room. *)
Lemma yields_alloc m j tp path st D (Q : list Z * option GoError -> LibState -> Prop) :
  template_ok tp -> room st (j :: D) ->
  (forall a kv', room (set_kv kv' st) D -> stocked GEMPORT_ID gems kv' (j :: D) -> Q ([a], None) (set_kv kv' st)) ->
  yields (choose_alloc_id kv_fault managers m j tp path) st Q.
Proof.
  intros Ht Hr HQ. apply yields_bind, yields_deref; [apply Ht|]. intros ic _.
  assert (D ⊆+ j :: D) as HD by by apply submseteq_cons.
  assert (yields (take_alloc_id kv_fault managers m j) st Q) as Htake.
  { eapply (yields_get ALLOC_ID _ _ _ 1 D); [by left|done|apply Hr..|]. intros ids kv' Hl Hok Hs Hk.
    destruct ids as [|a [|]]; try done. apply HQ; [|by eapply stocked_kept; [apply Hk|apply Hr]].
    destruct (room_sub _ _ _ HD Hr) as [H1 H2 H3 H4 H5]. split; try done. by eapply stocked_kept; [apply Hk|]. }
  destruct (bool_decide (ic_Onu ic = "multi-instance")); [done|].
  apply yields_bind. exists (getSingleInstanceTp m path st), st. split; [done|].
  destruct (getSingleInstanceTp m path st) as [other|] eqn:Ho; [|done].
  assert (tp_ok other) as [Hus _].
  { unfold getSingleInstanceTp in Ho. apply head_Some_elem_of, list_elem_of_omap in Ho as (i & _ & Hi).
    by apply (rm_instances _ _ Hr) in Hi. }
  apply yields_bind, yields_deref; [done|]. intros s _. apply yields_ret.
  assert (st = set_kv (ls_kv st) st) as Est by by destruct st.
  rewrite Est. apply HQ; [rewrite <-Est; by eapply room_sub|apply Hr].
Qed.

Lemma yields_allocate m name tp j path st D :
  template_ok tp -> room st (j :: D) ->
  yields (allocateTPInstance kv_fault managers m name tp j path) st
    (fun o st' => exists inst, o = Some inst /\ tp_ok inst /\ room st' D).
Proof.
  intros Ht Hr. apply yields_bind, (yields_alloc _ _ _ _ _ D); [done..|]. intros a kv1 Hr1 Hg1.
  pose proof (to_gems _ Ht) as Hn. pose proof (to_up _ Ht) as Hup.
  apply yields_bind. eapply (yields_get GEMPORT_ID _ _ _ gems D); [by right|done|apply Hr1|done|].
  intros ids kv2 Hl Hok Hs Hk. cbn [ls_kv set_kv] in *.
  apply yields_bind, yields_number_gems; [lia..|]. intros up.
  apply yields_bind. eapply (yields_mono _ _ (fun _ st' => st' = set_kv kv2 (set_kv kv1 st))).
  { fold (unicast_attrs tp). destruct (unicast_attrs tp) as [|u us] eqn:Eu; [by apply yields_ret|].
    destruct (to_down _ Ht) as [Hd|Hd]; [congruence|]. rewrite Eu in Hd. by apply yields_number_gems; [lia|cbn in *; lia|]. }
  intros dn st' ->. apply yields_bind, yields_index; [cbn; lia|]. intros a' _.
  apply yields_bind, yields_deref; [apply Ht|]. intros us _. apply yields_bind, yields_deref; [apply Ht|]. intros ds _.
  apply yields_ret. eexists. split_and!; [done|by split; eexists|].
  destruct Hr1 as [R1 R2 R3 R4 R5]. split; try done. by eapply stocked_kept; [apply Hk|].
Qed.

Lemma yields_create m tpID name j st D :
  uniPortNameFormat name = true -> room st (j :: D) ->
  yields (CreateTechProfileInstance kv_fault technology managers templates m tpID name j) st
    (fun r st' => exists inst, r = (Some inst, None) /\ tp_ok inst /\ room st' D).
Proof.
  intros Hname Hr. unfold CreateTechProfileInstance. cbv zeta. rewrite Hname. cbn [negb].
  apply yields_assoc, yields_bind. eapply yields_mono; [by apply (yields_template m tpID st (j :: D))|].
  intros tp st1 [Ht Hr1]. apply yields_bind. eexists tt, _. split; [done|].
  apply yields_bind. eapply yields_mono; [apply (yields_allocate _ _ _ _ _ _ D Ht)|].
  { destruct Hr1 as [R1 R2 R3 R4 R5]. split; try done. by apply map_Forall_insert_2. }
  intros o st2 (inst & -> & Hok & Hr2). apply yields_bind. eexists tt, _. split; [done|].
  apply yields_bind, yields_deref; [apply Hok|]. intros us _. apply yields_bind.
  eexists None, _. split; [unfold addResourceInstanceToKVStore; by rewrite no_faults|].
  apply yields_ret. exists inst. split_and!; [done..|].
  destruct Hr2 as [R1 R2 R3 R4 R5]. split; try done. by apply map_Forall_insert_2.
Qed.

End stock.

(** ** The library as a supplier *)

Section supplier.
Variable answers : list Request -> Request -> Code * string.
Variables rand clocks : nat -> Z.
Variable kv_fault : nat -> option (GoError * bool).
Variable technology : string.
Variable managers : nat -> PoolManager.
Variable templates : nat -> Z -> option TechProfile.
Variable gems : nat.

Hypothesis same_pools : forall m m' j t, GetPath (managers m) j t = GetPath (managers m') j t.
Hypothesis no_faults : forall n, kv_fault n = None.
Hypothesis templates_ok : forall n tpID tp, templates n tpID = Some tp -> template_ok gems tp.
Hypothesis gems_pos : (0 < gems)%nat.

Lemma used_nonneg r id : used r id -> 0 <= id.
Proof. intros (k & _ & _ & ->). apply u32_range. Qed.

Definition library_supplier : Supplier (H := library answers rand clocks kv_fault technology managers templates).
Proof.
  refine (Build_Supplier (library answers rand clocks kv_fault technology managers templates)
    (room managers gems) (fun id => 0 <= id) _ _ _).
  - intros st D D'. apply room_sub.
  - intros m j st ids err st' D Hr Hg. cbn [tp_GetResourceID library] in Hg.
    pose proof (GetResourceID_outcome kv_fault managers same_pools m j ONU_ID 1 _ (rm_store _ _ _ _ Hr)) as Ho.
    destruct (TechProfileMgr_GetResourceID _ _ _ _ _ _) as [[ids' err'] kv']. injection Hg as <- <- <-.
    destruct Ho as (Hok & _ & Hk & Hid). split; [by apply (room_kept _ _ st); [|apply Hk|apply Hk|..]|].
    intros He. destruct (Hid He) as (_ & Hl & P & r & r' & _ & _ & _ & Ht). split; [by intros ->|].
    apply Forall_forall. intros id Hin. apply (used_nonneg r'), (tk_used _ _ _ Ht). by left.
  - intros m tpID j onu uni st D Hr Hj Ho Hu.
    destruct (yields_create kv_fault technology managers templates gems same_pools no_faults templates_ok gems_pos
      m tpID (uniPortName j onu uni) j st D (uniPortName_ok _ _ _ Hj Ho Hu) Hr) as (? & st' & He & inst & -> & Hok & Hr').
    by exists inst, st'.
Defined.

End supplier.

(** ** Properties *)

(** C3. The whole program on the library: from the start of [main], with a store
    that works, templates that are complete and pools with room for the instances
    of the run, when the services can be set up with a manager for every PON and
    the agent activates every ONU, every execution that no signal disturbs ends,
    with status 0 or, when [main] is slower than [Start], by the default action of
    SIGINT.  The pools may be those of any device and shared between PONs. *)
Theorem library_process_ends `{BootEnv} (answers : list Request -> Request -> Code * string)
    (rand clocks : nat -> Z) (kv_fault : nat -> option (GoError * bool)) (technology : string)
    (managers : nat -> PoolManager) (templates : nat -> Z -> option TechInstance.TechProfile) (gems : nat)
    (profiles : ext -> LibState) (arguments ignored : list string) (cf : OpenOltScaleTesterConfig)
    (services e' : ext) (s : Started) (cs : list BootCall) :
  (forall m m' j t, GetPath (managers m) j t = GetPath (managers m') j t) ->
  (forall n, kv_fault n = None) ->
  (forall n tpID tp, templates n tpID = Some tp -> template_ok gems tp) -> (0 < gems)%nat ->
  main_config arguments = ParsedArgs cf ignored ->
  start_services (OpenOltAgentAddress cf) cf services = (Continues (inr s), cs, e') ->
  Forall is_Some (st_rsrMgr s) -> (forall tr onu, (answers tr (RpcActivateOnu onu)).1 = OK) ->
  run_ok cf (st_deviceInfo s) ->
  room managers gems (profiles e') (instances_due cf (st_deviceInfo s)) ->
  inevitable (pstep (H0 := library answers rand clocks kv_fault technology managers templates)
      loggers_ok profiles arguments services None)
    (fun st => st = Ended (Exited 0) \/ st = Ended (KilledBy SIGINT)) initial_process.
Proof.
  intros Hp Hf Ht Hg. apply (process_completes
    (H1 := library_supplier answers rand clocks kv_fault technology managers templates gems Hp Hf Ht Hg)).
Qed.

(** Two ONUs of one PON with two subscribers each, on pools of 16 ids. *)
Lemma sample_template_ok : template_ok 2 (sample_template "multi-instance").
Proof. split; try (by eexists); try (cbn; lia). right. vm_compute. discriminate. Qed.

Lemma stocked_one t each kv D P r :
  GetPath sample_manager 0 t = Some P -> Forall (fun j => j = 0) D -> kv_data kv !! P = Some r ->
  (each * length D <= free r)%nat -> stocked (fun _ => sample_manager) t each kv D.
Proof.
  intros HP HD Hr Hf j P' Hj HP'. rewrite Forall_forall in HD. rewrite (HD j Hj) in HP'.
  assert (P' = P) as -> by congruence. exists r. split; [done|]. pose proof (length_filter
    (fun j => GetPath sample_manager j t = Some P) D). unfold demand_at. nia.
Qed.

Lemma sample_room : room (fun _ => sample_manager) 2 sample_lib [0; 0; 0; 0].
Proof.
  split; [apply sample_store_ok|..]; try apply map_Forall_empty.
  - eapply stocked_one; [vm_compute; reflexivity|by repeat constructor|vm_compute; reflexivity|].
    apply Nat.leb_le. vm_compute. reflexivity.
  - eapply stocked_one; [vm_compute; reflexivity|by repeat constructor|vm_compute; reflexivity|].
    apply Nat.leb_le. vm_compute. reflexivity.
Qed.

Lemma library_process_ends_witness :
  inevitable
    (pstep (H := sample_services (sample_olt 1)) (H0 := library_env) loggers_ok
       (fun _ => sample_lib) (sample_args "ATT" "2" "2") tt None)
    (fun st => st = Ended (Exited 0) \/ st = Ended (KilledBy SIGINT)) initial_process.
Proof.
  assert (main_config (sample_args "ATT" "2" "2") = ParsedArgs (sample_config "ATT" 2 2) []) as Ha
    by (vm_compute; reflexivity).
  assert (start_services (H := sample_services (sample_olt 1))
    (OpenOltAgentAddress (sample_config "ATT" 2 2)) (sample_config "ATT" 2 2) tt
    = (Continues (inr _), _, tt)) as Hs by (vm_compute; reflexivity).
  apply (library_process_ends (H := sample_services (sample_olt 1)) accepting (fun n => Z.of_nat n)
    (fun n => Z.of_nat n) no_fault "XGS-PON" (fun _ => sample_manager)
    (fun _ _ => Some (sample_template "multi-instance")) 2 (fun _ => sample_lib) _ _ _ _ _ _ _
    (fun _ _ _ _ => eq_refl) (fun _ => eq_refl)
    (fun n tpID tp Htp => match Htp in _ = o return match o with Some tp => template_ok 2 tp | None => True end with
                          | eq_refl => sample_template_ok end) Nat.lt_0_2 Ha Hs).
  - repeat constructor; by eexists.
  - done.
  - split; [split; [done|]|done|done|].
    + apply elem_of_cons; by left.
    + intros per [= <-]. by vm_compute.
  - exact sample_room.
Defined.
